(** * Sweeper: the Minesweeper of [sweeper.py] and [main.py]

    A shallow embedding of the class [Game] of [src/sweeper.py] and the
    properties of its board model, mine placement, flood-fill reveal and
    win/loss state machine; and of the window of [src/main.py], with its
    displays, its field of buttons and the handlers of its events.

    Modelling choices.
    - Coordinates and sizes are Python integers, here [Z]; a point is a pair.
    - The three sets of the object ([mine_points], [flagged_points],
      [questioned_points]) are [gset]s.  The order in which Python iterates
      over a set is left open: it is the section variable [set_iter], only
      known to enumerate the elements of the set.
    - [random.Random] is outside the repository: it is the section variable
      [randint] over an abstract generator state, with the contract of
      [random.randint] as section hypotheses where a proof needs it.
    - Methods mutate the object and may raise.  They are computations in a
      state-and-exception monad [M]; the state reached when an exception
      escapes is kept, as the Python object keeps it.
    - The [while] loop of [open] is a fixpoint on a number of rounds,
      started by [open] with [flood_bound], which no run of the loop
      exceeds ([flood_fill_terminates]).
    - [print] calls are dropped.
    - The widgets of the window are records of what the program stores in
      them and sets on them: the bitmaps of a button, the characters of a
      display, whether the timer runs.  Bitmaps are an abstract type; the
      image files are functions from the places of a strip to the images
      cut out there.  Sizers, layout, painting ([draw_border], the paint
      handlers) and the display of the time, which follows the wall clock,
      are left out.
    - The methods of the window are computations in the monad [W] over the
      record of their object; a method of a component runs under [zoom].
    - [Game] defines no equality, so that [Minefield.update] compares its
      argument with [_last_game] by identity: a [Game] object is identified
      by the number of objects made before it ([games_made]).
    - The generator that [random.Random(None)] seeds from the system is an
      argument of [init_new_game] and of the handlers that call it. *)

From Stdlib Require Import ZArith List Lia Bool Ascii String.
From stdpp Require Import base decidable countable gmap sets list strings pretty.

#[local] Set Warnings "-clear-no-such-hyp".

Local Open Scope Z_scope.

Module Sweeper.

(** ** Python values *)

Definition point : Type := (Z * Z)%type.

(** [len(s)] for a set. *)
Definition set_len (s : gset point) : Z := Z.of_nat (size s).

(** [range(n)] and [range(a, b)]. *)
Definition range (n : Z) : list Z := seqZ 0 n.
Definition range2 (a b : Z) : list Z := seqZ a (b - a).

(** Position addressed by a Python list index: negative indices count from
    the end, anything outside [-len, len) is an [IndexError] ([None]). *)
Definition py_index {A} (l : list A) (i : Z) : option nat :=
  let n := Z.of_nat (length l) in
  if (0 <=? i) && (i <? n) then Some (Z.to_nat i)
  else if (- n <=? i) && (i <? 0) then Some (Z.to_nat (n + i))
  else None.

(** [l[i]] *)
Definition getitem {A} (l : list A) (i : Z) : option A :=
  match py_index l i with
  | Some k => l !! k
  | None => None
  end.

(** [l[i] = v] *)
Definition setitem {A} (l : list A) (i : Z) (v : A) : option (list A) :=
  match py_index l i with
  | Some k => Some (<[k := v]> l)
  | None => None
  end.

(** [l.pop(i)]: the removed element and the remaining list. *)
Definition pop {A} (l : list A) (i : Z) : option (A * list A) :=
  match py_index l i with
  | Some k =>
      match l !! k with
      | Some v => Some (v, take k l ++ drop (S k) l)
      | None => None
      end
  | None => None
  end.

(** [sum(...)] over integers; a Python [bool] counts as 0 or 1. *)
Definition list_sum_Z (l : list Z) : Z := foldr Z.add 0 l.

(** ** Enumerations and exceptions *)

Inductive GameState := idle | playing | won | lost.

Inductive exn :=
| ValueError
| IndexError
| AssertionError
| LoopBound.
(** [LoopBound] is not a Python exception: it marks the exhaustion of the
    unrolling bound of the flood-fill [while] loop, and
    [flood_fill_terminates] shows that [open] never produces it. *)

#[global] Instance GameState_eq_dec : EqDecision GameState.
Proof. solve_decision. Defined.

#[global] Instance exn_eq_dec : EqDecision exn.
Proof. solve_decision. Defined.

Definition DEBUG_BOARD : bool := false.

Definition debug_mine_points : gset point :=
  list_to_set
    [ (0, 3); (2, 3); (6, 4); (6, 4); (8, 4); (6, 6);
      (3, 5); (4, 5); (2, 6); (3, 7); (2, 8) ].

Section Engine.

Context {RNG : Type}.

(** [self.random.randint(a, b)]: the drawn integer and the next generator
    state, or [None] for the [ValueError] of an empty range. *)
Variable randint : RNG -> Z -> Z -> option (Z * RNG).

(** Iteration order of [for point in <set>]. *)
Variable set_iter : gset point -> list point.

Record Game := mkGame {
  random : RNG;
  size : Z * Z;
  mine_count : Z;
  state : GameState;
  mine_points : gset point;
  questioned_points : gset point;
  flagged_points : gset point;
  last_click : option point;
  _cell_opened_grid : list (list bool)
}.

Definition set_random (r : RNG) (g : Game) : Game :=
  mkGame r (size g) (mine_count g) (state g) (mine_points g)
    (questioned_points g) (flagged_points g) (last_click g) (_cell_opened_grid g).
Definition set_state (s : GameState) (g : Game) : Game :=
  mkGame (random g) (size g) (mine_count g) s (mine_points g)
    (questioned_points g) (flagged_points g) (last_click g) (_cell_opened_grid g).
Definition set_mine_points (s : gset point) (g : Game) : Game :=
  mkGame (random g) (size g) (mine_count g) (state g) s
    (questioned_points g) (flagged_points g) (last_click g) (_cell_opened_grid g).
Definition set_questioned_points (s : gset point) (g : Game) : Game :=
  mkGame (random g) (size g) (mine_count g) (state g) (mine_points g)
    s (flagged_points g) (last_click g) (_cell_opened_grid g).
Definition set_flagged_points (s : gset point) (g : Game) : Game :=
  mkGame (random g) (size g) (mine_count g) (state g) (mine_points g)
    (questioned_points g) s (last_click g) (_cell_opened_grid g).
Definition set_last_click (c : option point) (g : Game) : Game :=
  mkGame (random g) (size g) (mine_count g) (state g) (mine_points g)
    (questioned_points g) (flagged_points g) c (_cell_opened_grid g).
Definition set_grid (gr : list (list bool)) (g : Game) : Game :=
  mkGame (random g) (size g) (mine_count g) (state g) (mine_points g)
    (questioned_points g) (flagged_points g) (last_click g) gr.

(** ** The monad of methods: state [Game], exceptions [exn] *)

Inductive res (A : Type) :=
| Ok (a : A)
| Raise (e : exn).
#[global] Arguments Ok {A} a.
#[global] Arguments Raise {A} e.

Definition M (A : Type) : Type := Game -> res A * Game.

Definition ret {A} (a : A) : M A := fun g => (Ok a, g).
Definition raise {A} (e : exn) : M A := fun g => (Raise e, g).
Definition bind {A B} (m : M A) (f : A -> M B) : M B :=
  fun g => match m g with
           | (Ok a, g') => f a g'
           | (Raise e, g') => (Raise e, g')
           end.
Definition get : M Game := fun g => (Ok g, g).
Definition modify (f : Game -> Game) : M unit := fun g => (Ok tt, f g).

(** [for x in l: body(x)] *)
Fixpoint for_each {A} (l : list A) (body : A -> M unit) : M unit :=
  match l with
  | [] => ret tt
  | x :: l' => bind (body x) (fun _ => for_each l' body)
  end.

Notation "'let!' x ':=' m 'in' k" := (bind m (fun x => k))
  (at level 10, x name, m at level 100, k at level 200).
Notation "m '>>' k" := (bind m (fun _ => k))
  (at level 100, right associativity).

(** ** The class [Game] *)

(** [Game.__init__]: the grid has [size[1]] rows of [size[0]] entries. *)
Definition new_game (sz : Z * Z) (mines : Z) (r : RNG) : Game :=
  {| random := r;
     size := sz;
     mine_count := mines;
     state := idle;
     mine_points := ∅;
     questioned_points := ∅;
     flagged_points := ∅;
     last_click := None;
     _cell_opened_grid :=
       map (fun _ => replicate (Z.to_nat (fst sz)) false) (range (snd sz)) |}.

Definition is_flagged (p : point) (g : Game) : bool :=
  bool_decide (p ∈ flagged_points g).

Definition get_flagged_points (g : Game) : list point :=
  set_iter (flagged_points g).

Definition is_questioned (p : point) (g : Game) : bool :=
  bool_decide (p ∈ questioned_points g).

Definition is_mine (p : point) (g : Game) : bool :=
  bool_decide (p ∈ mine_points g).

(** [self._cell_opened_grid[point[0]][point[1]]] *)
Definition is_opened (p : point) : M bool :=
  fun g =>
    match getitem (_cell_opened_grid g) (fst p) with
    | Some row =>
        match getitem row (snd p) with
        | Some b => (Ok b, g)
        | None => (Raise IndexError, g)
        end
    | None => (Raise IndexError, g)
    end.

(** [self._cell_opened_grid[point[0]][point[1]] = True]: the row object is
    fetched, then updated in place. *)
Definition _set_opened (p : point) : M unit :=
  fun g =>
    match py_index (_cell_opened_grid g) (fst p) with
    | Some i =>
        match _cell_opened_grid g !! i with
        | Some row =>
            match setitem row (snd p) true with
            | Some row' => (Ok tt, set_grid (<[i := row']> (_cell_opened_grid g)) g)
            | None => (Raise IndexError, g)
            end
        | None => (Raise IndexError, g)
        end
    | None => (Raise IndexError, g)
    end.

Definition in_range (p : point) (g : Game) : bool :=
  ((0 <=? fst p) && (fst p <? fst (size g)))
  && ((0 <=? snd p) && (snd p <? snd (size g))).

(** [(x, y) for x in range(size[0]) for y in range(size[1])] *)
Definition all_points (sz : Z * Z) : list point :=
  x ← range (fst sz); y ← range (snd sz); [(x, y)].

Definition flag (p : point) : M unit :=
  let! opened := is_opened p in
  if opened then ret tt
  else
    modify (fun g => set_flagged_points ({[p]} ∪ flagged_points g) g) >>
    modify (fun g => set_questioned_points (questioned_points g ∖ {[p]}) g).

Definition unflag (p : point) : M unit :=
  modify (fun g => set_questioned_points (questioned_points g ∖ {[p]}) g) >>
  modify (fun g => set_flagged_points (flagged_points g ∖ {[p]}) g).

Definition question (p : point) : M unit :=
  modify (fun g => set_questioned_points ({[p]} ∪ questioned_points g) g) >>
  modify (fun g => set_flagged_points (flagged_points g ∖ {[p]}) g).

Definition unquestion (p : point) : M unit :=
  modify (fun g => set_questioned_points (questioned_points g ∖ {[p]}) g) >>
  modify (fun g => set_flagged_points (flagged_points g ∖ {[p]}) g).

(** The [for] loop of [is_won]: [false] when it returns early on a point
    that is not opened, [true] when it runs to its end. *)
Fixpoint all_opened_loop (pts : list point) : M bool :=
  match pts with
  | [] => ret true
  | p :: pts' =>
      let! opened := is_opened p in
      if opened then all_opened_loop pts' else ret false
  end.

Definition is_won : M bool :=
  let! g := get in
  match state g with
  | won => ret true
  | lost => ret false
  | _ =>
      let non_mine_points : gset point :=
        list_to_set (all_points (size g)) ∖ mine_points g in
      let! every := all_opened_loop (set_iter non_mine_points) in
      if every then modify (set_state won) >> ret true
      else ret false
  end.

Definition _flag_all_mines : M unit :=
  let! g := get in
  for_each (set_iter (mine_points g)) flag.

(** The sampling loop of [generate_board], [n] rounds over the local list
    [possible_points]; it returns what is left of the list. *)
Fixpoint place_mines (n : nat) (possible_points : list point) : M (list point) :=
  match n with
  | O => ret possible_points
  | S n' =>
      let! g := get in
      match randint (random g) 0 (Z.of_nat (length possible_points) - 1) with
      | None => raise ValueError
      | Some (point_index, r') =>
          modify (set_random r') >>
          match getitem possible_points point_index with
          | None => raise IndexError
          | Some p =>
              match pop possible_points point_index with
              | None => raise IndexError
              | Some (_, rest) =>
                  modify (fun g => set_mine_points ({[p]} ∪ mine_points g) g) >>
                  place_mines n' rest
              end
          end
      end
  end.

(** The filter of the comprehension of [generate_board]:
    [(disallowed_points is None) or ((x, y) not in disallowed_points)]. *)
Definition allowed (disallowed_points : option (list point)) (p : point) : bool :=
  match disallowed_points with
  | None => true
  | Some d => bool_decide (p ∉ d)
  end.

(** [disallowed_points] defaults to [None]. *)
Definition generate_board (disallowed_points : option (list point)) : M unit :=
  let! g := get in
  let possible_points :=
    filter (fun p => allowed disallowed_points p) (all_points (size g)) in
  modify (set_mine_points ∅) >>
  let! possible_points := place_mines (Z.to_nat (mine_count g)) possible_points in
  let! g := get in
  if negb (Z.of_nat (length possible_points) + set_len (mine_points g)
           =? fst (size g) * snd (size g)
              - match disallowed_points with
                | Some ((_ :: _) as d) => Z.of_nat (length d)
                | _ => 0
                end)
  then raise AssertionError
  else
    (if DEBUG_BOARD then modify (set_mine_points debug_mine_points) else ret tt) >>
    modify (set_state playing) >>
    modify (set_last_click None).

Definition proximity_count (p : point) (g : Game) : Z :=
  if is_mine p g then -1
  else
    list_sum_Z
      (x ← range2 (fst p - 1) (fst p + 2);
       y ← range2 (snd p - 1) (snd p + 2);
       [if in_range (x, y) g then Z.b2z (is_mine (x, y) g) else Z.b2z false]).

(** The eight candidate neighbours built by the nested offset loops. *)
Definition new_points (p : point) : list point :=
  x_off ← [-1; 0; 1];
  y_off ← [-1; 0; 1];
  if (x_off =? 0) && (y_off =? 0) then [] else [(fst p + x_off, snd p + y_off)].

(** The [while len(stack) > 0] loop of [open].  [stack.pop(0)] takes the
    head; one unit of [fuel] is spent per round. *)
Fixpoint flood_fill (fuel : nat) (stack : list point) : M unit :=
  match stack with
  | [] => ret tt
  | p :: stack =>
      match fuel with
      | O => raise LoopBound
      | S fuel =>
          let! opened := is_opened p in
          if opened then flood_fill fuel stack
          else
            let! g := get in
            let inside := negb (is_mine p g) && negb (is_flagged p g) in
            (if inside then _set_opened p else ret tt) >>
            let! g := get in
            let stack :=
              if inside && (proximity_count p g =? 0)
              then stack ++ filter (fun q => in_range q g) (new_points p)
              else stack in
            let! w := is_won in
            (if w then _flag_all_mines else ret tt) >>
            flood_fill fuel stack
      end
  end.

(** Number of [False] entries of the grid. *)
Definition closed_cells (g : Game) : nat :=
  length (filter negb (concat (_cell_opened_grid g))).

(** A number of rounds that the loop started on [stack] cannot exceed: a
    round either opens a closed cell and appends at most eight points, or
    only shortens the stack. *)
Definition flood_bound (g : Game) (stack : list point) : nat :=
  (9 * closed_cells g + length stack)%nat.

Definition open (p : point) : M unit :=
  let! g := get in
  if negb (bool_decide (state g = playing)) then raise ValueError
  else
    modify (set_last_click (Some p)) >>
    let! opened := is_opened p in
    if opened then ret tt
    else
      let! g := get in
      if is_flagged p g then ret tt
      else
        let start_point := p in
        if is_mine start_point g then modify (set_state lost)
        else flood_fill (flood_bound g [start_point]) [start_point].

End Engine.

Notation "'let!' x ':=' m 'in' k" := (bind m (fun x => k))
  (at level 10, x name, m at level 100, k at level 200).
Notation "m '>>' k" := (bind m (fun _ => k))
  (at level 100, right associativity).

(** A concrete generator and iteration order, to run the engine: the
    generator state is a counter [s] and [randint a b] is [a + s mod (b-a+1)];
    sets are iterated in the order of [elements]. *)
Definition counter_randint (s : Z) (a b : Z) : option (Z * Z) :=
  if b <? a then None else Some (a + s mod (b - a + 1), s + 1).

Definition elements_iter (s : gset point) : list point := elements s.

(** ** Specification-side notions *)

Section Notions.

Context {RNG : Type}.
Abbreviation Game := (@Game RNG).

(** The grid as [__init__] allocates it and every method keeps it:
    [size[1]] rows of [size[0]] entries. *)
Definition grid_shape (g : Game) : Prop :=
  length (_cell_opened_grid g) = Z.to_nat (snd (size g))
  /\ Forall (fun row : list bool => length row = Z.to_nat (fst (size g)))
            (_cell_opened_grid g).

(** The eight neighbours of a point, written out. *)
Definition neighbours (p : point) : list point :=
  let '(x, y) := p in
  [ (x - 1, y - 1); (x - 1, y); (x - 1, y + 1);
    (x, y - 1); (x, y + 1);
    (x + 1, y - 1); (x + 1, y); (x + 1, y + 1) ].

(** Number of mines among the in-bounds neighbours of [p]. *)
Definition mine_neighbours (p : point) (g : Game) : Z :=
  Z.of_nat (length (filter (fun q => in_range q g && is_mine q g)
                                (neighbours p))).

(** The board put back to what [__init__] leaves in the fields that
    [generate_board] overwrites. *)
Definition fresh (g : Game) : Game :=
  set_last_click None (set_mine_points ∅ (set_state idle g)).

(** No excluded point was passed: [None] or the empty list. *)
Definition no_disallowed (d : option (list point)) : Prop :=
  d = None \/ d = Some [].

(** The opened grid, the mines and the state are those of [g]. *)
Definition untouched (g g' : Game) : Prop :=
  _cell_opened_grid g' = _cell_opened_grid g
  /\ mine_points g' = mine_points g
  /\ state g' = state g.

(** The grid entry of a point with non-negative coordinates ([false] when
    there is none). *)
Definition opened (p : point) (g : Game) : bool :=
  match _cell_opened_grid g !! Z.to_nat (fst p) with
  | Some row => default false (row !! Z.to_nat (snd p))
  | None => false
  end.

(** Boards on which [grid[x][y]] is defined for every in-bounds [(x, y)]:
    the allocated shape, and as many columns as rows. *)
Definition square (g : Game) : Prop :=
  grid_shape g /\ fst (size g) = snd (size g).

(** Every mine lies on the board. *)
Definition mines_in_range (g : Game) : Prop :=
  forall m, m ∈ mine_points g -> in_range m g = true.

(** Every cell that is not a mine is opened. *)
Definition cleared (g : Game) : Prop :=
  forall q, in_range q g = true -> q ∉ mine_points g -> opened q g = true.

Definition clearedb (g : Game) : bool :=
  forallb (fun q => is_mine q g || opened q g) (all_points (size g)).

(** The grid with the entry of [q] set. *)
Definition mark (q : point) (g : Game) : Game :=
  match _cell_opened_grid g !! Z.to_nat (fst q) with
  | Some row =>
      set_grid (<[Z.to_nat (fst q) := <[Z.to_nat (snd q) := true]> row]>
                  (_cell_opened_grid g)) g
  | None => g
  end.

(** The mines that are not marked opened, and the board once each of them
    went through [flag]. *)
Definition closed_mines (g : Game) : gset point :=
  filter (fun m => opened m g = false) (mine_points g).

Definition flag_all (g : Game) : Game :=
  set_questioned_points (questioned_points g ∖ closed_mines g)
    (set_flagged_points (closed_mines g ∪ flagged_points g) g).

(** The board after [if self.is_won(): self._flag_all_mines()]. *)
Definition settle (g : Game) : Game :=
  match state g with
  | won => flag_all g
  | lost => g
  | _ => if clearedb g then flag_all (set_state won g) else g
  end.

(** *** The region that [open] reveals *)

(** A cell that the flood fill started on [g] may open: closed so far, not
    a mine, not flagged. *)
Definition openable (g : Game) (q : point) : Prop :=
  opened q g = false /\ (q ∉ mine_points g) /\ (q ∉ flagged_points g).

(** The points that enter the worklist of [open p] on [g]: [p], and the
    in-bounds neighbours of every openable zero-proximity cell that entered
    it. *)
Inductive visited (g : Game) (p : point) : point -> Prop :=
| visited_start : visited g p p
| visited_next (z q : point) :
    visited g p z -> openable g z -> proximity_count z g = 0 ->
    q ∈ neighbours z -> in_range q g = true ->
    visited g p q.

Definition revealed (g : Game) (p q : point) : Prop :=
  visited g p q /\ openable g q.

(** The region as the specification words it: [p], and the in-bounds
    neighbours of every unflagged zero-proximity cell of the region; the
    cells of it that are neither mines nor flagged are to be opened. *)
Inductive zero_region (g : Game) (p : point) : point -> Prop :=
| zero_region_start : zero_region g p p
| zero_region_next (z q : point) :
    zero_region g p z -> z ∉ flagged_points g -> proximity_count z g = 0 ->
    q ∈ neighbours z -> in_range q g = true ->
    zero_region g p q.

(** [lifts R m]: whatever [m] does, returning or raising, the state it
    leaves is related by [R] to the state it started from. *)
Definition lifts {A} (R : Game -> Game -> Prop) (m : M A) : Prop :=
  forall g, R g (snd (m g)).

(** Methods that only touch the marks and the state keep the grid, the
    size and the mines. *)
Definition same_cells (g g' : Game) : Prop :=
  _cell_opened_grid g' = _cell_opened_grid g
  /\ size g' = size g
  /\ mine_points g' = mine_points g.

(** [m] never reports an exhausted loop bound. *)
Definition no_loop_bound {A} (m : @M RNG A) : Prop :=
  forall g, fst (m g) <> Raise LoopBound.

End Notions.

(** ** Sequences of calls *)

Section Runs.

Context {RNG : Type}.
Abbreviation Game := (@Game RNG).
Variable randint : RNG -> Z -> Z -> option (Z * RNG).
Variable set_iter : gset point -> list point.

(** The sampling loop as a function of the generator alone: outcome, points
    drawn so far (latest first) and final generator state. *)
Fixpoint sample (n : nat) (possible_points : list point) (r : RNG)
  : res (list point) * list point * RNG :=
  match n with
  | O => (Ok possible_points, [], r)
  | S n' =>
      match randint r 0 (Z.of_nat (length possible_points) - 1) with
      | None => (Raise ValueError, [], r)
      | Some (point_index, r') =>
          match pop possible_points point_index with
          | None => (Raise IndexError, [], r')
          | Some (p, rest) =>
              let '(o, picked, r'') := sample n' rest r' in
              (o, picked ++ [p], r'')
          end
      end
  end.

(** The methods that change the object: the mutators that the presentation
    layer calls, and [is_won], which records a win in [state]. *)
Inductive operation :=
| Open (p : point)
| Flag (p : point)
| Unflag (p : point)
| Question (p : point)
| Unquestion (p : point)
| Generate (disallowed_points : option (list point))
| IsWon.

Definition perform (o : operation) : M (RNG:=RNG) unit :=
  match o with
  | Open p => open set_iter p
  | Flag p => flag p
  | Unflag p => unflag p
  | Question p => question p
  | Unquestion p => unquestion p
  | Generate d => generate_board randint d
  | IsWon => let! _ := is_won set_iter in ret tt
  end.

(** The point passed to a mutator is a cell of the board. *)
Definition on_board (o : operation) (g : Game) : Prop :=
  match o with
  | Open p | Flag p | Unflag p | Question p | Unquestion p => in_range p g = true
  | Generate _ | IsWon => True
  end.

(** Boards reached from [g0] by calls on cells of the board; the board left
    by a call that raised counts as reached. *)
Inductive reachable (g0 : Game) : Game -> Prop :=
| reachable_init : reachable g0 g0
| reachable_step (g : Game) (o : operation) :
    reachable g0 g -> on_board o g -> reachable g0 (snd (perform o g)).

(** A list of calls in a row, and the condition that each is on the board
    it is applied to. *)
Fixpoint run (ops : list operation) (g : Game) : Game :=
  match ops with
  | [] => g
  | o :: ops' => run ops' (snd (perform o g))
  end.

Fixpoint run_on_board (ops : list operation) (g : Game) : Prop :=
  match ops with
  | [] => True
  | o :: ops' => on_board o g /\ run_on_board ops' (snd (perform o g))
  end.

(** A call of the game proper: any mutator but [generate_board], on a cell
    of the board. *)
Definition move (o : operation) (g : Game) : Prop :=
  match o with
  | Open p | Flag p | Unflag p | Question p | Unquestion p => in_range p g = true
  | Generate _ => False
  | IsWon => True
  end.

(** Boards of a game: [g0] is generated once, successfully, and then
    played on. *)
Inductive in_game (g0 : Game) : Game -> Prop :=
| in_game_generated (d : option (list point)) (g : Game) :
    generate_board randint d g0 = (Ok tt, g) -> in_game g0 g
| in_game_step (g : Game) (o : operation) :
    in_game g0 g -> move o g -> in_game g0 (snd (perform o g)).

(** What holds of the cells on every board of a game. *)
Definition game_ok (g : Game) : Prop :=
  square g
  /\ mines_in_range g
  /\ (forall m, m ∈ mine_points g -> opened m g = false)
  /\ (state g = won -> cleared g).

(** What holds of the marks on every reached board. *)
Definition marks_ok (g : Game) : Prop :=
  square g
  /\ mines_in_range g
  /\ (forall q, q ∈ flagged_points g -> in_range q g = true /\ opened q g = false)
  /\ (forall q, q ∈ questioned_points g -> in_range q g = true)
  /\ flagged_points g ## questioned_points g.

(** What holds of the marks on every reached board, whatever its shape:
    the mines and the marks are cells of the board, [is_opened] answers
    [False] on every flagged cell, and no cell has both marks. *)
Definition marks_sound (g : Game) : Prop :=
  mines_in_range g
  /\ (forall q, q ∈ flagged_points g ->
        in_range q g = true /\ fst (is_opened q g) = Ok false)
  /\ (forall q, q ∈ questioned_points g -> in_range q g = true)
  /\ flagged_points g ## questioned_points g.

End Runs.

(** ** The loop invariant of the flood fill *)

Section FloodInvariant.

Context {RNG : Type}.
Abbreviation Game := (@Game RNG).

(** [g0] is the board when [open p] is called. *)
Variable g0 : Game.
Variable p : point.

(** Points appended to the worklist so far. *)
Definition pushed (g : Game) (q : point) : Prop :=
  q = p
  \/ exists z, revealed g0 p z /\ proximity_count z g0 = 0
               /\ opened z g = true /\ q ∈ neighbours z /\ in_range q g0 = true.

Record flood_pre (g : Game) (stack : list point) : Prop := {
  fi_square : square g;
  fi_size : size g = size g0;
  fi_mines : mine_points g = mine_points g0;
  fi_flag_lo : flagged_points g0 ⊆ flagged_points g;
  fi_flag_hi : flagged_points g ⊆ flagged_points g0 ∪ mine_points g0;
  fi_mono : forall q, in_range q g0 = true ->
            opened q g0 = true -> opened q g = true;
  fi_sound : forall q, in_range q g0 = true ->
             opened q g = true -> opened q g0 = true \/ revealed g0 p q;
  fi_stack : forall q, q ∈ stack -> in_range q g0 = true /\ visited g0 p q;
  fi_pending : forall q, pushed g q ->
               q ∉ mine_points g0 -> q ∉ flagged_points g0 ->
               opened q g = true \/ q ∈ stack;
  fi_state : state g = playing \/ state g = won;
  fi_won : state g = won -> cleared g
}.

(** Between two rounds the state is [won] as soon as the board is cleared,
    and then every closed mine carries a flag. *)
Definition flood_inv (g : Game) (stack : list point) : Prop :=
  flood_pre g stack
  /\ (cleared g -> state g = won)
  /\ (state g = won -> closed_mines g ⊆ flagged_points g).

End FloodInvariant.

(** ** Relations between the board before and after a call *)

Section Relations.

Context {RNG : Type}.
Abbreviation Game := (@Game RNG).

(** The entry of the grid at row [i], position [j], when there is one. *)
Definition entry (g : Game) (i j : nat) : option bool :=
  row ← _cell_opened_grid g !! i; row !! j.

(** What every method keeps: the size, the number of mines, the lengths of
    the rows of the grid, and the entries that are [True]. *)
Definition grows (g g' : Game) : Prop :=
  size g' = size g
  /\ mine_count g' = mine_count g
  /\ length <$> _cell_opened_grid g' = length <$> _cell_opened_grid g
  /\ (forall i j, entry g i j = Some true -> entry g' i j = Some true).

(** The state after a step of the flood fill: as before, or [won] when it
    was not [lost]. *)
Definition state_step (g g' : Game) : Prop :=
  state g' = state g \/ (state g <> lost /\ state g' = won).

(** What a click keeps of the mines and the marks: the generator and the
    mines stay, flags are only added, and only on mines, question marks are
    only removed, and only from mines. *)
Definition floods (g g' : Game) : Prop :=
  random g' = random g
  /\ mine_points g' = mine_points g
  /\ flagged_points g ⊆ flagged_points g'
  /\ flagged_points g' ⊆ flagged_points g ∪ mine_points g
  /\ questioned_points g' ⊆ questioned_points g
  /\ questioned_points g ∖ mine_points g ⊆ questioned_points g'.

(** A list of excluded points that [generate_board] accepts: no point
    twice, and cells of the board only. *)
Definition well_listed (d : option (list point)) (g : Game) : Prop :=
  match d with
  | None => True
  | Some l => NoDup l /\ forall p, p ∈ l -> in_range p g = true
  end.

End Relations.

(** ** The window of [main.py] *)

Inductive SmileFace := COOL | SAD | SURPRISED | HAPPY.

#[global] Instance SmileFace_eq_dec : EqDecision SmileFace.
Proof. solve_decision. Defined.

(** What a handler of the window can raise: an exception of the engine or
    of a built-in, or the [AttributeError] of a method called on [None]. *)
Inductive error :=
| Exn (e : exn)
| AttributeError.

Inductive outcome (A : Type) :=
| Done (a : A)
| Fail (e : error).
#[global] Arguments Done {A} a.
#[global] Arguments Fail {A} e.

(** Methods of an object with state [S]. *)
Definition W (S A : Type) : Type := S -> outcome A * S.

Definition wret {S A} (a : A) : W S A := fun s => (Done a, s).
Definition wraise {S A} (e : error) : W S A := fun s => (Fail e, s).
Definition wbind {S A B} (m : W S A) (f : A -> W S B) : W S B :=
  fun s => match m s with
           | (Done a, s') => f a s'
           | (Fail e, s') => (Fail e, s')
           end.
Definition wget {S} : W S S := fun s => (Done s, s).
Definition wmodify {S} (f : S -> S) : W S unit := fun s => (Done tt, f s).

(** A method of a component, called from an object that holds it. *)
Definition zoom {S T A} (proj : S -> T) (inj : T -> S -> S) (m : W T A) : W S A :=
  fun s => let '(r, t) := m (proj s) in (r, inj t s).

(** A value computed without touching the object. *)
Definition pure {S A} (o : outcome A) : W S A := fun s => (o, s).

Fixpoint wfor_each {S A} (l : list A) (body : A -> W S unit) : W S unit :=
  match l with
  | [] => wret tt
  | x :: l' => wbind (body x) (fun _ => wfor_each l' body)
  end.

Notation "'let*' x ':=' m 'in' k" := (wbind m (fun x => k))
  (at level 10, x name, m at level 100, k at level 200).
Notation "m '>>>' k" := (wbind m (fun _ => k))
  (at level 100, right associativity).

(** [[f(x) for x in l]], stopping at the first exception. *)
Fixpoint comprehension {A B} (f : A -> outcome B) (l : list A) : outcome (list B) :=
  match l with
  | [] => Done []
  | x :: l' =>
      match f x with
      | Fail e => Fail e
      | Done b =>
          match comprehension f l' with
          | Fail e => Fail e
          | Done bs => Done (b :: bs)
          end
      end
  end.

(** [l[i]] where a missing index raises. *)
Definition index {A} (l : list A) (i : Z) : outcome A :=
  match getitem l i with
  | Some a => Done a
  | None => Fail (Exn IndexError)
  end.

(** [str.format] of an integer with the format [{:0N}] ([pad_zeros]) or
    [{:N}]: the sign, then zeros up to the width, then the digits; or
    blanks up to the width, then the sign and the digits.  [str] of a
    natural number is [pretty]. *)
Definition format_int (pad_zeros : bool) (width : Z) (value : Z) : string :=
  let sign := if value <? 0 then "-" else EmptyString in
  let body := pretty (Z.abs value) in
  let fill := Z.to_nat (width - Z.of_nat (String.length (sign +:+ body))) in
  if pad_zeros
  then sign +:+ string_of_list_ascii (replicate fill "0"%char) +:+ body
  else string_of_list_ascii (replicate fill " "%char) +:+ sign +:+ body.

Section Bitmaps.

Context {Bitmap : Type}.

(** [make_bitmaps]: [source index] is the sub-image cut out of the strip
    at [index], or [None] when [GetSubImage] gives no image. *)
Fixpoint make_bitmaps_loop (source : Z -> option Bitmap) (indices : list Z)
    (bitmaps : list Bitmap) : outcome (list Bitmap) :=
  match indices with
  | [] => Done bitmaps
  | index :: indices' =>
      match source index with
      | None => Fail (Exn ValueError)
      | Some image => make_bitmaps_loop source indices' (bitmaps ++ [image])
      end
  end.

Definition make_bitmaps (source : Z -> option Bitmap) (count : Z)
  : outcome (list Bitmap) :=
  make_bitmaps_loop source (range count) [].

End Bitmaps.

(** *** The class [LCD] *)

Module LCD.
Section LCD.

Context {Bitmap : Type}.

(** [digits] is positive in the program (3 in both displays); [pow]
    leaves the integers for other values. *)
Record t := mk {
  _value : Z;
  digits : positive;
  pad_zeros : bool;
  _bitmaps : list Bitmap;
  _char_bitmaps : list Bitmap
}.

Definition set__value (v : Z) (self : t) : t :=
  mk v (digits self) (pad_zeros self) (_bitmaps self) (_char_bitmaps self).
Definition set__char_bitmaps (l : list Bitmap) (self : t) : t :=
  mk (_value self) (digits self) (pad_zeros self) (_bitmaps self) l.

Definition _get_bitmaps (self : t) : outcome (list Bitmap) :=
  match _bitmaps self with
  | bmp_minus :: bmp_space :: bmp_digits =>
      let bmp_digits := reverse bmp_digits in
      let value := _value self in
      let value := Z.min value (10 ^ Z.pos (digits self) - 1) in
      let value := Z.max value (- (10 ^ (Z.pos (digits self) - 1) - 1)) in
      let str_value := format_int (pad_zeros self) (Z.pos (digits self)) value in
      if negb (Z.of_nat (String.length str_value) =? Z.pos (digits self))
      then Fail (Exn ValueError)
      else
        comprehension
          (fun char : ascii =>
             if bool_decide (char = "-"%char) then Done bmp_minus
             else if bool_decide (char = " "%char) then Done bmp_space
             else match Ascii.is_nat char with
                  | Some d => index bmp_digits (Z.of_nat d)
                  | None => Fail (Exn ValueError)
                  end)
          (list_ascii_of_string str_value)
  | _ => Fail (Exn ValueError)
  end.

Definition __init__ (source : Z -> option Bitmap) (value : Z) (digits : positive)
    (pad_zeros : bool) : outcome t :=
  match make_bitmaps source 12 with
  | Fail e => Fail e
  | Done bitmaps =>
      let self := mk value digits pad_zeros bitmaps [] in
      match _get_bitmaps self with
      | Fail e => Fail e
      | Done l => Done (set__char_bitmaps l self)
      end
  end.

Definition set_value (value : Z) : W t unit :=
  wmodify (set__value value) >>>
  let* self := wget in
  let* l := pure (_get_bitmaps self) in
  wmodify (set__char_bitmaps l).

End LCD.
#[global] Arguments t : clear implicits.
End LCD.

(** *** Reading a display *)

(** The value kept within what the digits of the display can show. *)
Definition clamp (digits : positive) (value : Z) : Z :=
  Z.max (Z.min value (10 ^ Z.pos digits - 1)) (- (10 ^ (Z.pos digits - 1) - 1)).

(** The place in the strip of twelve of the bitmap for a character: the
    minus sign, the blank, then the digits from 9 down to 0. *)
Definition strip_place (c : ascii) : nat :=
  if bool_decide (c = "-"%char) then 0%nat
  else if bool_decide (c = " "%char) then 1%nat
  else match Ascii.is_nat c with
       | Some d => (11 - d)%nat
       | None => 0%nat
       end.

(** The number that a row of places of the strip reads as: blanks, then a
    minus sign or none, then digits. *)
Fixpoint read_digits (acc : Z) (places : list nat) : Z :=
  match places with
  | [] => acc
  | k :: rest => read_digits (10 * acc + (11 - Z.of_nat k)) rest
  end.

Fixpoint read_places (places : list nat) : Z :=
  match places with
  | [] => 0
  | k :: rest =>
      if (k =? 1)%nat then read_places rest
      else if (k =? 0)%nat then - read_digits 0 rest
      else read_digits 0 places
  end.

(** *** The class [Scoreboard] *)

Module Scoreboard.
Section Scoreboard.

Context {Bitmap : Type}.

(** [_smile_button] is the bitmap that the button shows.  The time display
    follows the wall clock and is left out, with the stopwatch. *)
Record t := mk {
  _smile_bitmaps : list Bitmap;
  _flags_lcd : LCD.t Bitmap;
  _smile_button : Bitmap
}.

Definition set__flags_lcd (lcd : LCD.t Bitmap) (self : t) : t :=
  mk (_smile_bitmaps self) lcd (_smile_button self).
Definition set__smile_button (b : Bitmap) (self : t) : t :=
  mk (_smile_bitmaps self) (_flags_lcd self) b.

Definition __init__ (smile_source lcd_source : Z -> option Bitmap) : outcome t :=
  match make_bitmaps smile_source 5 with
  | Fail e => Fail e
  | Done smile_bitmaps =>
      match LCD.__init__ lcd_source 0 3 true with
      | Fail e => Fail e
      | Done flags_lcd =>
          match index smile_bitmaps 4 with
          | Fail e => Fail e
          | Done b => Done (mk smile_bitmaps flags_lcd b)
          end
      end
  end.

Definition set_smile_face (face : SmileFace) : W t unit :=
  let* self := wget in
  let* b := pure (index (_smile_bitmaps self)
                    (if bool_decide (face = COOL) then 1
                     else if bool_decide (face = SAD) then 2
                     else if bool_decide (face = SURPRISED) then 3
                     else if bool_decide (face = HAPPY) then 4
                     else 0)) in
  wmodify (set__smile_button b).

Definition set_flags_value (value : Z) : W t unit :=
  zoom _flags_lcd set__flags_lcd (LCD.set_value value).

End Scoreboard.
#[global] Arguments t : clear implicits.
End Scoreboard.

(** *** The class [Minefield] *)

Module Minefield.
Section Minefield.

Context {RNG Bitmap : Type}.
Abbreviation Game := (@Game RNG).

(** A button of the grid: the bitmap it shows and the one it shows while
    pressed ([SetBitmapLabel], [SetBitmapSelected]). *)
Record Button := mkButton {
  label : Bitmap;
  selected : Bitmap
}.

(** [_last_game] holds the identity of the [Game] object it was handed
    last: [Game] defines no equality, so that [!=] compares identities. *)
Record t := mk {
  cell_bitmaps : list Bitmap;
  button_grid : list (list Button);
  _last_game : option nat
}.

Definition set_button_grid (grid : list (list Button)) (self : t) : t :=
  mk (cell_bitmaps self) grid (_last_game self).
Definition set__last_game (game : option nat) (self : t) : t :=
  mk (cell_bitmaps self) (button_grid self) game.

Definition __init__ (cell_source : Z -> option Bitmap) : outcome t :=
  match make_bitmaps cell_source 16 with
  | Fail e => Fail e
  | Done cell_bitmaps => Done (mk cell_bitmaps [] None)
  end.

Definition initialize_board (size : Z * Z) : W t unit :=
  let* self := wget in
  let '(width, height) := size in
  match cell_bitmaps self with
  | [ bmp_unopened; bmp_flagged; bmp_questioned; bmp_mine_red; bmp_mine_x;
      bmp_mine; bmp_questioned_pressed;
      bmp_8; bmp_7; bmp_6; bmp_5; bmp_4; bmp_3; bmp_2; bmp_1; bmp_0 ] =>
      let make_button (point : point) := mkButton bmp_unopened bmp_0 in
      let button_grid :=
        map (fun x => map (fun y => make_button (x, y)) (range height))
            (range width) in
      wmodify (set_button_grid button_grid)
  | _ => wraise (Exn ValueError)
  end.

(** [button.SetBitmapLabel(l); button.SetBitmapSelected(s)] on the button
    [self.button_grid[x][y]]. *)
Definition set_bitmaps (x y : Z) (l s : Bitmap) : W t unit :=
  let* self := wget in
  let* col := pure (index (button_grid self) x) in
  let* button := pure (index col y) in
  match setitem col y (mkButton l s) with
  | None => wraise (Exn IndexError)
  | Some col' =>
      match setitem (button_grid self) x col' with
      | None => wraise (Exn IndexError)
      | Some grid' => wmodify (set_button_grid grid')
      end
  end.

(** The body of the loops of [update]: the bitmaps of the button of the
    cell [(x, y)], with the names that [update] gives to the bitmaps. *)
Definition update_button (game : Game)
    (bmp_unopened bmp_flagged bmp_questioned bmp_mine_red bmp_mine_x bmp_mine
       bmp_questioned_pressed : Bitmap) (number_bmps : list Bitmap)
    (bmp_empty : Bitmap) (game_over : bool) (x y : Z) : W t unit :=
  let point := (x, y) in
  let* self := wget in
  let* col := pure (index (button_grid self) x) in
  let* button := pure (index col y) in
  match is_opened point game with
  | (Raise e, _) => wraise (Exn e)
  | (Ok opened, _) =>
      let flagged := is_flagged point game in
      let questioned := is_questioned point game in
      if opened then
        let count := proximity_count point game in
        let* count_img := pure (index number_bmps (- count - 1)) in
        set_bitmaps x y count_img count_img
      else if flagged then
        if game_over && negb (is_mine point game)
        then set_bitmaps x y bmp_mine_x bmp_mine_x
        else set_bitmaps x y bmp_flagged bmp_flagged
      else if questioned then
        set_bitmaps x y bmp_questioned bmp_questioned_pressed
      else if game_over && is_mine point game then
        if bool_decide (last_click game = Some point)
        then set_bitmaps x y bmp_mine_red bmp_mine_red
        else set_bitmaps x y bmp_mine bmp_mine
      else
        set_bitmaps x y bmp_unopened
          (if game_over then bmp_unopened else bmp_empty)
  end.

(** [game] is the object handed over, [ident] its identity. *)
Definition update (ident : nat) (game : option Game) : W t unit :=
  match game with
  | None => wraise (Exn ValueError)
  | Some game =>
      let* self := wget in
      (if negb (bool_decide (_last_game self = Some ident))
       then wmodify (set__last_game (Some ident)) >>>
            initialize_board (size game)
       else wret tt) >>>
      let* self := wget in
      match cell_bitmaps self with
      | bmp_unopened :: bmp_flagged :: bmp_questioned :: bmp_mine_red
        :: bmp_mine_x :: bmp_mine :: bmp_questioned_pressed :: number_bmps =>
          let* bmp_empty := pure (index number_bmps (-1)) in
          let width := Z.of_nat (length (button_grid self)) in
          let* col0 := pure (index (button_grid self) 0) in
          let height := Z.of_nat (length col0) in
          let game_over := bool_decide (state game = lost) in
          wfor_each (range width) (fun x =>
            wfor_each (range height) (fun y =>
              update_button game bmp_unopened bmp_flagged bmp_questioned
                bmp_mine_red bmp_mine_x bmp_mine bmp_questioned_pressed
                number_bmps bmp_empty game_over x y))
      | _ => wraise (Exn ValueError)
      end
  end.

End Minefield.
#[global] Arguments t : clear implicits.
#[global] Arguments Button : clear implicits.
End Minefield.

(** *** The class [GameFrame] *)

Module GameFrame.
Section GameFrame.

Context {RNG Bitmap : Type}.
Abbreviation Game := (@Game RNG).
Variable randint : RNG -> Z -> Z -> option (Z * RNG).
Variable set_iter : gset point -> list point.

(** [games_made] counts the [Game] objects made so far and is the identity
    of the one in [game]; [game_timer] tells whether the timer runs. *)
Record t := mk {
  scoreboard : Scoreboard.t Bitmap;
  game_size : Z * Z;
  game_mines : Z;
  minefield : Minefield.t Bitmap;
  game : option Game;
  games_made : nat;
  game_timer : bool
}.

Definition set_scoreboard (s : Scoreboard.t Bitmap) (self : t) : t :=
  mk s (game_size self) (game_mines self) (minefield self) (game self)
     (games_made self) (game_timer self).
Definition set_minefield (m : Minefield.t Bitmap) (self : t) : t :=
  mk (scoreboard self) (game_size self) (game_mines self) m (game self)
     (games_made self) (game_timer self).
Definition set_game (g : option Game) (self : t) : t :=
  mk (scoreboard self) (game_size self) (game_mines self) (minefield self) g
     (games_made self) (game_timer self).
Definition set_games_made (n : nat) (self : t) : t :=
  mk (scoreboard self) (game_size self) (game_mines self) (minefield self)
     (game self) n (game_timer self).
Definition set_game_timer (b : bool) (self : t) : t :=
  mk (scoreboard self) (game_size self) (game_mines self) (minefield self)
     (game self) (games_made self) b.

(** A method of [self.game]; on [None] the attribute is missing. *)
Definition on_game {A} (m : M A) : W t A :=
  fun self =>
    match game self with
    | None => (Fail AttributeError, self)
    | Some g =>
        match m g with
        | (Ok a, g') => (Done a, set_game (Some g') self)
        | (Raise e, g') => (Fail (Exn e), set_game (Some g') self)
        end
    end.

Definition stop_game : W t unit :=
  wmodify (set_game_timer false).

Definition update : W t unit :=
  let* self := wget in
  zoom minefield set_minefield
    (Minefield.update (games_made self) (game self)) >>>
  let* g := on_game get in
  (if bool_decide (state g = won) || bool_decide (state g = lost)
   then stop_game else wret tt) >>>
  let* g := on_game get in
  (if bool_decide (state g = won)
   then zoom scoreboard set_scoreboard (Scoreboard.set_smile_face COOL)
   else if bool_decide (state g = lost)
   then zoom scoreboard set_scoreboard (Scoreboard.set_smile_face SAD)
   else if bool_decide (state g = playing) || bool_decide (state g = idle)
   then zoom scoreboard set_scoreboard (Scoreboard.set_smile_face HAPPY)
   else wret tt) >>>
  let* g := on_game get in
  zoom scoreboard set_scoreboard
    (Scoreboard.set_flags_value (mine_count g - set_len (flagged_points g))).

(** [random] is the generator that [random.Random(None)] makes for the
    new [Game]. *)
Definition init_new_game (random : RNG) : W t unit :=
  let* self := wget in
  wmodify (set_game (Some (new_game (game_size self) (game_mines self) random))) >>>
  wmodify (set_games_made (S (games_made self))) >>>
  let* g := on_game get in
  zoom scoreboard set_scoreboard (Scoreboard.set_flags_value (mine_count g)).

Definition start_game (point : point) : W t unit :=
  let* g := on_game get in
  if negb (bool_decide (state g = idle)) then wraise (Exn ValueError)
  else
    on_game (generate_board randint (Some [point])) >>>
    wmodify (set_game_timer true).

Definition on_smile_click (random : RNG) : W t unit :=
  let* g := on_game get in
  if negb (bool_decide (state g = idle))
  then stop_game >>> init_new_game random >>> update
  else wret tt.

Definition on_click (point : point) : W t unit :=
  let* self := wget in
  (match game self with
   | Some g => if bool_decide (state g = idle) then start_game point else wret tt
   | None => wret tt
   end) >>>
  let* self := wget in
  match game self with
  | None => wret tt
  | Some g =>
      if negb (bool_decide (state g = playing)) then wret tt
      else
        let* opened := on_game (is_opened point) in
        if negb (opened || is_flagged point g)
        then on_game (open set_iter point) >>> update
        else wret tt
  end.

Definition on_right_click (point : point) : W t unit :=
  let* self := wget in
  match game self with
  | None => wret tt
  | Some g =>
      if bool_decide (state g = won) || bool_decide (state g = lost) then wret tt
      else
        (if is_flagged point g then on_game (question point)
         else if is_questioned point g then on_game (unquestion point)
         else
           let* opened := on_game (is_opened point) in
           if negb opened then on_game (flag point) else wret tt) >>>
        update
  end.

(** [GameFrame.__init__]: the three strips of bitmaps are cut, the board
    of buttons is laid out and the first game is made. *)
Definition __init__ (smile_source lcd_source cell_source : Z -> option Bitmap)
    (random : RNG) : outcome t :=
  match Scoreboard.__init__ smile_source lcd_source with
  | Fail e => Fail e
  | Done scoreboard =>
      let game_size := (9, 9) in
      let game_mines := 10 in
      match Minefield.__init__ cell_source with
      | Fail e => Fail e
      | Done minefield =>
          match Minefield.initialize_board game_size minefield with
          | (Fail e, _) => Fail e
          | (Done _, minefield) =>
              let self := mk scoreboard game_size game_mines minefield None 0 false in
              match (init_new_game random >>> update) self with
              | (Fail e, _) => Fail e
              | (Done _, self) => Done self
              end
          end
      end
  end.

End GameFrame.
#[global] Arguments t : clear implicits.
End GameFrame.


(** *** What the window shows *)

Section Shown.

Context {RNG Bitmap : Type}.
Abbreviation Game := (@Game RNG).
Abbreviation Frame := (GameFrame.t RNG Bitmap).
Variable randint : RNG -> Z -> Z -> option (Z * RNG).
Variable set_iter : gset point -> list point.

(** The places, in the strip of sixteen, of the two bitmaps of the button
    of a cell: the one it shows and the one it shows while pressed.  The
    strip holds the closed cell, the flag, the question mark, the red mine,
    the crossed mine, the mine, the pressed question mark, and the digits
    from 8 down to 0. *)
Definition picture (g : Game) (p : point) : nat * nat :=
  if opened p g then
    let k := Z.to_nat (15 - proximity_count p g) in (k, k)
  else if is_flagged p g then
    if bool_decide (state g = lost) && negb (is_mine p g)
    then (4, 4)%nat else (1, 1)%nat
  else if is_questioned p g then (2, 6)%nat
  else if bool_decide (state g = lost) && is_mine p g then
    if bool_decide (last_click g = Some p) then (3, 3)%nat else (5, 5)%nat
  else (0%nat, if bool_decide (state g = lost) then 0%nat else 15%nat).

(** The button at column [i], row [j] of the grid of buttons. *)
Definition button_at (grid : list (list (Minefield.Button Bitmap))) (i j : nat)
  : option (Minefield.Button Bitmap) :=
  col ← grid !! i; col !! j.

(** The button of a cell as [picture] has it. *)
Definition button_for (cell_bitmaps : list Bitmap) (g : Game) (p : point)
  : option (Minefield.Button Bitmap) :=
  l ← cell_bitmaps !! fst (picture g p);
  s ← cell_bitmaps !! snd (picture g p);
  Some (Minefield.mkButton l s).

(** The grid of buttons shows the board [g]: a column per [x], a button
    per cell, with the bitmaps of [picture]. *)
Definition shows (cell_bitmaps : list Bitmap)
    (grid : list (list (Minefield.Button Bitmap))) (g : Game) : Prop :=
  length <$> grid
  = replicate (Z.to_nat (fst (size g))) (Z.to_nat (snd (size g)))
  /\ forall p, in_range p g = true ->
       is_Some (button_for cell_bitmaps g p)
       /\ button_at grid (Z.to_nat (fst p)) (Z.to_nat (snd p))
          = button_for cell_bitmaps g p.

(** The face for a state, and its place in the strip of five. *)
Definition face (s : GameState) : SmileFace :=
  match s with
  | won => COOL
  | lost => SAD
  | _ => HAPPY
  end.

Definition face_place (f : SmileFace) : nat :=
  match f with
  | COOL => 1
  | SAD => 2
  | SURPRISED => 3
  | HAPPY => 4
  end.

(** The widgets hold their strips of bitmaps, as the constructors leave
    them. *)
Definition widgets_ok (self : Frame) : Prop :=
  length (Minefield.cell_bitmaps (GameFrame.minefield self)) = 16%nat
  /\ length (Scoreboard._smile_bitmaps (GameFrame.scoreboard self)) = 5%nat
  /\ length (LCD._bitmaps (Scoreboard._flags_lcd (GameFrame.scoreboard self)))
     = 12%nat.

(** The window shows the board [g]: the buttons, the face, and the
    counter of the mines that are left to flag. *)
Definition displayed (self : Frame) (g : Game) : Prop :=
  let m := GameFrame.minefield self in
  let s := GameFrame.scoreboard self in
  let lcd := Scoreboard._flags_lcd s in
  Minefield._last_game m = Some (GameFrame.games_made self)
  /\ shows (Minefield.cell_bitmaps m) (Minefield.button_grid m) g
  /\ Scoreboard._smile_bitmaps s !! face_place (face (state g))
     = Some (Scoreboard._smile_button s)
  /\ LCD._value lcd = mine_count g - set_len (flagged_points g)
  /\ LCD._get_bitmaps lcd = Done (LCD._char_bitmaps lcd).

(** What holds of the board of the window between two events: a square
    board whose marks and mines are in order; nothing is opened and no mine
    is placed before the first click; afterwards there are [mine_count]
    mines; once the game is won the flags are exactly on the mines. *)
Definition board_ok (n mines : Z) (g : Game) : Prop :=
  size g = (n, n) /\ mine_count g = mines
  /\ marks_ok g /\ game_ok g
  /\ (state g = idle -> mine_points g = ∅ /\ forall q, opened q g = false)
  /\ (state g <> idle -> set_len (mine_points g) = mine_count g)
  /\ (state g = won -> flagged_points g = mine_points g).

(** What holds of the window between two events. *)
Definition frame_ok (self : Frame) : Prop :=
  exists (g : Game) (n : Z),
    GameFrame.game self = Some g
    /\ GameFrame.game_size self = (n, n) /\ 0 < n
    /\ 0 <= GameFrame.game_mines self < n * n
    /\ board_ok n (GameFrame.game_mines self) g
    /\ GameFrame.game_timer self = bool_decide (state g = playing)
    /\ widgets_ok self
    /\ displayed self g.

(** The events of the window: a click and a right click on the button of
    a cell, and a click on the face, which comes with the generator of the
    [Game] that it may make. *)
Inductive event :=
| Click (p : point)
| RightClick (p : point)
| SmileClick (random : RNG).

Definition handle (e : event) : W Frame unit :=
  match e with
  | Click p => GameFrame.on_click randint set_iter p
  | RightClick p => GameFrame.on_right_click p
  | SmileClick random => GameFrame.on_smile_click random
  end.

(** The buttons are those of the cells of the board. *)
Definition on_field (e : event) (self : Frame) : Prop :=
  match e with
  | Click p | RightClick p =>
      (0 <= fst p < fst (GameFrame.game_size self))
      /\ (0 <= snd p < snd (GameFrame.game_size self))
  | SmileClick _ => True
  end.

(** The windows reached from [f0] by events. *)
Inductive reached (f0 : Frame) : Frame -> Prop :=
| reached_init : reached f0 f0
| reached_step (f : Frame) (e : event) :
    reached f0 f -> on_field e f -> reached f0 (snd (handle e f)).

(** The board after a click on the button of [p]: the first click places
    the mines; a closed cell without a flag is opened while the game is
    played. *)
Definition started (p : point) (g : Game) : Game :=
  if bool_decide (state g = idle)
  then snd (generate_board randint (Some [p]) g) else g.

Definition clicked (p : point) (g : Game) : Game :=
  let g1 := started p g in
  if bool_decide (state g1 = playing) && negb (opened p g1 || is_flagged p g1)
  then snd (open set_iter p g1) else g1.

End Shown.

Section Shown2.

Context {RNG Bitmap : Type}.
Abbreviation Game := (@Game RNG).
Abbreviation Frame := (GameFrame.t RNG Bitmap).

(** The board after a right click on the button of [p]. *)
Definition right_clicked (p : point) (g : Game) : Game :=
  if bool_decide (state g = won) || bool_decide (state g = lost) then g
  else if is_flagged p g then snd (question p g)
  else if is_questioned p g then snd (unquestion p g)
  else if opened p g then g
  else snd (flag p g).

(** The parts of the window that no handler changes: the sizes and the
    strips of bitmaps. *)
Definition same_widgets (f f' : Frame) : Prop :=
  GameFrame.game_size f' = GameFrame.game_size f
  /\ GameFrame.game_mines f' = GameFrame.game_mines f
  /\ Minefield.cell_bitmaps (GameFrame.minefield f')
     = Minefield.cell_bitmaps (GameFrame.minefield f)
  /\ Scoreboard._smile_bitmaps (GameFrame.scoreboard f')
     = Scoreboard._smile_bitmaps (GameFrame.scoreboard f)
  /\ LCD._bitmaps (Scoreboard._flags_lcd (GameFrame.scoreboard f'))
     = LCD._bitmaps (Scoreboard._flags_lcd (GameFrame.scoreboard f))
  /\ LCD.digits (Scoreboard._flags_lcd (GameFrame.scoreboard f'))
     = LCD.digits (Scoreboard._flags_lcd (GameFrame.scoreboard f))
  /\ LCD.pad_zeros (Scoreboard._flags_lcd (GameFrame.scoreboard f'))
     = LCD.pad_zeros (Scoreboard._flags_lcd (GameFrame.scoreboard f)).

End Shown2.

(** *** The characters of a display *)

(** The characters of a decimal numeral. *)
Definition digit_char (c : ascii) : Prop :=
  exists k : nat, Ascii.is_nat c = Some k /\ (k <= 9)%nat
                  /\ c <> "-"%char /\ c <> " "%char.

(** The characters that [format_int] produces. *)
Definition display_char (c : ascii) : Prop :=
  c = "-"%char \/ c = " "%char \/ digit_char c.

(** ** Concrete generator, iteration order and boards *)

(** Boolean forms of the well-formedness conditions, to check them on a
    concrete board by evaluation. *)
Definition squareb {RNG} (g : @Game RNG) : bool :=
  (length (_cell_opened_grid g) =? Z.to_nat (snd (size g)))%nat
  && forallb (fun row : list bool => (length row =? Z.to_nat (fst (size g)))%nat)
             (_cell_opened_grid g)
  && (fst (size g) =? snd (size g)).

Definition mines_in_rangeb {RNG} (g : @Game RNG) : bool :=
  forallb (fun m => in_range m g) (elements (mine_points g)).

(** The calls are run with the counter generator and [elements]. *)
Definition play (ops : list operation) (g : @Game Z) : @Game Z :=
  run counter_randint elements_iter ops g.

(** A 3x3 board with its single mine at (0, 0). *)
Definition board_3x3 : @Game Z := play [Generate None] (new_game (3, 3) 1 0).

(** The same board after a click on the numbered cell (1, 1). *)
Definition board_3x3_clicked : @Game Z := play [Open (1, 1)] board_3x3.

(** The same board once the zero-proximity cell (1, 2) has been opened
    alone: its five neighbours are flagged, it is opened, and the flags are
    taken off again. *)
Definition board_3x3_walled : @Game Z :=
  play [ Flag (0, 1); Flag (0, 2); Flag (1, 1); Flag (2, 1); Flag (2, 2);
         Open (1, 2);
         Unflag (0, 1); Unflag (0, 2); Unflag (1, 1); Unflag (2, 1); Unflag (2, 2) ]
       board_3x3.

(** A 2x2 board with three mines, lost by a click on the mine (1, 1). *)
Definition board_2x2_lost : @Game Z :=
  play [Generate (Some [(0, 0)]); Open (1, 1)] (new_game (2, 2) 3 0).

(** A board two columns wide and one row high, its mine at (0, 0). *)
Definition board_2x1 : @Game Z :=
  play [Generate (Some [(1, 0)])] (new_game (2, 1) 1 0).

(** A 2x2 board generated a second time after (1, 1) was opened, so that
    its single mine lies under the opened cell (1, 1); two of the three
    other cells are opened since. *)
Definition board_2x2_regenerated : @Game Z :=
  play [ Generate None; Open (1, 1);
         Generate (Some [(0, 0); (0, 1); (1, 0)]);
         Open (0, 0); Open (0, 1) ]
       (new_game (2, 2) 1 0).

(** A 3x3 board on which (2, 2) is given a question mark and then opened. *)
Definition board_3x3_questioned : @Game Z :=
  play [Generate None; Question (2, 2); Open (2, 2)] (new_game (3, 3) 1 0).


(** A theme with all its images: the image at the place [i] of a strip is
    [i] itself. *)
Definition strip (i : Z) : option Z := Some i.

(** The window as it opens on that theme, the generator of its first game
    being the counter at 0. *)
Definition window : outcome (GameFrame.t Z Z) :=
  GameFrame.__init__ strip strip strip 0.

(** The events are handled with the counter generator and [elements]. *)
Definition after (e : event) (f : GameFrame.t Z Z) : GameFrame.t Z Z :=
  snd (handle counter_randint elements_iter e f).

(** A display of three digits on the strip of twelve. *)
Definition lcd_3 : LCD.t Z := LCD.mk 0 3 true (seqZ 0 12) [].


(** ** Properties of the board and of the single methods *)

Section Board.

Context {RNG : Type}.
Abbreviation Game := (@Game RNG).
Abbreviation lifts := (lifts (RNG:=RNG)).
Abbreviation same_cells := (same_cells (RNG:=RNG)).
Abbreviation no_loop_bound := (no_loop_bound (RNG:=RNG)).

(** *** Proximity counts *)

Lemma range2_3 (a b : Z) : b = a + 3 -> range2 a b = [a; a + 1; a + 2].
Proof.
  intros ->. unfold range2.
  replace (a + 3 - a) with 3 by lia.
  unfold seqZ. change (Z.to_nat 3) with 3%nat. cbn.
  repeat (f_equal; try lia).
Qed.

Lemma if_b2z (a b : bool) :
  (if a then Z.b2z b else Z.b2z false) = Z.b2z (a && b).
Proof. destruct a; reflexivity. Qed.

Lemma length_filter_b2z {A} (f : A -> bool) (l : list A) :
  Z.of_nat (length (filter (fun q => f q) l))
  = list_sum_Z (map (fun q => Z.b2z (f q)) l).
Proof.
  induction l as [|a l IH]; [reflexivity|].
  rewrite filter_cons. cbn [map list_sum_Z foldr]. fold (list_sum_Z (map (fun q => Z.b2z (f q)) l)).
  rewrite <- IH. destruct (f a); simpl; [|reflexivity].
  rewrite Nat2Z.inj_succ. lia.
Qed.

(** C6: [proximity_count] is -1 exactly on mines, and on any other point it
    is the number of mines among the in-bounds neighbours, between 0 and 8. *)
Theorem proximity_count_spec (p : point) (g : Game) :
  (proximity_count p g = -1 <-> p ∈ mine_points g)
  /\ proximity_count p g = (if is_mine p g then -1 else mine_neighbours p g)
  /\ 0 <= mine_neighbours p g <= 8.
Proof.
  assert (Hb : 0 <= mine_neighbours p g <= 8).
  { unfold mine_neighbours. destruct p as [x y].
    pose proof (length_filter (fun q => in_range q g && is_mine q g)
                  (neighbours (x, y))) as Hle.
    change (length (neighbours (x, y))) with 8%nat in Hle. lia. }
  assert (Hc : proximity_count p g
               = if is_mine p g then -1 else mine_neighbours p g).
  { unfold proximity_count. destruct (is_mine p g) eqn:Hm; [reflexivity|].
    destruct p as [x y]. cbn [fst snd].
    rewrite (range2_3 (x - 1) (x + 2)) by lia.
    rewrite (range2_3 (y - 1) (y + 2)) by lia.
    replace (x - 1 + 1) with x by lia. replace (x - 1 + 2) with (x + 1) by lia.
    replace (y - 1 + 1) with y by lia. replace (y - 1 + 2) with (y + 1) by lia.
    unfold mine_neighbours, neighbours. rewrite length_filter_b2z.
    cbn [mbind list_bind mret list_ret concat map app foldr list_sum_Z].
    rewrite Hm, !if_b2z, andb_false_r. cbn [Z.b2z]. lia. }
  split; [|split]; [|exact Hc|exact Hb].
  rewrite Hc. unfold is_mine. case_bool_decide; split; intros; try done. lia.
Qed.

(** *** Indexing the grid *)

Lemma in_range_iff (p : point) (g : Game) :
  in_range p g = true
  <-> (0 <= fst p < fst (size g)) /\ (0 <= snd p < snd (size g)).
Proof. unfold in_range. rewrite !andb_true_iff. lia. Qed.

Lemma py_index_nonneg {A} (l : list A) (i : Z) :
  0 <= i < Z.of_nat (length l) -> py_index l i = Some (Z.to_nat i).
Proof.
  intros H. unfold py_index.
  destruct (0 <=? i) eqn:E1; [|lia]. destruct (i <? Z.of_nat (length l)) eqn:E2; [|lia].
  reflexivity.
Qed.

Lemma py_index_high {A} (l : list A) (i : Z) :
  Z.of_nat (length l) <= i -> py_index l i = None.
Proof.
  intros H. unfold py_index.
  destruct (0 <=? i) eqn:E1; destruct (i <? Z.of_nat (length l)) eqn:E2; try lia;
    simpl; destruct (i <? 0) eqn:E3; try lia; rewrite ?andb_false_r; reflexivity.
Qed.

Lemma py_index_lt {A} (l : list A) (i : Z) (k : nat) :
  py_index l i = Some k -> (k < length l)%nat.
Proof.
  unfold py_index.
  destruct ((0 <=? i) && (i <? Z.of_nat (length l))) eqn:E1.
  - intros [= <-]. lia.
  - destruct ((- Z.of_nat (length l) <=? i) && (i <? 0)) eqn:E2; [|discriminate].
    intros [= <-]. lia.
Qed.

Lemma square_lookup (p : point) (g : Game) :
  square g -> in_range p g = true ->
  exists row b,
    _cell_opened_grid g !! Z.to_nat (fst p) = Some row
    /\ row !! Z.to_nat (snd p) = Some b
    /\ py_index (_cell_opened_grid g) (fst p) = Some (Z.to_nat (fst p))
    /\ py_index row (snd p) = Some (Z.to_nat (snd p)).
Proof.
  intros [[Hlen Hrows] Hsq] Hin. apply in_range_iff in Hin.
  destruct (lookup_lt_is_Some_2 (_cell_opened_grid g) (Z.to_nat (fst p)))
    as [row Hrow]; [lia|].
  assert (Hr : length row = Z.to_nat (fst (size g))).
  { eapply Forall_lookup_1 in Hrows; eauto. }
  destruct (lookup_lt_is_Some_2 row (Z.to_nat (snd p))) as [b Hb]; [lia|].
  exists row, b. repeat split; auto; apply py_index_nonneg; lia.
Qed.

Lemma is_opened_square (p : point) (g : Game) :
  square g -> in_range p g = true -> is_opened p g = (Ok (opened p g), g).
Proof.
  intros Hs Hin. destruct (square_lookup p g Hs Hin) as (row & b & H1 & H2 & H3 & H4).
  unfold is_opened, getitem, opened. rewrite H3, H1, H4, H2. reflexivity.
Qed.

Lemma is_opened_state (p : point) (g : Game) : snd (is_opened p g) = g.
Proof.
  unfold is_opened. repeat case_match; reflexivity.
Qed.

Lemma snd_discard {A} (m : M A) (g : Game) :
  snd ((let! _ := m in ret tt) g) = snd (m g).
Proof. unfold bind, ret. destruct (m g) as [[a|e] g']; reflexivity. Qed.

(** [is_opened] reads the grid only. *)
Lemma is_opened_grid (p : point) (g g' : Game) :
  _cell_opened_grid g' = _cell_opened_grid g ->
  is_opened p g' = (fst (is_opened p g), g').
Proof.
  intros E. unfold is_opened. rewrite E. repeat case_match; reflexivity.
Qed.

Lemma flag_square (p : point) (g : Game) :
  square g -> in_range p g = true ->
  flag p g =
    (Ok tt,
     if opened p g then g
     else set_questioned_points (questioned_points g ∖ {[p]})
            (set_flagged_points ({[p]} ∪ flagged_points g) g)).
Proof.
  intros Hs Hin. unfold flag, bind. rewrite is_opened_square by assumption.
  destruct (opened p g); reflexivity.
Qed.

Lemma new_game_grid_shape (sz : Z * Z) (n : Z) (r : RNG) :
  grid_shape (new_game sz n r).
Proof.
  split; simpl.
  - unfold range. rewrite length_map, length_seqZ. reflexivity.
  - apply List.Forall_forall. intros row Hrow.
    apply in_map_iff in Hrow as (? & <- & _).
    apply length_replicate.
Qed.

(** *** Lists of points *)

Lemma elem_of_all_points (sz : Z * Z) (p : point) :
  p ∈ all_points sz <-> (0 <= fst p < fst sz) /\ (0 <= snd p < snd sz).
Proof.
  unfold all_points, range. rewrite list_elem_of_bind. split.
  - intros (x & Hy & Hx). apply list_elem_of_bind in Hy as (y & Hp & Hy).
    apply list_elem_of_singleton in Hp as ->.
    apply elem_of_seqZ in Hx, Hy. simpl. lia.
  - intros [Hx Hy]. exists (fst p). split; [|apply elem_of_seqZ; lia].
    apply list_elem_of_bind. exists (snd p). split; [|apply elem_of_seqZ; lia].
    destruct p. apply list_elem_of_singleton. reflexivity.
Qed.

Lemma NoDup_all_points (sz : Z * Z) : NoDup (all_points sz).
Proof.
  unfold all_points. apply NoDup_bind.
  - intros x1 x2 p _ _ H1 H2.
    apply list_elem_of_bind in H1 as (y1 & H1 & _).
    apply list_elem_of_bind in H2 as (y2 & H2 & _).
    apply list_elem_of_singleton in H1, H2. congruence.
  - intros x _. apply NoDup_bind.
    + intros y1 y2 p _ _ H1 H2. apply list_elem_of_singleton in H1, H2. congruence.
    + intros. apply NoDup_singleton.
    + apply NoDup_seqZ.
  - apply NoDup_seqZ.
Qed.

Lemma length_bind_const {A B} (f : A -> list B) (k : nat) (l : list A) :
  (forall x, length (f x) = k) -> length (l ≫= f) = (length l * k)%nat.
Proof.
  intros Hf. induction l as [|a l IH]; [reflexivity|].
  rewrite bind_cons, length_app, IH, Hf. simpl. lia.
Qed.

Lemma length_all_points (sz : Z * Z) :
  length (all_points sz) = (Z.to_nat (fst sz) * Z.to_nat (snd sz))%nat.
Proof.
  unfold all_points, range.
  rewrite (length_bind_const _ (Z.to_nat (snd sz))).
  - rewrite length_seqZ. reflexivity.
  - intros x. rewrite (length_bind_const _ 1%nat) by reflexivity.
    rewrite length_seqZ. lia.
Qed.

Lemma pop_getitem {A} (l : list A) (i : Z) :
  pop l i = match getitem l i with
            | Some v =>
                match py_index l i with
                | Some k => Some (v, take k l ++ drop (S k) l)
                | None => None
                end
            | None => None
            end.
Proof.
  unfold pop, getitem. destruct (py_index l i) as [k|]; [|reflexivity].
  destruct (l !! k); reflexivity.
Qed.

Lemma pop_perm {A} (l : list A) (i : Z) (v : A) (rest : list A) :
  pop l i = Some (v, rest) -> l ≡ₚ v :: rest.
Proof.
  unfold pop. destruct (py_index l i) as [k|]; [|discriminate].
  destruct (l !! k) as [x|] eqn:E; [|discriminate]. intros [= <- <-].
  rewrite <- (take_drop_middle l k x E) at 1.
  symmetry. apply Permutation_middle.
Qed.

Lemma pop_in_range {A} (l : list A) (i : Z) :
  0 <= i < Z.of_nat (length l) -> exists v rest, pop l i = Some (v, rest).
Proof.
  intros H. unfold pop. rewrite py_index_nonneg by assumption.
  destruct (lookup_lt_is_Some_2 l (Z.to_nat i)) as [v Hv]; [lia|].
  rewrite Hv. eauto.
Qed.

Lemma filter_allowed_all (d : option (list point)) (l : list point) :
  no_disallowed d -> filter (fun p => allowed d p) l = l.
Proof.
  intros Hd. induction l as [|a l IH]; [reflexivity|].
  rewrite filter_cons_True; [rewrite IH; reflexivity|].
  destruct Hd as [-> | ->]; [exact I|].
  unfold allowed. apply bool_decide_pack, not_elem_of_nil.
Qed.

Lemma NoDup_possible_points (d : option (list point)) (sz : Z * Z) :
  NoDup (filter (fun p => allowed d p) (all_points sz)).
Proof. apply NoDup_filter, NoDup_all_points. Qed.

(** *** Relating the state before and after a method *)

Section Lifting.

Context (R : Game -> Game -> Prop) `{!PreOrder R}.

Lemma lifts_ret {A} (a : A) : lifts R (ret a).
Proof. intros g. reflexivity. Qed.

Lemma lifts_raise {A} (e : exn) : lifts R (raise (A:=A) e).
Proof. intros g. reflexivity. Qed.

Lemma lifts_get : lifts R get.
Proof. intros g. reflexivity. Qed.

Lemma lifts_modify (f : Game -> Game) :
  (forall g, R g (f g)) -> lifts R (modify f).
Proof. intros H g. apply H. Qed.

Lemma lifts_bind {A B} (m : M A) (f : A -> M B) :
  lifts R m -> (forall a, lifts R (f a)) -> lifts R (bind m f).
Proof.
  intros Hm Hf g. unfold bind. specialize (Hm g).
  destruct (m g) as [[a|e] g1]; simpl in *; [|exact Hm].
  etransitivity; [exact Hm|]. apply Hf.
Qed.

Lemma lifts_is_opened (p : point) : lifts R (is_opened p).
Proof. intros g. rewrite is_opened_state. reflexivity. Qed.

Lemma lifts_for_each {A} (l : list A) (body : A -> M unit) :
  (forall x, lifts R (body x)) -> lifts R (for_each l body).
Proof.
  intros Hb. induction l as [|x l IH]; simpl.
  - apply lifts_ret.
  - apply lifts_bind; [apply Hb | intros _; exact IH].
Qed.

Lemma lifts_all_opened_loop (pts : list point) : lifts R (all_opened_loop pts).
Proof.
  induction pts as [|p pts IH]; simpl.
  - apply lifts_ret.
  - apply lifts_bind; [apply lifts_is_opened|].
    intros [|]; [exact IH | apply lifts_ret].
Qed.

End Lifting.

#[global] Instance same_cells_preorder : PreOrder same_cells.
Proof.
  split.
  - intros g. repeat split.
  - intros g1 g2 g3 (H1 & H2 & H3) (H4 & H5 & H6). repeat split; congruence.
Qed.

Lemma flag_same_cells (p : point) : lifts same_cells (flag p).
Proof.
  intros g. unfold flag, bind, modify, ret.
  pose proof (is_opened_state p g) as Hs.
  destruct (is_opened p g) as [[[|]|e] g1]; simpl in *; subst g1; repeat split.
Qed.

(** *** Closed cells and the loop bound *)

Lemma no_loop_bound_bind {A B} (m : M A) (f : A -> M B) :
  no_loop_bound m -> (forall a, no_loop_bound (f a)) -> no_loop_bound (bind m f).
Proof.
  intros Hm Hf g. unfold bind. specialize (Hm g).
  destruct (m g) as [[a|e] g1]; simpl in *; [apply Hf | congruence].
Qed.

Lemma no_loop_bound_is_opened (p : point) : no_loop_bound (is_opened p).
Proof. intros g. unfold is_opened. repeat case_match; simpl; congruence. Qed.

Lemma no_loop_bound_set_opened (p : point) : no_loop_bound (_set_opened p).
Proof. intros g. unfold _set_opened. repeat case_match; simpl; congruence. Qed.

Lemma no_loop_bound_for_each {A} (l : list A) (body : A -> M unit) :
  (forall x, no_loop_bound (body x)) -> no_loop_bound (for_each l body).
Proof.
  intros Hb. induction l as [|x l IH]; simpl.
  - intros g; simpl; congruence.
  - apply no_loop_bound_bind; [apply Hb | intros _; exact IH].
Qed.

Lemma no_loop_bound_flag (p : point) : no_loop_bound (flag p).
Proof.
  unfold flag. apply no_loop_bound_bind; [apply no_loop_bound_is_opened|].
  intros [|] g; simpl; congruence.
Qed.

Lemma no_loop_bound_all_opened_loop (pts : list point) :
  no_loop_bound (all_opened_loop pts).
Proof.
  induction pts as [|p pts IH]; simpl.
  - intros g; simpl; congruence.
  - apply no_loop_bound_bind; [apply no_loop_bound_is_opened|].
    intros [|]; [exact IH | intros g; simpl; congruence].
Qed.

Lemma closed_row_insert (row : list bool) (j : nat) :
  row !! j = Some false ->
  S (length (filter negb (<[j := true]> row))) = length (filter negb row).
Proof.
  intros Hj. pose proof (lookup_lt_Some _ _ _ Hj) as Hlt.
  rewrite insert_take_drop by assumption.
  rewrite <- (take_drop_middle row j false Hj) at 3.
  rewrite !filter_app, !length_app.
  rewrite (filter_cons_False _ true) by (simpl; tauto).
  rewrite (filter_cons_True _ false) by exact I.
  simpl. lia.
Qed.

Lemma closed_grid_insert (grid : list (list bool)) (i : nat) (row row' : list bool) :
  grid !! i = Some row ->
  S (length (filter negb row')) = length (filter negb row) ->
  S (length (filter negb (concat (<[i := row']> grid))))
  = length (filter negb (concat grid)).
Proof.
  intros Hi Hrow. pose proof (lookup_lt_Some _ _ _ Hi) as Hlt.
  rewrite insert_take_drop by assumption.
  rewrite <- (take_drop_middle grid i row Hi) at 3.
  rewrite !concat_app. simpl. rewrite !filter_app, !length_app. lia.
Qed.

Lemma set_opened_closed_cells (p : point) (g g1 : Game) :
  is_opened p g = (Ok false, g) ->
  _set_opened p g = (Ok tt, g1) ->
  S (closed_cells g1) = closed_cells g.
Proof.
  unfold is_opened, _set_opened, getitem, setitem, closed_cells.
  destruct (py_index (_cell_opened_grid g) (fst p)) as [i|]; [|discriminate].
  destruct (_cell_opened_grid g !! i) as [row|] eqn:Hi; [|discriminate].
  destruct (py_index row (snd p)) as [j|]; [|discriminate].
  destruct (row !! j) as [b|] eqn:Hj; [|discriminate].
  intros [= ->] [= <-]. simpl.
  eapply closed_grid_insert; [exact Hi|]. apply closed_row_insert, Hj.
Qed.

Lemma length_new_points_in_range (p : point) (g : Game) :
  (length (filter (fun q => in_range q g) (new_points p)) <= 8)%nat.
Proof.
  etransitivity; [apply length_filter|]. reflexivity.
Qed.

(** *** The grid of a square board *)

Lemma set_opened_square (q : point) (g : Game) :
  square g -> in_range q g = true -> _set_opened q g = (Ok tt, mark q g).
Proof.
  intros Hs Hin. destruct (square_lookup q g Hs Hin) as (row & b & H1 & H2 & H3 & H4).
  unfold _set_opened, setitem, mark. rewrite H3, H1, H4. reflexivity.
Qed.

Lemma mark_fields (q : point) (g : Game) :
  random (mark q g) = random g /\ size (mark q g) = size g
  /\ mine_count (mark q g) = mine_count g /\ state (mark q g) = state g
  /\ mine_points (mark q g) = mine_points g
  /\ questioned_points (mark q g) = questioned_points g
  /\ flagged_points (mark q g) = flagged_points g
  /\ last_click (mark q g) = last_click g.
Proof. unfold mark. destruct (_ !! _); repeat split. Qed.

Lemma square_mark (q : point) (g : Game) : square g -> square (mark q g).
Proof.
  intros [[Hlen Hrows] Hsq]. unfold square, grid_shape, mark.
  destruct (_cell_opened_grid g !! Z.to_nat (fst q)) as [row|] eqn:Hrow;
    [|repeat split; assumption].
  simpl. rewrite length_insert. repeat split; try assumption.
  apply Forall_insert; [assumption|]. rewrite length_insert.
  eapply Forall_lookup_1 in Hrows; eauto.
Qed.

Lemma opened_mark (q q' : point) (g : Game) :
  square g -> in_range q g = true -> in_range q' g = true ->
  opened q' (mark q g) = if bool_decide (q' = q) then true else opened q' g.
Proof.
  intros Hs Hin Hin'.
  destruct (square_lookup q g Hs Hin) as (row & b & H1 & H2 & _ & _).
  apply in_range_iff in Hin, Hin'.
  unfold opened, mark. rewrite H1. simpl.
  destruct (decide (Z.to_nat (fst q') = Z.to_nat (fst q))) as [Ex|Ex].
  - rewrite Ex, list_lookup_insert_eq by (eapply lookup_lt_Some; eauto). rewrite H1.
    destruct (decide (Z.to_nat (snd q') = Z.to_nat (snd q))) as [Ey|Ey].
    + rewrite Ey, list_lookup_insert_eq by (eapply lookup_lt_Some; eauto).
      rewrite bool_decide_eq_true_2; [reflexivity|].
      destruct q, q'; simpl in *. f_equal; lia.
    + rewrite list_lookup_insert_ne by congruence.
      rewrite bool_decide_eq_false_2; [reflexivity|]. congruence.
  - rewrite list_lookup_insert_ne by congruence.
    rewrite bool_decide_eq_false_2; [reflexivity|]. congruence.
Qed.

Lemma all_opened_loop_square (pts : list point) (g : Game) :
  square g -> (forall q, q ∈ pts -> in_range q g = true) ->
  all_opened_loop pts g = (Ok (forallb (fun q => opened q g) pts), g).
Proof.
  intros Hs. induction pts as [|q pts IH]; intros Hin; [reflexivity|].
  cbn [all_opened_loop forallb]. unfold bind.
  rewrite is_opened_square by (auto; apply Hin; left).
  destruct (opened q g); [|reflexivity].
  apply IH. intros q' Hq'. apply Hin. right. exact Hq'.
Qed.

Lemma clearedb_spec (g : Game) : clearedb g = true <-> cleared g.
Proof.
  unfold clearedb, cleared. rewrite forallb_forall. split.
  - intros H q Hin Hm.
    assert (Hq : q ∈ all_points (size g))
      by (apply elem_of_all_points, in_range_iff, Hin).
    apply list_elem_of_In, H in Hq. apply orb_true_iff in Hq as [Hq|Hq]; [|exact Hq].
    apply bool_decide_eq_true in Hq. contradiction.
  - intros H q Hq. apply list_elem_of_In, elem_of_all_points, in_range_iff in Hq.
    apply orb_true_iff. unfold is_mine.
    destruct (decide (q ∈ mine_points g)) as [Hm|Hm].
    + left. apply bool_decide_eq_true_2, Hm.
    + right. apply H; assumption.
Qed.

Lemma Game_eq (g1 g2 : Game) :
  random g1 = random g2 -> size g1 = size g2 -> mine_count g1 = mine_count g2 ->
  state g1 = state g2 -> mine_points g1 = mine_points g2 ->
  questioned_points g1 = questioned_points g2 ->
  flagged_points g1 = flagged_points g2 -> last_click g1 = last_click g2 ->
  _cell_opened_grid g1 = _cell_opened_grid g2 ->
  g1 = g2.
Proof. destruct g1, g2; simpl; intros; subst; reflexivity. Qed.

Lemma for_each_flag_square (l : list point) (g : Game) :
  square g -> (forall m, m ∈ l -> in_range m g = true) ->
  for_each l flag g
  = (Ok tt,
     let u : gset point := list_to_set (filter (fun m => opened m g = false) l) in
     set_questioned_points (questioned_points g ∖ u)
       (set_flagged_points (u ∪ flagged_points g) g)).
Proof.
  revert g. induction l as [|m l IH]; intros g Hs Hin.
  - simpl. unfold ret. f_equal. apply Game_eq; simpl; try reflexivity; set_solver.
  - cbn [for_each]. unfold bind.
    rewrite flag_square by (auto; apply Hin; left).
    rewrite filter_cons.
    destruct (opened m g) eqn:Hm.
    + rewrite IH by (auto; intros; apply Hin; right; assumption).
      rewrite decide_False by congruence. reflexivity.
    + rewrite IH.
      * rewrite decide_True by reflexivity. cbn zeta.
        f_equal. apply Game_eq; simpl; try reflexivity;
          rewrite ?list_to_set_cons; set_solver.
      * exact Hs.
      * intros m' Hm'. apply Hin. right. exact Hm'.
Qed.

Lemma new_points_neighbours (q : point) : new_points q = neighbours q.
Proof.
  destruct q as [x y]. unfold new_points, neighbours. cbn.
  rewrite !Z.add_0_r. reflexivity.
Qed.

Lemma flag_all_fields (g : Game) :
  _cell_opened_grid (flag_all g) = _cell_opened_grid g
  /\ size (flag_all g) = size g
  /\ mine_points (flag_all g) = mine_points g
  /\ state (flag_all g) = state g
  /\ flagged_points (flag_all g) = closed_mines g ∪ flagged_points g.
Proof. repeat split. Qed.

Lemma settle_fields (g : Game) :
  _cell_opened_grid (settle g) = _cell_opened_grid g
  /\ size (settle g) = size g
  /\ mine_points (settle g) = mine_points g
  /\ flagged_points g ⊆ flagged_points (settle g)
  /\ flagged_points (settle g) ⊆ flagged_points g ∪ mine_points g.
Proof.
  assert (Hc : forall g' : Game, closed_mines g' ⊆ mine_points g').
  { intros g' m Hm. apply elem_of_filter in Hm as [_ Hm]. exact Hm. }
  unfold settle. destruct (state g); try destruct (clearedb g);
    simpl; repeat split; try set_solver;
    pose proof (Hc g); pose proof (Hc (set_state won g)); set_solver.
Qed.

Lemma settle_state (g : Game) :
  state g = playing \/ state g = won ->
  (state g = won -> cleared g) ->
  (state (settle g) = playing \/ state (settle g) = won)
  /\ (state (settle g) = won <-> cleared g)
  /\ (state (settle g) = won -> closed_mines g ⊆ flagged_points (settle g)).
Proof.
  intros Hst Hw. unfold settle. destruct Hst as [Hst|Hst]; rewrite Hst.
  - destruct (clearedb g) eqn:Hc.
    + apply clearedb_spec in Hc. simpl. repeat split; auto. set_solver.
    + assert (~ cleared g) by (rewrite <- clearedb_spec; congruence).
      rewrite Hst. repeat split; auto; try discriminate; tauto.
  - simpl. rewrite Hst. repeat split; auto. set_solver.
Qed.

Lemma opened_same_grid (q : point) (g g' : Game) :
  _cell_opened_grid g' = _cell_opened_grid g -> opened q g' = opened q g.
Proof. intros E. unfold opened. rewrite E. reflexivity. Qed.

Lemma in_range_same_size (q : point) (g g' : Game) :
  size g' = size g -> in_range q g' = in_range q g.
Proof. intros E. unfold in_range. rewrite E. reflexivity. Qed.

Lemma proximity_count_same (q : point) (g g' : Game) :
  size g' = size g -> mine_points g' = mine_points g ->
  proximity_count q g' = proximity_count q g.
Proof.
  intros E1 E2. unfold proximity_count, is_mine, in_range. rewrite E1, E2. reflexivity.
Qed.

Lemma square_same (g g' : Game) :
  _cell_opened_grid g' = _cell_opened_grid g -> size g' = size g ->
  square g -> square g'.
Proof. unfold square, grid_shape. intros -> ->. tauto. Qed.

Lemma closed_cells_mark (q : point) (g : Game) :
  square g -> in_range q g = true -> opened q g = false ->
  S (closed_cells (mark q g)) = closed_cells g.
Proof.
  intros Hs Hin Hop. apply (set_opened_closed_cells q).
  - rewrite is_opened_square, Hop by assumption. reflexivity.
  - apply set_opened_square; assumption.
Qed.

Lemma closed_cells_same (g g' : Game) :
  _cell_opened_grid g' = _cell_opened_grid g -> closed_cells g' = closed_cells g.
Proof. intros E. unfold closed_cells. rewrite E. reflexivity. Qed.

Lemma cleared_same (g g' : Game) :
  _cell_opened_grid g' = _cell_opened_grid g -> size g' = size g ->
  mine_points g' = mine_points g -> cleared g <-> cleared g'.
Proof.
  intros E1 E2 E3. unfold cleared.
  split; intros H q Hin Hm.
  - rewrite (opened_same_grid q g g') by assumption. apply H.
    + rewrite <- (in_range_same_size q g g'); assumption.
    + rewrite <- E3. exact Hm.
  - rewrite <- (opened_same_grid q g g') by assumption. apply H.
    + rewrite (in_range_same_size q g g'); assumption.
    + rewrite E3. exact Hm.
Qed.

Lemma closed_mines_same (g g' : Game) :
  _cell_opened_grid g' = _cell_opened_grid g ->
  mine_points g' = mine_points g -> closed_mines g' = closed_mines g.
Proof.
  intros E1 E2. unfold closed_mines. rewrite E2. apply set_eq. intros m.
  rewrite !elem_of_filter, (opened_same_grid m g g') by assumption. reflexivity.
Qed.

(** Nothing is revealed from a start point that cannot be opened, and only
    the start point from one whose proximity count is not zero. *)
Lemma visited_start_or_expanded (g : Game) (p q : point) :
  visited g p q -> q = p \/ (openable g p /\ proximity_count p g = 0).
Proof.
  induction 1 as [|z q Hvz IH Hoz Hzero Hn Hr]; [left; reflexivity|].
  right. destruct IH as [->|?]; auto.
Qed.

Lemma revealed_openable_start (g : Game) (p q : point) :
  revealed g p q -> openable g p.
Proof.
  intros [Hv Ho]. apply visited_start_or_expanded in Hv as [->|[? _]]; assumption.
Qed.

(** While no cell is opened yet, the revealed region is the region of the
    specification: the two differ only in that a cell opened by an earlier
    call is not expanded again. *)
Lemma revealed_zero_region (g : Game) (p q : point) :
  (forall z, opened z g = false) ->
  (p ∉ mine_points g) -> (p ∉ flagged_points g) ->
  revealed g p q
  <-> zero_region g p q /\ (q ∉ mine_points g) /\ (q ∉ flagged_points g).
Proof.
  intros Hclosed Hpm Hpf.
  assert (Hzero : forall z, proximity_count z g = 0 -> z ∉ mine_points g).
  { intros z Hz Hm. unfold proximity_count, is_mine in Hz.
    rewrite bool_decide_eq_true_2 in Hz by assumption. discriminate. }
  split.
  - intros [Hv (_ & Hm & Hf)]. split; [|split; assumption].
    clear Hm Hf. induction Hv as [|z q Hvz IH (_ & _ & Hzf) Hz Hn Hr].
    + constructor.
    + apply (zero_region_next g p z q); assumption.
  - intros (Hz & Hm & Hf). split; [|repeat split; auto].
    clear Hm Hf. induction Hz as [|z q Hzz IH Hzf Hz Hn Hr].
    + constructor.
    + apply (visited_next g p z q); auto. repeat split; auto.
Qed.

(** *** Flags and question marks *)

Lemma marks_ok_same (g g' : Game) :
  _cell_opened_grid g' = _cell_opened_grid g -> size g' = size g ->
  mine_points g' = mine_points g -> flagged_points g' = flagged_points g ->
  questioned_points g' = questioned_points g ->
  marks_ok g -> marks_ok g'.
Proof.
  intros E1 E2 E3 E4 E5 (Hs & Hm & Hf & Hq & Hd).
  unfold marks_ok, mines_in_range. rewrite E3, E4, E5.
  split; [eapply square_same; eauto|].
  split; [intros m Hmm; rewrite (in_range_same_size m g g'); auto|].
  split; [|split; [|exact Hd]].
  - intros q Hqf. rewrite (in_range_same_size q g g'), (opened_same_grid q g g'); auto.
  - intros q Hqq. rewrite (in_range_same_size q g g'); auto.
Qed.

Lemma marks_ok_flag (q : point) (g : Game) :
  in_range q g = true -> marks_ok g -> marks_ok (snd (flag q g)).
Proof.
  intros Hin (Hs & Hm & Hf & Hq & Hd). rewrite flag_square by assumption. simpl.
  destruct (opened q g) eqn:Hop;
    [split; [exact Hs|]; split; [exact Hm|]; split; [exact Hf|];
     split; [exact Hq | exact Hd]|].
  split; [exact Hs|]. split; [exact Hm|]. simpl. split; [|split].
  - intros q' Hq'. apply elem_of_union in Hq' as [Hq'|Hq']; [|apply Hf, Hq'].
    apply elem_of_singleton in Hq' as ->. split; assumption.
  - intros q' Hq'. apply elem_of_difference in Hq' as [Hq' _]. apply Hq, Hq'.
  - set_solver.
Qed.

Lemma marks_ok_unflag (q : point) (g : Game) :
  marks_ok g -> marks_ok (snd (unflag q g)).
Proof.
  intros (Hs & Hm & Hf & Hq & Hd).
  split; [exact Hs|]. split; [exact Hm|]. simpl. split; [|split].
  - intros q' Hq'. apply elem_of_difference in Hq' as [Hq' _]. apply Hf, Hq'.
  - intros q' Hq'. apply elem_of_difference in Hq' as [Hq' _]. apply Hq, Hq'.
  - set_solver.
Qed.

Lemma marks_ok_question (q : point) (g : Game) :
  in_range q g = true -> marks_ok g -> marks_ok (snd (question q g)).
Proof.
  intros Hin (Hs & Hm & Hf & Hq & Hd).
  split; [exact Hs|]. split; [exact Hm|]. simpl. split; [|split].
  - intros q' Hq'. apply elem_of_difference in Hq' as [Hq' _]. apply Hf, Hq'.
  - intros q' Hq'. apply elem_of_union in Hq' as [Hq'|Hq']; [|apply Hq, Hq'].
    apply elem_of_singleton in Hq' as ->. exact Hin.
  - set_solver.
Qed.

Lemma marks_ok_mark (q : point) (g : Game) :
  in_range q g = true -> q ∉ flagged_points g ->
  marks_ok g -> marks_ok (mark q g).
Proof.
  intros Hin Hnf (Hs & Hm & Hf & Hq & Hd).
  destruct (mark_fields q g) as (_ & Esz & _ & _ & Emi & Equ & Efl & _).
  unfold marks_ok, mines_in_range. rewrite Emi, Equ, Efl.
  split; [apply square_mark, Hs|].
  split; [intros m Hmm; rewrite (in_range_same_size m g); auto|].
  split; [|split; [|exact Hd]].
  - intros q' Hq'. destruct (Hf q' Hq') as [Hr Ho].
    rewrite (in_range_same_size q' g) by assumption. split; [exact Hr|].
    rewrite opened_mark by assumption.
    rewrite bool_decide_eq_false_2; [exact Ho|]. intros ->. contradiction.
  - intros q' Hq'. rewrite (in_range_same_size q' g); auto.
Qed.

Lemma marks_ok_flag_all (g : Game) : marks_ok g -> marks_ok (flag_all g).
Proof.
  intros (Hs & Hm & Hf & Hq & Hd). unfold flag_all.
  split; [exact Hs|]. split; [exact Hm|]. simpl. split; [|split].
  - intros q Hq'. apply elem_of_union in Hq' as [Hq'|Hq']; [|apply Hf, Hq'].
    apply elem_of_filter in Hq' as [Ho Hmm]. split; [apply Hm, Hmm | exact Ho].
  - intros q Hq'. apply elem_of_difference in Hq' as [Hq' _]. apply Hq, Hq'.
  - set_solver.
Qed.

Lemma marks_ok_settle (g : Game) : marks_ok g -> marks_ok (settle g).
Proof.
  intros H. unfold settle. destruct (state g); try destruct (clearedb g);
    try assumption; apply marks_ok_flag_all;
    try assumption; revert H; apply marks_ok_same; reflexivity.
Qed.

Lemma marks_ok_new_game (n mines : Z) (r : RNG) :
  marks_ok (new_game (n, n) mines r).
Proof.
  split; [split; [apply new_game_grid_shape | reflexivity]|].
  split; [intros m Hm; apply elem_of_empty in Hm; contradiction|].
  split; [intros m Hm; apply elem_of_empty in Hm; contradiction|].
  split; [intros m Hm; apply elem_of_empty in Hm; contradiction|].
  simpl. set_solver.
Qed.

End Board.

(** ** Mine placement *)

Section Placement.

Context {RNG : Type}.
Abbreviation Game := (@Game RNG).
Variable randint : RNG -> Z -> Z -> option (Z * RNG).
Abbreviation sample := (sample randint).

Lemma place_mines_sample (n : nat) (possible_points : list point) (g : Game) :
  place_mines randint n possible_points g
  = let '(o, picked, r') := sample n possible_points (random g) in
    (o, set_mine_points (list_to_set picked ∪ mine_points g) (set_random r' g)).
Proof.
  revert possible_points g. induction n as [|n IH]; intros poss g.
  - simpl. unfold ret. f_equal. destruct g; unfold set_mine_points, set_random; simpl.
    f_equal. set_solver.
  - cbn [place_mines sample]. unfold bind at 1. unfold get at 1.
    destruct (randint (random g) 0 (Z.of_nat (length poss) - 1)) as [[k r']|].
    + unfold bind at 1. unfold modify at 1. rewrite pop_getitem.
      destruct (getitem poss k) as [p|].
      * destruct (py_index poss k) as [j|].
        -- unfold bind at 1. unfold modify at 1. rewrite IH. cbn [random set_random set_mine_points].
           destruct (sample n (take j poss ++ drop (S j) poss) r') as [[o picked] r''].
           f_equal. unfold set_mine_points, set_random; simpl. f_equal.
           rewrite list_to_set_app_L. set_solver.
        -- unfold raise. f_equal. destruct g; unfold set_mine_points, set_random; simpl.
           f_equal. set_solver.
      * unfold raise. f_equal. destruct g; unfold set_mine_points, set_random; simpl.
        f_equal. set_solver.
    + unfold raise. f_equal. destruct g; unfold set_mine_points, set_random; simpl.
      f_equal. set_solver.
Qed.

Lemma sample_ok (n : nat) (poss rest picked : list point) (r r' : RNG) :
  sample n poss r = (Ok rest, picked, r') ->
  length picked = n /\ poss ≡ₚ picked ++ rest.
Proof.
  revert poss picked r. induction n as [|n IH]; intros poss picked r; simpl.
  - intros [= <- <- <-]. split; reflexivity.
  - destruct (randint r 0 (Z.of_nat (length poss) - 1)) as [[k r1]|]; [|discriminate].
    destruct (pop poss k) as [[p rest1]|] eqn:Hpop; [|discriminate].
    destruct (sample n rest1 r1) as [[o picked1] r2] eqn:Hs.
    intros [= -> <- <-]. apply IH in Hs as [Hlen Hperm].
    split; [rewrite length_app; simpl; lia|].
    apply pop_perm in Hpop. rewrite Hpop, Hperm.
    rewrite <- app_assoc. simpl. apply Permutation_middle.
Qed.

Lemma sample_picked (n : nat) (poss picked : list point) (r r' : RNG)
    (o : res (list point)) :
  sample n poss r = (o, picked, r') -> forall x, x ∈ picked -> x ∈ poss.
Proof.
  revert poss picked r o. induction n as [|n IH]; intros poss picked r o; simpl.
  - intros [= <- <- <-] x Hx. apply elem_of_nil in Hx. contradiction.
  - destruct (randint r 0 (Z.of_nat (length poss) - 1)) as [[k r1]|].
    + destruct (pop poss k) as [[v rest]|] eqn:Hpop.
      * destruct (sample n rest r1) as [[o1 picked1] r2] eqn:Hs.
        intros [= <- <- <-] x Hx. apply pop_perm in Hpop. rewrite Hpop.
        apply elem_of_app in Hx as [Hx|Hx].
        -- right. eapply IH; eauto.
        -- apply list_elem_of_singleton in Hx as ->. left.
      * intros [= <- <- <-] x Hx. apply elem_of_nil in Hx. contradiction.
    + intros [= <- <- <-] x Hx. apply elem_of_nil in Hx. contradiction.
Qed.

Lemma generate_board_unfold (d : option (list point)) (g : Game) :
  generate_board randint d g
  = let poss := filter (fun p => allowed d p) (all_points (size g)) in
    let '(o, picked, r') := sample (Z.to_nat (mine_count g)) poss (random g) in
    let g1 := set_mine_points (list_to_set picked) (set_random r' g) in
    match o with
    | Raise e => (Raise e, g1)
    | Ok rest =>
        if Z.of_nat (length rest) + set_len (list_to_set picked)
           =? fst (size g) * snd (size g)
              - match d with
                | Some ((_ :: _) as l) => Z.of_nat (length l)
                | _ => 0
                end
        then (Ok tt, set_last_click None (set_state playing g1))
        else (Raise AssertionError, g1)
    end.
Proof.
  unfold generate_board, bind, get, modify, raise, ret.
  rewrite place_mines_sample. cbn [random set_mine_points mine_count size].
  destruct (sample _ _ _) as [[o picked] r']. cbn zeta.
  unfold set_mine_points, set_random, set_last_click, set_state. simpl.
  rewrite !(right_id_L ∅ (∪)).
  destruct o as [rest|e]; [|reflexivity].
  destruct (_ =? _); reflexivity.
Qed.

(** C4: after a successful [generate_board] on a board [g] whose
    [mine_count] is not negative, the size and [mine_count] are those of
    [g], and [mine_points] has exactly [mine_count g] elements, all of them
    in bounds and none of them among the excluded points. *)
Theorem generate_board_mines (d : option (list point)) (g g' : Game) :
  0 <= mine_count g ->
  generate_board randint d g = (Ok tt, g') ->
  size g' = size g
  /\ mine_count g' = mine_count g
  /\ set_len (mine_points g') = mine_count g
  /\ (forall p, p ∈ mine_points g' ->
        in_range p g = true /\ in_range p g' = true
        /\ (forall l, d = Some l -> p ∉ l)).
Proof.
  intros Hn. rewrite generate_board_unfold. cbn zeta.
  destruct (sample _ _ _) as [[o picked] r'] eqn:Hs.
  destruct o as [rest|e]; [|discriminate].
  destruct (_ =? _); [|discriminate]. intros [= <-].
  apply sample_ok in Hs as [Hlen Hperm].
  pose proof (NoDup_possible_points d (size g)) as Hnd.
  rewrite Hperm in Hnd. apply NoDup_app in Hnd as (Hnd & _ & _).
  cbn [mine_points mine_count size set_last_click set_state set_mine_points set_random].
  split; [reflexivity|]. split; [reflexivity|]. split.
  - unfold set_len. rewrite size_list_to_set by assumption. lia.
  - intros p Hp. apply elem_of_list_to_set in Hp.
    assert (Hposs : p ∈ filter (fun p => allowed d p) (all_points (size g))).
    { rewrite Hperm. apply elem_of_app. left. exact Hp. }
    apply list_elem_of_filter in Hposs as [Hall Hin].
    assert (Hr : in_range p g = true).
    { apply in_range_iff. apply elem_of_all_points in Hin. exact Hin. }
    split; [exact Hr|]. split; [exact Hr|].
    intros l ->. unfold allowed in Hall. apply bool_decide_unpack in Hall. exact Hall.
Qed.

(** C8 (amended): [generate_board] does not look at [state]: whenever it
    completes on the board reset to its initial fields, it completes on the
    board itself, in whatever state, with the very same result; the old
    mines are discarded and the state becomes [playing] again. *)
Theorem generate_board_no_state_guard (d : option (list point)) (g g' : Game) :
  generate_board randint d (fresh g) = (Ok tt, g') ->
  generate_board randint d g = (Ok tt, g')
  /\ state g' = playing /\ last_click g' = None.
Proof.
  rewrite !generate_board_unfold. cbn zeta.
  change (size (fresh g)) with (size g).
  change (mine_count (fresh g)) with (mine_count g).
  change (random (fresh g)) with (random g).
  destruct (sample _ _ _) as [[o picked] r'].
  destruct o as [rest|e]; [|discriminate].
  destruct (_ =? _); [|discriminate].
  intros [= <-]. repeat split.
Qed.

Lemma marks_ok_generate (d : option (list point)) (g : Game) :
  marks_ok g -> marks_ok (snd (generate_board randint d g)).
Proof.
  intros (Hs & Hm & Hf & Hq & Hd). rewrite generate_board_unfold. cbn zeta.
  destruct (sample _ _ _) as [[o picked] r'] eqn:Hsample.
  assert (Hin : forall m, m ∈ (list_to_set picked : gset point) -> in_range m g = true).
  { intros m Hmm. apply elem_of_list_to_set in Hmm.
    eapply sample_picked in Hmm; [|exact Hsample].
    apply list_elem_of_filter in Hmm as [_ Hmm].
    apply in_range_iff, elem_of_all_points, Hmm. }
  destruct o as [rest|e]; [destruct (_ =? _)|]; simpl;
    (split; [exact Hs|]; split; [exact Hin|]; split; [exact Hf|];
     split; [exact Hq | exact Hd]).
Qed.

(** Contract of [random.randint] on a non-empty range. *)
Hypothesis randint_in_range :
  forall r a b, a <= b ->
    exists k r', randint r a b = Some (k, r') /\ a <= k <= b.

Lemma sample_total (n : nat) (poss : list point) (r : RNG) :
  (n <= length poss)%nat ->
  exists rest picked r', sample n poss r = (Ok rest, picked, r').
Proof.
  revert poss r. induction n as [|n IH]; intros poss r Hn; simpl; [eauto|].
  destruct (randint_in_range r 0 (Z.of_nat (length poss) - 1)) as (k & r1 & -> & Hk);
    [lia|].
  destruct (pop_in_range poss k) as (v & rest & Hpop); [lia|]. rewrite Hpop.
  apply pop_perm, Permutation_length in Hpop. simpl in Hpop.
  destruct (IH rest r1) as (rest' & picked & r2 & ->); [lia|]. eauto.
Qed.

(** C9 (amended): with [mine_count >= width * height], [generate_board]
    raises as soon as [mine_count] exceeds the number of cells or an excluded
    point is passed; with [mine_count = width * height] and no excluded point
    it completes and makes every cell a mine. *)
Theorem generate_board_mine_count_limit (d : option (list point)) (g : Game) :
  fst (size g) * snd (size g) <= mine_count g ->
  (fst (size g) * snd (size g) < mine_count g \/ ~ no_disallowed d ->
   exists e g', generate_board randint d g = (Raise e, g'))
  /\ (no_disallowed d ->
      mine_count g = fst (size g) * snd (size g) ->
      0 <= fst (size g) -> 0 <= snd (size g) ->
      exists g', generate_board randint d g = (Ok tt, g')
                 /\ mine_points g' = list_to_set (all_points (size g))).
Proof.
  intros Hmc. split.
  - intros Hcase. rewrite generate_board_unfold. cbn zeta.
    destruct (sample _ _ _) as [[o picked] r'] eqn:Hs.
    destruct o as [rest|e]; [|eauto].
    apply sample_ok in Hs as [Hlen Hperm].
    pose proof (NoDup_possible_points d (size g)) as Hnd.
    rewrite Hperm in Hnd. apply NoDup_app in Hnd as (Hnd & _ & _).
    unfold set_len. rewrite size_list_to_set by assumption.
    destruct (_ =? _) eqn:E; [|eauto]. exfalso.
    apply Z.eqb_eq in E.
    assert (Hd : ~ no_disallowed d -> exists a l, d = Some (a :: l)).
    { intros Hno. destruct d as [[|a l]|]; [destruct Hno; right; reflexivity
        | eauto | destruct Hno; left; reflexivity]. }
    destruct Hcase as [Hlt | Hno].
    + destruct d as [[|a l]|]; simpl in E; lia.
    + destruct (Hd Hno) as (a & l & ->). simpl in E. lia.
  - intros Hno Heq Hw Hh. rewrite generate_board_unfold. cbn zeta.
    rewrite filter_allowed_all by assumption.
    destruct (sample_total (Z.to_nat (mine_count g)) (all_points (size g)) (random g))
      as (rest & picked & r' & Hs).
    { rewrite length_all_points. nia. }
    rewrite Hs. apply sample_ok in Hs as [Hlen Hperm].
    pose proof (NoDup_all_points (size g)) as Hnd.
    rewrite Hperm in Hnd. apply NoDup_app in Hnd as (Hnd & _ & _).
    assert (Hrest : rest = []).
    { apply Permutation_length in Hperm.
      rewrite length_app, length_all_points, Hlen in Hperm.
      apply length_zero_iff_nil. nia. }
    subst rest. rewrite app_nil_r in Hperm.
    unfold set_len. rewrite size_list_to_set by assumption.
    replace (_ =? _) with true.
    + eexists. split; [reflexivity|]. simpl.
      apply list_to_set_perm_L. symmetry. exact Hperm.
    + symmetry. apply Z.eqb_eq. destruct Hno as [-> | ->]; simpl; lia.
Qed.

End Placement.

(** ** Opening cells *)

Section Reveal.

Context {RNG : Type}.
Abbreviation Game := (@Game RNG).
Abbreviation lifts := (lifts (RNG:=RNG)).
Abbreviation same_cells := (same_cells (RNG:=RNG)).
Abbreviation no_loop_bound := (no_loop_bound (RNG:=RNG)).
Variable set_iter : gset point -> list point.

(** *** Opening an opened cell again *)

(** C10: on a board in state [playing], [open] on a point that is already
    opened returns normally, and calling it once more changes nothing. *)
Theorem open_opened_idempotent (p : point) (g : Game) :
  state g = playing ->
  is_opened p g = (Ok true, g) ->
  let g1 := snd (open set_iter p g) in
  open set_iter p g = (Ok tt, g1)
  /\ open set_iter p g1 = (Ok tt, g1).
Proof.
  intros Hst Hop.
  assert (H1 : open set_iter p g = (Ok tt, set_last_click (Some p) g)).
  { unfold open, bind, get, modify. rewrite Hst. simpl.
    rewrite (is_opened_grid p g) by reflexivity. rewrite Hop. reflexivity. }
  rewrite H1. simpl. split; [reflexivity|].
  unfold open, bind, get, modify. simpl. rewrite Hst. simpl.
  rewrite (is_opened_grid p g) by reflexivity. rewrite Hop. reflexivity.
Qed.

(** *** The flood fill terminates within its bound *)

(** Steps of a proof that a method lifts a relation, following the
    structure of its body. *)
Ltac lift_step :=
  first
    [ apply lifts_ret; try exact _
    | apply lifts_raise; try exact _
    | apply lifts_get; try exact _
    | apply lifts_is_opened; try exact _
    | apply lifts_all_opened_loop; try exact _
    | apply lifts_bind; [try exact _ | | intros ] ].

Lemma is_won_same_cells : lifts same_cells (is_won set_iter).
Proof.
  unfold is_won. lift_step; [lift_step|].
  destruct (state a); try lift_step; try lift_step;
    try (destruct a0; [|lift_step]; lift_step;
         [apply lifts_modify; repeat split | lift_step]).
Qed.

Lemma _flag_all_mines_same_cells : lifts same_cells (_flag_all_mines set_iter).
Proof.
  unfold _flag_all_mines. lift_step; [lift_step|].
  apply lifts_for_each; [exact _|]. apply flag_same_cells.
Qed.

Lemma no_loop_bound_is_won : no_loop_bound (is_won set_iter).
Proof.
  unfold is_won. apply no_loop_bound_bind; [intros g; simpl; congruence|].
  intros g. destruct (state g); try (intros g'; simpl; congruence);
    (apply no_loop_bound_bind; [apply no_loop_bound_all_opened_loop|]);
    intros [|] g'; simpl; congruence.
Qed.

Lemma no_loop_bound_flag_all_mines : no_loop_bound (_flag_all_mines set_iter).
Proof.
  unfold _flag_all_mines. apply no_loop_bound_bind; [intros g; simpl; congruence|].
  intros g. apply no_loop_bound_for_each, no_loop_bound_flag.
Qed.

Lemma flood_fill_within_bound (fuel : nat) (stack : list point) (g : Game) :
  (flood_bound g stack <= fuel)%nat ->
  fst (flood_fill set_iter fuel stack g) <> Raise LoopBound.
Proof.
  revert stack g. induction fuel as [|fuel IH]; intros [|p stack] g Hb;
    try (simpl; congruence).
  - unfold flood_bound in Hb. simpl in Hb. lia.
  - cbn [flood_fill]. unfold bind at 1.
    pose proof (no_loop_bound_is_opened p g) as Hno.
    pose proof (is_opened_state p g) as Hst.
    destruct (is_opened p g) as [[[|]|e] g0] eqn:Hop; simpl in Hst, Hno; subst g0;
      [| |simpl; congruence].
    { apply IH. unfold flood_bound in *. simpl in Hb. lia. }
    unfold bind at 1. unfold get at 1. unfold bind at 1.
    set (inside := negb (is_mine p g) && negb (is_flagged p g)).
    assert (Hstep : forall (g1 : Game) stack1,
      (flood_bound g1 stack1 <= fuel)%nat ->
      fst ((let! w := is_won set_iter in
            (if w then _flag_all_mines set_iter else ret tt) >>
            flood_fill set_iter fuel stack1) g1) <> Raise LoopBound).
    { intros g1 stack1 Hb1. unfold bind at 1.
      pose proof (no_loop_bound_is_won g1) as Hn1.
      pose proof (is_won_same_cells g1) as Hs1.
      destruct (is_won set_iter g1) as [[w|e] g2]; simpl in Hn1, Hs1; [|simpl; congruence].
      unfold bind at 1.
      assert (Hb2 : (flood_bound g2 stack1 <= fuel)%nat).
      { unfold flood_bound, closed_cells in *. destruct Hs1 as (-> & _). exact Hb1. }
      destruct w.
      - pose proof (no_loop_bound_flag_all_mines g2) as Hn2.
        pose proof (_flag_all_mines_same_cells g2) as Hs2.
        destruct (_flag_all_mines set_iter g2) as [[[]|e] g3]; simpl in Hn2, Hs2;
          [|simpl; congruence].
        apply IH. unfold flood_bound, closed_cells in *.
        destruct Hs2 as (-> & _). exact Hb2.
      - simpl. apply IH, Hb2. }
    destruct inside eqn:Hin.
    + pose proof (no_loop_bound_set_opened p g) as Hn0.
      destruct (_set_opened p g) as [[[]|e] g1] eqn:Hset; simpl in Hn0; [|simpl; congruence].
      pose proof (set_opened_closed_cells p g g1 Hop Hset) as Hc.
      unfold bind at 1. unfold get at 1.
      apply Hstep.
      rewrite andb_true_l. destruct (_ =? _).
      * unfold flood_bound in *. rewrite length_app.
        pose proof (length_new_points_in_range p g1). simpl in Hb. lia.
      * unfold flood_bound in *. simpl in Hb. lia.
    + unfold ret at 1. unfold bind at 1. unfold get at 1. simpl andb. cbv iota.
      apply Hstep. unfold flood_bound in *. simpl in Hb. lia.
Qed.

(** [open] never hits the unrolling bound of its loop: the embedding of the
    [while] loop is faithful for every board and every point. *)
Lemma flood_fill_terminates (p : point) (g : Game) :
  fst (open set_iter p g) <> Raise LoopBound.
Proof.
  unfold open. unfold bind at 1. unfold get at 1.
  destruct (negb _); [simpl; congruence|].
  unfold bind at 1. unfold modify at 1. unfold bind at 1.
  pose proof (no_loop_bound_is_opened p (set_last_click (Some p) g)) as Hno.
  pose proof (is_opened_state p (set_last_click (Some p) g)) as Hst.
  destruct (is_opened p _) as [[[|]|e] g0]; simpl in Hst, Hno; subst g0;
    [simpl; congruence | | simpl; congruence].
  unfold bind at 1. unfold get at 1.
  destruct (is_flagged _ _); [simpl; congruence|].
  destruct (is_mine _ _); [simpl; congruence|].
  apply flood_fill_within_bound. reflexivity.
Qed.

(** *** The methods on square boards *)

(** Python iterates over the elements of a set, each once. *)
Hypothesis set_iter_perm : forall s, set_iter s ≡ₚ elements s.

Lemma elem_of_non_mine_points (q : point) (g : Game) :
  q ∈ set_iter (list_to_set (all_points (size g)) ∖ mine_points g)
  <-> in_range q g = true /\ q ∉ mine_points g.
Proof.
  rewrite set_iter_perm, elem_of_elements, elem_of_difference, elem_of_list_to_set.
  rewrite elem_of_all_points, in_range_iff. reflexivity.
Qed.

Lemma is_won_square (g : Game) :
  square g ->
  is_won set_iter g
  = match state g with
    | won => (Ok true, g)
    | lost => (Ok false, g)
    | _ => if clearedb g then (Ok true, set_state won g) else (Ok false, g)
    end.
Proof.
  intros Hs. unfold is_won, bind, get.
  assert (E : forallb (fun q => opened q g)
                (set_iter (list_to_set (all_points (size g)) ∖ mine_points g))
              = clearedb g).
  { apply eq_true_iff_eq. rewrite clearedb_spec, forallb_forall. unfold cleared. split.
    - intros H q Hin Hm. apply H, list_elem_of_In, elem_of_non_mine_points. auto.
    - intros H q Hq. apply list_elem_of_In, elem_of_non_mine_points in Hq as [Hin Hm].
      auto. }
  destruct (state g); try reflexivity;
    (rewrite all_opened_loop_square;
      [rewrite E; destruct (clearedb g); reflexivity
      | assumption
      | intros q Hq; apply elem_of_non_mine_points in Hq; tauto]).
Qed.

Lemma is_won_square_state (g : Game) :
  square g ->
  exists s, snd (is_won set_iter g) = set_state s g
            /\ (s = state g \/ (s = won /\ cleared g)).
Proof.
  intros Hs. rewrite is_won_square by assumption.
  assert (Hid : g = set_state (state g) g) by (destruct g; reflexivity).
  assert (Hwon : clearedb g = true ->
            exists s, set_state won g = set_state s g
                      /\ (s = state g \/ (s = won /\ cleared g))).
  { intros Hc. exists won. split; [reflexivity|]. right.
    split; [reflexivity | apply clearedb_spec, Hc]. }
  assert (Hsame : exists s, g = set_state s g
                            /\ (s = state g \/ (s = won /\ cleared g))).
  { exists (state g). split; [exact Hid | left; reflexivity]. }
  destruct (state g); try destruct (clearedb g); simpl; auto.
Qed.

Lemma flag_all_mines_square (g : Game) :
  square g -> mines_in_range g ->
  _flag_all_mines set_iter g = (Ok tt, flag_all g).
Proof.
  intros Hs Hm. unfold _flag_all_mines, bind, get.
  rewrite for_each_flag_square.
  - cbn zeta. f_equal. unfold flag_all.
    assert (E : list_to_set (filter (fun m => opened m g = false)
                               (set_iter (mine_points g)))
                = closed_mines g).
    { apply set_eq. intros x. unfold closed_mines.
      rewrite elem_of_list_to_set, list_elem_of_filter, elem_of_filter.
      rewrite set_iter_perm, elem_of_elements. reflexivity. }
    rewrite E. reflexivity.
  - exact Hs.
  - intros m Hin. apply Hm. rewrite set_iter_perm in Hin.
    apply elem_of_elements in Hin. exact Hin.
Qed.

Lemma settle_square (g : Game) :
  square g -> mines_in_range g ->
  (let! w := is_won set_iter in
   if w then _flag_all_mines set_iter else ret tt) g
  = (Ok tt, settle g).
Proof.
  intros Hs Hm. unfold bind. rewrite is_won_square by assumption.
  unfold settle.
  destruct (state g) eqn:Hst; try reflexivity;
    try (apply flag_all_mines_square; assumption);
    (destruct (clearedb g); [|reflexivity];
     apply flag_all_mines_square; assumption).
Qed.

(** One round of the loop on a square board with its mines in bounds. *)
Lemma flood_fill_round (fuel : nat) (q : point) (stack : list point) (g : Game) :
  square g -> mines_in_range g -> in_range q g = true ->
  flood_fill set_iter (S fuel) (q :: stack) g
  = if opened q g then flood_fill set_iter fuel stack g
    else
      let inside := negb (is_mine q g) && negb (is_flagged q g) in
      flood_fill set_iter fuel
        (if inside && (proximity_count q g =? 0)
         then stack ++ filter (fun q' => in_range q' g) (new_points q)
         else stack)
        (settle (if inside then mark q g else g)).
Proof.
  intros Hs Hm Hin. cbn [flood_fill]. unfold bind at 1.
  rewrite is_opened_square by assumption.
  destruct (opened q g); [reflexivity|].
  unfold bind at 1. unfold get at 1. cbn zeta.
  set (inside := negb (is_mine q g) && negb (is_flagged q g)).
  assert (Hstep : forall (g1 : Game) stack1,
    square g1 -> mines_in_range g1 ->
    (let! w := is_won set_iter in
     (if w then _flag_all_mines set_iter else ret tt) >>
     flood_fill set_iter fuel stack1) g1
    = flood_fill set_iter fuel stack1 (settle g1)).
  { intros g1 stack1 Hs1 Hm1.
    pose proof (settle_square g1 Hs1 Hm1) as E. unfold bind in E |- *.
    destruct (is_won set_iter g1) as [[w|e] g2]; [|discriminate].
    destruct ((if w then _flag_all_mines set_iter else ret tt) g2) as [[[]|e] g3];
      [|discriminate].
    injection E as ->. reflexivity. }
  destruct inside.
  - unfold bind at 1. rewrite set_opened_square by assumption.
    unfold bind at 1. unfold get at 1.
    destruct (mark_fields q g) as (_ & Hsz & _ & _ & Hmines & _).
    assert (Hprox : proximity_count q (mark q g) = proximity_count q g).
    { unfold proximity_count, is_mine, in_range. rewrite Hmines, Hsz. reflexivity. }
    assert (Hr : forall q', in_range q' (mark q g) = in_range q' g).
    { intros q'. unfold in_range. rewrite Hsz. reflexivity. }
    rewrite Hprox.
    rewrite Hstep.
    + f_equal. destruct (_ && _); [|reflexivity]. f_equal.
      apply list_filter_iff. intros q'. rewrite Hr. reflexivity.
    + apply square_mark, Hs.
    + intros m Hmm. rewrite Hr. apply Hm. rewrite <- Hmines. exact Hmm.
  - unfold bind at 1. unfold ret at 1. unfold bind at 1. unfold get at 1.
    rewrite andb_false_l. apply Hstep; assumption.
Qed.

(** *** The loop invariant of the flood fill *)

Section Flood.

Variable g0 : Game.
Variable p : point.
Hypothesis g0_square : square g0.
Hypothesis g0_mines : mines_in_range g0.
Hypothesis p_in_range : in_range p g0 = true.
Hypothesis p_openable : openable g0 p.

Abbreviation pushed := (pushed g0 p).
Abbreviation flood_pre := (flood_pre g0 p).
Abbreviation flood_inv := (flood_inv g0 p).
Abbreviation fi_square := (fi_square g0 p).
Abbreviation fi_size := (fi_size g0 p).
Abbreviation fi_mines := (fi_mines g0 p).
Abbreviation fi_stack := (fi_stack g0 p).
Abbreviation fi_sound := (fi_sound g0 p).
Abbreviation fi_mono := (fi_mono g0 p).
Abbreviation fi_pending := (fi_pending g0 p).

Lemma visited_in_range (q : point) : visited g0 p q -> in_range q g0 = true.
Proof. destruct 1; assumption. Qed.

Lemma flood_pre_mines_in_range g stack :
  flood_pre g stack -> mines_in_range g.
Proof.
  intros I m Hm. rewrite (in_range_same_size m g0 g) by apply I.
  apply g0_mines. rewrite <- (fi_mines _ _ I). exact Hm.
Qed.

(** The invariant holds when the loop starts. *)
Lemma flood_inv_init :
  state g0 = playing -> flood_inv (set_last_click (Some p) g0) [p].
Proof.
  intros Hst.
  assert (Hnc : ~ cleared (set_last_click (Some p) g0)).
  { intros Hc. destruct p_openable as (Hop & Hm & _).
    specialize (Hc p p_in_range Hm). unfold opened in *. simpl in Hc. congruence. }
  split; [split|split]; simpl; try reflexivity; auto.
  - set_solver.
  - intros q Hq. apply list_elem_of_singleton in Hq as ->.
    split; [assumption | constructor].
  - intros q [->|(z & [_ (Hz & _)] & _ & Hop & _)] _ _.
    + right. left.
    + unfold opened in *. simpl in Hop. congruence.
  - rewrite Hst. discriminate.
  - intros Hc. contradiction.
  - rewrite Hst. discriminate.
Qed.

(** A point that is already opened is dropped from the worklist. *)
Lemma flood_inv_skip (g : Game) (q : point) (stack : list point) :
  flood_inv g (q :: stack) -> opened q g = true -> flood_inv g stack.
Proof.
  intros (I & Hw & Hm) Hop. split; [|split; assumption].
  destruct I as
    [fi_square0 fi_size0 fi_mines0 fi_flag_lo0 fi_flag_hi0 fi_mono0
     fi_sound0 fi_stack0 fi_pending0 fi_state0 fi_won0]. split; auto.
  - intros q' Hq'. apply fi_stack0. right. exact Hq'.
  - intros q' Hp H1 H2. destruct (fi_pending0 q' Hp H1 H2) as [?|Hin]; [left; assumption|].
    apply elem_of_cons in Hin as [->|Hin]; [left|right]; assumption.
Qed.

(** A point that is a mine or is flagged is dropped as well. *)
Lemma flood_inv_blocked (g : Game) (q : point) (stack : list point) :
  flood_inv g (q :: stack) ->
  negb (is_mine q g) && negb (is_flagged q g) = false ->
  flood_pre g stack.
Proof.
  intros (I & _ & _) Hb. destruct I as
    [fi_square0 fi_size0 fi_mines0 fi_flag_lo0 fi_flag_hi0 fi_mono0
     fi_sound0 fi_stack0 fi_pending0 fi_state0 fi_won0]. split; auto.
  - intros q' Hq'. apply fi_stack0. right. exact Hq'.
  - intros q' Hp H1 H2. destruct (fi_pending0 q' Hp H1 H2) as [?|Hin]; [left; assumption|].
    apply elem_of_cons in Hin as [->|Hin]; [|right; assumption].
    exfalso. apply andb_false_iff in Hb as [Hb|Hb]; apply negb_false_iff in Hb;
      apply bool_decide_eq_true in Hb.
    + rewrite fi_mines0 in Hb. contradiction.
    + apply fi_flag_hi0 in Hb. apply elem_of_union in Hb as [?|?]; contradiction.
Qed.

(** A closed point that is neither a mine nor flagged is opened, and its
    in-bounds neighbours are appended when its proximity count is zero. *)
Lemma flood_inv_mark (g : Game) (q : point) (stack : list point) :
  flood_inv g (q :: stack) -> opened q g = false ->
  negb (is_mine q g) && negb (is_flagged q g) = true ->
  flood_pre (mark q g)
    (if proximity_count q g =? 0
     then stack ++ filter (fun q' => in_range q' g) (new_points q)
     else stack).
Proof.
  intros (I & _ & _) Hop Hin. destruct I as
    [fi_square0 fi_size0 fi_mines0 fi_flag_lo0 fi_flag_hi0 fi_mono0
     fi_sound0 fi_stack0 fi_pending0 fi_state0 fi_won0].
  apply andb_true_iff in Hin as [Hnm Hnf].
  apply negb_true_iff, bool_decide_eq_false in Hnm, Hnf.
  destruct (fi_stack0 q) as [Hq Hv]; [left|].
  assert (Hqg : in_range q g = true) by (rewrite (in_range_same_size q g0 g); auto).
  destruct (mark_fields q g) as (_ & Esz & _ & Est & Emi & _ & Efl & _).
  assert (Hopen : openable g0 q).
  { repeat split.
    - destruct (opened q g0) eqn:E; [|reflexivity].
      rewrite (fi_mono0 q Hq E) in Hop. discriminate.
    - rewrite <- fi_mines0. exact Hnm.
    - intros Hf. apply Hnf, fi_flag_lo0, Hf. }
  assert (Hmark : forall q', in_range q' g0 = true ->
            opened q' (mark q g) = if bool_decide (q' = q) then true else opened q' g).
  { intros q' Hq'. apply opened_mark; auto.
    rewrite (in_range_same_size q' g0 g); auto. }
  assert (Hprox : proximity_count q g = proximity_count q g0)
    by (apply proximity_count_same; assumption).
  assert (Hstack : forall q', q' ∈ q :: stack ->
            opened q' (mark q g) = true
            \/ q' ∈ (if proximity_count q g =? 0
                     then stack ++ filter (fun q' => in_range q' g) (new_points q)
                     else stack)).
  { intros q' Hq'. apply elem_of_cons in Hq' as [->|Hq'].
    - left. rewrite Hmark by assumption. rewrite bool_decide_eq_true_2; reflexivity.
    - right. destruct (_ =? _); [apply elem_of_app; left|]; assumption. }
  split.
  - apply square_mark, fi_square0.
  - congruence.
  - congruence.
  - rewrite Efl. assumption.
  - rewrite Efl. assumption.
  - intros q' Hq' H'. rewrite Hmark by assumption.
    rewrite (fi_mono0 q' Hq' H'). destruct (bool_decide _); reflexivity.
  - intros q' Hq'. rewrite Hmark by assumption. case_bool_decide as E.
    + subst q'. intros _. right. split; assumption.
    + apply fi_sound0, Hq'.
  - intros q' Hq'. destruct (proximity_count q g =? 0) eqn:Ez.
    + apply elem_of_app in Hq' as [Hq'|Hq'].
      * apply fi_stack0. right. exact Hq'.
      * apply list_elem_of_filter in Hq' as [Hr Hn].
        apply Is_true_true in Hr. rewrite (in_range_same_size q' g0 g) in Hr by auto.
        split; [exact Hr|].
        apply (visited_next g0 p q q'); auto.
        -- apply Z.eqb_eq in Ez. congruence.
        -- rewrite <- new_points_neighbours. exact Hn.
    + apply fi_stack0. right. exact Hq'.
  - intros q' Hp H1 H2.
    assert (Hold : pushed g q' ->
              opened q' (mark q g) = true
              \/ q' ∈ (if proximity_count q g =? 0
                       then stack ++ filter (fun q' => in_range q' g) (new_points q)
                       else stack)).
    { intros Hp'. destruct (fi_pending0 q' Hp' H1 H2) as [Ho|Hs].
      - left. assert (Hr : in_range q' g0 = true).
        { destruct Hp' as [->|(z & _ & _ & _ & _ & Hr)]; assumption. }
        rewrite Hmark by assumption. rewrite Ho. destruct (bool_decide _); reflexivity.
      - apply Hstack, Hs. }
    destruct Hp as [->|(z & Hz & Hzero & Hzo & Hn & Hr)].
    + apply Hold. left. reflexivity.
    + assert (Hzr : in_range z g0 = true) by (apply visited_in_range, Hz).
      rewrite Hmark in Hzo by assumption. case_bool_decide as E.
      * subst z. right. rewrite Hprox, Hzero. simpl. apply elem_of_app. right.
        apply list_elem_of_filter. split.
        -- apply Is_true_true. rewrite (in_range_same_size q' g0 g); auto.
        -- rewrite new_points_neighbours. exact Hn.
      * apply Hold. right. exists z. auto.
  - rewrite Est. assumption.
  - rewrite Est. intros Hw q' Hq' Hm'.
    assert (Hr : in_range q' g0 = true).
    { rewrite <- (in_range_same_size q' g0 (mark q g)) by congruence. exact Hq'. }
    rewrite Hmark by assumption.
    rewrite (fi_won0 Hw q'); [destruct (bool_decide _); reflexivity| |].
    + rewrite (in_range_same_size q' g0 g); auto.
    + rewrite <- Emi. exact Hm'.
Qed.

(** Evaluating the win condition, and flagging the mines on a win, turns
    the facts established by a round into the invariant. *)
Lemma flood_inv_settle (g : Game) (stack : list point) :
  flood_pre g stack -> flood_inv (settle g) stack.
Proof.
  intros I. destruct I as
    [fi_square0 fi_size0 fi_mines0 fi_flag_lo0 fi_flag_hi0 fi_mono0
     fi_sound0 fi_stack0 fi_pending0 fi_state0 fi_won0].
  destruct (settle_fields g) as (Egr & Esz & Emi & Hlo & Hhi).
  destruct (settle_state g fi_state0 fi_won0) as (Hst & Hwon & Hmarks).
  assert (Hop : forall q, opened q (settle g) = opened q g)
    by (intros; apply opened_same_grid, Egr).
  assert (Hcl : cleared g <-> cleared (settle g))
    by (apply cleared_same; assumption).
  split; [split|split].
  - eapply square_same; eauto.
  - congruence.
  - congruence.
  - etransitivity; eassumption.
  - intros x Hx. apply Hhi in Hx. apply elem_of_union in Hx as [Hx|Hx].
    + apply fi_flag_hi0, Hx.
    + apply elem_of_union. right. rewrite <- fi_mines0. exact Hx.
  - intros q Hq H'. rewrite Hop. auto.
  - intros q Hq. rewrite Hop. auto.
  - assumption.
  - intros q Hp. rewrite Hop. apply fi_pending0.
    destruct Hp as [->|(z & Hz & Hzero & Hzo & Hn & Hr)]; [left; reflexivity|].
    right. exists z. rewrite Hop in Hzo. auto.
  - assumption.
  - intros Hw. apply Hcl, Hwon, Hw.
  - intros Hc. apply Hwon, Hcl, Hc.
  - intros Hw. rewrite (closed_mines_same g (settle g)) by assumption. auto.
Qed.

(** The loop runs to its end within the bound and keeps the invariant. *)
Lemma flood_fill_inv (fuel : nat) (stack : list point) (g : Game) :
  flood_inv g stack -> (flood_bound g stack <= fuel)%nat ->
  exists g', flood_fill set_iter fuel stack g = (Ok tt, g') /\ flood_inv g' [].
Proof.
  revert stack g. induction fuel as [|fuel IH]; intros [|q stack] g I Hb.
  - exists g. split; [reflexivity | assumption].
  - unfold flood_bound in Hb. simpl in Hb. lia.
  - exists g. split; [reflexivity | assumption].
  - pose proof I as (Ipre & _ & _).
    assert (Hq : in_range q g = true).
    { rewrite (in_range_same_size q g0 g) by apply Ipre.
      apply (fi_stack _ _ Ipre). left. }
    rewrite flood_fill_round;
      [| apply Ipre | eapply flood_pre_mines_in_range, Ipre | exact Hq].
    destruct (opened q g) eqn:Hop.
    { apply IH; [eapply flood_inv_skip; eauto|].
      unfold flood_bound in *. simpl in Hb. lia. }
    cbn zeta. destruct (negb (is_mine q g) && negb (is_flagged q g)) eqn:Hin.
    + rewrite andb_true_l. apply IH.
      * apply flood_inv_settle, flood_inv_mark; assumption.
      * pose proof (closed_cells_mark q g (fi_square _ _ Ipre) Hq Hop) as Hc.
        destruct (settle_fields (mark q g)) as (Egr & _).
        unfold flood_bound in *. rewrite (closed_cells_same _ _ Egr).
        simpl in Hb. destruct (_ =? _); [|lia].
        rewrite length_app. pose proof (length_new_points_in_range q g). lia.
    + rewrite andb_false_l. apply IH.
      * eapply flood_inv_settle, flood_inv_blocked; eauto.
      * destruct (settle_fields g) as (Egr & _).
        unfold flood_bound in *. rewrite (closed_cells_same _ _ Egr).
        simpl in Hb. lia.
Qed.

(** When the worklist is empty, the opened cells are those that were opened
    before and the revealed region. *)
Lemma flood_inv_final (g' : Game) :
  flood_inv g' [] ->
  forall q, in_range q g0 = true ->
    opened q g' = true <-> opened q g0 = true \/ revealed g0 p q.
Proof.
  intros (I & _ & _) q Hq. split; [apply (fi_sound _ _ I), Hq|].
  intros [Hop | [Hv Ho]]; [apply (fi_mono _ _ I); assumption|].
  clear Hq. induction Hv as [|z q Hvz IH Hoz Hzero Hn Hr].
  - destruct Ho as (_ & Hm & Hf).
    destruct (fi_pending _ _ I p) as [?|Hin]; auto; [left; reflexivity|].
    apply elem_of_nil in Hin. contradiction.
  - destruct Ho as (Hc & Hm & Hf).
    destruct (fi_pending _ _ I q) as [?|Hin]; auto.
    + right. exists z. split; [split; assumption|]. repeat split; auto.
    + apply elem_of_nil in Hin. contradiction.
Qed.

End Flood.

(** [open] on a square board in state [playing]. *)
Lemma open_square (p : point) (g : Game) :
  square g -> state g = playing -> in_range p g = true ->
  open set_iter p g
  = let g1 := set_last_click (Some p) g in
    if opened p g then (Ok tt, g1)
    else if is_flagged p g then (Ok tt, g1)
    else if is_mine p g then (Ok tt, set_state lost g1)
    else flood_fill set_iter (flood_bound g1 [p]) [p] g1.
Proof.
  intros Hs Hst Hin. unfold open, bind, get, modify. rewrite Hst. simpl.
  rewrite (is_opened_grid p g) by reflexivity.
  rewrite is_opened_square by assumption. simpl.
  destruct (opened p g); [reflexivity|].
  unfold is_flagged, is_mine. simpl.
  destruct (bool_decide (p ∈ flagged_points g)); [reflexivity|].
  destruct (bool_decide (p ∈ mine_points g)); reflexivity.
Qed.

(** The flood fill started by [open] on a point that can be opened. *)
Lemma open_flood (p : point) (g : Game) :
  square g -> mines_in_range g -> state g = playing -> in_range p g = true ->
  openable g p ->
  exists g', open set_iter p g = (Ok tt, g') /\ flood_inv g p g' [].
Proof.
  intros Hs Hm Hst Hin Ho. rewrite open_square by assumption. cbn zeta.
  destruct Ho as (Hop & Hnm & Hnf). rewrite Hop.
  unfold is_flagged, is_mine.
  rewrite !bool_decide_eq_false_2 by assumption.
  apply (flood_fill_inv g p Hm Hin); [|reflexivity].
  apply flood_inv_init; try assumption. repeat split; assumption.
Qed.

(** What [open] reveals on a square board with its mines in bounds. *)
Lemma open_reveals_on (p : point) (g : Game) :
  square g -> mines_in_range g -> state g = playing -> in_range p g = true ->
  p ∉ mine_points g -> p ∉ flagged_points g ->
  exists g',
    open set_iter p g = (Ok tt, g')
    /\ (forall q, in_range q g = true ->
          is_opened q g' = (Ok (opened q g'), g')
          /\ (opened q g' = true <-> opened q g = true \/ revealed g p q))
    /\ (forall q, revealed g p q ->
          in_range q g = true /\ (q ∉ mine_points g) /\ (q ∉ flagged_points g))
    /\ mine_points g' = mine_points g
    /\ flagged_points g ⊆ flagged_points g'
    /\ (proximity_count p g <> 0 -> forall q, revealed g p q -> q = p).
Proof.
  intros Hs Hm Hst Hin Hnm Hnf.
  assert (Hrev : forall q, revealed g p q ->
            in_range q g = true /\ (q ∉ mine_points g) /\ (q ∉ flagged_points g)).
  { intros q [Hv (_ & ? & ?)]. repeat split; try assumption.
    eapply visited_in_range; eauto. }
  assert (Hnz : proximity_count p g <> 0 -> forall q, revealed g p q -> q = p).
  { intros Hz q [Hv _]. apply visited_start_or_expanded in Hv as [?|[_ ?]];
      [assumption | contradiction]. }
  destruct (opened p g) eqn:Hop.
  - exists (set_last_click (Some p) g). rewrite open_square by assumption.
    cbn zeta. rewrite Hop.
    split; [reflexivity|]. split; [|split; [exact Hrev|]].
    + intros q Hq. split; [apply is_opened_square; assumption|].
      split; [intros Ho; left; exact Ho|].
      intros [Ho|Hr]; [exact Ho|].
      apply revealed_openable_start in Hr as (Hr & _). congruence.
    + split; [reflexivity|]. split; [reflexivity | exact Hnz].
  - destruct (open_flood p g) as (g' & Hopen & I); try assumption.
    { repeat split; assumption. }
    pose proof I as (Ipre & _ & _).
    exists g'. split; [exact Hopen|]. split; [|split; [exact Hrev|]].
    + intros q Hq. split.
      * apply is_opened_square; [apply Ipre|].
        rewrite (in_range_same_size q g g'); [assumption | apply Ipre].
      * apply (flood_inv_final g p g' I); assumption.
    + split; [apply Ipre|]. split; [apply Ipre | exact Hnz].
Qed.

(** *** Index errors *)

(** On a square board with its mines in bounds, [open] on an in-bounds
    point returns normally or rejects the call with [ValueError]. *)
Lemma open_square_outcome (p : point) (g : Game) :
  square g -> mines_in_range g -> in_range p g = true ->
  fst (open set_iter p g) = Ok tt \/ fst (open set_iter p g) = Raise ValueError.
Proof.
  intros Hs Hm Hin. destruct (decide (state g = playing)) as [Hst|Hst].
  - left. destruct (decide (openable g p)) as [Ho|Ho].
    + destruct (open_flood p g) as (g' & -> & _); auto.
    + rewrite open_square by assumption. cbn zeta.
      destruct (opened p g) eqn:Hop; [reflexivity|].
      destruct (is_flagged p g) eqn:Hf; [reflexivity|].
      destruct (is_mine p g) eqn:Hmi; [reflexivity|].
      exfalso. apply Ho. repeat split; [assumption| |].
      * apply bool_decide_eq_false in Hmi. exact Hmi.
      * apply bool_decide_eq_false in Hf. exact Hf.
  - right. unfold open, bind, get.
    rewrite bool_decide_eq_false_2 by assumption. reflexivity.
Qed.

(** C5: on a board with as many columns as rows [is_opened] answers for
    every in-bounds point, and so do [flag] and (the mines being in bounds)
    [open], which call it: none of them ends in [IndexError].  A board that
    is not square has an in-bounds point on which [is_opened] raises
    [IndexError]: [new_game (2, 1)] has the single row [[False, False]] and
    [(1, 0)] asks for its second row. *)
Theorem is_opened_index_safety (g : Game) :
  grid_shape g ->
  (fst (size g) = snd (size g) ->
   forall p, in_range p g = true ->
     (exists b, is_opened p g = (Ok b, g))
     /\ (exists g', flag p g = (Ok tt, g'))
     /\ (mines_in_range g -> fst (open set_iter p g) <> Raise IndexError))
  /\ (exists (g' : Game) p,
        grid_shape g' /\ fst (size g') <> snd (size g')
        /\ in_range p g' = true
        /\ is_opened p g' = (Raise IndexError, g')).
Proof.
  intros Hshape. split.
  - intros Hsq p Hin. assert (Hs : square g) by (split; assumption).
    split; [|split].
    + eexists. apply is_opened_square; assumption.
    + eexists. apply flag_square; assumption.
    + intros Hm. destruct (open_square_outcome p g Hs Hm Hin) as [-> | ->];
        discriminate.
  - exists (new_game (2, 1) 0 (random g)), (1, 0).
    split; [apply new_game_grid_shape|]. repeat split. simpl. lia.
Qed.

(** *** Winning *)

(** Winning on a square board whose mines are in bounds and closed, and
    whose state is [won] only if it is cleared. *)
Lemma win_detection_on (g : Game) :
  square g -> mines_in_range g ->
  (forall m, m ∈ mine_points g -> opened m g = false) ->
  (state g = won -> cleared g) ->
  (exists b g', is_won set_iter g = (Ok b, g')
                /\ (b = true <-> cleared g /\ state g <> lost))
  /\ (forall p, state g = playing -> in_range p g = true ->
        exists g', open set_iter p g = (Ok tt, g')
                   /\ (~ cleared g -> cleared g' ->
                       state g' = won /\ mine_points g' ⊆ flagged_points g')).
Proof.
  intros Hs Hm Hclosed Hwon. split.
  - rewrite is_won_square by assumption.
    destruct (state g) eqn:Hst.
    + destruct (clearedb g) eqn:Hc; do 2 eexists; (split; [reflexivity|]).
      * apply clearedb_spec in Hc. split; [split; [assumption | discriminate] | reflexivity].
      * split; [discriminate|]. intros [Hc' _]. apply clearedb_spec in Hc'. congruence.
    + destruct (clearedb g) eqn:Hc; do 2 eexists; (split; [reflexivity|]).
      * apply clearedb_spec in Hc. split; [split; [assumption | discriminate] | reflexivity].
      * split; [discriminate|]. intros [Hc' _]. apply clearedb_spec in Hc'. congruence.
    + do 2 eexists. split; [reflexivity|].
      split; [split; [auto | discriminate] | reflexivity].
    + do 2 eexists. split; [reflexivity|].
      split; [discriminate | intros [_ ?]; contradiction].
  - intros p Hst Hin.
    assert (Hsame : forall g' : Game,
              _cell_opened_grid g' = _cell_opened_grid g -> size g' = size g ->
              mine_points g' = mine_points g ->
              ~ cleared g -> cleared g' ->
              state g' = won /\ mine_points g' ⊆ flagged_points g').
    { intros g' E1 E2 E3 Hn Hc. exfalso. apply Hn.
      apply (cleared_same g g'); assumption. }
    destruct (decide (openable g p)) as [Ho|Ho].
    + destruct (open_flood p g) as (g' & Hopen & Ipre & Hcw & Hmarks); try assumption.
      exists g'. split; [exact Hopen|]. intros _ Hc.
      split; [apply Hcw, Hc|].
      intros m Hmm. apply Hmarks; [apply Hcw, Hc|].
      apply elem_of_filter. split; [|exact Hmm].
      rewrite (fi_mines _ _ _ _ Ipre) in Hmm.
      destruct (opened m g') eqn:Hom; [|reflexivity]. exfalso.
      apply (fi_sound _ _ _ _ Ipre) in Hom; [|apply Hm, Hmm].
      destruct Hom as [Hom | [_ (_ & Hnm & _)]]; [|contradiction].
      rewrite Hclosed in Hom by assumption. discriminate.
    + rewrite open_square by assumption. cbn zeta.
      destruct (opened p g) eqn:Hop;
        [eexists; split; [reflexivity|]; apply Hsame; reflexivity|].
      destruct (is_flagged p g) eqn:Hf;
        [eexists; split; [reflexivity|]; apply Hsame; reflexivity|].
      destruct (is_mine p g) eqn:Hmi;
        [eexists; split; [reflexivity|]; apply Hsame; reflexivity|].
      exfalso. apply Ho. repeat split; [assumption| |].
      * apply bool_decide_eq_false in Hmi. exact Hmi.
      * apply bool_decide_eq_false in Hf. exact Hf.
Qed.

(** *** Flags and question marks under [open] *)

Lemma marks_ok_flood_fill (fuel : nat) (stack : list point) (g : Game) :
  marks_ok g -> (forall q, q ∈ stack -> in_range q g = true) ->
  marks_ok (snd (flood_fill set_iter fuel stack g)).
Proof.
  revert stack g. induction fuel as [|fuel IH]; intros [|q stack] g Hok Hst;
    try exact Hok.
  pose proof Hok as (Hs & Hm & Hf & Hq & Hd).
  assert (Hin : in_range q g = true) by (apply Hst; left).
  rewrite flood_fill_round by assumption.
  destruct (opened q g) eqn:Hop.
  { apply IH; [exact Hok|]. intros q' Hq'. apply Hst. right. exact Hq'. }
  cbn zeta.
  destruct (negb (is_mine q g) && negb (is_flagged q g)) eqn:Hinside.
  - rewrite andb_true_l.
    destruct (settle_fields (mark q g)) as (_ & Esz & _).
    destruct (mark_fields q g) as (_ & Esz' & _).
    apply IH.
    + apply marks_ok_settle, marks_ok_mark; try assumption.
      apply andb_true_iff in Hinside as [_ Hnf].
      apply negb_true_iff, bool_decide_eq_false in Hnf. exact Hnf.
    + intros q' Hq'. rewrite (in_range_same_size q' g) by congruence.
      destruct (_ =? _); [|apply Hst; right; exact Hq'].
      apply elem_of_app in Hq' as [Hq'|Hq']; [apply Hst; right; exact Hq'|].
      apply list_elem_of_filter in Hq' as [Hr _]. apply Is_true_true, Hr.
  - rewrite andb_false_l.
    destruct (settle_fields g) as (_ & Esz & _).
    apply IH; [apply marks_ok_settle, Hok|].
    intros q' Hq'. rewrite (in_range_same_size q' g) by congruence.
    apply Hst. right. exact Hq'.
Qed.

Lemma marks_ok_open (q : point) (g : Game) :
  in_range q g = true -> marks_ok g -> marks_ok (snd (open set_iter q g)).
Proof.
  intros Hin Hok. destruct (decide (state g = playing)) as [Hst|Hst].
  - pose proof Hok as (Hs & _). rewrite open_square by assumption. cbn zeta.
    assert (Hok1 : marks_ok (set_last_click (Some q) g))
      by (revert Hok; apply marks_ok_same; reflexivity).
    destruct (opened q g); [exact Hok1|].
    destruct (is_flagged q g); [exact Hok1|].
    destruct (is_mine q g);
      [revert Hok; apply marks_ok_same; reflexivity|].
    apply marks_ok_flood_fill; [exact Hok1|].
    intros q' Hq'. apply list_elem_of_singleton in Hq' as ->. exact Hin.
  - unfold open, bind, get. rewrite bool_decide_eq_false_2 by assumption. exact Hok.
Qed.

(** *** The cells of a board of a game under [open] *)

Lemma game_ok_same (g g' : Game) :
  _cell_opened_grid g' = _cell_opened_grid g -> size g' = size g ->
  mine_points g' = mine_points g -> (state g' = won -> state g = won) ->
  game_ok g -> game_ok g'.
Proof.
  intros E1 E2 E3 Hst (Hs & Hm & Hc & Hw).
  split; [eapply square_same; eauto|].
  split; [intros m Hmm; rewrite (in_range_same_size m g g') by assumption;
          apply Hm; rewrite <- E3; exact Hmm|].
  split.
  - intros m Hmm. rewrite (opened_same_grid m g g') by assumption.
    apply Hc. rewrite <- E3. exact Hmm.
  - intros H. apply (cleared_same g g'); auto.
Qed.

Lemma game_ok_open (q : point) (g : Game) :
  in_range q g = true -> game_ok g -> game_ok (snd (open set_iter q g)).
Proof.
  intros Hin Hok. pose proof Hok as (Hs & Hm & Hc & Hw).
  destruct (decide (state g = playing)) as [Hst|Hst].
  - destruct (decide (openable g q)) as [Ho|Ho].
    + destruct (open_flood q g) as (g' & -> & Ipre & _ & _); try assumption.
      simpl. split; [apply Ipre|].
      split; [eapply flood_pre_mines_in_range; eauto|].
      split; [|apply Ipre].
      intros m Hmm. rewrite (fi_mines _ _ _ _ Ipre) in Hmm.
      destruct (opened m g') eqn:Hom; [|reflexivity]. exfalso.
      apply (fi_sound _ _ _ _ Ipre) in Hom; [|apply Hm, Hmm].
      destruct Hom as [Hom | [_ (_ & Hnm & _)]]; [|contradiction].
      rewrite Hc in Hom by assumption. discriminate.
    + rewrite open_square by assumption. cbn zeta.
      destruct (opened q g) eqn:Hop;
        [revert Hok; apply game_ok_same; try reflexivity; simpl; congruence|].
      destruct (is_flagged q g) eqn:Hf;
        [revert Hok; apply game_ok_same; try reflexivity; simpl; congruence|].
      destruct (is_mine q g) eqn:Hmi;
        [revert Hok; apply game_ok_same; try reflexivity; simpl; discriminate|].
      exfalso. apply Ho. repeat split; [assumption| |].
      * apply bool_decide_eq_false in Hmi. exact Hmi.
      * apply bool_decide_eq_false in Hf. exact Hf.
  - unfold open, bind, get. rewrite bool_decide_eq_false_2 by assumption. exact Hok.
Qed.

(** *** A call of [is_won] from outside *)

Lemma marks_ok_is_won (g : Game) :
  marks_ok g -> marks_ok (snd (is_won set_iter g)).
Proof.
  intros Hok. destruct (is_won_square_state g) as (s & -> & _); [apply Hok|].
  revert Hok. apply marks_ok_same; reflexivity.
Qed.

Lemma game_ok_is_won (g : Game) :
  game_ok g -> game_ok (snd (is_won set_iter g)).
Proof.
  intros (Hs & Hm & Hc & Hw).
  destruct (is_won_square_state g Hs) as (s & -> & Hcase).
  split; [exact Hs|]. split; [exact Hm|]. split; [exact Hc|].
  simpl. intros ->. apply (cleared_same g); try reflexivity.
  destruct Hcase as [Hst | [_ Hcl]]; [apply Hw; congruence | exact Hcl].
Qed.

End Reveal.

(** ** Sequences of calls *)

Section Sequences.

Context {RNG : Type}.
Abbreviation Game := (@Game RNG).
Variable randint : RNG -> Z -> Z -> option (Z * RNG).
Variable set_iter : gset point -> list point.

(** C3 (amended): on a board whose state is [won] or [lost], [open] raises
    and changes nothing; [flag], [unflag], [question] and [unquestion] leave
    the opened grid, the mines and the state as they are; [generate_board]
    leaves the opened grid as it is (it is not guarded by the state and does
    replace the mines). *)
Theorem finished_board_frozen (g : Game) (p : point) (d : option (list point)) :
  state g = won \/ state g = lost ->
  open set_iter p g = (Raise ValueError, g)
  /\ untouched g (snd (flag p g))
  /\ untouched g (snd (unflag p g))
  /\ untouched g (snd (question p g))
  /\ untouched g (snd (unquestion p g))
  /\ _cell_opened_grid (snd (generate_board randint d g)) = _cell_opened_grid g.
Proof.
  intros Hst. split; [|split; [|split; [|split; [|split]]]].
  - unfold open, bind, get. destruct Hst as [-> | ->]; reflexivity.
  - unfold flag, bind, modify, ret.
    pose proof (is_opened_state p g) as Hs.
    destruct (is_opened p g) as [[[|]|e] g1]; simpl in Hs; subst g1;
      repeat split.
  - repeat split.
  - repeat split.
  - repeat split.
  - rewrite generate_board_unfold. cbn zeta.
    destruct (sample _ _ _) as [[o picked] r'].
    destruct o as [rest|e]; [|reflexivity].
    destruct (_ =? _); reflexivity.
Qed.

Lemma reachable_run (g0 : Game) (ops : list operation) (g : Game) :
  reachable randint set_iter g0 g ->
  run_on_board randint set_iter ops g ->
  reachable randint set_iter g0 (run randint set_iter ops g).
Proof.
  revert g. induction ops as [|o ops IH]; intros g Hr Hon; [exact Hr|].
  destruct Hon as [Ho Hon]. simpl. apply IH; [|exact Hon].
  apply reachable_step; assumption.
Qed.

(** Python iterates over the elements of a set, each once. *)
Hypothesis set_iter_perm : forall s, set_iter s ≡ₚ elements s.

Lemma marks_ok_reachable (g0 g : Game) :
  marks_ok g0 -> reachable randint set_iter g0 g -> marks_ok g.
Proof.
  intros H0. induction 1 as [|g o Hr IH Hon]; [exact H0|].
  destruct o as [q|q|q|q|q|d|]; cbn [perform on_board] in *.
  - apply marks_ok_open; assumption.
  - apply marks_ok_flag; assumption.
  - apply marks_ok_unflag, IH.
  - apply marks_ok_question; assumption.
  - apply (marks_ok_unflag q), IH.
  - apply marks_ok_generate, IH.
  - rewrite snd_discard. apply marks_ok_is_won; assumption.
Qed.

(** *** What a click reveals *)

(** C1 (amended): on every board reached on a square grid and in state
    [playing], [open] on an in-bounds point that is neither a mine nor
    flagged returns normally, and the cells opened afterwards are those
    opened before together with the region [revealed]: the start point and
    what is reached from it through zero-proximity cells that were closed
    and unflagged before the call.  No mine and no flagged point is in that
    region, the mines and the flags already set are kept, and from a start
    point with a non-zero proximity count the region is the start point
    alone. *)
Theorem open_reveals (n mines : Z) (r : RNG) (p : point) (g : Game) :
  reachable randint set_iter (new_game (n, n) mines r) g ->
  state g = playing -> in_range p g = true ->
  p ∉ mine_points g -> p ∉ flagged_points g ->
  exists g',
    open set_iter p g = (Ok tt, g')
    /\ (forall q, in_range q g = true ->
          is_opened q g' = (Ok (opened q g'), g')
          /\ (opened q g' = true <-> opened q g = true \/ revealed g p q))
    /\ (forall q, revealed g p q ->
          in_range q g = true /\ (q ∉ mine_points g) /\ (q ∉ flagged_points g))
    /\ mine_points g' = mine_points g
    /\ flagged_points g ⊆ flagged_points g'
    /\ (proximity_count p g <> 0 -> forall q, revealed g p q -> q = p).
Proof.
  intros Hr. apply marks_ok_reachable in Hr as (Hs & Hm & _);
    [|apply marks_ok_new_game].
  apply open_reveals_on; assumption.
Qed.

(** *** Winning a game *)

Lemma opened_new_game (q : point) (sz : Z * Z) (n : Z) (r : RNG) :
  opened q (new_game sz n r) = false.
Proof.
  unfold opened. simpl.
  destruct (map _ _ !! _) as [row|] eqn:Hrow; [|reflexivity].
  apply list_elem_of_lookup_2, list_elem_of_In, in_map_iff in Hrow as (? & <- & _).
  destruct (replicate _ _ !! _) as [b|] eqn:Hb; [|reflexivity].
  apply lookup_replicate in Hb as [-> _]. reflexivity.
Qed.

Lemma game_ok_in_game (n mines : Z) (r : RNG) (g : Game) :
  in_game randint set_iter (new_game (n, n) mines r) g -> game_ok g.
Proof.
  induction 1 as [d g Hgen | g o Hg IH Hmove].
  - pose proof (marks_ok_generate randint d _ (marks_ok_new_game n mines r))
      as (Hs & Hm & _).
    rewrite Hgen in Hs, Hm. simpl in Hs, Hm.
    split; [exact Hs|]. split; [exact Hm|].
    assert (Egrid : _cell_opened_grid g = _cell_opened_grid (new_game (n, n) mines r)
                    /\ state g = playing).
    { revert Hgen. rewrite generate_board_unfold. cbn zeta.
      destruct (sample _ _ _) as [[o picked] r'].
      destruct o as [rest|e]; [|discriminate].
      destruct (_ =? _); [|discriminate]. intros [= <-]. split; reflexivity. }
    destruct Egrid as [Egrid Est]. split.
    + intros m _. rewrite (opened_same_grid m _ _ Egrid). apply opened_new_game.
    + rewrite Est. discriminate.
  - destruct o as [q|q|q|q|q|d|]; cbn [perform move] in *.
    + apply game_ok_open; assumption.
    + destruct IH as (Hs & IH'). rewrite flag_square by assumption. simpl.
      destruct (opened q g); [split; assumption|].
      apply (game_ok_same g); try reflexivity; [auto | split; assumption].
    + revert IH. apply game_ok_same; try reflexivity. auto.
    + revert IH. apply game_ok_same; try reflexivity. auto.
    + revert IH. apply game_ok_same; try reflexivity. auto.
    + contradiction.
    + rewrite snd_discard. apply game_ok_is_won; assumption.
Qed.

(** C2 (amended): on every board of a game on a square grid (generated
    once, then played on by calls on cells of the board), [is_won] answers
    [True] exactly when every in-bounds cell that is not a mine is opened
    and the state is not [lost]; and an [open] in state [playing] that takes
    the board from not cleared to cleared leaves the state [won] and every
    mine flagged. *)
Theorem win_detection (n mines : Z) (r : RNG) (g : Game) :
  in_game randint set_iter (new_game (n, n) mines r) g ->
  (exists b g', is_won set_iter g = (Ok b, g')
                /\ (b = true <-> cleared g /\ state g <> lost))
  /\ (forall p, state g = playing -> in_range p g = true ->
        exists g', open set_iter p g = (Ok tt, g')
                   /\ (~ cleared g -> cleared g' ->
                       state g' = won /\ mine_points g' ⊆ flagged_points g')).
Proof.
  intros Hg. apply game_ok_in_game in Hg as (Hs & Hm & Hc & Hw).
  apply win_detection_on; assumption.
Qed.

End Sequences.


(** ** What the methods keep *)

Section Frames.

Context {RNG : Type}.
Abbreviation Game := (@Game RNG).
Abbreviation lifts := (lifts (RNG:=RNG)).

#[global] Instance grows_preorder : PreOrder (grows (RNG:=RNG)).
Proof.
  split.
  - intros g. repeat split; auto.
  - intros g1 g2 g3 (H1 & H2 & H3 & H4) (H5 & H6 & H7 & H8).
    repeat split; try congruence. intros i j H. apply H8, H4, H.
Qed.

#[global] Instance state_step_preorder : PreOrder (state_step (RNG:=RNG)).
Proof.
  split.
  - intros g. left. reflexivity.
  - intros g1 g2 g3 [A|[A A']] [B|[B B']]; unfold state_step.
    + left. congruence.
    + right. split; congruence.
    + right. split; congruence.
    + right. split; congruence.
Qed.

#[global] Instance floods_preorder : PreOrder (floods (RNG:=RNG)).
Proof.
  split.
  - intros g. unfold floods. repeat split; auto; set_solver.
  - intros g1 g2 g3 (A1 & A2 & A3 & A4 & A5 & A6) (B1 & B2 & B3 & B4 & B5 & B6).
    unfold floods. rewrite A2 in B4, B6.
    split; [congruence|]. split; [congruence|].
    split; [set_solver|]. split; [set_solver|]. split; set_solver.
Qed.

Lemma all_opened_loop_state (pts : list point) (g : Game) :
  snd (all_opened_loop pts g) = g.
Proof.
  induction pts as [|p pts IH]; [reflexivity|].
  cbn [all_opened_loop]. unfold bind.
  pose proof (is_opened_state p g) as Hs.
  destruct (is_opened p g) as [[[|]|e] g1]; simpl in Hs; subst g1; auto.
Qed.


Lemma entry_insert (g : Game) (i j : nat) (row : list bool) :
  _cell_opened_grid g !! i = Some row ->
  grows g (set_grid (<[i := <[j := true]> row]> (_cell_opened_grid g)) g).
Proof.
  intros Hrow. unfold grows. simpl. repeat split.
  - rewrite list_fmap_insert, length_insert.
    apply list_insert_id. rewrite list_lookup_fmap, Hrow. reflexivity.
  - intros i' j'. unfold entry. simpl.
    destruct (decide (i' = i)) as [->|Hi].
    + rewrite Hrow. simpl. intros Hj.
      rewrite list_lookup_insert_eq by (eapply lookup_lt_Some; eassumption). simpl.
      destruct (decide (j' = j)) as [->|Hj'].
      * apply list_lookup_insert_eq. eapply lookup_lt_Some; eassumption.
      * rewrite list_lookup_insert_ne by congruence. exact Hj.
    + rewrite list_lookup_insert_ne by congruence. auto.
Qed.

(** [_set_opened] either raises and leaves the board as it is, or sets one
    entry of one row. *)
Lemma set_opened_outcome (p : point) (g : Game) :
  snd (_set_opened p g) = g
  \/ exists i j row,
       _cell_opened_grid g !! i = Some row
       /\ snd (_set_opened p g)
          = set_grid (<[i := <[j := true]> row]> (_cell_opened_grid g)) g.
Proof.
  unfold _set_opened.
  destruct (py_index (_cell_opened_grid g) (fst p)) as [i|]; [|left; reflexivity].
  destruct (_cell_opened_grid g !! i) as [row|] eqn:Hrow; [|left; reflexivity].
  unfold setitem. destruct (py_index row (snd p)) as [j|]; [|left; reflexivity].
  right. exists i, j, row. split; [exact Hrow | reflexivity].
Qed.

(** [flag] either leaves the board as it is (the cell is opened, or the
    index is out of the grid), or moves the point into the flagged set. *)
Lemma flag_outcome (p : point) (g : Game) :
  snd (flag p g) = g
  \/ (is_opened p g = (Ok false, g)
      /\ flag p g
         = (Ok tt, set_questioned_points (questioned_points g ∖ {[p]})
                     (set_flagged_points ({[p]} ∪ flagged_points g) g))).
Proof.
  unfold flag, bind, modify, ret.
  pose proof (is_opened_state p g) as Hs.
  destruct (is_opened p g) as [[[|]|e] g1]; simpl in *; subst g1; auto.
Qed.

Section Iteration.

Variable set_iter : gset point -> list point.

(** [is_won] either leaves the board as it is, or records the win of a
    board that was neither won nor lost. *)
Lemma is_won_outcome (g : Game) :
  snd (is_won set_iter g) = g
  \/ (state g <> won /\ state g <> lost
      /\ is_won set_iter g = (Ok true, set_state won g)).
Proof.
  unfold is_won, bind, get.
  destruct (state g) eqn:Hst; try (left; reflexivity).
  - match goal with |- context [all_opened_loop ?l g] =>
      pose proof (all_opened_loop_state l g) as Hs;
      destruct (all_opened_loop l g) as [[[|]|e] g1] end;
      simpl in Hs; subst g1; auto; right; repeat split; congruence.
  - match goal with |- context [all_opened_loop ?l g] =>
      pose proof (all_opened_loop_state l g) as Hs;
      destruct (all_opened_loop l g) as [[[|]|e] g1] end;
      simpl in Hs; subst g1; auto; right; repeat split; congruence.
Qed.

Lemma grows_set_opened (p : point) : lifts grows (_set_opened p).
Proof.
  intros g. destruct (set_opened_outcome p g) as [->|(i & j & row & Hrow & ->)].
  - reflexivity.
  - apply entry_insert, Hrow.
Qed.

Lemma grows_same_grid (g g' : Game) :
  _cell_opened_grid g' = _cell_opened_grid g -> size g' = size g ->
  mine_count g' = mine_count g -> grows g g'.
Proof.
  intros H1 H2 H3. unfold grows, entry. rewrite H1. repeat split; auto.
Qed.

Lemma grows_flag (p : point) : lifts grows (flag p).
Proof.
  intros g. destruct (flag_outcome p g) as [->|[_ ->]]; [reflexivity|].
  apply grows_same_grid; reflexivity.
Qed.

Lemma grows_is_won : lifts grows (is_won set_iter).
Proof.
  intros g. destruct (is_won_outcome g) as [->|(_ & _ & ->)]; [reflexivity|].
  apply grows_same_grid; reflexivity.
Qed.

Lemma grows_flag_all_mines : lifts grows (_flag_all_mines set_iter).
Proof.
  unfold _flag_all_mines. apply lifts_bind; [exact _ | apply lifts_get; exact _ |].
  intros g. apply lifts_for_each; [exact _|]. apply grows_flag.
Qed.

(** A relation kept by the three calls of a round is kept by the loop,
    and one kept besides by the assignments of [open] is kept by [open]. *)
Lemma lifts_flood_fill (R : Game -> Game -> Prop) `{!PreOrder R}
    (fuel : nat) (stack : list point) :
  (forall p, lifts R (_set_opened p)) ->
  lifts R (is_won set_iter) -> lifts R (_flag_all_mines set_iter) ->
  lifts R (flood_fill set_iter fuel stack).
Proof.
  intros Hset Hwon Hflag.
  revert stack. induction fuel as [|fuel IH]; intros [|p stack];
    try (apply lifts_ret; exact _); try (apply lifts_raise; exact _).
  cbn [flood_fill].
  apply lifts_bind; [exact _ | apply lifts_is_opened; exact _ |].
  intros [|]; [apply IH|].
  apply lifts_bind; [exact _ | apply lifts_get; exact _ |]. intros g.
  apply lifts_bind; [exact _ | |].
  { destruct (_ && _); [apply Hset | apply lifts_ret; exact _]. }
  intros _. apply lifts_bind; [exact _ | apply lifts_get; exact _ |]. intros g1.
  apply lifts_bind; [exact _ | apply Hwon |]. intros w.
  apply lifts_bind; [exact _ | |].
  { destruct w; [apply Hflag | apply lifts_ret; exact _]. }
  intros _. apply IH.
Qed.

Lemma lifts_open (R : Game -> Game -> Prop) `{!PreOrder R} (p : point) :
  (forall q, lifts R (_set_opened q)) ->
  lifts R (is_won set_iter) -> lifts R (_flag_all_mines set_iter) ->
  (forall g, R g (set_last_click (Some p) g)) ->
  (forall g, state g = playing -> R g (set_state lost g)) ->
  lifts R (open set_iter p).
Proof.
  intros Hset Hwon Hflag Hclick Hlost g.
  unfold open, bind, get, modify.
  destruct (bool_decide (state g = playing)) eqn:Hst; simpl; [|reflexivity].
  apply bool_decide_eq_true in Hst.
  pose proof (is_opened_state p (set_last_click (Some p) g)) as Hs.
  destruct (is_opened p (set_last_click (Some p) g)) as [[[|]|e] g1];
    simpl in Hs; subst g1; simpl; try apply Hclick.
  destruct (is_flagged p _); [apply Hclick|].
  destruct (is_mine p _).
  - simpl. etransitivity; [apply Hclick|]. apply Hlost. exact Hst.
  - etransitivity; [apply Hclick|].
    apply lifts_flood_fill; assumption.
Qed.

Lemma grows_open (p : point) : lifts grows (open set_iter p).
Proof.
  apply lifts_open; try exact _.
  - apply grows_set_opened.
  - apply grows_is_won.
  - apply grows_flag_all_mines.
  - intros g. apply grows_same_grid; reflexivity.
  - intros g _. apply grows_same_grid; reflexivity.
Qed.

(** The state along a click. *)
Lemma state_step_is_won : lifts state_step (is_won set_iter).
Proof.
  intros g. destruct (is_won_outcome g) as [->|(_ & Hl & ->)]; [reflexivity|].
  right. split; [exact Hl | reflexivity].
Qed.

Lemma state_step_flag (p : point) : lifts state_step (flag p).
Proof.
  intros g. destruct (flag_outcome p g) as [->|[_ ->]]; [reflexivity|].
  left. reflexivity.
Qed.

Lemma state_step_set_opened (p : point) : lifts state_step (_set_opened p).
Proof.
  intros g. destruct (set_opened_outcome p g) as [->|(i & j & row & _ & ->)];
    [reflexivity|]. left. reflexivity.
Qed.

Lemma state_step_flag_all_mines : lifts state_step (_flag_all_mines set_iter).
Proof.
  unfold _flag_all_mines. apply lifts_bind; [exact _ | apply lifts_get; exact _ |].
  intros g. apply lifts_for_each; [exact _|]. apply state_step_flag.
Qed.

Lemma state_step_flood_fill (fuel : nat) (stack : list point) :
  lifts state_step (flood_fill set_iter fuel stack).
Proof.
  apply lifts_flood_fill; try exact _.
  - apply state_step_set_opened.
  - apply state_step_is_won.
  - apply state_step_flag_all_mines.
Qed.

(** [open] on a board that is not being played only raises; on one that
    is, it starts by recording the click. *)
Lemma open_not_playing (p : point) (g : Game) :
  state g <> playing -> open set_iter p g = (Raise ValueError, g).
Proof.
  intros H. unfold open, bind, get.
  rewrite bool_decide_eq_false_2 by exact H. reflexivity.
Qed.

Lemma open_playing (p : point) (g : Game) :
  state g = playing ->
  open set_iter p g
  = (let g1 := set_last_click (Some p) g in
     match is_opened p g1 with
     | (Ok true, _) => (Ok tt, g1)
     | (Ok false, _) =>
         if is_flagged p g1 then (Ok tt, g1)
         else if is_mine p g1 then (Ok tt, set_state lost g1)
         else flood_fill set_iter (flood_bound g1 [p]) [p] g1
     | (Raise e, _) => (Raise e, g1)
     end).
Proof.
  intros H. unfold open, bind, get, modify.
  rewrite bool_decide_eq_true_2 by exact H. cbv beta iota zeta delta [negb].
  pose proof (is_opened_state p (set_last_click (Some p) g)) as Hs.
  destruct (is_opened p (set_last_click (Some p) g)) as [[[|]|e] g1];
    simpl in Hs; subst g1; try reflexivity.
  destruct (is_flagged _ _); [reflexivity|].
  destruct (is_mine _ _); reflexivity.
Qed.

End Iteration.


Lemma py_index_length {A B} (l : list A) (l' : list B) (i : Z) :
  length l = length l' -> py_index l i = py_index l' i.
Proof. intros H. unfold py_index. rewrite H. reflexivity. Qed.

(** What [is_opened] answers is an entry of the grid. *)
Lemma is_opened_entry (q : point) (g : Game) (b : bool) :
  is_opened q g = (Ok b, g)
  <-> exists i j, py_index (_cell_opened_grid g) (fst q) = Some i
        /\ (forall row, _cell_opened_grid g !! i = Some row ->
              py_index row (snd q) = Some j)
        /\ entry g i j = Some b.
Proof.
  unfold is_opened, getitem, entry. split.
  - destruct (py_index (_cell_opened_grid g) (fst q)) as [i|]; [|discriminate].
    destruct (_cell_opened_grid g !! i) as [row|] eqn:Hrow; [|discriminate].
    destruct (py_index row (snd q)) as [j|] eqn:Hj; [|discriminate].
    destruct (row !! j) as [b'|] eqn:Hb; [|discriminate].
    intros [= ->]. exists i, j. split; [reflexivity|]. split.
    + intros row' Hr. rewrite Hrow in Hr. injection Hr as <-. exact Hj.
    + rewrite Hrow. simpl. exact Hb.
  - intros (i & j & -> & Hj & Hb).
    destruct (_cell_opened_grid g !! i) as [row|]; [|discriminate].
    rewrite (Hj row eq_refl). simpl in Hb. rewrite Hb. reflexivity.
Qed.

Lemma grows_is_opened (q : point) (g g' : Game) :
  grows g g' ->
  is_opened q g = (Ok true, g) -> is_opened q g' = (Ok true, g').
Proof.
  intros (_ & _ & Hlen & Hmono) H.
  apply is_opened_entry in H as (i & j & Hi & Hj & Hb).
  apply is_opened_entry. exists i, j. split; [|split].
  - rewrite <- Hi. apply py_index_length.
    rewrite <- (length_fmap length (_cell_opened_grid g')), Hlen.
    apply length_fmap.
  - intros row' Hrow'.
    unfold entry in Hb.
    destruct (_cell_opened_grid g !! i) as [row|] eqn:Hrow; [|discriminate].
    rewrite <- (Hj row eq_refl). apply py_index_length.
    assert (Hl : (length <$> _cell_opened_grid g') !! i
                 = (length <$> _cell_opened_grid g) !! i) by (rewrite Hlen; reflexivity).
    rewrite !list_lookup_fmap, Hrow, Hrow' in Hl. simpl in Hl. congruence.
  - apply Hmono, Hb.
Qed.

Lemma grows_grid_shape (g g' : Game) : grows g g' -> grid_shape g -> grid_shape g'.
Proof.
  intros (Hsz & _ & Hlen & _) [H1 H2]. unfold grid_shape. rewrite Hsz. split.
  - rewrite <- H1, <- (length_fmap length (_cell_opened_grid g')), Hlen.
    apply length_fmap.
  - apply (Forall_fmap length (fun n => n = Z.to_nat (fst (size g)))).
    rewrite Hlen. apply Forall_fmap. exact H2.
Qed.

Section Calls.

Variable randint : RNG -> Z -> Z -> option (Z * RNG).
Variable set_iter : gset point -> list point.

Lemma generate_board_cases (d : option (list point)) (g : Game) :
  exists mines r,
    let g1 := set_mine_points mines (set_random r g) in
    (exists e, generate_board randint d g = (Raise e, g1))
    \/ generate_board randint d g
       = (Ok tt, set_last_click None (set_state playing g1)).
Proof.
  rewrite generate_board_unfold. cbv zeta.
  destruct (sample _ _ _ _) as [[[rest|e] picked] r'].
  - exists (list_to_set picked), r'. destruct (_ =? _); eauto.
  - exists (list_to_set picked), r'. eauto.
Qed.

Lemma grows_generate_board (d : option (list point)) :
  lifts grows (generate_board randint d).
Proof.
  intros g. destruct (generate_board_cases d g) as (m & r & [[e ->] | ->]);
    apply grows_same_grid; reflexivity.
Qed.

Lemma grows_perform (o : operation) : lifts grows (perform randint set_iter o).
Proof.
  destruct o as [p|p|p|p|p|d|]; simpl.
  - apply grows_open.
  - apply grows_flag.
  - intros g. apply grows_same_grid; reflexivity.
  - intros g. apply grows_same_grid; reflexivity.
  - intros g. apply grows_same_grid; reflexivity.
  - apply grows_generate_board.
  - intros g. rewrite snd_discard. apply grows_is_won.
Qed.

Lemma grows_run (ops : list operation) (g : Game) :
  grows g (run randint set_iter ops g).
Proof.
  revert g. induction ops as [|o ops IH]; intros g; simpl; [reflexivity|].
  etransitivity; [apply grows_perform | apply IH].
Qed.

(** X1: no call of any method, in any order and on any board, changes the size
    of the board, its number of mines or the shape of its grid, and a cell
    that [is_opened] reports opened is reported opened ever after. *)
Theorem opened_stays_opened (ops : list operation) (g : Game) :
  let g' := run randint set_iter ops g in
  size g' = size g
  /\ mine_count g' = mine_count g
  /\ (grid_shape g -> grid_shape g')
  /\ (forall q, is_opened q g = (Ok true, g) -> is_opened q g' = (Ok true, g')).
Proof.
  cbv zeta. pose proof (grows_run ops g) as H.
  split; [apply H|]. split; [apply H|]. split.
  - apply grows_grid_shape, H.
  - intros q. apply grows_is_opened, H.
Qed.

(** X2: the transitions of the state: the marking methods leave it alone;
    [generate_board] sets it to [playing] when it returns; [open] raises
    [ValueError] and changes nothing unless it is [playing], and then leaves
    it [playing] or ends the game; [is_won] can only record a win of a board
    that is neither won nor lost.  No call sets it back to [idle]. *)
Theorem state_machine (o : operation) (g : Game) :
  let g' := snd (perform randint set_iter o g) in
  match o with
  | Flag _ | Unflag _ | Question _ | Unquestion _ => state g' = state g
  | Generate _ =>
      (fst (perform randint set_iter o g) = Ok tt /\ state g' = playing)
      \/ ((exists e, fst (perform randint set_iter o g) = Raise e)
          /\ state g' = state g)
  | Open _ =>
      (state g <> playing
       /\ perform randint set_iter o g = (Raise ValueError, g))
      \/ (state g = playing
          /\ (state g' = playing \/ state g' = won \/ state g' = lost))
  | IsWon =>
      state g' = state g
      \/ ((state g = idle \/ state g = playing) /\ state g' = won)
  end
  /\ (state g' = idle -> state g = idle).
Proof.
  cbv zeta.
  assert (Hmain :
    match o with
    | Flag _ | Unflag _ | Question _ | Unquestion _ =>
        state (snd (perform randint set_iter o g)) = state g
    | Generate _ =>
        (fst (perform randint set_iter o g) = Ok tt
         /\ state (snd (perform randint set_iter o g)) = playing)
        \/ ((exists e, fst (perform randint set_iter o g) = Raise e)
            /\ state (snd (perform randint set_iter o g)) = state g)
    | Open _ =>
        (state g <> playing
         /\ perform randint set_iter o g = (Raise ValueError, g))
        \/ (state g = playing
            /\ (state (snd (perform randint set_iter o g)) = playing
                \/ state (snd (perform randint set_iter o g)) = won
                \/ state (snd (perform randint set_iter o g)) = lost))
    | IsWon =>
        state (snd (perform randint set_iter o g)) = state g
        \/ ((state g = idle \/ state g = playing)
            /\ state (snd (perform randint set_iter o g)) = won)
    end).
  { destruct o as [p|p|p|p|p|d|]; simpl.
    - destruct (decide (state g = playing)) as [Hst|Hst].
      + right. split; [exact Hst|].
        rewrite (open_playing set_iter p g Hst). cbv zeta.
        pose proof (is_opened_state p (set_last_click (Some p) g)) as Hs.
        destruct (is_opened p (set_last_click (Some p) g)) as [[[|]|e] g1];
          simpl in Hs; subst g1; simpl; auto.
        destruct (is_flagged p _); simpl; auto.
        destruct (is_mine p _); simpl; auto.
        destruct (state_step_flood_fill set_iter
                    (flood_bound (set_last_click (Some p) g) [p]) [p]
                    (set_last_click (Some p) g)) as [H|[_ H]].
        * left. rewrite H. exact Hst.
        * right. left. exact H.
      + left. split; [exact Hst|]. apply open_not_playing, Hst.
    - destruct (flag_outcome p g) as [->|[_ ->]]; reflexivity.
    - reflexivity.
    - reflexivity.
    - reflexivity.
    - destruct (generate_board_cases d g) as (m & r & [[e ->] | ->]); simpl.
      + right. split; [exists e|]; reflexivity.
      + left. split; reflexivity.
    - rewrite snd_discard.
      destruct (is_won_outcome set_iter g) as [->|(Hw & Hl & ->)]; [left; reflexivity|].
      right. split; [|reflexivity].
      destruct (state g); try congruence; auto. }
  split; [exact Hmain|].
  intros Hidle. destruct o as [p|p|p|p|p|d|]; try congruence.
  - destruct Hmain as [[_ H]|[_ H]].
    + rewrite H in Hidle. exact Hidle.
    + destruct H as [H|[H|H]]; congruence.
  - destruct Hmain as [[_ H]|[_ H]]; congruence.
  - destruct Hmain as [H|[_ H]]; congruence.
Qed.

(** X3: a second call of [is_won] gives the answer of the first and changes
    nothing: the first call changes nothing but the state, and the state
    only into [won]. *)
Theorem is_won_memoised (g : Game) :
  let g' := snd (is_won set_iter g) in
  is_won set_iter g' = (fst (is_won set_iter g), g')
  /\ (g' = g \/ (fst (is_won set_iter g) = Ok true /\ g' = set_state won g)).
Proof.
  cbv zeta. destruct (is_won_outcome set_iter g) as [H|(Hw & Hl & H)].
  - rewrite H. split; [|left; reflexivity].
    rewrite <- H at 3. apply surjective_pairing.
  - rewrite H. simpl. split; [|right; split; reflexivity].
    reflexivity.
Qed.

End Calls.

End Frames.

(** ** Flags and question marks on boards of any shape *)

Section AnyShape.

Context {RNG : Type}.
Abbreviation Game := (@Game RNG).
Variable randint : RNG -> Z -> Z -> option (Z * RNG).
Variable set_iter : gset point -> list point.

Lemma getitem_nonneg {A} (l : list A) (i : Z) :
  0 <= i -> getitem l i = l !! Z.to_nat i.
Proof.
  intros Hi. unfold getitem, py_index.
  destruct (0 <=? i) eqn:E1; [|lia].
  destruct (i <? Z.of_nat (length l)) eqn:E2; [reflexivity|].
  destruct (i <? 0) eqn:E3; [lia|]. rewrite !andb_false_r.
  symmetry. apply lookup_ge_None. lia.
Qed.

Lemma setitem_nonneg {A} (l l' : list A) (i : Z) (v : A) :
  0 <= i -> setitem l i v = Some l' -> l' = <[Z.to_nat i := v]> l.
Proof.
  intros Hi. unfold setitem, py_index.
  destruct (0 <=? i) eqn:E1; [|lia].
  destruct (i <? Z.of_nat (length l)) eqn:E2; [intros [= <-]; reflexivity|].
  destruct (i <? 0) eqn:E3; [lia|]. rewrite !andb_false_r. discriminate.
Qed.

(** On a cell with coordinates that are not negative, [is_opened] reads the
    entry of the grid at these coordinates. *)
Lemma is_opened_nonneg (q : point) (g : Game) :
  0 <= fst q -> 0 <= snd q ->
  fst (is_opened q g)
  = match entry g (Z.to_nat (fst q)) (Z.to_nat (snd q)) with
    | Some b => Ok b
    | None => Raise IndexError
    end.
Proof.
  intros Hx Hy. unfold is_opened, entry. rewrite getitem_nonneg by assumption.
  destruct (_cell_opened_grid g !! Z.to_nat (fst q)) as [row|]; [|reflexivity].
  simpl. rewrite getitem_nonneg by assumption.
  destruct (row !! Z.to_nat (snd q)); reflexivity.
Qed.

(** On such a cell [_set_opened] leaves the board as it is or sets the
    entry at its coordinates. *)
Lemma set_opened_nonneg (p : point) (g : Game) :
  0 <= fst p -> 0 <= snd p ->
  snd (_set_opened p g) = g
  \/ exists row,
       _cell_opened_grid g !! Z.to_nat (fst p) = Some row
       /\ snd (_set_opened p g)
          = set_grid (<[Z.to_nat (fst p) := <[Z.to_nat (snd p) := true]> row]>
                        (_cell_opened_grid g)) g.
Proof.
  intros Hx Hy. unfold _set_opened.
  destruct (py_index (_cell_opened_grid g) (fst p)) as [i|] eqn:Hi; [|left; reflexivity].
  assert (i = Z.to_nat (fst p)) as ->.
  { unfold py_index in Hi. destruct (0 <=? fst p) eqn:E1; [|lia].
    destruct (fst p <? _) eqn:E2; [injection Hi as <-; reflexivity|].
    destruct (fst p <? 0) eqn:E3; [lia|]. rewrite !andb_false_r in Hi. discriminate. }
  destruct (_cell_opened_grid g !! Z.to_nat (fst p)) as [row|] eqn:Hrow;
    [|left; reflexivity].
  destruct (setitem row (snd p) true) as [row'|] eqn:Hset; [|left; reflexivity].
  apply setitem_nonneg in Hset as ->; [|exact Hy].
  right. exists row. split; reflexivity.
Qed.

Lemma entry_insert_ne (g : Game) (i j i' j' : nat) (row : list bool) :
  _cell_opened_grid g !! i = Some row -> (i', j') <> (i, j) ->
  entry (set_grid (<[i := <[j := true]> row]> (_cell_opened_grid g)) g) i' j'
  = entry g i' j'.
Proof.
  intros Hrow Hne. unfold entry. simpl.
  destruct (decide (i' = i)) as [->|Hi].
  - rewrite list_lookup_insert_eq by (eapply lookup_lt_Some; eassumption).
    rewrite Hrow. simpl. apply list_lookup_insert_ne. congruence.
  - rewrite list_lookup_insert_ne by congruence. reflexivity.
Qed.

Lemma marks_sound_mines (g g' : Game) :
  _cell_opened_grid g' = _cell_opened_grid g -> size g' = size g ->
  flagged_points g' = flagged_points g ->
  questioned_points g' = questioned_points g ->
  mines_in_range g' -> marks_sound g -> marks_sound g'.
Proof.
  intros E1 E2 E4 E5 Hm' (Hm & Hf & Hq & Hd).
  unfold marks_sound. rewrite E4, E5.
  split; [exact Hm'|]. split; [|split; [|exact Hd]].
  - intros q Hqf. rewrite (in_range_same_size q g g') by assumption.
    rewrite (is_opened_grid q g g' E1). simpl. auto.
  - intros q Hqq. rewrite (in_range_same_size q g g'); auto.
Qed.

Lemma marks_sound_same (g g' : Game) :
  _cell_opened_grid g' = _cell_opened_grid g -> size g' = size g ->
  mine_points g' = mine_points g -> flagged_points g' = flagged_points g ->
  questioned_points g' = questioned_points g ->
  marks_sound g -> marks_sound g'.
Proof.
  intros E1 E2 E3 E4 E5 Hok. apply (marks_sound_mines g g'); try assumption.
  destruct Hok as [Hm _]. intros m Hmm. rewrite E3 in Hmm.
  rewrite (in_range_same_size m g g'); auto.
Qed.

Lemma marks_sound_new_game (sz : Z * Z) (mines : Z) (r : RNG) :
  marks_sound (new_game sz mines r).
Proof.
  split; [intros m Hm; simpl in Hm; set_solver|].
  split; [intros q Hq; simpl in Hq; set_solver|].
  split; [intros q Hq; simpl in Hq; set_solver|].
  simpl. set_solver.
Qed.

(** The answers on a board with the same grid and size. *)
Ltac same_cell q g :=
  match goal with
  | |- in_range q ?g' = true /\ fst (is_opened q ?g') = _ =>
      rewrite (is_opened_grid q g g' eq_refl), (in_range_same_size q g g' eq_refl);
      cbn [fst]
  end.

Lemma flag_size (p : point) (g : Game) : size (snd (flag p g)) = size g.
Proof. destruct (flag_outcome p g) as [->|[_ ->]]; reflexivity. Qed.

Lemma marks_sound_flag (p : point) (g : Game) :
  in_range p g = true -> marks_sound g -> marks_sound (snd (flag p g)).
Proof.
  intros Hin Hok. destruct (flag_outcome p g) as [->|[Hop ->]]; [exact Hok|].
  destruct Hok as (Hm & Hf & Hq & Hd). cbn [snd].
  split; [exact Hm|]. split; [|split].
  - intros q Hqf. simpl in Hqf.
    same_cell q g.
    apply elem_of_union in Hqf as [Hqf|Hqf]; [|apply Hf, Hqf].
    apply elem_of_singleton in Hqf as ->. rewrite Hop. auto.
  - intros q Hqq. simpl in Hqq. change (in_range q g = true). apply Hq. set_solver.
  - simpl. set_solver.
Qed.

Lemma marks_sound_unflag (p : point) (g : Game) :
  marks_sound g -> marks_sound (snd (unflag p g)).
Proof.
  intros (Hm & Hf & Hq & Hd). split; [exact Hm|]. split; [|split].
  - intros q Hqf. simpl in Hqf.
    same_cell q g.
    apply Hf. set_solver.
  - intros q Hqq. simpl in Hqq. change (in_range q g = true). apply Hq. set_solver.
  - simpl. set_solver.
Qed.

Lemma marks_sound_question (p : point) (g : Game) :
  in_range p g = true -> marks_sound g -> marks_sound (snd (question p g)).
Proof.
  intros Hin (Hm & Hf & Hq & Hd). split; [exact Hm|]. split; [|split].
  - intros q Hqf. simpl in Hqf.
    same_cell q g.
    apply Hf. set_solver.
  - intros q Hqq. simpl in Hqq. change (in_range q g = true).
    apply elem_of_union in Hqq as [Hqq|Hqq]; [|apply Hq, Hqq].
    apply elem_of_singleton in Hqq as ->. exact Hin.
  - simpl. set_solver.
Qed.

Lemma marks_sound_generate (d : option (list point)) (g : Game) :
  marks_sound g -> marks_sound (snd (generate_board randint d g)).
Proof.
  intros Hok. rewrite generate_board_unfold. cbn zeta.
  destruct (sample _ _ _) as [[o picked] r'] eqn:Hsample.
  assert (Hin : forall m, m ∈ (list_to_set picked : gset point) -> in_range m g = true).
  { intros m Hmm. apply elem_of_list_to_set in Hmm.
    eapply sample_picked in Hmm; [|exact Hsample].
    apply list_elem_of_filter in Hmm as [_ Hmm].
    apply in_range_iff, elem_of_all_points, Hmm. }
  destruct o as [rest|e]; [destruct (_ =? _)|]; simpl;
    (apply (marks_sound_mines g); [reflexivity.. | exact Hin | exact Hok]).
Qed.

Lemma marks_sound_is_won (g : Game) :
  marks_sound g -> marks_sound (snd (is_won set_iter g)).
Proof.
  intros Hok. destruct (is_won_outcome set_iter g) as [->|(_ & _ & ->)]; [exact Hok|].
  revert Hok. apply marks_sound_same; reflexivity.
Qed.

(** [_set_opened] on a cell of the board that has no flag. *)
Lemma marks_sound_set_opened (p : point) (g : Game) :
  in_range p g = true -> p ∉ flagged_points g ->
  marks_sound g -> marks_sound (snd (_set_opened p g)).
Proof.
  intros Hin Hnf Hok. apply in_range_iff in Hin as [Hx Hy].
  destruct (set_opened_nonneg p g) as [->|(row & Hrow & ->)]; try lia; [exact Hok|].
  destruct Hok as (Hm & Hf & Hq & Hd).
  split; [exact Hm|]. split; [|split; [exact Hq | exact Hd]].
  intros q Hqf. destruct (Hf q Hqf) as [Hqin Hqo].
  split; [exact Hqin|].
  apply in_range_iff in Hqin as [Hqx Hqy].
  rewrite is_opened_nonneg in Hqo |- * by lia.
  rewrite entry_insert_ne; [exact Hqo | exact Hrow |].
  intros [= E1 E2]. apply Hnf.
  assert (q = p) as <-; [|exact Hqf].
  destruct q as [qx qy], p as [px py]; simpl in *. f_equal; lia.
Qed.

Lemma marks_sound_for_each_flag (l : list point) (g : Game) :
  (forall m, m ∈ l -> in_range m g = true) ->
  marks_sound g -> marks_sound (snd (for_each l flag g)).
Proof.
  revert g. induction l as [|x l IH]; intros g Hl Hok; [exact Hok|].
  cbn [for_each]. unfold bind.
  pose proof (marks_sound_flag x g (Hl x ltac:(left)) Hok) as Hok1.
  pose proof (flag_size x g) as Hsz.
  destruct (flag x g) as [[[]|e] g1]; simpl in *; [|exact Hok1].
  apply IH; [|exact Hok1].
  intros m Hm. rewrite (in_range_same_size m g g1 Hsz). apply Hl. right. exact Hm.
Qed.

(** Python iterates over the elements of a set, each once. *)
Hypothesis set_iter_perm : forall s, set_iter s ≡ₚ elements s.

Lemma marks_sound_flag_all_mines (g : Game) :
  marks_sound g -> marks_sound (snd (_flag_all_mines set_iter g)).
Proof.
  intros Hok. unfold _flag_all_mines, bind, get.
  apply marks_sound_for_each_flag; [|exact Hok].
  intros m Hm. rewrite set_iter_perm in Hm. apply elem_of_elements in Hm.
  destruct Hok as (Hmines & _). apply Hmines, Hm.
Qed.

Lemma marks_sound_flood_fill (fuel : nat) (stack : list point) (g : Game) :
  marks_sound g -> (forall q, q ∈ stack -> in_range q g = true) ->
  marks_sound (snd (flood_fill set_iter fuel stack g)).
Proof.
  revert stack g. induction fuel as [|fuel IH]; intros [|p stack] g Hok Hst;
    try exact Hok.
  assert (Hin : in_range p g = true) by (apply Hst; left).
  assert (Hrest : forall q, q ∈ stack -> in_range q g = true)
    by (intros q Hq; apply Hst; right; exact Hq).
  cbn [flood_fill]. unfold bind at 1.
  pose proof (is_opened_state p g) as Hs.
  destruct (is_opened p g) as [[[|]|e] g0]; simpl in Hs; subst g0;
    [apply IH; assumption | | exact Hok].
  unfold bind at 1. unfold get at 1.
  set (inside := negb (is_mine p g) && negb (is_flagged p g)).
  unfold bind at 1.
  assert (H1 : marks_sound (snd ((if inside then _set_opened p else ret tt) g))
               /\ size (snd ((if inside then _set_opened p else ret tt) g)) = size g).
  { destruct inside eqn:Hinside; [|split; [exact Hok | reflexivity]].
    split; [|apply (grows_set_opened p g)].
    apply marks_sound_set_opened; try assumption.
    apply andb_true_iff in Hinside as [_ Hnf].
    apply negb_true_iff, bool_decide_eq_false in Hnf. exact Hnf. }
  destruct ((if inside then _set_opened p else ret tt) g) as [[[]|e] g1];
    simpl in H1; destruct H1 as [Hok1 Hsz1]; [|exact Hok1].
  unfold bind at 1. unfold get at 1.
  unfold bind at 1.
  pose proof (marks_sound_is_won g1 Hok1) as Hok2.
  pose proof (grows_is_won set_iter g1) as (Hsz2 & _).
  destruct (is_won set_iter g1) as [[w|e] g2]; simpl in Hok2, Hsz2; [|exact Hok2].
  unfold bind at 1.
  assert (H3 : marks_sound (snd ((if w then _flag_all_mines set_iter else ret tt) g2))
               /\ size (snd ((if w then _flag_all_mines set_iter else ret tt) g2))
                  = size g2).
  { destruct w; [|split; [exact Hok2 | reflexivity]].
    split; [apply marks_sound_flag_all_mines, Hok2|].
    apply (grows_flag_all_mines set_iter g2). }
  destruct ((if w then _flag_all_mines set_iter else ret tt) g2) as [[[]|e] g3];
    simpl in H3; destruct H3 as [Hok3 Hsz3]; [|exact Hok3].
  apply IH; [exact Hok3|].
  assert (Hsz : size g3 = size g) by congruence.
  intros q Hq. rewrite (in_range_same_size q g g3 Hsz).
  destruct (inside && _); [|apply Hrest, Hq].
  apply elem_of_app in Hq as [Hq|Hq]; [apply Hrest, Hq|].
  apply list_elem_of_filter in Hq as [Hr _].
  rewrite <- (in_range_same_size q g g1 Hsz1). apply Is_true_true, Hr.
Qed.

Lemma marks_sound_open (p : point) (g : Game) :
  in_range p g = true -> marks_sound g -> marks_sound (snd (open set_iter p g)).
Proof.
  intros Hin Hok. destruct (decide (state g = playing)) as [Hst|Hst].
  - rewrite (open_playing set_iter p g Hst). cbv zeta.
    assert (Hok1 : marks_sound (set_last_click (Some p) g))
      by (revert Hok; apply marks_sound_same; reflexivity).
    pose proof (is_opened_state p (set_last_click (Some p) g)) as Hs.
    destruct (is_opened p (set_last_click (Some p) g)) as [[[|]|e] g1];
      simpl in Hs; subst g1; simpl; try exact Hok1.
    destruct (is_flagged p _); [exact Hok1|].
    destruct (is_mine p _);
      [revert Hok; apply marks_sound_same; reflexivity|].
    apply marks_sound_flood_fill; [exact Hok1|].
    intros q Hq. apply list_elem_of_singleton in Hq as ->. exact Hin.
  - unfold open, bind, get. rewrite bool_decide_eq_false_2 by assumption. exact Hok.
Qed.

Lemma marks_sound_reachable (g0 g : Game) :
  marks_sound g0 -> reachable randint set_iter g0 g -> marks_sound g.
Proof.
  intros H0. induction 1 as [|g o Hr IH Hon]; [exact H0|].
  destruct o as [q|q|q|q|q|d|]; cbn [perform on_board] in *.
  - apply marks_sound_open; assumption.
  - apply marks_sound_flag; assumption.
  - apply marks_sound_unflag, IH.
  - apply marks_sound_question; assumption.
  - apply (marks_sound_unflag q), IH.
  - apply marks_sound_generate, IH.
  - rewrite snd_discard. apply marks_sound_is_won, IH.
Qed.

(** C7 (amended): on a board of any size, after any sequence of calls of
    [open], [flag], [unflag], [question], [unquestion] on cells of the board
    and of [generate_board] (and [is_won]), whether they return or raise,
    the flagged and the questioned points are in bounds, no point is both
    flagged and questioned, and every flagged point is closed.  (A
    questioned point may be opened.) *)
Theorem marks_invariant (sz : Z * Z) (mines : Z) (r : RNG) (g : Game) :
  reachable randint set_iter (new_game sz mines r) g ->
  (forall q, q ∈ flagged_points g ->
     in_range q g = true /\ is_opened q g = (Ok false, g))
  /\ (forall q, q ∈ questioned_points g -> in_range q g = true)
  /\ (forall q, ~ (q ∈ flagged_points g /\ q ∈ questioned_points g)).
Proof.
  intros Hr. apply marks_sound_reachable in Hr; [|apply marks_sound_new_game].
  destruct Hr as (Hm & Hf & Hq & Hd). split; [|split].
  - intros q Hq'. destruct (Hf q Hq') as [Hin Ho]. split; [exact Hin|].
    pose proof (is_opened_state q g) as Hs.
    destruct (is_opened q g) as [o g1]. simpl in *. congruence.
  - exact Hq.
  - intros q [H1 H2]. apply (Hd q); assumption.
Qed.

End AnyShape.

(** ** What a click keeps of the marks *)

Section Clicks.

Context {RNG : Type}.
Abbreviation Game := (@Game RNG).
Abbreviation lifts := (lifts (RNG:=RNG)).
Abbreviation floods := (floods (RNG:=RNG)).
Variable set_iter : gset point -> list point.
Hypothesis set_iter_perm : forall s, set_iter s ≡ₚ elements s.

Lemma floods_same_marks (g g' : Game) :
  random g' = random g -> mine_points g' = mine_points g ->
  flagged_points g' = flagged_points g ->
  questioned_points g' = questioned_points g -> floods g g'.
Proof.
  intros H1 H2 H3 H4. unfold floods. rewrite H1, H2, H3, H4.
  repeat split; set_solver.
Qed.

Lemma floods_set_opened (p : point) : lifts floods (_set_opened p).
Proof.
  intros g. destruct (set_opened_outcome p g) as [->|(i & j & row & _ & ->)];
    [reflexivity|]. apply floods_same_marks; reflexivity.
Qed.

Lemma floods_is_won : lifts floods (is_won set_iter).
Proof.
  intros g. destruct (is_won_outcome set_iter g) as [->|(_ & _ & ->)];
    [reflexivity|]. apply floods_same_marks; reflexivity.
Qed.

Lemma floods_flag (m : point) (g : Game) :
  m ∈ mine_points g -> floods g (snd (flag m g)).
Proof.
  intros Hm. destruct (flag_outcome m g) as [->|[_ ->]]; [reflexivity|].
  unfold floods. simpl. repeat split; set_solver.
Qed.

Lemma floods_for_each_flag (l : list point) (g : Game) :
  (forall m, m ∈ l -> m ∈ mine_points g) ->
  floods g (snd (for_each l flag g)).
Proof.
  revert g. induction l as [|m l IH]; intros g Hl; [reflexivity|].
  cbn [for_each]. unfold bind.
  pose proof (floods_flag m g (Hl m ltac:(left))) as H1.
  destruct (flag m g) as [[[]|e] g1]; simpl in H1; [|exact H1].
  etransitivity; [exact H1|]. apply IH.
  intros m' Hm'. destruct H1 as (_ & -> & _). apply Hl. right. exact Hm'.
Qed.

Lemma floods_flag_all_mines : lifts floods (_flag_all_mines set_iter).
Proof.
  intros g. unfold _flag_all_mines, bind, get.
  apply floods_for_each_flag. intros m Hm.
  rewrite set_iter_perm in Hm. apply elem_of_elements in Hm. exact Hm.
Qed.

Lemma floods_flood_fill (fuel : nat) (stack : list point) :
  lifts floods (flood_fill set_iter fuel stack).
Proof.
  apply lifts_flood_fill; try exact _.
  - apply floods_set_opened.
  - apply floods_is_won.
  - apply floods_flag_all_mines.
Qed.

Lemma floods_open (p : point) : lifts floods (open set_iter p).
Proof.
  apply lifts_open; try exact _.
  - apply floods_set_opened.
  - apply floods_is_won.
  - apply floods_flag_all_mines.
  - intros g. apply floods_same_marks; reflexivity.
  - intros g _. apply floods_same_marks; reflexivity.
Qed.

(** The click is the last thing that [open] records before its loop. *)
Lemma last_click_flood_fill (fuel : nat) (stack : list point) :
  lifts (fun g g' : Game => last_click g' = last_click g)
        (flood_fill set_iter fuel stack).
Proof.
  assert (Hpre : PreOrder (fun g g' : Game => last_click g' = last_click g)).
  { split; [intros g; reflexivity | intros g1 g2 g3 H1 H2; congruence]. }
  apply lifts_flood_fill; try exact _.
  - intros q g. destruct (set_opened_outcome q g) as [->|(i & j & row & _ & ->)];
      reflexivity.
  - intros g. destruct (is_won_outcome set_iter g) as [->|(_ & _ & ->)]; reflexivity.
  - unfold _flag_all_mines. apply lifts_bind; [exact _ | apply lifts_get; exact _ |].
    intros g. apply lifts_for_each; [exact _|].
    intros q g1. destruct (flag_outcome q g1) as [->|[_ ->]]; reflexivity.
Qed.

Lemma last_click_open (p : point) (g : Game) :
  state g = playing -> last_click (snd (open set_iter p g)) = Some p.
Proof.
  intros Hst. rewrite (open_playing set_iter p g Hst). cbv zeta.
  pose proof (is_opened_state p (set_last_click (Some p) g)) as Hs.
  destruct (is_opened p (set_last_click (Some p) g)) as [[[|]|e] g1];
    simpl in Hs; subst g1; try reflexivity.
  destruct (is_flagged p _); [reflexivity|].
  destruct (is_mine p _); [reflexivity|].
  rewrite last_click_flood_fill. reflexivity.
Qed.

(** X4: what a click leaves alone, on any board and whether it raises or not:
    it draws no random number and moves no mine; it takes no flag away and
    puts flags on mines only; it adds no question mark and takes question
    marks off mines only.  On a board that is being played it records the
    point as the last click. *)
Theorem open_keeps (p : point) (g : Game) :
  let g' := snd (open set_iter p g) in
  random g' = random g
  /\ mine_points g' = mine_points g
  /\ flagged_points g ⊆ flagged_points g'
  /\ flagged_points g' ⊆ flagged_points g ∪ mine_points g
  /\ questioned_points g' ⊆ questioned_points g
  /\ questioned_points g ∖ mine_points g ⊆ questioned_points g'
  /\ (state g = playing -> last_click g' = Some p).
Proof.
  cbv zeta. pose proof (floods_open p g) as (H1 & H2 & H3 & H4 & H5 & H6).
  repeat (split; [assumption|]). apply last_click_open.
Qed.

End Clicks.

(** ** Marking cells *)

Section Marking.

Context {RNG : Type}.
Abbreviation Game := (@Game RNG).

(** X5: [flag] then [question] leaves the point with a question mark and no
    flag.  [question] then [flag] leaves it with a flag and no question
    mark when the cell is closed, and with the question mark when it is
    opened, since [flag] refuses opened cells and [question] does not.
    [unflag] and [unquestion] are one function: both take off whichever
    mark there is. *)
Theorem flag_question_exclusive (p : point) (g : Game) :
  (let g' := snd (question p (snd (flag p g))) in
   p ∈ questioned_points g' /\ p ∉ flagged_points g')
  /\ (let g' := snd (flag p (snd (question p g))) in
      (is_opened p g = (Ok false, g) ->
       p ∈ flagged_points g' /\ p ∉ questioned_points g')
      /\ (is_opened p g = (Ok true, g) ->
          p ∈ questioned_points g' /\ p ∉ flagged_points g'))
  /\ unflag p g = unquestion p g
  /\ (let g' := snd (unflag p g) in
      (p ∉ flagged_points g') /\ (p ∉ questioned_points g')).
Proof.
  split; [|split; [|split]].
  - cbv zeta. unfold question, bind, modify. simpl. split; set_solver.
  - cbv zeta. split; intros Hop.
    + unfold flag, question, bind, modify. simpl.
      rewrite (is_opened_grid p g) by reflexivity. rewrite Hop. simpl.
      split; set_solver.
    + unfold flag, question, bind, modify. simpl.
      rewrite (is_opened_grid p g) by reflexivity. rewrite Hop. simpl.
      split; set_solver.
  - reflexivity.
  - cbv zeta. unfold unflag, bind, modify. simpl. split; set_solver.
Qed.

(** X6: the three marks of a closed cell in a row: on a cell without a mark,
    [flag], [question] and [unquestion] lead back to the board they started
    from, through a board where the cell is flagged only and one where it
    is questioned only; [flag] followed by [unflag] leads back as well. *)
Theorem marks_cycle (p : point) (g : Game) :
  is_opened p g = (Ok false, g) ->
  p ∉ flagged_points g -> p ∉ questioned_points g ->
  let g1 := snd (flag p g) in
  let g2 := snd (question p g1) in
  let g3 := snd (unquestion p g2) in
  (p ∈ flagged_points g1 /\ p ∉ questioned_points g1)
  /\ (p ∈ questioned_points g2 /\ p ∉ flagged_points g2)
  /\ g3 = g
  /\ snd (unflag p g1) = g.
Proof.
  intros Hop Hf Hq. cbv zeta.
  unfold flag at 1 2 3 4 5 6. unfold bind, modify. rewrite Hop. simpl.
  split; [split; set_solver|]. split; [split; set_solver|].
  split; apply Game_eq; simpl; try reflexivity; set_solver.
Qed.

End Marking.

(** ** Losing and winning a game *)

Section Losing.

Context {RNG : Type}.
Abbreviation Game := (@Game RNG).
Variable randint : RNG -> Z -> Z -> option (Z * RNG).
Variable set_iter : gset point -> list point.

Lemma lost_step (o : operation) (g : Game) :
  move o g ->
  (state g = lost ->
   exists p, last_click g = Some p /\ p ∈ mine_points g /\ in_range p g = true) ->
  let g' := snd (perform randint set_iter o g) in
  state g' = lost ->
  exists p, last_click g' = Some p /\ p ∈ mine_points g' /\ in_range p g' = true.
Proof.
  intros Hon IH. cbv zeta. destruct o as [p|p|p|p|p|d|]; cbn [perform move] in *.
  - destruct (decide (state g = playing)) as [Hst|Hst].
    + rewrite (open_playing set_iter p g Hst). cbv zeta.
      pose proof (is_opened_state p (set_last_click (Some p) g)) as Hs.
      destruct (is_opened p (set_last_click (Some p) g)) as [[[|]|e] g1];
        simpl in Hs; subst g1; simpl; try congruence.
      destruct (is_flagged p _); simpl; [congruence|].
      destruct (is_mine p _) eqn:Hm; simpl.
      * intros _. exists p. split; [reflexivity|]. split; [|exact Hon].
        apply bool_decide_eq_true in Hm. exact Hm.
      * intros Hl.
        destruct (state_step_flood_fill set_iter
                    (flood_bound (set_last_click (Some p) g) [p]) [p]
                    (set_last_click (Some p) g)) as [H|[_ H]];
          simpl in H; congruence.
    + rewrite open_not_playing by exact Hst. exact IH.
  - destruct (flag_outcome p g) as [->|[_ ->]]; [exact IH|]. exact IH.
  - exact IH.
  - exact IH.
  - exact IH.
  - contradiction.
  - rewrite snd_discard.
    destruct (is_won_outcome set_iter g) as [->|(_ & _ & ->)]; [exact IH|].
    simpl. discriminate.
Qed.

(** X7: in a game (the board generated once, then played on), a lost board was
    lost by its last click: [last_click] is a cell of the board and a mine.
    The board [g0] that the game starts from is any board. *)
Theorem lost_by_last_click (g0 g : Game) :
  in_game randint set_iter g0 g ->
  state g = lost ->
  exists p, last_click g = Some p /\ p ∈ mine_points g /\ in_range p g = true.
Proof.
  induction 1 as [d g Hgen | g o Hg IH Hmove].
  - destruct (generate_board_cases randint d g0) as (m & r & [[e He] | He]);
      rewrite He in Hgen; [discriminate|].
    injection Hgen as <-. simpl. discriminate.
  - apply lost_step; assumption.
Qed.

End Losing.

Section Playing.

Context {RNG : Type}.
Abbreviation Game := (@Game RNG).
Variable randint : RNG -> Z -> Z -> option (Z * RNG).
Variable set_iter : gset point -> list point.
Hypothesis set_iter_perm : forall s, set_iter s ≡ₚ elements s.

Lemma in_game_reachable (g0 g : Game) :
  in_game randint set_iter g0 g -> reachable randint set_iter g0 g.
Proof.
  induction 1 as [d g Hgen | g o Hg IH Hmove].
  - replace g with (snd (perform randint set_iter (Generate d) g0))
      by (simpl; rewrite Hgen; reflexivity).
    apply reachable_step; [apply reachable_init | exact I].
  - apply reachable_step; [exact IH|].
    destruct o; simpl in *; auto.
Qed.

(** X8: a click on a cell of a board that is being played, reached from a new
    square board by any calls: it returns, and
    - on an opened or a flagged cell it records the click and nothing else;
    - on a closed mine without a flag it records the click and loses the
      game, and nothing else;
    - on any other cell it opens the cell, and the game goes on or is won. *)
Theorem click_outcomes (n mines : Z) (r : RNG) (g : Game) (p : point) :
  reachable randint set_iter (new_game (n, n) mines r) g ->
  state g = playing -> in_range p g = true ->
  exists g',
    open set_iter p g = (Ok tt, g')
    /\ (is_opened p g = (Ok true, g) \/ p ∈ flagged_points g ->
        g' = set_last_click (Some p) g)
    /\ (is_opened p g = (Ok false, g) -> p ∉ flagged_points g ->
        p ∈ mine_points g ->
        g' = set_state lost (set_last_click (Some p) g))
    /\ (is_opened p g = (Ok false, g) -> p ∉ flagged_points g ->
        p ∉ mine_points g ->
        is_opened p g' = (Ok true, g')
        /\ (state g' = playing \/ state g' = won)).
Proof.
  intros Hr Hst Hin.
  apply (marks_ok_reachable randint set_iter set_iter_perm) in Hr;
    [|apply marks_ok_new_game].
  destruct Hr as (Hsq & Hm & _).
  pose proof (is_opened_square p g Hsq Hin) as Hop.
  destruct (opened p g) eqn:Ho.
  - exists (set_last_click (Some p) g). rewrite open_square by assumption.
    cbv zeta. rewrite Ho. split; [reflexivity|].
    split; [reflexivity|]. split; intros; congruence.
  - destruct (decide (p ∈ flagged_points g)) as [Hf|Hf].
    { exists (set_last_click (Some p) g). rewrite open_square by assumption.
      cbv zeta. rewrite Ho. unfold is_flagged.
      rewrite bool_decide_eq_true_2 by exact Hf.
      split; [reflexivity|]. split; [reflexivity|].
      split; intros; contradiction. }
    destruct (decide (p ∈ mine_points g)) as [Hmi|Hmi].
    { exists (set_state lost (set_last_click (Some p) g)).
      rewrite open_square by assumption.
      cbv zeta. rewrite Ho. unfold is_flagged, is_mine.
      rewrite bool_decide_eq_false_2 by exact Hf.
      rewrite bool_decide_eq_true_2 by exact Hmi.
      split; [reflexivity|]. split; [|split; [reflexivity|]].
      - intros [H|H]; [congruence | contradiction].
      - intros; contradiction. }
    destruct (open_flood set_iter set_iter_perm p g) as (g' & Hopen & I);
      try assumption.
    { repeat split; assumption. }
    exists g'. split; [exact Hopen|]. split; [|split].
    + intros [H|H]; [congruence | contradiction].
    + intros; contradiction.
    + intros _ _ _. pose proof I as (Ipre & _ & _). split.
      * rewrite is_opened_square;
          [|apply Ipre | rewrite (in_range_same_size p g g'); [exact Hin | apply Ipre]].
        f_equal. f_equal.
        apply (flood_inv_final g p g' I p Hin).
        right. split; [apply visited_start | repeat split; assumption].
      * apply Ipre.
Qed.

(** X9: in a game on a square board no mine is ever opened: on every board of
    the game every mine is a cell of the board that [is_opened] reports
    closed. *)
Theorem mines_stay_closed (n mines : Z) (r : RNG) (g : Game) :
  in_game randint set_iter (new_game (n, n) mines r) g ->
  forall m, m ∈ mine_points g ->
    in_range m g = true /\ is_opened m g = (Ok false, g).
Proof.
  intros Hg m Hm.
  apply (game_ok_in_game randint set_iter set_iter_perm) in Hg
    as (Hsq & Hmr & Hc & _).
  split; [apply Hmr, Hm|].
  rewrite is_opened_square; [|exact Hsq | apply Hmr, Hm].
  rewrite (Hc m Hm). reflexivity.
Qed.

(** X10: the click that wins a game on a square board leaves the flags exactly
    on the mines, and no question mark on a mine. *)
Theorem win_flags_exact (n mines : Z) (r : RNG) (g : Game) (p : point) :
  in_game randint set_iter (new_game (n, n) mines r) g ->
  state g = playing -> in_range p g = true ->
  let g' := snd (open set_iter p g) in
  state g' = won ->
  flagged_points g' = mine_points g'
  /\ questioned_points g' ## mine_points g'.
Proof.
  intros Hg Hst Hin. cbv zeta. intros Hwon.
  pose proof (game_ok_in_game randint set_iter set_iter_perm _ _ _ _
                (in_game_step randint set_iter _ g (Open p) Hg Hin)) as Hok'.
  pose proof (marks_ok_reachable randint set_iter set_iter_perm _ _
                (marks_ok_new_game n mines r)
                (in_game_reachable _ _
                   (in_game_step randint set_iter _ g (Open p) Hg Hin))) as Hmk'.
  cbn [perform] in Hok', Hmk'.
  pose proof (game_ok_in_game randint set_iter set_iter_perm _ _ _ _ Hg)
    as (Hsq & Hmr & Hc & Hw).
  destruct (win_detection_on set_iter set_iter_perm g Hsq Hmr Hc Hw) as [_ Hopen].
  destruct (Hopen p Hst Hin) as (g' & E & Hwin).
  rewrite E in *. simpl in *.
  destruct Hok' as (Hsq' & Hmr' & Hc' & Hw').
  destruct Hmk' as (_ & _ & Hfl & _ & Hdis).
  assert (Hncl : ~ cleared g).
  { intros Hcl.
    assert (Hsame : state g' = playing \/ state g' = lost).
    { revert E. rewrite open_square by assumption. cbv zeta.
      destruct (opened p g) eqn:Ho; [intros [= <-]; left; exact Hst|].
      destruct (is_flagged p g); [intros [= <-]; left; exact Hst|].
      destruct (is_mine p g) eqn:Hmi; [intros [= <-]; right; reflexivity|].
      apply bool_decide_eq_false in Hmi.
      rewrite (Hcl p Hin Hmi) in Ho. discriminate. }
    destruct Hsame; congruence. }
  destruct (Hwin Hncl (Hw' Hwon)) as [_ Hsub].
  assert (Hfm : flagged_points g' ⊆ mine_points g').
  { intros q Hq. destruct (Hfl q Hq) as [Hqr Hqo].
    destruct (decide (q ∈ mine_points g')) as [|Hn]; [assumption|].
    rewrite (Hw' Hwon q Hqr Hn) in Hqo. discriminate. }
  split; [set_solver | set_solver].
Qed.

End Playing.

(** ** The bounds of the grid *)

Section Bounds.

Context {RNG : Type}.
Abbreviation Game := (@Game RNG).

Lemma py_index_neg {A} (l : list A) (i : Z) :
  - Z.of_nat (length l) <= i < 0 ->
  py_index l i = Some (Z.to_nat (Z.of_nat (length l) + i)).
Proof.
  intros H. unfold py_index.
  replace (0 <=? i) with false by (symmetry; apply Z.leb_gt; lia).
  replace (- Z.of_nat (length l) <=? i) with true by (symmetry; apply Z.leb_le; lia).
  replace (i <? 0) with true by (symmetry; apply Z.ltb_lt; lia).
  reflexivity.
Qed.

Lemma py_index_low {A} (l : list A) (i : Z) :
  i < - Z.of_nat (length l) -> py_index l i = None.
Proof.
  intros H. unfold py_index.
  replace (0 <=? i) with false by (symmetry; apply Z.leb_gt; lia).
  replace (- Z.of_nat (length l) <=? i) with false by (symmetry; apply Z.leb_gt; lia).
  reflexivity.
Qed.

(** [l[i]] is defined exactly on [-len(l) <= i < len(l)], and a negative
    index reads the entry [len(l)] places further on. *)
Lemma getitem_bounds {A} (l : list A) (i : Z) :
  let n := Z.of_nat (length l) in
  (- n <= i < n -> exists a, getitem l i = Some a)
  /\ (~ (- n <= i < n) -> getitem l i = None)
  /\ (- n <= i < 0 -> getitem l i = getitem l (i + n)).
Proof.
  cbv zeta. unfold getitem. split; [|split].
  - intros H. destruct (Z.neg_nonneg_cases i) as [Hi|Hi].
    + rewrite py_index_neg by lia. apply lookup_lt_is_Some_2. lia.
    + rewrite py_index_nonneg by lia. apply lookup_lt_is_Some_2. lia.
  - intros H. destruct (Z.lt_ge_cases i 0).
    + rewrite py_index_low by lia. reflexivity.
    + rewrite py_index_high by lia. reflexivity.
  - intros H. rewrite py_index_neg by lia. rewrite py_index_nonneg by lia.
    f_equal. lia.
Qed.

(** X11: the bounds of [is_opened]: the grid has [size[1]] rows of [size[0]]
    entries and is indexed [grid[x][y]], so that [is_opened((x, y))] answers
    exactly for [-size[1] <= x < size[1]] and [-size[0] <= y < size[0]] and
    raises [IndexError] elsewhere; a negative coordinate counts from the far
    edge. *)
Theorem is_opened_bounds (g : Game) (x y : Z) :
  grid_shape g ->
  let w := fst (size g) in
  let h := snd (size g) in
  ((exists b, is_opened (x, y) g = (Ok b, g)) <-> (- h <= x < h /\ - w <= y < w))
  /\ (~ (- h <= x < h /\ - w <= y < w) -> is_opened (x, y) g = (Raise IndexError, g))
  /\ (- h <= x < 0 -> is_opened (x, y) g = is_opened (x + h, y) g)
  /\ (- w <= y < 0 -> is_opened (x, y) g = is_opened (x, y + w) g).
Proof.
  intros [Hlen Hrows]. cbv zeta.
  assert (Hrow : forall i row, getitem (_cell_opened_grid g) i = Some row ->
            length row = Z.to_nat (fst (size g))).
  { intros i row H. unfold getitem in H.
    destruct (py_index _ i) as [k|]; [|discriminate].
    apply list_elem_of_lookup_2 in H.
    rewrite List.Forall_forall in Hrows. apply Hrows, list_elem_of_In, H. }
  assert (Hdef : - snd (size g) <= x < snd (size g) /\ - fst (size g) <= y < fst (size g)
                 -> exists b, is_opened (x, y) g = (Ok b, g)).
  { intros [Hx Hy]. unfold is_opened. simpl.
    destruct (getitem_bounds (_cell_opened_grid g) x) as (H1 & _).
    destruct H1 as (row & Hr); [rewrite Hlen; lia|]. rewrite Hr.
    destruct (getitem_bounds row y) as (H2 & _).
    destruct H2 as (b & Hb); [rewrite (Hrow x row Hr); lia|].
    rewrite Hb. eauto. }
  assert (Hundef : ~ (- snd (size g) <= x < snd (size g)
                      /\ - fst (size g) <= y < fst (size g))
                   -> is_opened (x, y) g = (Raise IndexError, g)).
  { intros Hn. unfold is_opened. simpl.
    destruct (getitem (_cell_opened_grid g) x) as [row|] eqn:Hr; [|reflexivity].
    destruct (getitem_bounds row y) as (_ & H2 & _).
    rewrite H2; [reflexivity|]. rewrite (Hrow x row Hr).
    intros Hy. apply Hn. split; [|lia].
    destruct (getitem_bounds (_cell_opened_grid g) x) as (_ & H1 & _).
    destruct (decide (- snd (size g) <= x < snd (size g))) as [|Hx]; [assumption|].
    rewrite H1 in Hr by (rewrite Hlen; lia). discriminate. }
  split; [split; [|exact Hdef]|split; [exact Hundef|split]].
  - intros [b Hb]. 
    destruct (decide (- snd (size g) <= x < snd (size g)
                      /\ - fst (size g) <= y < fst (size g))) as [|Hn]; [assumption|].
    rewrite (Hundef Hn) in Hb. discriminate.
  - intros Hx. unfold is_opened. simpl.
    destruct (getitem_bounds (_cell_opened_grid g) x) as (_ & _ & H1).
    rewrite H1 by (rewrite Hlen; lia). rewrite Hlen.
    replace (x + Z.of_nat (Z.to_nat (snd (size g)))) with (x + snd (size g)) by lia.
    reflexivity.
  - intros Hy. unfold is_opened. simpl.
    destruct (getitem (_cell_opened_grid g) x) as [row|] eqn:Hr; [|reflexivity].
    destruct (getitem_bounds row y) as (_ & _ & H2).
    rewrite H2 by (rewrite (Hrow x row Hr); lia).
    rewrite (Hrow x row Hr).
    replace (y + Z.of_nat (Z.to_nat (fst (size g)))) with (y + fst (size g)) by lia.
    reflexivity.
Qed.

End Bounds.

(** ** The outcomes of the mine placement *)

Section Generation.

Context {RNG : Type}.
Abbreviation Game := (@Game RNG).
Variable randint : RNG -> Z -> Z -> option (Z * RNG).
Abbreviation sample := (sample randint).

Lemma size_list_to_set_le (l : list point) :
  (base.size (list_to_set l : gset point) <= length l)%nat
  /\ (base.size (list_to_set l : gset point) = length l <-> NoDup l).
Proof.
  induction l as [|x l [IH1 IH2]].
  - rewrite list_to_set_nil, size_empty. simpl.
    split; [lia|]. split; [constructor | reflexivity].
  - rewrite list_to_set_cons. cbn [length].
    destruct (decide (x ∈ l)) as [Hx|Hx].
    + replace ({[x]} ∪ list_to_set l : gset point) with (list_to_set l : gset point)
        by (apply set_eq; intros y; rewrite elem_of_union, elem_of_singleton,
              !elem_of_list_to_set; split; [auto | intros [->|]; auto]).
      split; [lia|]. split; [lia|].
      intros Hnd. apply NoDup_cons in Hnd as [Hn _]. contradiction.
    + rewrite size_union by (apply disjoint_singleton_l; rewrite elem_of_list_to_set; exact Hx).
      rewrite size_singleton. split; [lia|]. rewrite NoDup_cons. split.
      * intros H. split; [exact Hx|]. apply IH2. lia.
      * intros [_ Hnd]. apply IH2 in Hnd. lia.
Qed.

(** The cells left for the mines once the listed ones are taken out. *)
Lemma length_possible_points (l : list point) (sz : Z * Z) :
  (length (filter (fun p => allowed (Some l) p) (all_points sz))
   + base.size (list_to_set l ∩ list_to_set (all_points sz) : gset point)
   = length (all_points sz))%nat.
Proof.
  pose proof (filter_app_complement (fun p => allowed (Some l) p) (all_points sz)) as Hp.
  apply Permutation_length in Hp. rewrite length_app in Hp. rewrite <- Hp.
  f_equal.
  assert (Hsz : base.size (list_to_set (filter (fun x : point => ¬ allowed (Some l) x)
                                          (all_points sz)) : gset point)
                = length (filter (fun x : point => ¬ allowed (Some l) x) (all_points sz)))
    by (apply size_list_to_set, NoDup_filter, NoDup_all_points).
  rewrite <- Hsz. f_equal. apply set_eq. intros p.
  rewrite elem_of_intersection, !elem_of_list_to_set, list_elem_of_filter.
  unfold allowed. rewrite bool_decide_spec.
  split.
  - intros [Hl Hin]. split; [|exact Hin]. intros Hn. apply Hn, Hl.
  - intros [Hn Hin]. split; [|exact Hin]. apply dec_stable. exact Hn.
Qed.

Lemma well_listed_count (d : option (list point)) (g : Game) :
  0 <= fst (size g) -> 0 <= snd (size g) ->
  well_listed d g
  <-> Z.of_nat (length (filter (fun p => allowed d p) (all_points (size g))))
      = fst (size g) * snd (size g)
        - match d with
          | Some ((_ :: _) as l) => Z.of_nat (length l)
          | _ => 0
          end.
Proof.
  intros Hw Hh.
  assert (Hall : Z.of_nat (length (all_points (size g)))
                 = fst (size g) * snd (size g)).
  { rewrite length_all_points. nia. }
  destruct d as [l|].
  2:{ rewrite filter_allowed_all by (left; reflexivity). simpl.
      split; [intros _; lia | auto]. }
  cbn [well_listed]. cbv beta iota.
  replace (match l with [] => 0 | _ :: _ => Z.of_nat (length l) end)
    with (Z.of_nat (length l)) by (destruct l; reflexivity).
  pose proof (length_possible_points l (size g)) as Hc.
  pose proof (size_list_to_set_le l) as [Hle Hnd].
  set (L := list_to_set l : gset point) in *.
  set (A := list_to_set (all_points (size g)) : gset point) in *.
  assert (Hsub : (base.size (L ∩ A) <= base.size L)%nat) by (apply subseteq_size; set_solver).
  assert (Hin : L ⊆ A <-> forall p, p ∈ l -> in_range p g = true).
  { unfold L, A. split.
    - intros H p Hp. apply in_range_iff, elem_of_all_points.
      apply (elem_of_list_to_set (C:=gset point)). apply H.
      apply elem_of_list_to_set. exact Hp.
    - intros H p Hp. apply elem_of_list_to_set in Hp.
      apply elem_of_list_to_set. apply elem_of_all_points, in_range_iff.
      apply H, Hp. }
  split.
  - intros [Hn Hr]. apply Hnd in Hn. apply Hin in Hr.
    replace (L ∩ A) with L in Hc by set_solver. lia.
  - intros He.
    assert (E1 : base.size (L ∩ A) = base.size L) by lia.
    assert (E2 : base.size L = length l) by lia.
    split; [apply Hnd, E2|]. apply Hin.
    assert (Heq : L ∩ A = L).
    { apply set_subseteq_size_eq; [set_solver | lia]. }
    set_solver.
Qed.

Hypothesis randint_in_range :
  forall r a b, a <= b ->
    exists k r', randint r a b = Some (k, r') /\ a <= k <= b.
Hypothesis randint_empty : forall r a b, b < a -> randint r a b = None.

Lemma sample_short (n : nat) (poss : list point) (r : RNG) :
  (length poss < n)%nat ->
  exists picked r', sample n poss r = (Raise ValueError, picked, r').
Proof.
  revert poss r. induction n as [|n IH]; intros poss r Hn; [lia|]. simpl.
  destruct poss as [|p0 poss0] eqn:Hposs.
  - rewrite randint_empty by (simpl; lia). eauto.
  - rewrite <- Hposs in *.
    assert (Hlen : (0 < length poss)%nat) by (rewrite Hposs; simpl; lia).
    destruct (randint_in_range r 0 (Z.of_nat (length poss) - 1))
      as (k & r1 & -> & Hk); [lia|].
    destruct (pop_in_range poss k) as (v & rest & Hpop); [lia|]. rewrite Hpop.
    apply pop_perm, Permutation_length in Hpop. simpl in Hpop.
    destruct (IH rest r1) as (picked & r2 & ->); [lia|]. eauto.
Qed.

(** X12: the three outcomes of [generate_board] on a board with sides that are
    not negative, by the number of cells left once the listed ones are
    taken out: with more mines than that, [ValueError] (drawing from the
    empty list); otherwise it completes when the list holds cells of the
    board and none twice, and the cells left are then [width * height] less
    the length of the list; otherwise the [assert] fails. *)
Theorem generate_board_outcomes (d : option (list point)) (g : Game) :
  0 <= fst (size g) -> 0 <= snd (size g) ->
  let eligible :=
    Z.of_nat (length (filter (fun p => allowed d p) (all_points (size g)))) in
  (well_listed d g ->
   eligible = fst (size g) * snd (size g)
              - match d with Some l => Z.of_nat (length l) | None => 0 end)
  /\ (eligible < mine_count g ->
      exists g', generate_board randint d g = (Raise ValueError, g'))
  /\ (mine_count g <= eligible -> well_listed d g ->
      exists g', generate_board randint d g = (Ok tt, g'))
  /\ (mine_count g <= eligible -> ~ well_listed d g ->
      exists g', generate_board randint d g = (Raise AssertionError, g')).
Proof.
  intros Hw Hh. cbv zeta.
  pose proof (well_listed_count d g Hw Hh) as Hwl.
  split; [|split; [|split]].
  - intros H. apply Hwl in H. rewrite H. destruct d as [[|a l]|]; reflexivity.
  - intros Hlt. rewrite generate_board_unfold. cbv zeta.
    destruct (sample_short (Z.to_nat (mine_count g))
                (filter (fun p => allowed d p) (all_points (size g))) (random g))
      as (picked & r' & ->); [lia|]. eauto.
  - intros Hle H. apply Hwl in H. rewrite generate_board_unfold. cbv zeta.
    destruct (sample_total randint randint_in_range (Z.to_nat (mine_count g))
                (filter (fun p => allowed d p) (all_points (size g))) (random g))
      as (rest & picked & r' & Hs); [lia|].
    rewrite Hs. apply sample_ok in Hs as [Hlen Hperm].
    pose proof (NoDup_possible_points d (size g)) as Hnd.
    rewrite Hperm in Hnd. apply NoDup_app in Hnd as (Hnd & _ & _).
    unfold set_len. rewrite size_list_to_set by assumption.
    apply Permutation_length in Hperm. rewrite length_app in Hperm.
    replace (_ =? _) with true; [eauto|].
    symmetry. apply Z.eqb_eq. lia.
  - intros Hle H. rewrite generate_board_unfold. cbv zeta.
    destruct (sample_total randint randint_in_range (Z.to_nat (mine_count g))
                (filter (fun p => allowed d p) (all_points (size g))) (random g))
      as (rest & picked & r' & Hs); [lia|].
    rewrite Hs. apply sample_ok in Hs as [Hlen Hperm].
    pose proof (NoDup_possible_points d (size g)) as Hnd.
    rewrite Hperm in Hnd. apply NoDup_app in Hnd as (Hnd & _ & _).
    unfold set_len. rewrite size_list_to_set by assumption.
    apply Permutation_length in Hperm. rewrite length_app in Hperm.
    replace (_ =? _) with false; [eauto|].
    symmetry. apply Z.eqb_neq. intros E. apply H, Hwl. lia.
Qed.

End Generation.

(** ** The seven-segment display *)

Section Digits.


Lemma pretty_N_char_digit (x : N) : digit_char (pretty_N_char x).
Proof.
  unfold pretty_N_char, digit_char.
  destruct x as [|[[[[|[]|]|[[]|[]|]|]|[[|[]|]|[[]|[]|]|]|]|[[[|[]|]|[[]|[]|]|]|[[|[]|]|[[]|[]|]|]|]|]];
    simpl; eexists; (split; [reflexivity|]); (split; [lia|]); split; discriminate.
Qed.

End Digits.

Section Numerals.

Lemma chars_app (s1 s2 : string) :
  list_ascii_of_string (s1 +:+ s2)
  = list_ascii_of_string s1 ++ list_ascii_of_string s2.
Proof. induction s1 as [|c s1 IH]; simpl; [reflexivity | rewrite IH; reflexivity]. Qed.

Lemma chars_of_list (l : list ascii) :
  list_ascii_of_string (string_of_list_ascii l) = l.
Proof. apply list_ascii_of_string_of_list_ascii. Qed.

Lemma length_chars (s : string) :
  length (list_ascii_of_string s) = String.length s.
Proof. induction s as [|c s IH]; simpl; [reflexivity | rewrite IH; reflexivity]. Qed.

(** The numeral of [x] in front of [s]: its characters are digits, and it
    has at most [k] of them when [x < 10 ^ k]. *)
Lemma pretty_N_go_digits (x : N) (s : string) :
  Forall digit_char (list_ascii_of_string s) ->
  Forall digit_char (list_ascii_of_string (pretty_N_go x s)).
Proof.
  revert s. induction (N.lt_wf_0 x) as [x _ IH]. intros s Hs.
  destruct (decide (x = 0%N)) as [->|Hx]; [rewrite pretty_N_go_0; exact Hs|].
  rewrite pretty_N_go_step by lia. apply IH.
  - apply N.div_lt; lia.
  - simpl. constructor; [apply pretty_N_char_digit | exact Hs].
Qed.

Lemma pretty_N_go_length (k : nat) (x : N) (s : string) :
  (x < 10 ^ N.of_nat k)%N ->
  (String.length (pretty_N_go x s) <= k + String.length s)%nat.
Proof.
  revert x s. induction k as [|k IH]; intros x s Hx.
  - assert (x = 0%N) as -> by (simpl in Hx; lia). rewrite pretty_N_go_0. lia.
  - destruct (decide (x = 0%N)) as [->|Hx0]; [rewrite pretty_N_go_0; lia|].
    rewrite pretty_N_go_step by lia.
    etransitivity; [apply IH|simpl; lia].
    apply N.Div0.div_lt_upper_bound.
    replace (N.of_nat (S k)) with (N.succ (N.of_nat k)) in Hx by lia.
    rewrite N.pow_succ_r' in Hx. exact Hx.
Qed.

Lemma pretty_nonneg_digits (v : Z) :
  0 <= v -> Forall digit_char (list_ascii_of_string (pretty v)).
Proof.
  intros Hv. destruct v as [|p|p]; [| |lia].
  - simpl. repeat constructor. exists 0%nat. repeat split; try discriminate; lia.
  - unfold pretty, pretty_Z, pretty, pretty_positive, pretty, pretty_N.
    rewrite decide_False by discriminate.
    apply pretty_N_go_digits. constructor.
Qed.

Lemma pretty_nonneg_length (k : nat) (v : Z) :
  (0 < k)%nat -> 0 <= v < 10 ^ Z.of_nat k ->
  (String.length (pretty v) <= k)%nat.
Proof.
  intros Hk Hv. destruct v as [|p|p]; [| |lia].
  - simpl. lia.
  - unfold pretty, pretty_Z, pretty, pretty_positive, pretty, pretty_N.
    rewrite decide_False by discriminate.
    etransitivity; [apply (pretty_N_go_length k)|simpl; lia].
    apply N2Z.inj_lt. rewrite N2Z.inj_pow. simpl. rewrite nat_N_Z. lia.
Qed.

(** The characters that [format_int] produces, and their number once the
    value fits the width. *)

Lemma format_int_chars (pad_zeros : bool) (width value : Z) :
  Forall display_char (list_ascii_of_string (format_int pad_zeros width value)).
Proof.
  unfold format_int.
  assert (Hbody : Forall display_char (list_ascii_of_string (pretty (Z.abs value)))).
  { eapply Forall_impl; [apply pretty_nonneg_digits; lia|].
    intros c Hc. right. right. exact Hc. }
  assert (Hsign : Forall display_char
            (list_ascii_of_string (if value <? 0 then "-" else EmptyString))).
  { destruct (value <? 0); simpl; repeat constructor. }
  assert (Hzero : digit_char "0").
  { exists 0%nat. repeat split; try discriminate; lia. }
  destruct pad_zeros; rewrite !chars_app, chars_of_list, !Forall_app.
  - split; [exact Hsign|]. split; [|exact Hbody].
    apply Forall_replicate. right. right. exact Hzero.
  - split; [|split; [exact Hsign | exact Hbody]].
    apply Forall_replicate. right. left. reflexivity.
Qed.

Lemma format_int_length (pad_zeros : bool) (digits : positive) (value : Z) :
  - (10 ^ (Z.pos digits - 1) - 1) <= value <= 10 ^ Z.pos digits - 1 ->
  Z.of_nat (String.length (format_int pad_zeros (Z.pos digits) value))
  = Z.pos digits.
Proof.
  intros Hv. unfold format_int.
  set (sign := if value <? 0 then "-" else EmptyString).
  set (body := pretty (Z.abs value)).
  assert (Hlen : forall s1 s2, String.length (s1 +:+ s2)
                               = (String.length s1 + String.length s2)%nat).
  { intros s1 s2. rewrite <- !length_chars, chars_app, length_app. reflexivity. }
  assert (Hrep : forall n c, String.length (string_of_list_ascii (replicate n c)) = n).
  { intros n c. rewrite <- length_chars, chars_of_list. apply length_replicate. }
  assert (Hfit : Z.of_nat (String.length (sign +:+ body)) <= Z.pos digits).
  { rewrite Hlen. unfold sign, body.
    destruct (value <? 0) eqn:Hneg.
    - apply Z.ltb_lt in Hneg. simpl String.length.
      assert (Hd : 1 < Z.pos digits).
      { destruct (decide (Z.pos digits = 1)) as [E|]; [|lia].
        rewrite E in Hv. simpl in Hv. lia. }
      pose proof (pretty_nonneg_length (Z.to_nat (Z.pos digits - 1)) (Z.abs value)) as H.
      rewrite Z2Nat.id in H by lia. 
      assert ((String.length (pretty (Z.abs value)) <= Z.to_nat (Z.pos digits - 1))%nat)
        by (apply H; lia).
      lia.
    - apply Z.ltb_ge in Hneg. simpl String.length.
      pose proof (pretty_nonneg_length (Pos.to_nat digits) (Z.abs value)) as H.
      rewrite positive_nat_Z in H.
      assert ((String.length (pretty (Z.abs value)) <= Pos.to_nat digits)%nat)
        by (apply H; lia).
      lia. }
  destruct pad_zeros; rewrite !Hlen, Hrep; rewrite Hlen in Hfit; lia.
Qed.

End Numerals.

Section Display.

Context {Bitmap : Type}.

Lemma comprehension_spec {A B} (f : A -> outcome B) (l : list A)
    (R : A -> B -> Prop) :
  Forall (fun a => exists b, f a = Done b /\ R a b) l ->
  exists bs, comprehension f l = Done bs /\ Forall2 R l bs.
Proof.
  induction 1 as [|a l (b & Hb & HR) _ (bs & IH & HF)]; simpl.
  - exists []. split; [reflexivity | constructor].
  - rewrite Hb, IH. exists (b :: bs). split; [reflexivity|]. constructor; assumption.
Qed.

(** The bitmap that a character of the formatted value is drawn with is
    the one at its place in the strip. *)
Lemma char_bitmap (bmp_minus bmp_space : Bitmap) (bmp_digits : list Bitmap)
    (c : ascii) :
  length bmp_digits = 10%nat -> display_char c ->
  exists b,
    (if bool_decide (c = "-"%char) then Done bmp_minus
     else if bool_decide (c = " "%char) then Done bmp_space
     else match Ascii.is_nat c with
          | Some d => index (reverse bmp_digits) (Z.of_nat d)
          | None => Fail (Exn ValueError)
          end) = Done b
    /\ (bmp_minus :: bmp_space :: bmp_digits) !! strip_place c = Some b.
Proof.
  intros Hlen Hc. unfold strip_place.
  destruct Hc as [->|[->|(k & Hk & Hle & Hm & Hs)]].
  - exists bmp_minus. split; reflexivity.
  - exists bmp_space. split; reflexivity.
  - rewrite !bool_decide_eq_false_2 by assumption. rewrite Hk.
    unfold index, getitem. rewrite py_index_nonneg by (rewrite length_reverse; lia).
    rewrite Nat2Z.id.
    destruct (lookup_lt_is_Some_2 bmp_digits (9 - k)) as [b Hb]; [lia|].
    exists b. split.
    + rewrite reverse_lookup by lia. rewrite Hlen.
      replace (10 - S k)%nat with (9 - k)%nat by lia. rewrite Hb. reflexivity.
    + replace (11 - k)%nat with (S (S (9 - k))) by lia. exact Hb.
Qed.

Lemma read_digits_pretty_go (x : N) (s : string) :
  read_digits 0 (map strip_place (list_ascii_of_string (pretty_N_go x s)))
  = read_digits (Z.of_N x) (map strip_place (list_ascii_of_string s)).
Proof.
  revert s. induction (N.lt_wf_0 x) as [x _ IH]. intros s.
  destruct (decide (x = 0%N)) as [->|Hx]; [rewrite pretty_N_go_0; reflexivity|].
  rewrite pretty_N_go_step by lia. rewrite IH by (apply N.div_lt; lia).
  simpl. f_equal.
  destruct (pretty_N_char_digit (x `mod` 10)%N) as (k & Hk & Hle & Hm & Hs).
  unfold strip_place. rewrite !bool_decide_eq_false_2 by assumption. rewrite Hk.
  assert (Hkx : Z.of_nat k = Z.of_N (x `mod` 10)%N).
  { pose proof (N.mod_lt x 10 ltac:(discriminate)) as Hlt.
    revert Hk. unfold pretty_N_char.
    destruct (x `mod` 10)%N as [|[[[[|[]|]|[[]|[]|]|]|[[|[]|]|[[]|[]|]|]|]|[[[|[]|]|[[]|[]|]|]|[[|[]|]|[[]|[]|]|]|]|]];
      simpl; intros [= <-]; try reflexivity; lia. }
  rewrite Nat2Z.inj_sub by lia. rewrite Hkx.
  rewrite N2Z.inj_mod, N2Z.inj_div.
  pose proof (Z.div_mod (Z.of_N x) 10 ltac:(discriminate)). simpl Z.of_N. 
  change (Z.of_nat 11) with 11. change (Z.of_N 10) with 10. lia.
Qed.

Lemma read_digits_pretty (v : Z) :
  0 <= v ->
  read_digits 0 (map strip_place (list_ascii_of_string (pretty v))) = v.
Proof.
  intros Hv. destruct v as [|p|p]; [reflexivity| |lia].
  unfold pretty, pretty_Z, pretty, pretty_positive, pretty, pretty_N.
  rewrite decide_False by discriminate.
  rewrite read_digits_pretty_go. reflexivity.
Qed.

Lemma read_digits_zeros (n : nat) (places : list nat) :
  read_digits 0 (replicate n 11%nat ++ places) = read_digits 0 places.
Proof. induction n as [|n IH]; simpl; [reflexivity | exact IH]. Qed.

Lemma read_places_blanks (n : nat) (places : list nat) :
  read_places (replicate n 1%nat ++ places) = read_places places.
Proof. induction n as [|n IH]; simpl; [reflexivity | exact IH]. Qed.

Lemma read_places_digits (v : Z) (n : nat) :
  0 <= v ->
  read_places (replicate n 11%nat
               ++ map strip_place (list_ascii_of_string (pretty v))) = v.
Proof.
  intros Hv.
  assert (H : forall places, read_digits 0 places = v ->
            match places with [] => True | k :: _ => (2 <= k)%nat end ->
            read_places places = v).
  { intros [|k rest] H1 H2; simpl in *; [exact H1|].
    destruct k as [|[|k]]; [lia | lia | exact H1]. }
  apply H.
  - rewrite read_digits_zeros. apply read_digits_pretty, Hv.
  - destruct n; simpl; [|lia].
    pose proof (pretty_nonneg_digits v Hv) as Hd.
    destruct (list_ascii_of_string (pretty v)) as [|c l]; simpl; [exact I|].
    apply Forall_cons in Hd as [(k & Hk & Hle & Hm & Hs) _].
    unfold strip_place. rewrite !bool_decide_eq_false_2 by assumption.
    rewrite Hk. lia.
Qed.

(** Read back, the characters of [format_int] give the value. *)
Lemma read_format_int (pad_zeros : bool) (width value : Z) :
  read_places (map strip_place
                 (list_ascii_of_string (format_int pad_zeros width value)))
  = value.
Proof.
  unfold format_int.
  set (fill := Z.to_nat _). clearbody fill.
  destruct (value <? 0) eqn:Hneg.
  - apply Z.ltb_lt in Hneg.
    assert (Hr : forall n, - read_digits 0
               (replicate n 11%nat
                ++ map strip_place (list_ascii_of_string (pretty (Z.abs value))))
             = value).
    { intros n. rewrite read_digits_zeros, read_digits_pretty by lia. lia. }
    destruct pad_zeros; rewrite !chars_app, chars_of_list, !map_app.
    + simpl. rewrite fmap_replicate.
      change (strip_place "0") with 11%nat. apply Hr.
    + rewrite fmap_replicate. change (strip_place " ") with 1%nat.
      rewrite read_places_blanks. simpl. apply (Hr 0%nat).
  - apply Z.ltb_ge in Hneg. rewrite Z.abs_eq by exact Hneg.
    destruct pad_zeros; rewrite !chars_app, chars_of_list, !map_app.
    + simpl. rewrite fmap_replicate. change (strip_place "0") with 11%nat.
      apply read_places_digits, Hneg.
    + rewrite fmap_replicate. change (strip_place " ") with 1%nat.
      rewrite read_places_blanks. simpl.
      apply (read_places_digits value 0), Hneg.
Qed.

Lemma clamp_bounds (digits : positive) (value : Z) :
  - (10 ^ (Z.pos digits - 1) - 1) <= clamp digits value <= 10 ^ Z.pos digits - 1.
Proof.
  unfold clamp.
  assert (0 < 10 ^ (Z.pos digits - 1)) by (apply Z.pow_pos_nonneg; lia).
  assert (0 < 10 ^ Z.pos digits) by (apply Z.pow_pos_nonneg; lia).
  lia.
Qed.

Lemma get_bitmaps_spec (self : LCD.t Bitmap) :
  length (LCD._bitmaps self) = 12%nat ->
  exists l places,
    LCD._get_bitmaps self = Done l
    /\ length l = Pos.to_nat (LCD.digits self)
    /\ Forall2 (fun k b => LCD._bitmaps self !! k = Some b) places l
    /\ read_places places = clamp (LCD.digits self) (LCD._value self).
Proof.
  intros Hlen. unfold LCD._get_bitmaps.
  destruct (LCD._bitmaps self) as [|bmp_minus [|bmp_space bmp_digits]] eqn:Hb;
    [discriminate | discriminate |].
  simpl in Hlen. assert (Hd : length bmp_digits = 10%nat) by lia.
  cbv zeta. fold (clamp (LCD.digits self) (LCD._value self)).
  set (v := clamp (LCD.digits self) (LCD._value self)).
  rewrite format_int_length by apply clamp_bounds.
  rewrite Z.eqb_refl. cbn [negb].
  destruct (comprehension_spec
              (fun char : ascii =>
                 if bool_decide (char = "-"%char) then Done bmp_minus
                 else if bool_decide (char = " "%char) then Done bmp_space
                 else match Ascii.is_nat char with
                      | Some d => index (reverse bmp_digits) (Z.of_nat d)
                      | None => Fail (Exn ValueError)
                      end)
              (list_ascii_of_string
                 (format_int (LCD.pad_zeros self) (Z.pos (LCD.digits self)) v))
              (fun c b => (bmp_minus :: bmp_space :: bmp_digits) !! strip_place c
                          = Some b))
    as (l & Hl & HF).
  { eapply Forall_impl; [apply format_int_chars|].
    intros c Hc. apply char_bitmap; assumption. }
  exists l, (map strip_place
               (list_ascii_of_string
                  (format_int (LCD.pad_zeros self) (Z.pos (LCD.digits self)) v))).
  split; [exact Hl|]. split; [|split].
  - apply Forall2_length in HF. rewrite <- HF, length_chars.
    pose proof (format_int_length (LCD.pad_zeros self) (LCD.digits self) v
                  (clamp_bounds _ _)). lia.
  - apply Forall2_fmap_l. exact HF.
  - apply read_format_int.
Qed.

(** X13: the display never fails to format its value, whatever the value: with
    the twelve bitmaps of its strip, [set_value] returns, stores the value
    and draws as many characters as the display has digits, each with the
    bitmap at some place of the strip; read back, the places give the value
    kept within [-(10^(digits-1) - 1), 10^digits - 1]. *)
Theorem lcd_shows_value (self : LCD.t Bitmap) (value : Z) :
  length (LCD._bitmaps self) = 12%nat ->
  exists l places,
    LCD.set_value value self
    = (Done tt, LCD.set__char_bitmaps l (LCD.set__value value self))
    /\ length l = Pos.to_nat (LCD.digits self)
    /\ Forall2 (fun k b => LCD._bitmaps self !! k = Some b) places l
    /\ read_places places = clamp (LCD.digits self) value.
Proof.
  intros Hlen.
  destruct (get_bitmaps_spec (LCD.set__value value self) Hlen)
    as (l & places & Hg & H1 & H2 & H3).
  exists l, places. split; [|split; [exact H1 | split; [exact H2 | exact H3]]].
  unfold LCD.set_value, wbind, wmodify, wget, pure. rewrite Hg. reflexivity.
Qed.

End Display.

(** ** The field of buttons *)

Section Painting.

Context {RNG Bitmap : Type}.
Abbreviation Game := (@Game RNG).
Abbreviation Button := (Minefield.Button Bitmap).

Lemma proximity_count_range (p : point) (g : Game) :
  p ∉ mine_points g -> 0 <= proximity_count p g <= 8.
Proof.
  intros Hp.
  assert (Hm : is_mine p g = false) by (apply bool_decide_eq_false_2, Hp).
  unfold proximity_count. rewrite Hm.
  destruct p as [x y]. cbn [fst snd].
  rewrite (range2_3 (x - 1) (x + 2)) by lia.
  rewrite (range2_3 (y - 1) (y + 2)) by lia.
  replace (x - 1 + 1) with x by lia. replace (y - 1 + 1) with y by lia.
  cbn [mbind list_bind mret list_ret concat map app foldr list_sum_Z].
  rewrite Hm, !if_b2z, andb_false_r. cbn [Z.b2z].
  repeat match goal with |- context [Z.b2z ?b] =>
    let H := fresh in
    assert (H : 0 <= Z.b2z b <= 1) by (destruct b; simpl; lia);
    generalize dependent (Z.b2z b); intros end.
  lia.
Qed.

Lemma set_bitmaps_spec (x y : Z) (l s : Bitmap) (m : Minefield.t Bitmap)
    (col : list Button) (b : Button) :
  0 <= x -> 0 <= y ->
  Minefield.button_grid m !! Z.to_nat x = Some col ->
  col !! Z.to_nat y = Some b ->
  Minefield.set_bitmaps x y l s m
  = (Done tt,
     Minefield.set_button_grid
       (<[Z.to_nat x := <[Z.to_nat y := Minefield.mkButton l s]> col]>
          (Minefield.button_grid m)) m).
Proof.
  intros Hx Hy Hcol Hb.
  pose proof (lookup_lt_Some _ _ _ Hcol) as Hlx.
  pose proof (lookup_lt_Some _ _ _ Hb) as Hly.
  unfold Minefield.set_bitmaps, wbind, wget, pure, wmodify, index, getitem, setitem.
  rewrite (py_index_nonneg (Minefield.button_grid m) x) by lia.
  rewrite Hcol. rewrite (py_index_nonneg col y) by lia. rewrite Hb.
  reflexivity.
Qed.


Lemma index_nonneg {A} (l : list A) (i : Z) (a : A) :
  0 <= i -> l !! Z.to_nat i = Some a -> index l i = Done a.
Proof.
  intros Hi Ha. pose proof (lookup_lt_Some _ _ _ Ha).
  unfold index, getitem. rewrite py_index_nonneg by lia. rewrite Ha. reflexivity.
Qed.

(** One round of the loops of [update] sets the button of the cell to
    the button of [picture]. *)
Lemma update_button_spec (g : Game)
    (b0 b1 b2 b3 b4 b5 b6 b7 b8 b9 b10 b11 b12 b13 b14 b15 : Bitmap)
    (x y : Z) (m : Minefield.t Bitmap) (col : list Button) (b : Button) :
  square g -> in_range (x, y) g = true ->
  (opened (x, y) g = true -> (x, y) ∉ mine_points g) ->
  Minefield.button_grid m !! Z.to_nat x = Some col ->
  col !! Z.to_nat y = Some b ->
  exists B,
    button_for [b0; b1; b2; b3; b4; b5; b6; b7; b8; b9; b10; b11; b12; b13; b14; b15]
      g (x, y) = Some B
    /\ Minefield.update_button g b0 b1 b2 b3 b4 b5 b6
         [b7; b8; b9; b10; b11; b12; b13; b14; b15] b15
         (bool_decide (state g = lost)) x y m
       = (Done tt,
          Minefield.set_button_grid
            (<[Z.to_nat x := <[Z.to_nat y := B]> col]> (Minefield.button_grid m)) m).
Proof.
  intros Hsq Hin Hmine Hcol Hb.
  pose proof (proj1 (in_range_iff _ _) Hin) as [Hx Hy]. cbn [fst snd] in Hx, Hy.
  unfold Minefield.update_button, button_for, picture.
  unfold wbind at 1. unfold wget at 1.
  unfold wbind at 1. unfold pure at 1.
  rewrite (index_nonneg _ x col) by (lia || assumption).
  unfold wbind at 1. unfold pure at 1.
  rewrite (index_nonneg _ y b) by (lia || assumption).
  rewrite is_opened_square by assumption.
  destruct (opened (x, y) g) eqn:Ho.
  - pose proof (proximity_count_range _ _ (Hmine eq_refl)) as Hc.
    set (c := proximity_count (x, y) g) in *. clearbody c.
    assert (Hcases : c = 0 \/ c = 1 \/ c = 2 \/ c = 3 \/ c = 4 \/ c = 5
                     \/ c = 6 \/ c = 7 \/ c = 8) by lia.
    destruct Hcases as [->|[->|[->|[->|[->|[->|[->|[->| ->]]]]]]]];
      (eexists; split; [reflexivity|]);
      unfold wbind, pure; simpl index;
      eapply set_bitmaps_spec; (lia || eassumption).
  - destruct (is_flagged (x, y) g), (is_mine (x, y) g), (is_questioned (x, y) g);
      repeat case_bool_decide; try contradiction;
      (eexists; split; [reflexivity|]); simpl;
      eapply set_bitmaps_spec; (lia || eassumption).
Qed.


Section Loops.

Variable g : Game.
Variables b0 b1 b2 b3 b4 b5 b6 b7 b8 b9 b10 b11 b12 b13 b14 b15 : Bitmap.
Hypothesis g_square : square g.
Hypothesis g_opened : forall q, opened q g = true -> q ∉ mine_points g.

Abbreviation bmps :=
  [b0; b1; b2; b3; b4; b5; b6; b7; b8; b9; b10; b11; b12; b13; b14; b15].
Abbreviation body :=
  (Minefield.update_button g b0 b1 b2 b3 b4 b5 b6
     [b7; b8; b9; b10; b11; b12; b13; b14; b15] b15 (bool_decide (state g = lost))).

(** The inner loop sets the buttons of the rows [ys] of the column [x]. *)
Lemma paint_column (x : Z) (ys : list Z) (m : Minefield.t Bitmap)
    (col : list Button) :
  0 <= x < fst (size g) ->
  (forall y, y ∈ ys -> 0 <= y < snd (size g)) ->
  Minefield.button_grid m !! Z.to_nat x = Some col ->
  length col = Z.to_nat (snd (size g)) ->
  exists col',
    wfor_each ys (body x) m
    = (Done tt,
       Minefield.set_button_grid
         (<[Z.to_nat x := col']> (Minefield.button_grid m)) m)
    /\ length col' = length col
    /\ forall j, col' !! j
                 = if bool_decide (Z.of_nat j ∈ ys)
                   then button_for bmps g (x, Z.of_nat j)
                   else col !! j.
Proof.
  intros Hx. revert m col. induction ys as [|y ys IH]; intros m col Hys Hcol Hlen.
  - exists col. split; [|split; [reflexivity|]].
    + simpl. unfold wret. rewrite list_insert_id by exact Hcol.
      destruct m; reflexivity.
    + intros j. rewrite bool_decide_eq_false_2 by (apply not_elem_of_nil). reflexivity.
  - assert (Hy : 0 <= y < snd (size g)) by (apply Hys; left).
    destruct (lookup_lt_is_Some_2 col (Z.to_nat y)) as [b Hb]; [rewrite Hlen; lia|].
    destruct (update_button_spec g b0 b1 b2 b3 b4 b5 b6 b7 b8 b9 b10 b11 b12 b13
                b14 b15 x y m col b g_square) as (B & HB & Hstep);
      [apply in_range_iff; simpl; lia | apply g_opened | exact Hcol | exact Hb |].
    cbn [wfor_each]. unfold wbind at 1. fold body in Hstep. rewrite Hstep.
    pose proof (lookup_lt_Some _ _ _ Hcol) as Hlx.
    destruct (IH (Minefield.set_button_grid
                    (<[Z.to_nat x := <[Z.to_nat y := B]> col]>
                       (Minefield.button_grid m)) m)
                 (<[Z.to_nat y := B]> col)) as (col' & Hloop & Hlen' & Hcol').
    { intros y' Hy'. apply Hys. right. exact Hy'. }
    { simpl. apply list_lookup_insert_eq. exact Hlx. }
    { rewrite length_insert. exact Hlen. }
    exists col'. split; [|split].
    + rewrite Hloop. simpl. rewrite list_insert_insert_eq. reflexivity.
    + rewrite Hlen', length_insert. reflexivity.
    + intros j. rewrite Hcol'.
      destruct (decide (j = Z.to_nat y)) as [->|Hj].
      * rewrite Z2Nat.id by lia.
        rewrite (bool_decide_eq_true_2 (y ∈ y :: ys)) by left.
        destruct (bool_decide (y ∈ ys)); [reflexivity|].
        rewrite list_lookup_insert_eq by lia. symmetry. exact HB.
      * rewrite list_lookup_insert_ne by congruence.
        assert (Hiff : Z.of_nat j ∈ y :: ys <-> Z.of_nat j ∈ ys).
        { rewrite elem_of_cons. split; [intros [E|]; [lia | assumption] | auto]. }
        destruct (decide (Z.of_nat j ∈ ys)) as [Hin|Hin].
        -- rewrite !bool_decide_eq_true_2 by first [exact Hin | apply Hiff; exact Hin]. reflexivity.
        -- rewrite !bool_decide_eq_false_2 by first [exact Hin | rewrite Hiff; exact Hin]. reflexivity.
Qed.

(** The outer loop sets the buttons of the columns [xs]. *)
Lemma paint_grid (xs : list Z) (m : Minefield.t Bitmap) :
  (forall x, x ∈ xs -> 0 <= x < fst (size g)) ->
  length <$> Minefield.button_grid m
  = replicate (Z.to_nat (fst (size g))) (Z.to_nat (snd (size g))) ->
  exists grid',
    wfor_each xs (fun x => wfor_each (range (snd (size g))) (body x)) m
    = (Done tt, Minefield.set_button_grid grid' m)
    /\ length <$> grid' = length <$> Minefield.button_grid m
    /\ forall i j, (j < Z.to_nat (snd (size g)))%nat ->
         button_at grid' i j
         = if bool_decide (Z.of_nat i ∈ xs)
           then button_for bmps g (Z.of_nat i, Z.of_nat j)
           else button_at (Minefield.button_grid m) i j.
Proof.
  revert m. induction xs as [|x xs IH]; intros m Hxs Hshape.
  - exists (Minefield.button_grid m). split; [|split; [reflexivity|]].
    + simpl. unfold wret. destruct m; reflexivity.
    + intros i j _. rewrite bool_decide_eq_false_2 by (apply not_elem_of_nil).
      reflexivity.
  - assert (Hx : 0 <= x < fst (size g)) by (apply Hxs; left).
    assert (Hcolx : exists col, Minefield.button_grid m !! Z.to_nat x = Some col
                                /\ length col = Z.to_nat (snd (size g))).
    { destruct (lookup_lt_is_Some_2 (Minefield.button_grid m) (Z.to_nat x))
        as [col Hcol].
      { rewrite <- (length_fmap length), Hshape, length_replicate. lia. }
      exists col. split; [exact Hcol|].
      assert (H : (length <$> Minefield.button_grid m) !! Z.to_nat x
                  = Some (length col)) by (rewrite list_lookup_fmap, Hcol; reflexivity).
      rewrite Hshape in H. apply lookup_replicate in H as [H _]. exact H. }
    destruct Hcolx as (col & Hcol & Hlen).
    destruct (paint_column x (range (snd (size g))) m col Hx) as (col' & Hin & Hlen' & Hcol');
      [|exact Hcol|exact Hlen|].
    { intros y Hy. unfold range in Hy. apply elem_of_seqZ in Hy. lia. }
    cbn [wfor_each]. unfold wbind at 1. rewrite Hin.
    pose proof (lookup_lt_Some _ _ _ Hcol) as Hlx.
    destruct (IH (Minefield.set_button_grid
                    (<[Z.to_nat x := col']> (Minefield.button_grid m)) m))
      as (grid' & Hloop & Hshape' & Hgrid').
    { intros x' Hx'. apply Hxs. right. exact Hx'. }
    { simpl. rewrite list_fmap_insert, Hlen', Hlen.
      rewrite list_insert_id; [exact Hshape|].
      rewrite Hshape. apply lookup_replicate. split; [reflexivity|].
      rewrite <- (length_fmap length), Hshape, length_replicate in Hlx. exact Hlx. }
    exists grid'. split; [|split].
    + rewrite Hloop. reflexivity.
    + rewrite Hshape'. simpl. rewrite list_fmap_insert, Hlen'.
      apply list_insert_id. rewrite list_lookup_fmap, Hcol. reflexivity.
    + intros i j Hj. rewrite Hgrid' by exact Hj.
      change (Minefield.button_grid
                (Minefield.set_button_grid
                   (<[Z.to_nat x := col']> (Minefield.button_grid m)) m))
        with (<[Z.to_nat x := col']> (Minefield.button_grid m)).
      destruct (decide (i = Z.to_nat x)) as [->|Hi].
      * rewrite Z2Nat.id by lia.
        rewrite (bool_decide_eq_true_2 (x ∈ x :: xs)) by left.
        destruct (bool_decide (x ∈ xs)); [reflexivity|].
        unfold button_at. rewrite list_lookup_insert_eq by exact Hlx. simpl.
        rewrite Hcol'. rewrite bool_decide_eq_true_2; [reflexivity|].
        unfold range. apply elem_of_seqZ. lia.
      * assert (Hiff : Z.of_nat i ∈ x :: xs <-> Z.of_nat i ∈ xs).
        { rewrite elem_of_cons. split; [intros [E|]; [lia | assumption] | auto]. }
        assert (Hne : button_at (<[Z.to_nat x := col']> (Minefield.button_grid m)) i j
                      = button_at (Minefield.button_grid m) i j).
        { unfold button_at. rewrite list_lookup_insert_ne by congruence. reflexivity. }
        rewrite Hne.
        destruct (decide (Z.of_nat i ∈ xs)) as [Hin'|Hin'].
        -- rewrite !bool_decide_eq_true_2 by first [exact Hin' | apply Hiff; exact Hin']. reflexivity.
        -- rewrite !bool_decide_eq_false_2 by first [exact Hin' | rewrite Hiff; exact Hin']. reflexivity.
Qed.

End Loops.


Lemma button_for_is_Some (bmps : list Bitmap) (g : Game) (p : point) :
  length bmps = 16%nat -> (opened p g = true -> p ∉ mine_points g) ->
  is_Some (button_for bmps g p).
Proof.
  intros Hlen Hm.
  assert (H : (fst (picture g p) < 16)%nat /\ (snd (picture g p) < 16)%nat).
  { unfold picture. destruct (opened p g).
    - pose proof (proximity_count_range _ _ (Hm eq_refl)). simpl. lia.
    - destruct (is_flagged p g), (is_mine p g), (is_questioned p g);
        repeat case_bool_decide; simpl; lia. }
  destruct H as [H1 H2]. unfold button_for.
  destruct (lookup_lt_is_Some_2 bmps (fst (picture g p))) as [l ->]; [lia|].
  destruct (lookup_lt_is_Some_2 bmps (snd (picture g p))) as [s ->]; [lia|].
  simpl. eauto.
Qed.

Lemma length_range (n : Z) : length (range n) = Z.to_nat n.
Proof. unfold range. apply length_seqZ. Qed.

Lemma fresh_grid_shape {A} (f : Z -> Z -> A) (w h : Z) :
  length <$> map (fun x => map (fun y => f x y) (range h)) (range w)
  = replicate (Z.to_nat w) (Z.to_nat h).
Proof.
  rewrite <- (length_range w). induction (range w) as [|x l IH]; [reflexivity|].
  simpl. rewrite length_map, length_range. f_equal. exact IH.
Qed.

(** [update] lays the buttons out anew for a [Game] it has not seen, and
    then shows the board on them. *)
Lemma minefield_update_spec (ident : nat) (g : Game) (m : Minefield.t Bitmap) :
  length (Minefield.cell_bitmaps m) = 16%nat ->
  square g -> 0 < fst (size g) ->
  (forall q, opened q g = true -> q ∉ mine_points g) ->
  (Minefield._last_game m = Some ident ->
   length <$> Minefield.button_grid m
   = replicate (Z.to_nat (fst (size g))) (Z.to_nat (snd (size g)))) ->
  exists grid',
    Minefield.update ident (Some g) m
    = (Done tt,
       Minefield.set_button_grid grid' (Minefield.set__last_game (Some ident) m))
    /\ shows (Minefield.cell_bitmaps m) grid' g.
Proof.
  intros Hlen Hsq Hw Hop Hshape.
  pose proof Hlen as Hlen16.
  destruct (Minefield.cell_bitmaps m)
    as [|b0 [|b1 [|b2 [|b3 [|b4 [|b5 [|b6 [|b7 [|b8 [|b9 [|b10 [|b11 [|b12 [|b13
        [|b14 [|b15 [|]]]]]]]]]]]]]]]]] eqn:Hb; try discriminate.
  clear Hlen.
  assert (Hh : 0 < snd (size g)) by (destruct Hsq as [_ <-]; exact Hw).
  (* the minefield once the buttons are laid out *)
  assert (Hinit : exists m1,
    (if negb (bool_decide (Minefield._last_game m = Some ident))
     then wmodify (Minefield.set__last_game (Some ident)) >>>
          Minefield.initialize_board (size g)
     else wret tt) m = (Done tt, m1)
    /\ Minefield.cell_bitmaps m1 = Minefield.cell_bitmaps m
    /\ (forall grid, Minefield.set_button_grid grid m1
        = Minefield.set_button_grid grid (Minefield.set__last_game (Some ident) m))
    /\ length <$> Minefield.button_grid m1
       = replicate (Z.to_nat (fst (size g))) (Z.to_nat (snd (size g)))).
  { destruct (decide (Minefield._last_game m = Some ident)) as [E|E].
    - rewrite bool_decide_eq_true_2 by exact E. exists m.
      split; [reflexivity|]. split; [reflexivity|]. split; [|auto].
      intros grid. destruct m; simpl in *. subst. reflexivity.
    - rewrite bool_decide_eq_false_2 by exact E. cbn [negb].
      unfold wbind at 1. unfold wmodify at 1.
      unfold Minefield.initialize_board, wbind, wget.
      destruct (size g) as [w h] eqn:Hsz.
      cbn [Minefield.cell_bitmaps Minefield.set__last_game].
      rewrite Hb. unfold wmodify.
      eexists. split; [reflexivity|]. split; [exact Hb|]. split; [reflexivity|].
      cbn [Minefield.button_grid Minefield.set_button_grid fst snd].
      apply fresh_grid_shape. }
  destruct Hinit as (m1 & Hm1 & Hbm & Hm1eq & Hshape1).
  rewrite Hb in Hbm.
  unfold Minefield.update.
  unfold wbind at 1. unfold wget at 1.
  unfold wbind at 1. rewrite Hm1.
  unfold wbind at 1. unfold wget at 1. rewrite Hbm.
  unfold wbind at 1. unfold pure at 1. simpl index.
  (* the first column *)
  assert (Hcol0 : exists col0, Minefield.button_grid m1 !! 0%nat = Some col0
                               /\ length col0 = Z.to_nat (snd (size g))).
  { destruct (lookup_lt_is_Some_2 (Minefield.button_grid m1) 0) as [col Hcol].
    { rewrite <- (length_fmap length), Hshape1, length_replicate. lia. }
    exists col. split; [exact Hcol|].
    assert (H : (length <$> Minefield.button_grid m1) !! 0%nat = Some (length col))
      by (rewrite list_lookup_fmap, Hcol; reflexivity).
    rewrite Hshape1 in H. apply lookup_replicate in H as [H _]. exact H. }
  destruct Hcol0 as (col0 & Hcol0 & Hlen0).
  unfold wbind at 1. unfold pure at 1.
  rewrite (index_nonneg _ 0 col0) by (lia || exact Hcol0).
  rewrite Hlen0.
  replace (length (Minefield.button_grid m1)) with (Z.to_nat (fst (size g)))
    by (rewrite <- (length_fmap length (Minefield.button_grid m1)), Hshape1,
          length_replicate; reflexivity).
  rewrite !Z2Nat.id by lia.
  destruct (paint_grid g b0 b1 b2 b3 b4 b5 b6 b7 b8 b9 b10 b11 b12 b13 b14 b15
              Hsq Hop (range (fst (size g))) m1) as (grid' & Hloop & Hshape' & Hgrid').
  { intros x Hx. unfold range in Hx. apply elem_of_seqZ in Hx. lia. }
  { exact Hshape1. }
  exists grid'. split.
  - rewrite <- Hm1eq. exact Hloop.
  - split; [rewrite Hshape'; exact Hshape1|].
    intros p Hp. split; [apply button_for_is_Some; [exact Hlen16 | apply Hop]|].
    apply in_range_iff in Hp as [Hx Hy].
    rewrite Hgrid' by lia. rewrite !Z2Nat.id by lia.
    rewrite bool_decide_eq_true_2 by (unfold range; apply elem_of_seqZ; lia).
    destruct p; reflexivity.
Qed.

End Painting.

(** ** The window *)

Section Showing.

Context {RNG Bitmap : Type}.
Abbreviation Game := (@Game RNG).
Abbreviation Button := (Minefield.Button Bitmap).
Abbreviation Frame := (GameFrame.t RNG Bitmap).

(** Two grids of buttons that show the same board are the same. *)
Lemma shows_unique (bmps : list Bitmap) (grid grid' : list (list Button))
    (g : Game) :
  shows bmps grid g -> shows bmps grid' g -> grid = grid'.
Proof.
  intros [Hs1 Hb1] [Hs2 Hb2].
  assert (Hcol : forall (gr : list (list Button)) i col,
            length <$> gr
            = replicate (Z.to_nat (fst (size g))) (Z.to_nat (snd (size g))) ->
            gr !! i = Some col ->
            (i < Z.to_nat (fst (size g)))%nat
            /\ length col = Z.to_nat (snd (size g))).
  { intros gr i col Hs Hc.
    assert (H : (length <$> gr) !! i = Some (length col))
      by (rewrite list_lookup_fmap, Hc; reflexivity).
    rewrite Hs in H. apply lookup_replicate in H as [H1 H2]. auto. }
  assert (Hlen : length grid = length grid').
  { rewrite <- (length_fmap length grid), <- (length_fmap length grid'), Hs1, Hs2.
    reflexivity. }
  apply list_eq. intros i.
  destruct (grid !! i) as [col|] eqn:Hc.
  - destruct (lookup_lt_is_Some_2 grid' i) as [col' Hc'];
      [rewrite <- Hlen; eapply lookup_lt_Some; eassumption|].
    rewrite Hc'. f_equal.
    destruct (Hcol grid i col Hs1 Hc) as [Hi Hl].
    destruct (Hcol grid' i col' Hs2 Hc') as [_ Hl'].
    apply list_eq. intros j.
    destruct (decide (j < Z.to_nat (snd (size g)))%nat) as [Hj|Hj].
    + assert (Hin : in_range (Z.of_nat i, Z.of_nat j) g = true)
        by (apply in_range_iff; simpl; lia).
      destruct (Hb1 _ Hin) as [_ E1]. destruct (Hb2 _ Hin) as [_ E2].
      cbn [fst snd] in E1, E2. rewrite !Nat2Z.id in E1, E2.
      unfold button_at in E1, E2. rewrite Hc in E1. rewrite Hc' in E2.
      simpl in E1, E2. congruence.
    + rewrite !lookup_ge_None_2 by lia. reflexivity.
  - symmetry. apply lookup_ge_None. rewrite <- Hlen. apply lookup_ge_None, Hc.
Qed.

(** *** The scoreboard *)

Lemma set_smile_face_spec (f : SmileFace) (s : Scoreboard.t Bitmap) :
  length (Scoreboard._smile_bitmaps s) = 5%nat ->
  exists b,
    Scoreboard._smile_bitmaps s !! face_place f = Some b
    /\ Scoreboard.set_smile_face f s = (Done tt, Scoreboard.set__smile_button b s).
Proof.
  intros Hlen.
  destruct (lookup_lt_is_Some_2 (Scoreboard._smile_bitmaps s) (face_place f))
    as [b Hb]; [destruct f; simpl; lia|].
  exists b. split; [exact Hb|].
  unfold Scoreboard.set_smile_face, wbind, wget, pure, wmodify.
  replace (if bool_decide (f = COOL) then 1
           else if bool_decide (f = SAD) then 2
           else if bool_decide (f = SURPRISED) then 3
           else if bool_decide (f = HAPPY) then 4 else 0)
    with (Z.of_nat (face_place f)) by (destruct f; reflexivity).
  rewrite (index_nonneg _ _ b) by (rewrite ?Nat2Z.id; (lia || exact Hb)).
  reflexivity.
Qed.

Lemma lcd_set_value_spec (lcd : LCD.t Bitmap) (value : Z) :
  length (LCD._bitmaps lcd) = 12%nat ->
  exists lcd',
    LCD.set_value value lcd = (Done tt, lcd')
    /\ LCD._value lcd' = value
    /\ LCD._bitmaps lcd' = LCD._bitmaps lcd
    /\ LCD.digits lcd' = LCD.digits lcd
    /\ LCD.pad_zeros lcd' = LCD.pad_zeros lcd
    /\ LCD._get_bitmaps lcd' = Done (LCD._char_bitmaps lcd').
Proof.
  intros Hlen.
  destruct (get_bitmaps_spec (LCD.set__value value lcd) Hlen)
    as (l & places & Hg & _).
  exists (LCD.set__char_bitmaps l (LCD.set__value value lcd)).
  split; [|repeat split].
  - unfold LCD.set_value, wbind, wmodify, wget, pure. rewrite Hg. reflexivity.
  - exact Hg.
Qed.

(** An up-to-date display is left as it is by [set_value] with its
    value. *)
Lemma lcd_set_value_same (lcd : LCD.t Bitmap) :
  LCD._get_bitmaps lcd = Done (LCD._char_bitmaps lcd) ->
  LCD.set_value (LCD._value lcd) lcd = (Done tt, lcd).
Proof.
  intros Hg. unfold LCD.set_value, wbind, wmodify, wget, pure.
  replace (LCD.set__value (LCD._value lcd) lcd) with lcd by (destruct lcd; reflexivity).
  rewrite Hg. destruct lcd; reflexivity.
Qed.


(** *** [GameFrame.update] *)

Lemma smile_chain {A} (s : GameState) (f : SmileFace -> A) (d : A) :
  (if bool_decide (s = won) then f COOL
   else if bool_decide (s = lost) then f SAD
   else if bool_decide (s = playing) || bool_decide (s = idle) then f HAPPY
   else d) = f (face s).
Proof. destruct s; reflexivity. Qed.

Lemma on_game_get (self : Frame) (g : Game) :
  GameFrame.game self = Some g -> GameFrame.on_game get self = (Done g, self).
Proof.
  intros H. unfold GameFrame.on_game, get. rewrite H.
  destruct self; simpl in *; subst; reflexivity.
Qed.

Lemma frame_update_spec (self : Frame) (g : Game) :
  GameFrame.game self = Some g -> widgets_ok self ->
  square g -> 0 < fst (size g) ->
  (forall q, opened q g = true -> q ∉ mine_points g) ->
  (Minefield._last_game (GameFrame.minefield self)
   = Some (GameFrame.games_made self) ->
   length <$> Minefield.button_grid (GameFrame.minefield self)
   = replicate (Z.to_nat (fst (size g))) (Z.to_nat (snd (size g)))) ->
  exists self',
    GameFrame.update self = (Done tt, self')
    /\ GameFrame.game self' = Some g
    /\ GameFrame.game_size self' = GameFrame.game_size self
    /\ GameFrame.game_mines self' = GameFrame.game_mines self
    /\ GameFrame.games_made self' = GameFrame.games_made self
    /\ GameFrame.game_timer self'
       = (if bool_decide (state g = won) || bool_decide (state g = lost)
          then false else GameFrame.game_timer self)
    /\ widgets_ok self'
    /\ displayed self' g
    /\ same_widgets self self'.
Proof.
  intros Hg (Hw1 & Hw2 & Hw3) Hsq Hpos Hop Hshape.
  destruct (minefield_update_spec (GameFrame.games_made self) g
              (GameFrame.minefield self) Hw1 Hsq Hpos Hop Hshape)
    as (grid' & Hmf & Hshows).
  unfold GameFrame.update.
  unfold wbind at 1. unfold wget at 1.
  unfold wbind at 1. unfold zoom at 1. rewrite Hg, Hmf.
  set (s1 := GameFrame.set_minefield _ self).
  assert (Hg1 : GameFrame.game s1 = Some g) by exact Hg.
  unfold wbind at 1. rewrite (on_game_get s1 g Hg1).
  set (s2 := if bool_decide (state g = won) || bool_decide (state g = lost)
             then GameFrame.set_game_timer false s1 else s1).
  assert (Hstop :
    (if bool_decide (state g = won) || bool_decide (state g = lost)
     then GameFrame.stop_game else wret tt) s1 = (Done tt, s2)).
  { unfold s2. destruct (_ || _); reflexivity. }
  unfold wbind at 1. rewrite Hstop.
  assert (Hg2 : GameFrame.game s2 = Some g)
    by (unfold s2; destruct (_ || _); exact Hg1).
  unfold wbind at 1. rewrite (on_game_get s2 g Hg2).
  assert (Hsb2 : GameFrame.scoreboard s2 = GameFrame.scoreboard self)
    by (unfold s2; destruct (_ || _); reflexivity).
  destruct (set_smile_face_spec (face (state g)) (GameFrame.scoreboard s2))
    as (b & Hb & Hface); [rewrite Hsb2; exact Hw2|].
  set (s3 := GameFrame.set_scoreboard
               (Scoreboard.set__smile_button b (GameFrame.scoreboard s2)) s2).
  assert (Hsmile :
    (if bool_decide (state g = won)
     then zoom GameFrame.scoreboard GameFrame.set_scoreboard
            (Scoreboard.set_smile_face COOL)
     else if bool_decide (state g = lost)
     then zoom GameFrame.scoreboard GameFrame.set_scoreboard
            (Scoreboard.set_smile_face SAD)
     else if bool_decide (state g = playing) || bool_decide (state g = idle)
     then zoom GameFrame.scoreboard GameFrame.set_scoreboard
            (Scoreboard.set_smile_face HAPPY)
     else wret tt) s2 = (Done tt, s3)).
  { pose proof (smile_chain (state g)
                  (fun f => zoom (GameFrame.scoreboard (RNG:=RNG))
                              GameFrame.set_scoreboard
                              (Scoreboard.set_smile_face (Bitmap:=Bitmap) f))
                  (wret tt)) as Hc.
    cbv beta in Hc. rewrite Hc. unfold zoom. rewrite Hface. reflexivity. }
  unfold wbind at 1. rewrite Hsmile.
  assert (Hg3 : GameFrame.game s3 = Some g) by exact Hg2.
  unfold wbind at 1. rewrite (on_game_get s3 g Hg3).
  destruct (lcd_set_value_spec
              (Scoreboard._flags_lcd (GameFrame.scoreboard s3))
              (mine_count g - set_len (flagged_points g)))
    as (lcd' & Hset & Hv & Hbm & Hd & Hp & Hget).
  { unfold s3. simpl. rewrite Hsb2. exact Hw3. }
  unfold Scoreboard.set_flags_value, zoom. rewrite Hset.
  eexists. split; [reflexivity|].
  split; [exact Hg3|].
  assert (Hsame : GameFrame.game_size s2 = GameFrame.game_size self
                  /\ GameFrame.game_mines s2 = GameFrame.game_mines self
                  /\ GameFrame.games_made s2 = GameFrame.games_made self
                  /\ GameFrame.minefield s2 = GameFrame.minefield s1
                  /\ GameFrame.game_timer s2
                     = (if bool_decide (state g = won) || bool_decide (state g = lost)
                        then false else GameFrame.game_timer self))
    by (unfold s2; destruct (_ || _); repeat split).
  destruct Hsame as (E1 & E2 & E3 & E4 & E5).
  split; [exact E1|]. split; [exact E2|]. split; [exact E3|]. split; [exact E5|].
  split; [|split].
  - unfold widgets_ok. simpl. rewrite E4, Hbm. unfold s3. simpl. rewrite Hsb2.
    unfold s1. simpl. repeat split; assumption.
  - unfold displayed. simpl. rewrite E4, E3. unfold s1. simpl.
    split; [reflexivity|]. split; [exact Hshows|].
    split; [rewrite ?Hsb2; rewrite ?Hsb2 in Hb; exact Hb|]. split; [exact Hv | exact Hget].
  - unfold same_widgets. simpl. rewrite E1, E2, E4, Hbm, Hd, Hp. unfold s3. simpl.
    rewrite Hsb2. unfold s1. simpl. repeat split.
Qed.

(** On a window that shows its board, with its timer stopped once the
    game is over, [update] changes nothing. *)
Lemma frame_update_same (self : Frame) (g : Game) :
  GameFrame.game self = Some g -> widgets_ok self ->
  square g -> 0 < fst (size g) ->
  (forall q, opened q g = true -> q ∉ mine_points g) ->
  displayed self g ->
  (state g = won \/ state g = lost -> GameFrame.game_timer self = false) ->
  GameFrame.update self = (Done tt, self).
Proof.
  intros Hg Hw Hsq Hpos Hop (Hlast & Hshows & Hsmile & Hval & Hget) Htimer.
  pose proof Hw as (Hw1 & Hw2 & Hw3).
  destruct (minefield_update_spec (GameFrame.games_made self) g
              (GameFrame.minefield self) Hw1 Hsq Hpos Hop)
    as (grid' & Hmf & Hshows'); [intros _; apply Hshows|].
  rewrite (shows_unique _ _ _ _ Hshows' Hshows) in Hmf.
  replace (Minefield.set_button_grid _ _) with (GameFrame.minefield self) in Hmf
    by (destruct (GameFrame.minefield self); simpl in *; subst; reflexivity).
  unfold GameFrame.update.
  unfold wbind at 1. unfold wget at 1.
  unfold wbind at 1. unfold zoom at 1. rewrite Hg, Hmf.
  replace (GameFrame.set_minefield (GameFrame.minefield self) self) with self
    by (destruct self; reflexivity).
  unfold wbind at 1. rewrite (on_game_get self g Hg).
  assert (Hstop :
    (if bool_decide (state g = won) || bool_decide (state g = lost)
     then GameFrame.stop_game else wret tt) self = (Done tt, self)).
  { destruct (decide (state g = won \/ state g = lost)) as [H|H].
    - replace (_ || _) with true
        by (symmetry; apply orb_true_iff; destruct H as [H|H];
            [left | right]; apply bool_decide_eq_true_2, H).
      unfold GameFrame.stop_game, wmodify. f_equal.
      specialize (Htimer H). destruct self; simpl in *; subst; reflexivity.
    - replace (_ || _) with false; [reflexivity|].
      symmetry. apply orb_false_iff.
      split; apply bool_decide_eq_false_2; tauto. }
  unfold wbind at 1. rewrite Hstop.
  unfold wbind at 1. rewrite (on_game_get self g Hg).
  destruct (set_smile_face_spec (face (state g)) (GameFrame.scoreboard self) Hw2)
    as (b & Hb & Hface).
  rewrite Hsmile in Hb. injection Hb as <-.
  replace (Scoreboard.set__smile_button _ _) with (GameFrame.scoreboard self)
    in Hface by (destruct (GameFrame.scoreboard self); reflexivity).
  assert (Hsm :
    (if bool_decide (state g = won)
     then zoom GameFrame.scoreboard GameFrame.set_scoreboard
            (Scoreboard.set_smile_face COOL)
     else if bool_decide (state g = lost)
     then zoom GameFrame.scoreboard GameFrame.set_scoreboard
            (Scoreboard.set_smile_face SAD)
     else if bool_decide (state g = playing) || bool_decide (state g = idle)
     then zoom GameFrame.scoreboard GameFrame.set_scoreboard
            (Scoreboard.set_smile_face HAPPY)
     else wret tt) self = (Done tt, self)).
  { pose proof (smile_chain (state g)
                  (fun f => zoom (GameFrame.scoreboard (RNG:=RNG))
                              GameFrame.set_scoreboard
                              (Scoreboard.set_smile_face (Bitmap:=Bitmap) f))
                  (wret tt)) as Hc.
    cbv beta in Hc. rewrite Hc. unfold zoom. rewrite Hface.
    destruct self; reflexivity. }
  unfold wbind at 1. rewrite Hsm.
  unfold wbind at 1. rewrite (on_game_get self g Hg).
  unfold Scoreboard.set_flags_value, zoom. rewrite <- Hval.
  rewrite (lcd_set_value_same _ Hget).
  f_equal. destruct self as [sb ? ? ? ? ? ?]. destruct sb. reflexivity.
Qed.


#[global] Instance same_widgets_preorder :
  PreOrder (same_widgets (RNG:=RNG) (Bitmap:=Bitmap)).
Proof.
  split.
  - intros f. repeat split.
  - intros f1 f2 f3 (A1 & A2 & A3 & A4 & A5 & A6 & A7)
      (B1 & B2 & B3 & B4 & B5 & B6 & B7).
    repeat split; congruence.
Qed.

(** A window that shows its board is determined by the board, the parts
    that no handler changes, the identity of the board and the timer. *)
Lemma frame_unique (f f' : Frame) (g : Game) :
  GameFrame.game f = Some g -> GameFrame.game f' = Some g ->
  same_widgets f f' ->
  GameFrame.games_made f' = GameFrame.games_made f ->
  GameFrame.game_timer f' = GameFrame.game_timer f ->
  displayed f g -> displayed f' g -> f = f'.
Proof.
  intros Hg Hg' (A1 & A2 & A3 & A4 & A5 & A6 & A7) Hid Ht
    (D1 & D2 & D3 & D4 & D5) (D1' & D2' & D3' & D4' & D5').
  rewrite A3 in D2'. pose proof (shows_unique _ _ _ _ D2 D2') as Hgrid.
  rewrite A4, D3 in D3'. injection D3' as Hbtn.
  assert (Hget : LCD._get_bitmaps (Scoreboard._flags_lcd (GameFrame.scoreboard f'))
                 = LCD._get_bitmaps (Scoreboard._flags_lcd (GameFrame.scoreboard f))).
  { unfold LCD._get_bitmaps. rewrite A5, A6, A7, D4, D4'. reflexivity. }
  rewrite Hget, D5 in D5'. injection D5' as Hchars.
  destruct f as [[sb lcd btn] gs gm [cb grid lg] ga n t].
  destruct f' as [[sb' lcd' btn'] gs' gm' [cb' grid' lg'] ga' n' t'].
  destruct lcd as [v d pz bm ch]. destruct lcd' as [v' d' pz' bm' ch'].
  simpl in *. subst. reflexivity.
Qed.

End Showing.

(** ** The board of the window *)

Section Windows.

Context {RNG Bitmap : Type}.
Abbreviation Game := (@Game RNG).
Abbreviation Frame := (GameFrame.t RNG Bitmap).

Lemma board_ok_new_game (n mines : Z) (r : RNG) :
  board_ok n mines (new_game (n, n) mines r).
Proof.
  split; [reflexivity|]. split; [reflexivity|].
  split; [apply marks_ok_new_game|].
  pose proof (marks_ok_new_game n mines r) as (Hsq & Hm & _).
  split; [|split; [|split]].
  - split; [exact Hsq|]. split; [exact Hm|]. split.
    + intros m Hmm. simpl in Hmm. set_solver.
    + simpl. discriminate.
  - intros _. split; [reflexivity|]. intros q. apply opened_new_game.
  - simpl. congruence.
  - simpl. discriminate.
Qed.

(** The marking methods on a board that is idle or being played. *)
Lemma board_ok_same_cells (n mines : Z) (g g' : Game) :
  _cell_opened_grid g' = _cell_opened_grid g -> size g' = size g ->
  mine_count g' = mine_count g -> mine_points g' = mine_points g ->
  state g' = state g -> state g <> won ->
  marks_ok g' -> board_ok n mines g -> board_ok n mines g'.
Proof.
  intros E1 E2 E3 E4 E5 Hnw Hmk' (Hsz & Hmc & Hmk & Hok & Hidle & Hcount & Hwon).
  split; [congruence|]. split; [congruence|]. split; [exact Hmk'|].
  split; [|split; [|split]].
  - revert Hok. apply game_ok_same; congruence.
  - rewrite E5, E4. intros H. destruct (Hidle H) as [H1 H2]. split; [exact H1|].
    intros q. rewrite (opened_same_grid q g g' E1). apply H2.
  - rewrite E5, E4, E3. exact Hcount.
  - rewrite E5. intros; contradiction.
Qed.

Lemma on_game_spec {A} (m : M A) (self : Frame) (g : Game) :
  GameFrame.game self = Some g ->
  GameFrame.on_game m self
  = match m g with
    | (Ok a, g') => (Done a, GameFrame.set_game (Some g') self)
    | (Raise e, g') => (Fail (Exn e), GameFrame.set_game (Some g') self)
    end.
Proof. intros H. unfold GameFrame.on_game. rewrite H. reflexivity. Qed.

Lemma set_game_same (self : Frame) (g : Game) :
  GameFrame.game self = Some g -> GameFrame.set_game (Some g) self = self.
Proof. intros H. destruct self; simpl in *; subst; reflexivity. Qed.

(** While no cell is opened and the game is not lost, the picture of a
    cell depends on its marks only. *)
Lemma picture_closed (g g' : Game) (q : point) :
  opened q g = false -> opened q g' = false ->
  flagged_points g' = flagged_points g ->
  questioned_points g' = questioned_points g ->
  state g <> lost -> state g' <> lost ->
  picture g' q = picture g q.
Proof.
  intros H1 H2 H3 H4 H5 H6. unfold picture, is_flagged, is_questioned.
  rewrite H1, H2, H3, H4.
  rewrite !(bool_decide_eq_false_2 (_ = lost)) by assumption. reflexivity.
Qed.

Lemma shows_generated (bmps : list Bitmap)
    (grid : list (list (Minefield.Button Bitmap))) (g g' : Game) :
  (forall q, opened q g = false) ->
  _cell_opened_grid g' = _cell_opened_grid g -> size g' = size g ->
  flagged_points g' = flagged_points g ->
  questioned_points g' = questioned_points g ->
  state g <> lost -> state g' <> lost ->
  shows bmps grid g -> shows bmps grid g'.
Proof.
  intros Hcl E1 E2 E3 E4 H5 H6 [Hs Hb]. split; [rewrite E2; exact Hs|].
  intros p Hp. rewrite (in_range_same_size p g g' E2) in Hp.
  unfold button_for.
  rewrite (picture_closed g g' p); try assumption;
    [|apply Hcl | rewrite (opened_same_grid p g g' E1); apply Hcl].
  apply Hb, Hp.
Qed.

(** [update] after the board changed: the window shows the new board. *)
Lemma update_restores (s1 : Frame) (g' : Game) (n : Z) :
  GameFrame.game s1 = Some g' ->
  GameFrame.game_size s1 = (n, n) -> 0 < n ->
  0 <= GameFrame.game_mines s1 < n * n ->
  board_ok n (GameFrame.game_mines s1) g' ->
  widgets_ok s1 ->
  (Minefield._last_game (GameFrame.minefield s1) = Some (GameFrame.games_made s1) ->
   length <$> Minefield.button_grid (GameFrame.minefield s1)
   = replicate (Z.to_nat n) (Z.to_nat n)) ->
  (state g' = playing -> GameFrame.game_timer s1 = true) ->
  (state g' = idle -> GameFrame.game_timer s1 = false) ->
  exists s2,
    GameFrame.update s1 = (Done tt, s2)
    /\ frame_ok s2
    /\ GameFrame.game s2 = Some g'
    /\ GameFrame.games_made s2 = GameFrame.games_made s1
    /\ same_widgets s1 s2.
Proof.
  intros Hg Hsize Hn Hmines Hok Hw Hshape Hplay Hidle.
  pose proof Hok as (Hsz & Hmc & Hmk & Hgok & _).
  pose proof Hgok as (Hsq & Hmr & Hc & _).
  destruct (frame_update_spec s1 g' Hg Hw Hsq)
    as (s2 & Hup & Hg2 & E1 & E2 & E3 & Ht & Hw2 & Hd & Hsw).
  { rewrite Hsz. exact Hn. }
  { intros q Hq Hm. rewrite (Hc q Hm) in Hq. discriminate. }
  { rewrite Hsz. exact Hshape. }
  exists s2. split; [exact Hup|]. split; [|split; [exact Hg2|split; [exact E3 | exact Hsw]]].
  exists g', n. split; [exact Hg2|]. split; [congruence|]. split; [exact Hn|].
  split; [rewrite E2; exact Hmines|]. split; [rewrite E2; exact Hok|].
  split; [|split; assumption].
  rewrite Ht. destruct (state g') eqn:Hst.
  - apply Hidle. reflexivity.
  - apply Hplay. reflexivity.
  - reflexivity.
  - reflexivity.
Qed.

Lemma shape_of_displayed (self : Frame) (g : Game) (n : Z) :
  displayed self g -> size g = (n, n) ->
  length <$> Minefield.button_grid (GameFrame.minefield self)
  = replicate (Z.to_nat n) (Z.to_nat n).
Proof. intros (_ & [Hs _] & _) Hsz. rewrite Hsz in Hs. exact Hs. Qed.

(** The board after a right click is in order again. *)
Lemma board_ok_right_clicked (n mines : Z) (g : Game) (p : point) :
  board_ok n mines g -> in_range p g = true ->
  board_ok n mines (right_clicked p g)
  /\ size (right_clicked p g) = size g
  /\ state (right_clicked p g) = state g.
Proof.
  intros Hok Hin. pose proof Hok as (Hsz & Hmc & Hmk & Hgok & _).
  pose proof Hmk as (Hsq & _).
  unfold right_clicked.
  destruct (bool_decide (state g = won) || bool_decide (state g = lost)) eqn:Hend;
    [auto|].
  apply orb_false_iff in Hend as [Hnw _]. apply bool_decide_eq_false in Hnw.
  destruct (is_flagged p g).
  { split; [|split; reflexivity].
    apply (board_ok_same_cells n mines g); try reflexivity; try assumption.
    apply marks_ok_question; assumption. }
  destruct (is_questioned p g).
  { split; [|split; reflexivity].
    apply (board_ok_same_cells n mines g); try reflexivity; try assumption.
    apply (marks_ok_unflag p g Hmk). }
  destruct (opened p g) eqn:Ho; [auto|].
  pose proof (marks_ok_flag p g Hin Hmk) as Hmk'.
  revert Hmk'. rewrite flag_square by assumption. rewrite Ho. simpl. intros Hmk'.
  split; [|split; reflexivity].
  apply (board_ok_same_cells n mines g); try reflexivity; assumption.
Qed.

Lemma on_right_click_ok (self : Frame) (p : point) (g : Game) :
  frame_ok self -> GameFrame.game self = Some g ->
  on_field (RNG:=RNG) (RightClick p) self ->
  exists self',
    GameFrame.on_right_click p self = (Done tt, self')
    /\ frame_ok self'
    /\ GameFrame.game self' = Some (right_clicked p g)
    /\ GameFrame.games_made self' = GameFrame.games_made self
    /\ same_widgets self self'
    /\ (state g = won \/ state g = lost -> self' = self).
Proof.
  intros Hf Hg Hon. pose proof Hf as (g0 & n & Hg0 & Hsize & Hn & Hmines & Hok & Ht & Hw & Hd).
  rewrite Hg in Hg0. injection Hg0 as <-.
  pose proof Hok as (Hsz & Hmc & Hmk & Hgok & _).
  pose proof Hmk as (Hsq & _).
  assert (Hin : in_range p g = true).
  { apply in_range_iff. rewrite Hsz. simpl in Hon. rewrite Hsize in Hon. exact Hon. }
  unfold GameFrame.on_right_click. unfold wbind at 1. unfold wget at 1. rewrite Hg.
  destruct (bool_decide (state g = won) || bool_decide (state g = lost)) eqn:Hend.
  { exists self. split; [reflexivity|]. split; [exact Hf|].
    split; [unfold right_clicked; rewrite Hend; exact Hg|].
    split; [reflexivity|]. split; [reflexivity | auto]. }
  destruct (board_ok_right_clicked n _ g p Hok Hin) as (Hok' & Hsz' & Hst').
  assert (Hmarks :
    (if is_flagged p g then GameFrame.on_game (question p)
     else if is_questioned p g then GameFrame.on_game (unquestion p)
     else let* opened := GameFrame.on_game (is_opened p) in
          if negb opened then GameFrame.on_game (flag p) else wret tt) self
    = (Done tt, GameFrame.set_game (Some (right_clicked p g)) self)).
  { unfold right_clicked. rewrite Hend.
    destruct (is_flagged p g); [rewrite (on_game_spec _ self g Hg); reflexivity|].
    destruct (is_questioned p g); [rewrite (on_game_spec _ self g Hg); reflexivity|].
    unfold wbind. rewrite (on_game_spec _ self g Hg).
    rewrite is_opened_square by assumption.
    destruct (opened p g) eqn:Ho; [reflexivity|]. cbn [negb].
    rewrite (on_game_spec _ _ g) by reflexivity.
    rewrite flag_square by assumption. rewrite Ho. reflexivity. }
  unfold wbind at 1. rewrite Hmarks.
  apply orb_false_iff in Hend as [Hnw Hnl].
  apply bool_decide_eq_false in Hnw. apply bool_decide_eq_false in Hnl.
  destruct (update_restores (GameFrame.set_game (Some (right_clicked p g)) self)
              (right_clicked p g) n) as (s2 & Hup & Hf2 & Hg2 & Hid & Hsw);
    try assumption; try reflexivity.
  - intros _. simpl. apply (shape_of_displayed self g n Hd Hsz).
  - rewrite Hst'. intros Hp. simpl. rewrite Ht. apply bool_decide_eq_true_2, Hp.
  - rewrite Hst'. intros Hi. simpl. rewrite Ht. apply bool_decide_eq_false_2.
    congruence.
  - exists s2. split; [exact Hup|]. split; [exact Hf2|]. split; [exact Hg2|].
    split; [exact Hid|]. split; [exact Hsw|]. intros [H|H]; contradiction.
Qed.

Lemma same_widgets_set_game (self : Frame) (o : option Game) :
  same_widgets self (GameFrame.set_game o self).
Proof. repeat split. Qed.

Lemma same_widgets_set_game_timer (self : Frame) (b : bool) :
  same_widgets self (GameFrame.set_game_timer b self).
Proof. repeat split. Qed.

(** [init_new_game] followed by [update]: a fresh board, shown. *)
Lemma new_game_shown (s0 : Frame) (random : RNG) (n : Z) :
  GameFrame.game_size s0 = (n, n) -> 0 < n ->
  0 <= GameFrame.game_mines s0 < n * n ->
  widgets_ok s0 ->
  GameFrame.game_timer s0 = false ->
  Minefield._last_game (GameFrame.minefield s0) <> Some (S (GameFrame.games_made s0)) ->
  exists s2,
    (GameFrame.init_new_game random >>> GameFrame.update) s0 = (Done tt, s2)
    /\ frame_ok s2
    /\ GameFrame.game s2
       = Some (new_game (GameFrame.game_size s0) (GameFrame.game_mines s0) random)
    /\ GameFrame.games_made s2 = S (GameFrame.games_made s0)
    /\ same_widgets s0 s2.
Proof.
  intros Hsize Hn Hmines Hw Ht Hlast.
  pose proof Hw as (Hw1 & Hw2 & Hw3).
  set (g' := new_game (GameFrame.game_size s0) (GameFrame.game_mines s0) random).
  destruct (lcd_set_value_spec
              (Scoreboard._flags_lcd (GameFrame.scoreboard s0)) (mine_count g') Hw3)
    as (lcd' & Hset & Hv & Hb & Hdg & Hpz & Hget).
  assert (Hinit : exists s1,
    GameFrame.init_new_game random s0 = (Done tt, s1)
    /\ GameFrame.game s1 = Some g'
    /\ GameFrame.games_made s1 = S (GameFrame.games_made s0)
    /\ GameFrame.game_timer s1 = GameFrame.game_timer s0
    /\ GameFrame.minefield s1 = GameFrame.minefield s0
    /\ same_widgets s0 s1).
  { unfold GameFrame.init_new_game.
    unfold wbind at 1. unfold wget at 1.
    unfold wbind at 1. unfold wmodify at 1.
    unfold wbind at 1. unfold wmodify at 1.
    unfold wbind at 1.
    rewrite (on_game_spec _ _ g') by reflexivity. unfold get.
    unfold zoom, Scoreboard.set_flags_value, zoom. simpl.
    fold g'. change (mine_count g') with (GameFrame.game_mines s0) in Hset.
    rewrite Hset.
    eexists. split; [reflexivity|]. simpl.
    repeat split; assumption. }
  destruct Hinit as (s1 & Hrun & Hg1 & Hid1 & Ht1 & Hm1 & Hsw1).
  pose proof Hsw1 as (A1 & A2 & A3 & A4 & A5 & _).
  destruct (update_restores s1 g' n) as (s2 & Hup & Hf2 & Hg2 & Hid & Hsw);
    try assumption.
  - congruence.
  - rewrite A2. exact Hmines.
  - rewrite A2. unfold g'. rewrite Hsize. apply board_ok_new_game.
  - unfold widgets_ok. rewrite A3, A4, A5. exact Hw.
  - rewrite Hm1, Hid1. intros H. contradiction.
  - intros H. discriminate.
  - intros _. congruence.
  - exists s2. split; [unfold wbind; rewrite Hrun; exact Hup|].
    split; [exact Hf2|]. split; [exact Hg2|]. split; [congruence|].
    etransitivity; eassumption.
Qed.

Lemma on_smile_click_ok (self : Frame) (random : RNG) (g : Game) :
  frame_ok self -> GameFrame.game self = Some g ->
  exists self',
    GameFrame.on_smile_click random self = (Done tt, self')
    /\ frame_ok self'
    /\ same_widgets self self'
    /\ (state g = idle -> self' = self)
    /\ (state g <> idle ->
        GameFrame.game self'
        = Some (new_game (GameFrame.game_size self) (GameFrame.game_mines self) random)
        /\ GameFrame.games_made self' = S (GameFrame.games_made self)).
Proof.
  intros Hf Hg.
  pose proof Hf as (g0 & n & Hg0 & Hsize & Hn & Hmines & Hok & Ht & Hw & Hd).
  rewrite Hg in Hg0. injection Hg0 as <-.
  unfold GameFrame.on_smile_click. unfold wbind at 1.
  rewrite (on_game_spec _ self g Hg). unfold get.
  rewrite (set_game_same self g Hg).
  destruct (bool_decide (state g = idle)) eqn:Hidle.
  - apply bool_decide_eq_true in Hidle.
    exists self. split; [reflexivity|]. split; [exact Hf|].
    split; [reflexivity|]. split; [reflexivity|]. intros H. contradiction.
  - apply bool_decide_eq_false in Hidle. cbn [negb].
    unfold wbind at 1. unfold GameFrame.stop_game, wmodify.
    destruct (new_game_shown (GameFrame.set_game_timer false self) random n)
      as (s2 & Hrun & Hf2 & Hg2 & Hid & Hsw); try assumption; try reflexivity.
    { destruct Hd as (D1 & _). simpl. rewrite D1. intros [= H]. lia. }
    exists s2. split; [exact Hrun|]. split; [exact Hf2|].
    split; [exact Hsw|]. split; [intros H; contradiction|].
    intros _. split; [exact Hg2 | exact Hid].
Qed.

(** The strip [source] holds the images at the places below [count]. *)
Lemma make_bitmaps_loop_spec (source : Z -> option Bitmap) (indices : list Z)
    (bitmaps : list Bitmap) :
  (Forall (fun i => is_Some (source i)) indices ->
   exists l, make_bitmaps_loop source indices bitmaps = Done (bitmaps ++ l)
             /\ Forall2 (fun i b => source i = Some b) indices l)
  /\ (~ Forall (fun i => is_Some (source i)) indices ->
      make_bitmaps_loop source indices bitmaps = Fail (Exn ValueError)).
Proof.
  revert bitmaps. induction indices as [|i l IH]; intros bitmaps.
  - split.
    + intros _. exists []. split; [simpl; rewrite app_nil_r; reflexivity | constructor].
    + intros H. destruct H. constructor.
  - simpl. destruct (source i) as [b|] eqn:Hi.
    + destruct (IH (bitmaps ++ [b])) as [IH1 IH2]. split.
      * intros H. apply Forall_cons in H as [_ H].
        destruct (IH1 H) as (l' & Hrun & Hall).
        exists (b :: l'). split; [rewrite Hrun, <- app_assoc; reflexivity|].
        constructor; assumption.
      * intros H. apply IH2. intros H'. apply H. constructor; [eauto | exact H'].
    + split; [|reflexivity].
      intros H. apply Forall_cons in H as [[b Hb] _]. congruence.
Qed.

Lemma make_bitmaps_spec (source : Z -> option Bitmap) (count : Z) :
  (Forall (fun i => is_Some (source i)) (range count) ->
   exists l, make_bitmaps source count = Done l /\ length l = Z.to_nat count)
  /\ (~ Forall (fun i => is_Some (source i)) (range count) ->
      make_bitmaps source count = Fail (Exn ValueError)).
Proof.
  unfold make_bitmaps.
  destruct (make_bitmaps_loop_spec source (range count) []) as [H1 H2].
  split; [|exact H2].
  intros H. destruct (H1 H) as (l & Hrun & Hall). exists l. split; [exact Hrun|].
  apply Forall2_length in Hall. rewrite <- Hall. apply length_range.
Qed.

Lemma lcd_init_spec (source : Z -> option Bitmap) (value : Z) (digits : positive)
    (pad_zeros : bool) :
  (Forall (fun i => is_Some (source i)) (range 12) ->
   exists lcd, LCD.__init__ source value digits pad_zeros = Done lcd
     /\ length (LCD._bitmaps lcd) = 12%nat
     /\ LCD._value lcd = value
     /\ LCD.digits lcd = digits
     /\ LCD._get_bitmaps lcd = Done (LCD._char_bitmaps lcd))
  /\ (~ Forall (fun i => is_Some (source i)) (range 12) ->
      LCD.__init__ source value digits pad_zeros = Fail (Exn ValueError)).
Proof.
  unfold LCD.__init__. destruct (make_bitmaps_spec source 12) as [H1 H2]. split.
  - intros H. destruct (H1 H) as (l & -> & Hlen).
    destruct (get_bitmaps_spec (LCD.mk value digits pad_zeros l []) Hlen)
      as (cs & places & Hget & _).
    cbv zeta. rewrite Hget. eexists. split; [reflexivity|].
    split; [exact Hlen|]. split; [reflexivity|]. split; [reflexivity|]. exact Hget.
  - intros H. rewrite (H2 H). reflexivity.
Qed.

Lemma scoreboard_init_spec (smile_source lcd_source : Z -> option Bitmap) :
  (Forall (fun i => is_Some (smile_source i)) (range 5) ->
   Forall (fun i => is_Some (lcd_source i)) (range 12) ->
   exists s, Scoreboard.__init__ smile_source lcd_source = Done s
     /\ length (Scoreboard._smile_bitmaps s) = 5%nat
     /\ length (LCD._bitmaps (Scoreboard._flags_lcd s)) = 12%nat
     /\ LCD.digits (Scoreboard._flags_lcd s) = 3%positive)
  /\ (~ (Forall (fun i => is_Some (smile_source i)) (range 5)
         /\ Forall (fun i => is_Some (lcd_source i)) (range 12)) ->
      Scoreboard.__init__ smile_source lcd_source = Fail (Exn ValueError)).
Proof.
  unfold Scoreboard.__init__.
  destruct (make_bitmaps_spec smile_source 5) as [S1 S2].
  destruct (lcd_init_spec lcd_source 0 3 true) as [L1 L2].
  split.
  - intros Hs Hl. destruct (S1 Hs) as (l & -> & Hlen).
    destruct (L1 Hl) as (lcd & -> & Hlcd & _ & Hdg & _).
    destruct l as [|a0 [|a1 [|a2 [|a3 [|a4 [|]]]]]]; try discriminate.
    eexists. split; [reflexivity|]. split; [reflexivity|].
    split; [exact Hlcd | exact Hdg].
  - intros H.
    destruct (decide (Forall (fun i => is_Some (smile_source i)) (range 5))) as [Hs|Hs];
      [|rewrite (S2 Hs); reflexivity].
    destruct (S1 Hs) as (l & -> & Hlen).
    rewrite L2; [reflexivity|]. intros Hl. apply H. split; assumption.
Qed.

Lemma minefield_init_spec (cell_source : Z -> option Bitmap) (n : Z) :
  (Forall (fun i => is_Some (cell_source i)) (range 16) ->
   exists m m', Minefield.__init__ cell_source = Done m
     /\ Minefield.initialize_board (n, n) m = (Done tt, m')
     /\ length (Minefield.cell_bitmaps m') = 16%nat
     /\ Minefield._last_game m' = None)
  /\ (~ Forall (fun i => is_Some (cell_source i)) (range 16) ->
      Minefield.__init__ cell_source = Fail (Exn ValueError)).
Proof.
  unfold Minefield.__init__.
  destruct (make_bitmaps_spec cell_source 16) as [C1 C2]. split.
  - intros H. destruct (C1 H) as (l & -> & Hlen).
    destruct l as [|b0 [|b1 [|b2 [|b3 [|b4 [|b5 [|b6 [|b7 [|b8 [|b9 [|b10 [|b11
      [|b12 [|b13 [|b14 [|b15 [|]]]]]]]]]]]]]]]]]; try discriminate.
    eexists. eexists. split; [reflexivity|].
    unfold Minefield.initialize_board, wbind, wget, wmodify. simpl.
    split; [reflexivity|]. split; reflexivity.
  - intros H. rewrite (C2 H). reflexivity.
Qed.

(** [GameFrame.__init__]: with all the images at hand the window opens on a
    fresh game; otherwise the constructor raises [ValueError]. *)
Lemma frame_init_spec (smile_source lcd_source cell_source : Z -> option Bitmap)
    (random : RNG) :
  let complete :=
    Forall (fun i => is_Some (smile_source i)) (range 5)
    /\ Forall (fun i => is_Some (lcd_source i)) (range 12)
    /\ Forall (fun i => is_Some (cell_source i)) (range 16) in
  (complete ->
   exists f, GameFrame.__init__ smile_source lcd_source cell_source random = Done f
     /\ frame_ok f
     /\ GameFrame.game f = Some (new_game (9, 9) 10 random)
     /\ GameFrame.game_size f = (9, 9)
     /\ GameFrame.game_mines f = 10
     /\ GameFrame.games_made f = 1%nat
     /\ LCD.digits (Scoreboard._flags_lcd (GameFrame.scoreboard f)) = 3%positive)
  /\ (~ complete ->
      GameFrame.__init__ smile_source lcd_source cell_source random
      = Fail (Exn ValueError)).
Proof.
  intros complete. unfold complete, GameFrame.__init__.
  destruct (scoreboard_init_spec smile_source lcd_source) as [S1 S2].
  destruct (minefield_init_spec cell_source 9) as [M1 M2].
  split.
  - intros (Hs & Hl & Hc).
    destruct (S1 Hs Hl) as (s & -> & Hs5 & Hs12 & Hdg).
    destruct (M1 Hc) as (m & m' & -> & Hm' & Hm16 & Hlast).
    cbv zeta. rewrite Hm'.
    destruct (new_game_shown (GameFrame.mk s (9, 9) 10 m' None 0 false) random 9)
      as (f & Hrun & Hf & Hg & Hid & Hsw); try reflexivity; try (simpl; lia).
    { split; [exact Hm16|]. split; [exact Hs5 | exact Hs12]. }
    { simpl. rewrite Hlast. discriminate. }
    rewrite Hrun. exists f. split; [reflexivity|]. split; [exact Hf|].
    split; [exact Hg|]. destruct Hsw as (A1 & A2 & _ & _ & _ & A6 & _).
    split; [exact A1|]. split; [exact A2|]. split; [exact Hid|].
    rewrite A6. exact Hdg.
  - intros H.
    destruct (decide (Forall (fun i => is_Some (smile_source i)) (range 5)
                      /\ Forall (fun i => is_Some (lcd_source i)) (range 12)))
      as [[Hs Hl]|Hsl]; [|rewrite (S2 Hsl); reflexivity].
    destruct (S1 Hs Hl) as (s & -> & _).
    rewrite M2; [reflexivity|]. intros Hc. apply H. repeat split; assumption.
Qed.

Lemma flags_bound (g : Game) (n : Z) :
  marks_ok g -> size g = (n, n) -> 0 <= n ->
  0 <= set_len (flagged_points g) <= n * n.
Proof.
  intros (_ & _ & Hf & _) Hsz Hn.
  assert (Hsub : flagged_points g ⊆ list_to_set (all_points (size g))).
  { intros q Hq. apply elem_of_list_to_set, elem_of_all_points, in_range_iff, Hf, Hq. }
  apply subseteq_size in Hsub.
  rewrite size_list_to_set in Hsub by apply NoDup_all_points.
  rewrite length_all_points, Hsz in Hsub. simpl in Hsub. unfold set_len. nia.
Qed.

(** The counter reads the mines that are left to flag. *)
Lemma counter_reads (f : Frame) (g : Game) :
  widgets_ok f -> displayed f g ->
  LCD.digits (Scoreboard._flags_lcd (GameFrame.scoreboard f)) = 3%positive ->
  -99 <= mine_count g - set_len (flagged_points g) <= 999 ->
  exists places,
    Forall2 (fun k b => LCD._bitmaps (Scoreboard._flags_lcd (GameFrame.scoreboard f)) !! k
                        = Some b)
      places (LCD._char_bitmaps (Scoreboard._flags_lcd (GameFrame.scoreboard f)))
    /\ read_places places = mine_count g - set_len (flagged_points g).
Proof.
  intros (_ & _ & Hw) (_ & _ & _ & Hv & Hget) Hdg Hrange. cbv zeta in Hv, Hget.
  destruct (get_bitmaps_spec _ Hw) as (l & places & Hrun & _ & Hall & Hread).
  rewrite Hget in Hrun. injection Hrun as <-.
  exists places. split; [exact Hall|]. rewrite Hread, Hdg, Hv.
  unfold clamp. change (10 ^ Z.pos 3) with 1000. change (10 ^ (Z.pos 3 - 1)) with 100.
  lia.
Qed.

(** Three right clicks on a closed cell without a mark. *)
Lemma right_clicked_cycle (g : Game) (p : point) :
  square g -> in_range p g = true ->
  state g <> won -> state g <> lost ->
  opened p g = false -> p ∉ flagged_points g -> p ∉ questioned_points g ->
  let g1 := right_clicked p g in
  let g2 := right_clicked p g1 in
  (flagged_points g1 = {[p]} ∪ flagged_points g
   /\ questioned_points g1 = questioned_points g
   /\ mine_count g1 = mine_count g /\ state g1 = state g)
  /\ (flagged_points g2 = flagged_points g
      /\ questioned_points g2 = {[p]} ∪ questioned_points g
      /\ mine_count g2 = mine_count g /\ state g2 = state g)
  /\ right_clicked p g2 = g.
Proof.
  intros Hsq Hin Hnw Hnl Hop Hfl Hqu. cbv zeta.
  assert (Hend : bool_decide (state g = won) || bool_decide (state g = lost) = false).
  { rewrite !bool_decide_eq_false_2 by assumption. reflexivity. }
  assert (E1 : right_clicked p g
               = set_questioned_points (questioned_points g ∖ {[p]})
                   (set_flagged_points ({[p]} ∪ flagged_points g) g)).
  { unfold right_clicked. rewrite Hend. unfold is_flagged, is_questioned.
    rewrite !bool_decide_eq_false_2 by assumption. rewrite Hop.
    rewrite flag_square by assumption. rewrite Hop. reflexivity. }
  rewrite E1.
  set (g1 := set_questioned_points _ _).
  assert (E2 : right_clicked p g1 = snd (question p g1)).
  { unfold right_clicked. change (state g1) with (state g). rewrite Hend.
    unfold is_flagged. rewrite bool_decide_eq_true_2; [reflexivity|].
    unfold g1. simpl. set_solver. }
  rewrite E2.
  set (g2 := snd (question p g1)).
  assert (E3 : right_clicked p g2 = snd (unquestion p g2)).
  { unfold right_clicked. change (state g2) with (state g). rewrite Hend.
    unfold is_flagged, is_questioned.
    rewrite bool_decide_eq_false_2 by (unfold g2, g1; simpl; set_solver).
    rewrite bool_decide_eq_true_2 by (unfold g2, g1; simpl; set_solver).
    reflexivity. }
  rewrite E3.
  split; [|split].
  - unfold g1. simpl. repeat split. set_solver.
  - unfold g2, g1. simpl. repeat split; set_solver.
  - apply Game_eq; unfold g2, g1; simpl; try reflexivity; set_solver.
Qed.

(** The picture of every cell of a fresh board: closed, and showing the
    empty cell while pressed. *)
Lemma picture_new_game (sz : Z * Z) (mines : Z) (r : RNG) (p : point) :
  picture (new_game sz mines r) p = (0%nat, 15%nat).
Proof.
  unfold picture, is_flagged, is_questioned. simpl.
  assert (Hop : opened p (new_game sz mines r) = false).
  { unfold opened, new_game. simpl.
    destruct (map _ (range (snd sz)) !! Z.to_nat (fst p)) as [row|] eqn:Hrow;
      [|reflexivity].
    apply list_lookup_fmap_Some in Hrow as (y & -> & _).
    destruct (replicate _ false !! Z.to_nat (snd p)) as [b|] eqn:Hb; [|reflexivity].
    apply lookup_replicate in Hb as [-> _]. reflexivity. }
  rewrite Hop. rewrite !bool_decide_eq_false_2 by set_solver. reflexivity.
Qed.

(** What [frame_ok] says of the board of the window. *)
Lemma frame_ok_at (f : Frame) (g : Game) :
  frame_ok f -> GameFrame.game f = Some g ->
  exists n,
    GameFrame.game_size f = (n, n) /\ 0 < n
    /\ 0 <= GameFrame.game_mines f < n * n
    /\ board_ok n (GameFrame.game_mines f) g
    /\ GameFrame.game_timer f = bool_decide (state g = playing)
    /\ widgets_ok f
    /\ displayed f g.
Proof.
  intros (g0 & n & Hg0 & H) Hg. rewrite Hg in Hg0. injection Hg0 as <-.
  exists n. exact H.
Qed.

(** Two windows in order with the same board are the same window. *)
Lemma frame_ok_same (f f' : Frame) (g : Game) :
  frame_ok f -> frame_ok f' ->
  GameFrame.game f = Some g -> GameFrame.game f' = Some g ->
  same_widgets f f' -> GameFrame.games_made f' = GameFrame.games_made f ->
  f' = f.
Proof.
  intros Hf Hf' Hg Hg' Hsw Hid.
  destruct (frame_ok_at f g Hf Hg) as (n & _ & _ & _ & _ & Ht & _ & Hd).
  destruct (frame_ok_at f' g Hf' Hg') as (n' & _ & _ & _ & _ & Ht' & _ & Hd').
  symmetry. apply (frame_unique f f' g); try assumption. congruence.
Qed.

End Windows.

(** ** The board of the window *)

Section Events.

Context {RNG Bitmap : Type}.
Abbreviation Game := (@Game RNG).
Abbreviation Frame := (GameFrame.t RNG Bitmap).
Variable randint : RNG -> Z -> Z -> option (Z * RNG).
Variable set_iter : gset point -> list point.
Hypothesis set_iter_perm : forall s, set_iter s ≡ₚ elements s.
Hypothesis randint_in_range :
  forall r a b, a <= b ->
    exists k r', randint r a b = Some (k, r') /\ a <= k <= b.

(** The first click places the mines: [generate_board] with the clicked
    cell excluded completes on a board that is idle, and leaves a board
    being played, with the cell free of a mine and every cell closed. *)
Lemma board_ok_generate (n mines : Z) (g : Game) (p : point) :
  0 < n -> 0 <= mines < n * n ->
  board_ok n mines g -> state g = idle -> in_range p g = true ->
  exists g',
    generate_board randint (Some [p]) g = (Ok tt, g')
    /\ board_ok n mines g'
    /\ state g' = playing
    /\ (p ∉ mine_points g')
    /\ _cell_opened_grid g' = _cell_opened_grid g
    /\ flagged_points g' = flagged_points g
    /\ questioned_points g' = questioned_points g.
Proof.
  intros Hn Hmines (Hsz & Hmc & Hmk & Hok & Hidle & _ & _) Hst Hin.
  destruct (Hidle Hst) as [_ Hclosed].
  pose proof (marks_ok_generate randint (Some [p]) g Hmk) as Hmk'.
  revert Hmk'. rewrite generate_board_unfold. cbv zeta. rewrite !Hsz.
  pose proof (length_possible_points [p] (n, n)) as Hcount.
  assert (Hinter : (list_to_set [p] ∩ list_to_set (all_points (n, n)) : gset point)
                   = {[p]}).
  { apply set_eq. intros q. rewrite elem_of_intersection, !elem_of_list_to_set,
      list_elem_of_singleton, elem_of_singleton, elem_of_all_points.
    split; [tauto|]. intros ->. split; [reflexivity|].
    apply in_range_iff in Hin. rewrite Hsz in Hin. exact Hin. }
  rewrite Hinter, size_singleton in Hcount.
  rewrite length_all_points in Hcount. cbn [fst snd] in Hcount.
  assert (Hnn : Z.of_nat (Z.to_nat n * Z.to_nat n) = n * n)
    by (rewrite Nat2Z.inj_mul, !Z2Nat.id; lia).
  destruct (sample_total randint randint_in_range (Z.to_nat (mine_count g))
              (filter (fun q => allowed (Some [p]) q) (all_points (n, n)))
              (random g)) as (rest & picked & r' & Hs); [lia|].
  rewrite Hs. pose proof Hs as Hs'. apply sample_ok in Hs' as [Hlen Hperm].
  pose proof (NoDup_possible_points (Some [p]) (n, n)) as Hnd.
  rewrite Hperm in Hnd. apply NoDup_app in Hnd as (Hnd & _ & _).
  unfold set_len. rewrite size_list_to_set by assumption.
  pose proof (Permutation_length Hperm) as Hpl. rewrite length_app in Hpl.
  replace (_ =? _) with true
    by (symmetry; apply Z.eqb_eq; cbn [fst snd length]; lia).
  intros Hmk'. simpl in Hmk'.
  eexists. split; [reflexivity|].
  split; [|split; [reflexivity|split; [|repeat split]]].
  - split; [exact Hsz|]. split; [exact Hmc|]. split; [exact Hmk'|].
    destruct Hmk' as (Hsq' & Hmr' & _).
    split; [|split; [|split]].
    + split; [exact Hsq'|]. split; [exact Hmr'|]. split.
      * intros m _. rewrite (opened_same_grid m g) by reflexivity. apply Hclosed.
      * simpl. discriminate.
    + simpl. discriminate.
    + intros _. simpl. unfold set_len. rewrite size_list_to_set by assumption. lia.
    + simpl. discriminate.
  - simpl. rewrite elem_of_list_to_set. intros Hp.
    assert (Hposs : p ∈ filter (fun q => allowed (Some [p]) q) (all_points (n, n))).
    { rewrite Hperm. apply elem_of_app. left. exact Hp. }
    apply list_elem_of_filter in Hposs as [Hall _].
    unfold allowed in Hall. apply bool_decide_unpack in Hall. apply Hall. left.
Qed.

Lemma open_playing_state (p : point) (g : Game) :
  state g = playing ->
  state (snd (open set_iter p g)) = playing
  \/ state (snd (open set_iter p g)) = won
  \/ state (snd (open set_iter p g)) = lost.
Proof.
  intros Hst. rewrite (open_playing set_iter p g Hst). cbv zeta.
  pose proof (is_opened_state p (set_last_click (Some p) g)) as Hs.
  destruct (is_opened p (set_last_click (Some p) g)) as [[[|]|e] g1];
    simpl in Hs; subst g1; simpl; auto.
  destruct (is_flagged p _); simpl; auto.
  destruct (is_mine p _); simpl; auto.
  destruct (state_step_flood_fill set_iter
              (flood_bound (set_last_click (Some p) g) [p]) [p]
              (set_last_click (Some p) g)) as [H|[_ H]].
  - left. rewrite H. exact Hst.
  - right. left. exact H.
Qed.

(** A click on a board that is being played. *)
Lemma open_on_board (g : Game) (p : point) :
  marks_ok g -> game_ok g -> state g = playing -> in_range p g = true ->
  exists g',
    open set_iter p g = (Ok tt, g')
    /\ marks_ok g' /\ game_ok g'
    /\ size g' = size g /\ mine_count g' = mine_count g
    /\ mine_points g' = mine_points g
    /\ state g' <> idle
    /\ (state g' = won -> flagged_points g' = mine_points g')
    /\ (opened p g = false -> p ∉ flagged_points g -> p ∉ mine_points g ->
        opened p g' = true /\ state g' <> lost)
    /\ (opened p g = true \/ p ∈ flagged_points g ->
        g' = set_last_click (Some p) g).
Proof.
  intros Hmk Hok Hst Hin.
  pose proof Hok as (Hsq & Hmr & Hc & Hw).
  pose proof (marks_ok_open set_iter set_iter_perm p g Hin Hmk) as Hmk'.
  pose proof (game_ok_open set_iter set_iter_perm p g Hin Hok) as Hok'.
  pose proof (grows_open set_iter p g) as (Hsz & Hmc & _).
  pose proof (floods_open set_iter set_iter_perm p g) as (_ & Hmines & _).
  pose proof (open_playing_state p g Hst) as Hstate.
  destruct (win_detection_on set_iter set_iter_perm g Hsq Hmr Hc Hw) as [_ Hopen].
  destruct (Hopen p Hst Hin) as (g' & E & Hwin).
  rewrite E in *. cbn [snd] in *.
  exists g'. split; [reflexivity|].
  split; [exact Hmk'|]. split; [exact Hok'|]. split; [exact Hsz|].
  split; [exact Hmc|]. split; [exact Hmines|].
  split; [destruct Hstate as [H|[H|H]]; congruence|].
  assert (Hcases :
    (opened p g = true \/ p ∈ flagged_points g -> g' = set_last_click (Some p) g)
    /\ (opened p g = false -> p ∉ flagged_points g -> p ∈ mine_points g ->
        g' = set_state lost (set_last_click (Some p) g))
    /\ (opened p g = false -> p ∉ flagged_points g -> p ∉ mine_points g ->
        opened p g' = true /\ state g' <> lost)).
  { revert E. rewrite open_square by assumption. cbv zeta.
    unfold is_flagged, is_mine.
    destruct (opened p g) eqn:Ho.
    { intros [= <-]. split; [reflexivity|]. split; intros; discriminate. }
    destruct (decide (p ∈ flagged_points g)) as [Hf|Hf].
    { rewrite bool_decide_eq_true_2 by exact Hf. intros [= <-].
      split; [reflexivity|]. split; intros; contradiction. }
    rewrite bool_decide_eq_false_2 by exact Hf.
    destruct (decide (p ∈ mine_points g)) as [Hmi|Hmi].
    { rewrite bool_decide_eq_true_2 by exact Hmi. intros [= <-].
      split; [intros [|]; [discriminate | contradiction]|].
      split; [reflexivity | intros; contradiction]. }
    rewrite bool_decide_eq_false_2 by exact Hmi. intros E.
    split; [intros [|]; [discriminate | contradiction]|].
    split; [intros; contradiction|]. intros _ _ _.
    destruct (open_flood set_iter set_iter_perm p g Hsq Hmr Hst Hin)
      as (g'' & Hopen'' & I); [repeat split; assumption|].
    rewrite open_square in Hopen'' by assumption. cbv zeta in Hopen''.
    unfold is_flagged, is_mine in Hopen''. rewrite Ho in Hopen''.
    rewrite !bool_decide_eq_false_2 in Hopen'' by assumption.
    rewrite E in Hopen''. injection Hopen'' as <-.
    pose proof I as (Ipre & _ & _). split.
    - apply (flood_inv_final g p g' I p Hin). right.
      split; [apply visited_start | repeat split; assumption].
    - destruct (fi_state _ _ _ _ Ipre) as [H|H]; congruence. }
  destruct Hcases as (Hc1 & Hc2 & Hc3).
  split; [|split; [exact Hc3 | exact Hc1]].
  intros Hwon.
  destruct Hok' as (Hsq' & Hmr' & Hc' & Hw').
  destruct Hmk' as (_ & _ & Hfl & _ & Hdis).
  assert (Hncl : ~ cleared g).
  { intros Hcl. destruct (opened p g) eqn:Ho.
    - rewrite (Hc1 (or_introl eq_refl)) in Hwon. simpl in Hwon. congruence.
    - destruct (decide (p ∈ flagged_points g)) as [Hf|Hf].
      + rewrite (Hc1 (or_intror Hf)) in Hwon. simpl in Hwon. congruence.
      + destruct (decide (p ∈ mine_points g)) as [Hmi|Hmi].
        * rewrite (Hc2 eq_refl Hf Hmi) in Hwon. simpl in Hwon. congruence.
        * rewrite (Hcl p Hin Hmi) in Ho. discriminate. }
  destruct (Hwin Hncl (Hw' Hwon)) as [_ Hsub].
  assert (Hfm : flagged_points g' ⊆ mine_points g').
  { intros q Hq. destruct (Hfl q Hq) as [Hqr Hqo].
    destruct (decide (q ∈ mine_points g')) as [|Hn]; [assumption|].
    rewrite (Hw' Hwon q Hqr Hn) in Hqo. discriminate. }
  set_solver.
Qed.

Lemma board_ok_open (n mines : Z) (g : Game) (p : point) :
  board_ok n mines g -> state g = playing -> in_range p g = true ->
  exists g',
    open set_iter p g = (Ok tt, g')
    /\ board_ok n mines g'
    /\ state g' <> idle
    /\ (opened p g = false -> p ∉ flagged_points g -> p ∉ mine_points g ->
        opened p g' = true /\ state g' <> lost).
Proof.
  intros (Hsz & Hmc & Hmk & Hok & Hidle & Hcount & Hwon) Hst Hin.
  destruct (open_on_board g p Hmk Hok Hst Hin)
    as (g' & E & Hmk' & Hok' & Hsz' & Hmc' & Hmines & Hni & Hw & Ho & _).
  exists g'. split; [exact E|]. split; [|split; [exact Hni | exact Ho]].
  split; [congruence|]. split; [congruence|]. split; [exact Hmk'|].
  split; [exact Hok'|]. split; [intros; contradiction|].
  split; [|exact Hw].
  intros _. rewrite Hmines, Hmc'. apply Hcount. congruence.
Qed.

(** [start_game] on the first click: the mines are placed away from the
    clicked cell, the timer runs, and the window still shows the board. *)
Lemma start_game_ok (self : Frame) (p : point) (g : Game) :
  frame_ok self -> GameFrame.game self = Some g -> state g = idle ->
  on_field (RNG:=RNG) (Click p) self ->
  exists g',
    generate_board randint (Some [p]) g = (Ok tt, g')
    /\ GameFrame.start_game randint p self
       = (Done tt, GameFrame.set_game_timer true (GameFrame.set_game (Some g') self))
    /\ frame_ok (GameFrame.set_game_timer true (GameFrame.set_game (Some g') self))
    /\ state g' = playing
    /\ (p ∉ mine_points g')
    /\ opened p g' = false.
Proof.
  intros Hf Hg Hidle Hon.
  pose proof Hf as (g0 & n & Hg0 & Hsize & Hn & Hmines & Hok & Ht & Hw & Hd).
  rewrite Hg in Hg0. injection Hg0 as <-.
  pose proof Hok as (Hsz & Hmc & Hmk & Hgok & Hfresh & _).
  destruct (Hfresh Hidle) as [_ Hclosed].
  assert (Hin : in_range p g = true).
  { apply in_range_iff. rewrite Hsz. simpl in Hon. rewrite Hsize in Hon. exact Hon. }
  destruct (board_ok_generate n _ g p Hn Hmines Hok Hidle Hin)
    as (g' & Hgen & Hok' & Hst' & Hnm & Egrid & Efl & Equ).
  pose proof Hok' as (Hsz' & Hmc' & _).
  exists g'. split; [exact Hgen|].
  split.
  { unfold GameFrame.start_game. unfold wbind at 1.
    rewrite (on_game_spec _ self g Hg). unfold get.
    rewrite (set_game_same self g Hg).
    rewrite (bool_decide_eq_true_2 _ Hidle). cbn [negb].
    unfold wbind. rewrite (on_game_spec _ self g Hg), Hgen. reflexivity. }
  split; [|split; [exact Hst'|split; [exact Hnm|]]].
  - exists g', n. split; [reflexivity|]. split; [exact Hsize|]. split; [exact Hn|].
    split; [exact Hmines|]. split; [exact Hok'|].
    split; [simpl; symmetry; apply bool_decide_eq_true_2, Hst'|].
    split; [exact Hw|].
    destruct Hd as (D1 & D2 & D3 & D4 & D5).
    split; [exact D1|]. split.
    { apply (shows_generated _ _ g g'); try assumption; try congruence. }
    split; [rewrite Hst'; rewrite Hidle in D3; exact D3|].
    split; [|exact D5].
    simpl. simpl in D4. rewrite D4. unfold set_len. rewrite Efl. congruence.
  - rewrite (opened_same_grid p g g' Egrid). apply Hclosed.
Qed.

(** A click while the game is played. *)
Lemma click_playing_ok (self : Frame) (p : point) (g : Game) :
  frame_ok self -> GameFrame.game self = Some g -> state g = playing ->
  on_field (RNG:=RNG) (Click p) self ->
  exists self',
    (let* opened := GameFrame.on_game (is_opened p) in
     if negb (opened || is_flagged p g)
     then GameFrame.on_game (open set_iter p) >>> GameFrame.update
     else wret tt) self = (Done tt, self')
    /\ frame_ok self'
    /\ GameFrame.game self'
       = Some (if negb (opened p g || is_flagged p g)
               then snd (open set_iter p g) else g)
    /\ GameFrame.games_made self' = GameFrame.games_made self
    /\ same_widgets self self'
    /\ (opened p g || is_flagged p g = true -> self' = self).
Proof.
  intros Hf Hg Hplay Hon.
  pose proof Hf as (g0 & n & Hg0 & Hsize & Hn & Hmines & Hok & Ht & Hw & Hd).
  rewrite Hg in Hg0. injection Hg0 as <-.
  pose proof Hok as (Hsz & Hmc & Hmk & Hgok & _).
  pose proof Hmk as (Hsq & _).
  assert (Hin : in_range p g = true).
  { apply in_range_iff. rewrite Hsz. simpl in Hon. rewrite Hsize in Hon. exact Hon. }
  unfold wbind at 1. rewrite (on_game_spec _ self g Hg).
  rewrite is_opened_square by assumption.
  rewrite (set_game_same self g Hg).
  destruct (negb (opened p g || is_flagged p g)) eqn:Hclick.
  - destruct (board_ok_open n _ g p Hok Hplay Hin)
      as (g' & Hopen & Hok' & Hni & _).
    unfold wbind at 1. rewrite (on_game_spec _ self g Hg), Hopen.
    destruct (update_restores (GameFrame.set_game (Some g') self) g' n)
      as (s2 & Hup & Hf2 & Hg2 & Hid & Hsw); try assumption; try reflexivity.
    + intros _. simpl. apply (shape_of_displayed self g n Hd Hsz).
    + intros _. simpl. rewrite Ht. apply bool_decide_eq_true_2, Hplay.
    + intros Hi. contradiction.
    + exists s2. split; [exact Hup|]. split; [exact Hf2|].
      split; [rewrite Hg2; reflexivity|]. split; [exact Hid|]. split; [exact Hsw|].
      intros H. rewrite H in Hclick. discriminate.
  - exists self. split; [reflexivity|]. split; [exact Hf|]. split; [exact Hg|].
    split; [reflexivity|]. split; reflexivity.
Qed.

Lemma on_click_ok (self : Frame) (p : point) (g : Game) :
  frame_ok self -> GameFrame.game self = Some g ->
  on_field (RNG:=RNG) (Click p) self ->
  exists self',
    GameFrame.on_click randint set_iter p self = (Done tt, self')
    /\ frame_ok self'
    /\ GameFrame.game self' = Some (clicked randint set_iter p g)
    /\ GameFrame.games_made self' = GameFrame.games_made self
    /\ same_widgets self self'
    /\ (state g = won \/ state g = lost -> self' = self)
    /\ (state g = playing -> opened p g || is_flagged p g = true -> self' = self).
Proof.
  intros Hf Hg Hon.
  unfold GameFrame.on_click. unfold wbind at 1. unfold wget at 1. rewrite Hg.
  unfold clicked, started.
  destruct (state g) eqn:Hst.
  - (* idle *)
    destruct (start_game_ok self p g Hf Hg Hst Hon)
      as (g' & Hgen & Hstart & Hf1 & Hst' & Hnm & Hcl).
    rewrite (bool_decide_eq_true_2 (idle = idle)) by reflexivity.
    unfold wbind at 1. rewrite Hstart. rewrite Hgen. cbn [snd].
    set (s1 := GameFrame.set_game_timer true _) in *.
    unfold wbind at 1. unfold wget at 1.
    change (GameFrame.game s1) with (Some g').
    rewrite !(bool_decide_eq_true_2 _ Hst'). cbn [negb andb].
    destruct (click_playing_ok s1 p g' Hf1 eq_refl Hst')
      as (s2 & Hrun & Hf2 & Hg2 & Hid & Hsw & _).
    { exact Hon. }
    exists s2. split; [exact Hrun|]. split; [exact Hf2|]. split; [exact Hg2|].
    split; [exact Hid|]. split; [|split].
    + etransitivity; [|exact Hsw]. repeat split.
    + intros [H|H]; discriminate.
    + intros H; discriminate.
  - (* playing *)
    rewrite (bool_decide_eq_false_2 (playing = idle)) by discriminate.
    unfold wbind at 1. unfold wret at 1.
    unfold wbind at 1. unfold wget at 1. rewrite Hg, Hst.
    rewrite !(bool_decide_eq_true_2 (playing = playing)) by reflexivity.
    cbn [negb andb].
    destruct (click_playing_ok self p g Hf Hg Hst Hon)
      as (s2 & Hrun & Hf2 & Hg2 & Hid & Hsw & Hsame).
    exists s2. split; [exact Hrun|]. split; [exact Hf2|]. split; [exact Hg2|].
    split; [exact Hid|]. split; [exact Hsw|]. split.
    + intros [H|H]; discriminate.
    + intros _. exact Hsame.
  - (* won *)
    rewrite (bool_decide_eq_false_2 (won = idle)) by discriminate.
    unfold wbind at 1. unfold wret at 1.
    unfold wbind at 1. unfold wget at 1. rewrite Hg, Hst.
    rewrite !(bool_decide_eq_false_2 (won = playing)) by discriminate.
    exists self. split; [reflexivity|]. split; [exact Hf|]. split; [exact Hg|].
    split; [reflexivity|]. split; [reflexivity|]. split; reflexivity.
  - rewrite (bool_decide_eq_false_2 (lost = idle)) by discriminate.
    unfold wbind at 1. unfold wret at 1.
    unfold wbind at 1. unfold wget at 1. rewrite Hg, Hst.
    rewrite !(bool_decide_eq_false_2 (lost = playing)) by discriminate.
    exists self. split; [reflexivity|]. split; [exact Hf|]. split; [exact Hg|].
    split; [reflexivity|]. split; [reflexivity|]. split; reflexivity.
Qed.

(** Every event on a window in order is handled without an exception and
    leaves the window in order. *)
Lemma handle_ok (f : Frame) (e : event) :
  frame_ok f -> on_field e f ->
  exists f', handle randint set_iter e f = (Done tt, f') /\ frame_ok f'
             /\ same_widgets f f'.
Proof.
  intros Hf Hon. pose proof Hf as (g & n & Hg & _).
  destruct e as [p|p|random]; simpl.
  - destruct (on_click_ok f p g Hf Hg Hon) as (f' & H1 & H2 & _ & _ & H3 & _). eauto.
  - destruct (on_right_click_ok f p g Hf Hg Hon) as (f' & H1 & H2 & _ & _ & H3 & _). eauto.
  - destruct (on_smile_click_ok f random g Hf Hg) as (f' & H1 & H2 & H3 & _). eauto.
Qed.

Lemma frame_ok_reached (f0 f : Frame) :
  frame_ok f0 -> reached randint set_iter f0 f -> frame_ok f /\ same_widgets f0 f.
Proof.
  intros H0 Hr. induction Hr as [|f e Hr [IH1 IH2] Hon].
  - split; [exact H0 | reflexivity].
  - destruct (handle_ok f e IH1 Hon) as (f' & Hrun & Hf' & Hsw).
    rewrite Hrun. simpl. split; [exact Hf'|]. etransitivity; eassumption.
Qed.

(** The windows reached from a window that [GameFrame.__init__] made. *)
Lemma reached_ok (smile_source lcd_source cell_source : Z -> option Bitmap)
    (random : RNG) (f0 f : Frame) :
  GameFrame.__init__ smile_source lcd_source cell_source random = Done f0 ->
  reached randint set_iter f0 f ->
  frame_ok f
  /\ GameFrame.game_size f = (9, 9)
  /\ GameFrame.game_mines f = 10
  /\ LCD.digits (Scoreboard._flags_lcd (GameFrame.scoreboard f)) = 3%positive.
Proof.
  intros Hinit Hr.
  destruct (frame_init_spec smile_source lcd_source cell_source random) as [I1 I2].
  cbv zeta in I1, I2.
  match type of I1 with ?C -> _ => destruct (decide C) as [Hc|Hc] end;
    [|rewrite (I2 Hc) in Hinit; discriminate].
  destruct (I1 Hc) as (f1 & Hrun & Hf & _ & Hsz & Hm & _ & Hdg).
  rewrite Hrun in Hinit. injection Hinit as ->.
  destruct (frame_ok_reached f0 f Hf Hr) as [Hok (A1 & A2 & _ & _ & _ & A6 & _)].
  split; [exact Hok|]. split; [congruence|]. split; congruence.
Qed.

(** The first click on the board. *)
Lemma clicked_first (n mines : Z) (g : Game) (p : point) :
  0 < n -> 0 <= mines < n * n ->
  board_ok n mines g -> state g = idle -> in_range p g = true ->
  let g' := clicked randint set_iter p g in
  (p ∉ mine_points g')
  /\ (state g' = playing \/ state g' = won)
  /\ (p ∉ flagged_points g -> opened p g' = true)
  /\ (p ∈ flagged_points g -> state g' = playing /\ forall q, opened q g' = false).
Proof.
  intros Hn Hmines Hok Hidle Hin. cbv zeta.
  pose proof Hok as (_ & _ & _ & _ & Hfresh & _).
  destruct (Hfresh Hidle) as [_ Hclosed].
  destruct (board_ok_generate n mines g p Hn Hmines Hok Hidle Hin)
    as (g1 & Hgen & Hok1 & Hst1 & Hnm & Egrid & Efl & Equ).
  pose proof Hok1 as (Hsz1 & _ & Hmk1 & Hgok1 & _).
  pose proof Hok as (Hsz & _).
  assert (Hin1 : in_range p g1 = true).
  { rewrite (in_range_same_size p g g1) by congruence. exact Hin. }
  unfold clicked, started. rewrite (bool_decide_eq_true_2 _ Hidle), Hgen. cbn [snd].
  rewrite (bool_decide_eq_true_2 _ Hst1). cbn [andb].
  rewrite (opened_same_grid p g g1 Egrid), Hclosed. cbn [orb].
  unfold is_flagged. rewrite Efl.
  destruct (decide (p ∈ flagged_points g)) as [Hfl|Hfl].
  - rewrite (bool_decide_eq_true_2 _ Hfl). cbn [negb].
    split; [exact Hnm|]. split; [left; exact Hst1|].
    split; [intros H; contradiction|]. intros _. split; [exact Hst1|].
    intros q. rewrite (opened_same_grid q g g1 Egrid). apply Hclosed.
  - rewrite (bool_decide_eq_false_2 _ Hfl). cbn [negb].
    destruct (open_on_board g1 p Hmk1 Hgok1 Hst1 Hin1)
      as (g2 & Hopen & _ & _ & _ & _ & Emines & Hni & _ & Hopened & _).
    rewrite Hopen. cbn [snd]. rewrite Emines.
    destruct Hopened as [Hop Hnl].
    { rewrite (opened_same_grid p g g1 Egrid). apply Hclosed. }
    { rewrite Efl. exact Hfl. }
    { exact Hnm. }
    split; [exact Hnm|]. split.
    { destruct (state g2); [contradiction | auto | auto | contradiction]. }
    split; [intros _; exact Hop|]. intros H. contradiction.
Qed.

End Events.

(** ** The window and its events *)

Section Opening.

Context {RNG Bitmap : Type}.
Abbreviation Game := (@Game RNG).
Abbreviation Frame := (GameFrame.t RNG Bitmap).

(** X14: [GameFrame.__init__] opens the window exactly when each of the three
    strips holds its images (5 faces, 12 characters, 16 cells), and raises
    [ValueError] otherwise.  The window then holds a fresh idle game of 9 by
    9 cells with 10 mines, shows it (closed buttons, the happy face, the
    counter at 10), and its timer does not run. *)
Theorem window_opens (smile_source lcd_source cell_source : Z -> option Bitmap)
    (random : RNG) :
  let complete :=
    Forall (fun i => is_Some (smile_source i)) (range 5)
    /\ Forall (fun i => is_Some (lcd_source i)) (range 12)
    /\ Forall (fun i => is_Some (cell_source i)) (range 16) in
  let g := new_game (9, 9) 10 random in
  (complete ->
   exists f : Frame,
     GameFrame.__init__ smile_source lcd_source cell_source random = Done f
     /\ GameFrame.game f = Some g
     /\ GameFrame.game_timer f = false
     /\ displayed f g
     /\ LCD._value (Scoreboard._flags_lcd (GameFrame.scoreboard f)) = 10
     /\ (forall p, picture g p = (0%nat, 15%nat)))
  /\ (~ complete ->
      GameFrame.__init__ smile_source lcd_source cell_source random
      = Fail (Exn ValueError)).
Proof.
  cbv zeta.
  destruct (frame_init_spec smile_source lcd_source cell_source random) as [I1 I2].
  cbv zeta in I1, I2. split; [|exact I2].
  intros Hc. destruct (I1 Hc) as (f & Hrun & Hf & Hg & _).
  destruct (frame_ok_at f _ Hf Hg) as (n & _ & _ & _ & _ & Ht & _ & Hd).
  exists f. split; [exact Hrun|]. split; [exact Hg|]. split; [exact Ht|].
  split; [exact Hd|]. split.
  - destruct Hd as (_ & _ & _ & Hv & _). exact Hv.
  - intros p. apply picture_new_game.
Qed.

End Opening.

Section Session.

Context {RNG Bitmap : Type}.
Abbreviation Frame := (GameFrame.t RNG Bitmap).
Variable randint : RNG -> Z -> Z -> option (Z * RNG).
Variable set_iter : gset point -> list point.
Hypothesis set_iter_perm : forall s, set_iter s ≡ₚ elements s.
Hypothesis randint_in_range :
  forall r a b, a <= b ->
    exists k r', randint r a b = Some (k, r') /\ a <= k <= b.

Variables smile_source lcd_source cell_source : Z -> option Bitmap.
Variable random0 : RNG.
Variable f0 : Frame.
Hypothesis f0_opened :
  GameFrame.__init__ smile_source lcd_source cell_source random0 = Done f0.

Abbreviation lcd_of f := (Scoreboard._flags_lcd (GameFrame.scoreboard f)).

(** What is known of a window of the session and its board. *)
Lemma session_ok (f : Frame) :
  reached randint set_iter f0 f ->
  frame_ok f
  /\ exists g,
       GameFrame.game f = Some g
       /\ GameFrame.game_size f = (9, 9) /\ GameFrame.game_mines f = 10
       /\ LCD.digits (lcd_of f) = 3%positive
       /\ board_ok 9 10 g
       /\ GameFrame.game_timer f = bool_decide (state g = playing)
       /\ widgets_ok f /\ displayed f g.
Proof.
  intros Hr.
  destruct (reached_ok randint set_iter set_iter_perm randint_in_range
              smile_source lcd_source cell_source random0 f0 f f0_opened Hr)
    as (Hf & Hsz & Hm & Hdg).
  split; [exact Hf|].
  pose proof Hf as (g & n & Hg & _). exists g.
  destruct (frame_ok_at f g Hf Hg) as (n' & Hsz' & _ & _ & Hok & Ht & Hw & Hd).
  rewrite Hsz in Hsz'. injection Hsz' as <-. rewrite Hm in Hok.
  repeat (split; [assumption|]). assumption.
Qed.

(** X15: no event on a button of the window raises an exception: the handler
    returns, and the window still holds a game. *)
Theorem events_never_raise (f : Frame) (e : event) :
  reached randint set_iter f0 f -> on_field e f ->
  fst (handle randint set_iter e f) = Done tt
  /\ exists g, GameFrame.game (snd (handle randint set_iter e f)) = Some g.
Proof.
  intros Hr Hon. destruct (session_ok f Hr) as [Hf _].
  destruct (handle_ok randint set_iter set_iter_perm randint_in_range f e Hf Hon)
    as (f' & Hrun & Hf' & _).
  rewrite Hrun. split; [reflexivity|].
  destruct Hf' as (g & n & Hg & _). exists g. exact Hg.
Qed.

(** X16: between two events the window shows its board: the game is the 9 by 9
    one with 10 mines, every button carries the bitmaps of its cell, the
    face is the one of the state, the characters of the counter read
    [mine_count] minus the number of flags (0 once the game is won), the
    timer runs exactly while the game is played, and drawing again changes
    nothing. *)
Theorem window_shows_board (f : Frame) :
  reached randint set_iter f0 f ->
  exists g,
    GameFrame.game f = Some g
    /\ size g = (9, 9) /\ mine_count g = 10
    /\ displayed f g
    /\ (exists places,
          Forall2 (fun k b => LCD._bitmaps (lcd_of f) !! k = Some b)
            places (LCD._char_bitmaps (lcd_of f))
          /\ read_places places = mine_count g - set_len (flagged_points g))
    /\ (state g = won -> LCD._value (lcd_of f) = 0)
    /\ GameFrame.game_timer f = bool_decide (state g = playing)
    /\ GameFrame.update f = (Done tt, f).
Proof.
  intros Hr.
  destruct (session_ok f Hr) as (Hf & g & Hg & Hsz & Hm & Hdg & Hok & Ht & Hw & Hd).
  pose proof Hok as (Hsize & Hmc & Hmk & Hgok & _ & Hcount & Hwon).
  pose proof Hmk as (Hsq & _). pose proof Hgok as (_ & _ & Hclosed & _).
  pose proof (flags_bound g 9 Hmk Hsize ltac:(lia)) as Hfl.
  exists g. split; [exact Hg|]. split; [exact Hsize|]. split; [exact Hmc|].
  split; [exact Hd|]. split; [|split; [|split; [exact Ht|]]].
  - apply (counter_reads f g Hw Hd Hdg). lia.
  - intros Hst. destruct Hd as (_ & _ & _ & Hv & _). cbv zeta in Hv. rewrite Hv.
    rewrite (Hwon Hst). unfold set_len in Hcount. unfold set_len.
    rewrite Hcount; [lia | congruence].
  - apply (frame_update_same f g Hg Hw Hsq); [rewrite Hsize; simpl; lia | | exact Hd |].
    + intros q Hq Hmine. rewrite (Hclosed q Hmine) in Hq. discriminate.
    + intros [H|H]; rewrite Ht, H; reflexivity.
Qed.

(** X17: the first click of a game, on the button of [p]: the mines are placed
    away from [p], all 10 of them; the game is played or already won, never
    lost; the cell is opened, unless it carries a flag, in which case
    nothing is opened and the game is played; the timer runs while the
    game is played. *)
Theorem first_click_safe (f : Frame) (g : Game) (p : point) :
  reached randint set_iter f0 f ->
  GameFrame.game f = Some g -> state g = idle ->
  on_field (RNG:=RNG) (Click p) f ->
  let f' := snd (handle randint set_iter (Click p) f) in
  exists g',
    GameFrame.game f' = Some g'
    /\ (p ∉ mine_points g')
    /\ set_len (mine_points g') = 10
    /\ (state g' = playing \/ state g' = won)
    /\ GameFrame.game_timer f' = bool_decide (state g' = playing)
    /\ (p ∉ flagged_points g -> opened p g' = true)
    /\ (p ∈ flagged_points g ->
        state g' = playing /\ forall q, opened q g' = false).
Proof.
  intros Hr Hg Hidle Hon. cbv zeta.
  destruct (session_ok f Hr) as (Hf & g0 & Hg0 & Hsz & Hm & Hdg & Hok & Ht & Hw & Hd).
  rewrite Hg in Hg0. injection Hg0 as <-.
  pose proof Hok as (Hsize & _).
  assert (Hin : in_range p g = true).
  { apply in_range_iff. rewrite Hsize. simpl in Hon. rewrite Hsz in Hon. exact Hon. }
  destruct (on_click_ok randint set_iter set_iter_perm randint_in_range f p g Hf Hg Hon)
    as (f' & Hrun & Hf' & Hg' & _ & Hsw & _).
  simpl. rewrite Hrun. cbn [snd].
  destruct (clicked_first randint set_iter set_iter_perm randint_in_range
              9 10 g p ltac:(lia) ltac:(lia) Hok Hidle Hin)
    as (Hnm & Hst & Hopened & Hflagged).
  set (g' := clicked randint set_iter p g) in *.
  destruct (frame_ok_at f' g' Hf' Hg') as (n & Hsz' & _ & _ & Hok' & Ht' & _).
  destruct Hsw as (A1 & A2 & _). rewrite A1, Hsz in Hsz'. injection Hsz' as <-.
  rewrite A2, Hm in Hok'.
  pose proof Hok' as (_ & Hmc' & _ & _ & _ & Hcount & _).
  exists g'. split; [exact Hg'|]. split; [exact Hnm|].
  split; [rewrite Hcount; [exact Hmc' | destruct Hst as [Hs|Hs]; rewrite Hs; discriminate]|].
  split; [exact Hst|]. split; [exact Ht'|]. split; assumption.
Qed.

(** X18: right clicks on the button of a closed cell without a mark, while the
    game is not over: the first puts a flag and takes one off the counter,
    the second turns the flag into a question mark and gives the counter
    its value back, the third leaves the window as it was before the
    first. *)
Theorem right_click_cycle (f : Frame) (g : Game) (p : point) :
  reached randint set_iter f0 f ->
  GameFrame.game f = Some g -> state g <> won -> state g <> lost ->
  on_field (RNG:=RNG) (RightClick p) f ->
  opened p g = false -> p ∉ flagged_points g -> p ∉ questioned_points g ->
  let f1 := snd (handle randint set_iter (RightClick p) f) in
  let f2 := snd (handle randint set_iter (RightClick p) f1) in
  let f3 := snd (handle randint set_iter (RightClick p) f2) in
  (exists g1, GameFrame.game f1 = Some g1
     /\ flagged_points g1 = {[p]} ∪ flagged_points g
     /\ questioned_points g1 = questioned_points g
     /\ LCD._value (lcd_of f1) = LCD._value (lcd_of f) - 1)
  /\ (exists g2, GameFrame.game f2 = Some g2
        /\ flagged_points g2 = flagged_points g
        /\ questioned_points g2 = {[p]} ∪ questioned_points g
        /\ LCD._value (lcd_of f2) = LCD._value (lcd_of f))
  /\ f3 = f.
Proof.
  intros Hr Hg Hnw Hnl Hon Hop Hfl Hqu. cbv zeta. simpl.
  destruct (session_ok f Hr) as (Hf & g0 & Hg0 & Hsz & Hm & Hdg & Hok & Ht & Hw & Hd).
  rewrite Hg in Hg0. injection Hg0 as <-.
  pose proof Hok as (Hsize & _ & Hmk & _). pose proof Hmk as (Hsq & _).
  assert (Hin : in_range p g = true).
  { apply in_range_iff. rewrite Hsize. simpl in Hon. rewrite Hsz in Hon. exact Hon. }
  destruct (right_clicked_cycle g p Hsq Hin Hnw Hnl Hop Hfl Hqu)
    as ((F1 & Q1 & M1 & S1) & (F2 & Q2 & M2 & S2) & E3).
  destruct (on_right_click_ok f p g Hf Hg Hon)
    as (f1 & Hrun1 & Hf1 & Hg1 & Hid1 & Hsw1 & _).
  rewrite Hrun1. cbn [snd].
  assert (Hon1 : on_field (RNG:=RNG) (RightClick p) f1).
  { destruct Hsw1 as (A1 & _). simpl. rewrite A1. exact Hon. }
  destruct (on_right_click_ok f1 p _ Hf1 Hg1 Hon1)
    as (f2 & Hrun2 & Hf2 & Hg2 & Hid2 & Hsw2 & _).
  rewrite Hrun2. cbn [snd].
  assert (Hon2 : on_field (RNG:=RNG) (RightClick p) f2).
  { destruct Hsw2 as (A1 & _). simpl. rewrite A1. exact Hon1. }
  destruct (on_right_click_ok f2 p _ Hf2 Hg2 Hon2)
    as (f3 & Hrun3 & Hf3 & Hg3 & Hid3 & Hsw3 & _).
  rewrite Hrun3. cbn [snd].
  destruct (frame_ok_at f1 _ Hf1 Hg1) as (n1 & _ & _ & _ & _ & _ & _ & Hd1).
  destruct (frame_ok_at f2 _ Hf2 Hg2) as (n2 & _ & _ & _ & _ & _ & _ & Hd2).
  destruct Hd as (_ & _ & _ & Hv & _). destruct Hd1 as (_ & _ & _ & Hv1 & _).
  destruct Hd2 as (_ & _ & _ & Hv2 & _). cbv zeta in Hv, Hv1, Hv2.
  split; [|split].
  - eexists. split; [exact Hg1|]. split; [exact F1|]. split; [exact Q1|].
    rewrite Hv1, Hv, M1, F1. unfold set_len.
    rewrite size_union by set_solver. rewrite size_singleton. lia.
  - eexists. split; [exact Hg2|]. split; [exact F2|]. split; [exact Q2|].
    rewrite Hv2, Hv, M2, F2. reflexivity.
  - rewrite E3 in Hg3. apply (frame_ok_same f f3 g Hf Hf3 Hg Hg3).
    + etransitivity; [exact Hsw1|]. etransitivity; [exact Hsw2 | exact Hsw3].
    + congruence.
Qed.

(** X19: events that change nothing in the window: a click or a right click
    once the game is won or lost; a click on an opened or a flagged cell
    while the game is played; a right click on an opened cell without a
    question mark; a click on the face before the first click of a game,
    which keeps the flags and question marks already placed. *)
Theorem ignored_events (f : Frame) (g : Game) (p : point) (random : RNG) :
  reached randint set_iter f0 f -> GameFrame.game f = Some g ->
  on_field (RNG:=RNG) (Click p) f ->
  (state g = won \/ state g = lost ->
   handle randint set_iter (Click p) f = (Done tt, f)
   /\ handle randint set_iter (RightClick p) f = (Done tt, f))
  /\ (state g = playing -> opened p g = true \/ p ∈ flagged_points g ->
      handle randint set_iter (Click p) f = (Done tt, f))
  /\ (opened p g = true -> p ∉ questioned_points g ->
      handle randint set_iter (RightClick p) f = (Done tt, f))
  /\ (state g = idle ->
      handle randint set_iter (SmileClick random) f = (Done tt, f)).
Proof.
  intros Hr Hg Hon.
  destruct (session_ok f Hr) as (Hf & g0 & Hg0 & Hsz & Hm & Hdg & Hok & Ht & Hw & Hd).
  rewrite Hg in Hg0. injection Hg0 as <-.
  pose proof Hok as (Hsize & _ & Hmk & _). pose proof Hmk as (Hsq & _ & Hflags & _).
  destruct (on_click_ok randint set_iter set_iter_perm randint_in_range f p g Hf Hg Hon)
    as (fc & Hrunc & _ & _ & _ & _ & Hover & Hplay).
  destruct (on_right_click_ok f p g Hf Hg Hon)
    as (fr & Hrunr & Hfr & Hgr & Hidr & Hswr & Hoverr).
  destruct (on_smile_click_ok f random g Hf Hg) as (fs & Hruns & _ & _ & Hidle & _).
  simpl. split; [|split; [|split]].
  - intros Hst. rewrite Hrunc, Hrunr, (Hover Hst), (Hoverr Hst). split; reflexivity.
  - intros Hst Hp. rewrite Hrunc, (Hplay Hst); [reflexivity|].
    destruct Hp as [Hp|Hp]; [rewrite Hp; reflexivity|].
    unfold is_flagged. rewrite (bool_decide_eq_true_2 _ Hp). apply orb_true_r.
  - intros Hop Hqu. rewrite Hrunr. f_equal.
    assert (Hsame : right_clicked p g = g).
    { unfold right_clicked.
      destruct (bool_decide (state g = won) || bool_decide (state g = lost));
        [reflexivity|].
      unfold is_flagged, is_questioned.
      rewrite (bool_decide_eq_false_2 (p ∈ flagged_points g)).
      - rewrite (bool_decide_eq_false_2 _ Hqu), Hop. reflexivity.
      - intros Hfl. destruct (Hflags p Hfl) as [_ Hcl]. congruence. }
    rewrite Hsame in Hgr. apply (frame_ok_same f fr g Hf Hfr Hg Hgr Hswr Hidr).
  - intros Hst. rewrite Hruns, (Hidle Hst). reflexivity.
Qed.

(** X20: a click on the face once a game has started: the game is replaced by
    a fresh idle one of the same size and number of mines, a new object;
    the timer is stopped, the counter is back at 10 and the window shows
    the fresh board, every button closed. *)
Theorem smile_click_restarts (f : Frame) (g : Game) (random : RNG) :
  reached randint set_iter f0 f -> GameFrame.game f = Some g ->
  state g <> idle ->
  let f' := snd (handle randint set_iter (SmileClick random) f) in
  let g' := new_game (9, 9) 10 random in
  GameFrame.game f' = Some g'
  /\ GameFrame.games_made f' = S (GameFrame.games_made f)
  /\ GameFrame.game_timer f' = false
  /\ LCD._value (lcd_of f') = 10
  /\ displayed f' g'
  /\ (forall p, picture g' p = (0%nat, 15%nat)).
Proof.
  intros Hr Hg Hst. cbv zeta. simpl.
  destruct (session_ok f Hr) as (Hf & g0 & Hg0 & Hsz & Hm & Hdg & Hok & Ht & Hw & Hd).
  rewrite Hg in Hg0. injection Hg0 as <-.
  destruct (on_smile_click_ok f random g Hf Hg) as (f' & Hrun & Hf' & _ & _ & Hnew).
  destruct (Hnew Hst) as [Hg' Hid]. rewrite Hsz, Hm in Hg'.
  rewrite Hrun. cbn [snd].
  destruct (frame_ok_at f' _ Hf' Hg') as (n & _ & _ & _ & _ & Ht' & _ & Hd').
  split; [exact Hg'|]. split; [exact Hid|]. split; [exact Ht'|].
  split; [destruct Hd' as (_ & _ & _ & Hv & _); exact Hv|].
  split; [exact Hd'|]. intros p. apply picture_new_game.
Qed.

End Session.

(** ** Runs of the engine on concrete boards *)

Lemma counter_randint_in_range (r a b : Z) :
  a <= b -> exists k r', counter_randint r a b = Some (k, r') /\ a <= k <= b.
Proof.
  intros H. unfold counter_randint.
  destruct (b <? a) eqn:E; [apply Z.ltb_lt in E; lia|].
  do 2 eexists. split; [reflexivity|].
  pose proof (Z.mod_pos_bound r (b - a + 1)). lia.
Qed.

Lemma elements_iter_perm (s : gset point) : elements_iter s ≡ₚ elements s.
Proof. reflexivity. Qed.

Lemma squareb_square {RNG} (g : @Game RNG) : squareb g = true -> square g.
Proof.
  unfold squareb, square, grid_shape. rewrite !andb_true_iff, forallb_forall.
  intros [[H1 H2] H3]. split; [split|].
  - apply Nat.eqb_eq, H1.
  - apply List.Forall_forall. intros row Hrow. apply Nat.eqb_eq, H2, Hrow.
  - apply Z.eqb_eq, H3.
Qed.

Lemma mines_in_rangeb_ok {RNG} (g : @Game RNG) :
  mines_in_rangeb g = true -> mines_in_range g.
Proof.
  unfold mines_in_rangeb. rewrite forallb_forall. intros H m Hm.
  apply H, list_elem_of_In, elem_of_elements, Hm.
Qed.

(** On the board that is not square, a click on the in-bounds cell (1, 0),
    which is not a mine, ends in [IndexError], and so does [is_won]. *)
Example board_2x1_index_error :
  state board_2x1 = playing
  /\ elements (mine_points board_2x1) = [(0, 0)]
  /\ in_range (1, 0) board_2x1 = true
  /\ fst (open elements_iter (1, 0) board_2x1) = Raise IndexError
  /\ fst (is_won elements_iter board_2x1) = Raise IndexError.
Proof. repeat split; vm_compute; reflexivity. Qed.

Example board_3x3_mines : elements (mine_points board_3x3) = [(0, 0)].
Proof. vm_compute. reflexivity. Qed.

Example board_3x3_walled_grid :
  _cell_opened_grid board_3x3_walled
  = [[false; false; false]; [false; false; true]; [false; false; false]]
  /\ flagged_points board_3x3_walled = ∅.
Proof. split; vm_compute; reflexivity. Qed.

Example board_3x3_walled_open :
  _cell_opened_grid (snd (open elements_iter (0, 2) board_3x3_walled))
  = [[false; true; true]; [false; true; true]; [false; false; false]].
Proof. vm_compute. reflexivity. Qed.

(** *** A click behind an opened cell *)

Lemma open_reveals_witness :
  let g := board_3x3 in
  let p : point := (2, 2) in
  (forall s, elements_iter s ≡ₚ elements s)
  /\ reachable counter_randint elements_iter (new_game (3, 3) 1 0) g
  /\ state g = playing /\ in_range p g = true
  /\ (p ∉ mine_points g) /\ (p ∉ flagged_points g)
  /\ exists g', open elements_iter p g = (Ok tt, g')
                /\ mine_points g' = mine_points g
                /\ flagged_points g ⊆ flagged_points g'.
Proof.
  cbv zeta.
  assert (H1 : reachable counter_randint elements_iter (new_game (3, 3) 1 0)
                 board_3x3).
  { apply (reachable_run counter_randint elements_iter _ [Generate None]);
      [apply reachable_init|]. vm_compute. tauto. }
  assert (H3 : state board_3x3 = playing) by (vm_compute; reflexivity).
  assert (H4 : in_range (2, 2) board_3x3 = true) by (vm_compute; reflexivity).
  assert (H5 : (2, 2) ∉ mine_points board_3x3) by compute_done.
  assert (H6 : (2, 2) ∉ flagged_points board_3x3) by compute_done.
  repeat (split; [assumption || exact elements_iter_perm|]).
  destruct (open_reveals counter_randint elements_iter elements_iter_perm
              3 1 0 (2, 2) board_3x3 H1 H3 H4 H5 H6)
    as (g' & Hopen & _ & _ & Hm & Hf & _).
  exists g'. auto.
Defined.

(** The claim as worded fails on [board_3x3_walled]: (2, 2) is joined to
    the start point (0, 2) through the zero-proximity cells (0, 2) and
    (1, 2), it is neither a mine nor flagged, and [open (0, 2)] leaves it
    closed, because (1, 2) was opened before and is not expanded again. *)
Lemma open_reveals_counterexample :
  let g := board_3x3_walled in
  let p : point := (0, 2) in
  let q : point := (2, 2) in
  reachable counter_randint elements_iter (new_game (3, 3) 1 0) g
  /\ state g = playing /\ in_range p g = true
  /\ (p ∉ mine_points g) /\ (p ∉ flagged_points g)
  /\ zero_region g p q /\ (q ∉ mine_points g) /\ (q ∉ flagged_points g)
  /\ is_opened q g = (Ok false, g)
  /\ fst (open elements_iter p g) = Ok tt
  /\ fst (is_opened q (snd (open elements_iter p g))) = Ok false.
Proof.
  cbv zeta. split.
  { apply (reachable_run counter_randint elements_iter _
             (Generate None
              :: [ Flag (0, 1); Flag (0, 2); Flag (1, 1); Flag (2, 1); Flag (2, 2);
                   Open (1, 2);
                   Unflag (0, 1); Unflag (0, 2); Unflag (1, 1); Unflag (2, 1);
                   Unflag (2, 2) ])).
    - apply reachable_init.
    - vm_compute. tauto. }
  split; [vm_compute; reflexivity|].
  split; [vm_compute; reflexivity|].
  split; [compute_done|]. split; [compute_done|].
  split.
  { apply (zero_region_next _ _ (1, 2) (2, 2)).
    - apply (zero_region_next _ _ (0, 2) (1, 2)).
      + apply zero_region_start.
      + compute_done.
      + vm_compute. reflexivity.
      + compute_done.
      + vm_compute. reflexivity.
    - compute_done.
    - vm_compute. reflexivity.
    - compute_done.
    - vm_compute. reflexivity. }
  split; [compute_done|]. split; [compute_done|].
  split; [vm_compute; reflexivity|].
  split; vm_compute; reflexivity.
Qed.

(** *** A winning click *)

Lemma win_detection_witness :
  let g := board_3x3 in
  let g' := snd (open elements_iter (2, 2) g) in
  (forall s, elements_iter s ≡ₚ elements s)
  /\ in_game counter_randint elements_iter (new_game (3, 3) 1 0) g
  /\ state g = playing /\ ~ cleared g /\ cleared g'
  /\ state g' = won /\ mine_points g' ⊆ flagged_points g'.
Proof.
  cbv zeta.
  assert (H1 : in_game counter_randint elements_iter
                 (new_game (3, 3) 1 0) board_3x3)
    by (apply (in_game_generated _ _ _ None); vm_compute; reflexivity).
  assert (H5 : state board_3x3 = playing) by (vm_compute; reflexivity).
  assert (H6 : ~ cleared board_3x3).
  { intros H. apply clearedb_spec in H. vm_compute in H. discriminate H. }
  assert (H7 : cleared (snd (open elements_iter (2, 2) board_3x3)))
    by (apply clearedb_spec; vm_compute; reflexivity).
  repeat (split; [assumption || exact elements_iter_perm|]).
  destruct (win_detection counter_randint elements_iter elements_iter_perm
              3 1 0 board_3x3 H1) as [_ Hopen].
  destruct (Hopen (2, 2) H5 eq_refl) as (g' & E & Hwin).
  rewrite E in H7 |- *. simpl in H7 |- *. apply Hwin; assumption.
Defined.

(** On a board generated a second time the mine may lie under an opened
    cell: the click on (1, 0) opens the last cell that is not a mine and the
    state becomes [won], but [flag] refuses the opened mine (1, 1), which
    stays without a flag. *)
Lemma win_detection_counterexample :
  let g := board_2x2_regenerated in
  let g' := snd (open elements_iter (1, 0) g) in
  reachable counter_randint elements_iter (new_game (2, 2) 1 0) g
  /\ state g = playing /\ in_range (1, 0) g = true /\ ~ cleared g
  /\ fst (open elements_iter (1, 0) g) = Ok tt
  /\ cleared g' /\ state g' = won
  /\ (1, 1) ∈ mine_points g' /\ ((1, 1) ∉ flagged_points g').
Proof.
  cbv zeta. split.
  { apply (reachable_run counter_randint elements_iter _
             [ Generate None; Open (1, 1);
               Generate (Some [(0, 0); (0, 1); (1, 0)]);
               Open (0, 0); Open (0, 1) ]);
      [apply reachable_init|]. vm_compute. tauto. }
  split; [vm_compute; reflexivity|]. split; [vm_compute; reflexivity|].
  split.
  { intros H. apply clearedb_spec in H. vm_compute in H. discriminate H. }
  split; [vm_compute; reflexivity|].
  split; [apply clearedb_spec; vm_compute; reflexivity|].
  split; [vm_compute; reflexivity|].
  split; compute_done.
Qed.

(** *** A finished board *)

Lemma finished_board_frozen_witness :
  let g := board_2x2_lost in
  (state g = won \/ state g = lost)
  /\ open elements_iter (0, 0) g = (Raise ValueError, g)
  /\ untouched g (snd (flag (0, 0) g)).
Proof.
  cbv zeta.
  assert (H : state board_2x2_lost = won \/ state board_2x2_lost = lost)
    by (right; vm_compute; reflexivity).
  split; [exact H|].
  destruct (finished_board_frozen counter_randint elements_iter
              board_2x2_lost (0, 0) None H) as (H1 & H2 & _).
  split; assumption.
Defined.

(** On the lost board, [generate_board] completes and replaces the mines:
    (0, 0) was excluded the first time and is a mine now, and the state is
    [playing] again; [flag] still records a flag. *)
Lemma finished_board_frozen_counterexample :
  let g := board_2x2_lost in
  let g' := snd (generate_board counter_randint (Some [(1, 1)]) g) in
  state g = lost
  /\ fst (generate_board counter_randint (Some [(1, 1)]) g) = Ok tt
  /\ ((0, 0) ∉ mine_points g) /\ (0, 0) ∈ mine_points g'
  /\ state g' = playing
  /\ fst (flag (0, 0) g) = Ok tt
  /\ ((0, 0) ∉ flagged_points g) /\ (0, 0) ∈ flagged_points (snd (flag (0, 0) g)).
Proof.
  cbv zeta.
  split; [vm_compute; reflexivity|]. split; [vm_compute; reflexivity|].
  split; [compute_done|]. split; [compute_done|].
  split; [vm_compute; reflexivity|]. split; [vm_compute; reflexivity|].
  split; compute_done.
Qed.

(** *** Placing mines *)

Lemma generate_board_mines_witness :
  let g := new_game (3, 3) 2 0 in
  let g' := snd (generate_board counter_randint (Some [(1, 1)]) g) in
  0 <= mine_count g
  /\ generate_board counter_randint (Some [(1, 1)]) g = (Ok tt, g')
  /\ size g' = size g
  /\ mine_count g' = mine_count g
  /\ set_len (mine_points g') = mine_count g
  /\ (forall p, p ∈ mine_points g' ->
        in_range p g = true /\ in_range p g' = true
        /\ (forall l, Some [(1, 1)] = Some l -> p ∉ l)).
Proof.
  cbv zeta.
  assert (H1 : 0 <= mine_count (new_game (3, 3) 2 (0 : Z))) by (simpl; lia).
  assert (H2 : generate_board counter_randint (Some [(1, 1)]) (new_game (3, 3) 2 0)
               = (Ok tt, snd (generate_board counter_randint (Some [(1, 1)])
                                (new_game (3, 3) 2 0))))
    by (vm_compute; reflexivity).
  split; [exact H1|]. split; [exact H2|].
  exact (generate_board_mines counter_randint _ _ _ H1 H2).
Defined.

(** *** Indexing the grid *)

Lemma is_opened_index_safety_witness :
  let g := board_3x3 in
  (forall s, elements_iter s ≡ₚ elements s)
  /\ grid_shape g
  /\ (exists b, is_opened (1, 2) g = (Ok b, g))
  /\ fst (open elements_iter (1, 2) g) <> Raise IndexError
  /\ (exists (g' : @Game Z) p,
        grid_shape g' /\ fst (size g') <> snd (size g')
        /\ in_range p g' = true /\ is_opened p g' = (Raise IndexError, g')).
Proof.
  cbv zeta.
  assert (H : grid_shape board_3x3)
    by (apply squareb_square; vm_compute; reflexivity).
  assert (Hm : mines_in_range board_3x3)
    by (apply mines_in_rangeb_ok; vm_compute; reflexivity).
  split; [exact elements_iter_perm|]. split; [exact H|].
  destruct (is_opened_index_safety elements_iter elements_iter_perm _ H)
    as [Hsq Hex].
  destruct (Hsq eq_refl (1, 2) eq_refl) as (Hb & _ & Hopen).
  split; [exact Hb|]. split; [exact (Hopen Hm) | exact Hex].
Defined.

(** *** Marks along a run *)

Lemma marks_invariant_witness :
  let g := play [Generate (Some [(1, 0)]); Flag (1, 0); Flag (0, 0); Open (1, 0)]
             (new_game (2, 1) 1 0) in
  (forall s, elements_iter s ≡ₚ elements s)
  /\ reachable counter_randint elements_iter (new_game (2, 1) 1 0) g
  /\ (0, 0) ∈ flagged_points g
  /\ is_opened (0, 0) g = (Ok false, g)
  /\ ~ ((0, 0) ∈ flagged_points g /\ (0, 0) ∈ questioned_points g).
Proof.
  cbv zeta.
  assert (Hr : reachable counter_randint elements_iter (new_game (2, 1) 1 0)
                 (play [Generate (Some [(1, 0)]); Flag (1, 0); Flag (0, 0);
                        Open (1, 0)]
                    (new_game (2, 1) 1 0))).
  { apply reachable_run; [apply reachable_init|]. vm_compute. tauto. }
  assert (Hf : (0, 0) ∈ flagged_points
                 (play [Generate (Some [(1, 0)]); Flag (1, 0); Flag (0, 0);
                        Open (1, 0)]
                    (new_game (2, 1) 1 0))) by compute_done.
  split; [exact elements_iter_perm|]. split; [exact Hr|]. split; [exact Hf|].
  destruct (marks_invariant counter_randint elements_iter elements_iter_perm
              (2, 1) 1 0 _ Hr) as (H1 & _ & H3).
  split; [apply H1, Hf | apply H3].
Defined.

(** A question mark stays on a cell that is opened: after [question] and
    [open] on (2, 2) the point is questioned and opened. *)
Lemma marks_invariant_counterexample :
  let g := board_3x3_questioned in
  reachable counter_randint elements_iter (new_game (3, 3) 1 0) g
  /\ (2, 2) ∈ questioned_points g
  /\ in_range (2, 2) g = true
  /\ is_opened (2, 2) g = (Ok true, g).
Proof.
  cbv zeta. split.
  { apply (reachable_run counter_randint elements_iter _
             [Generate None; Question (2, 2); Open (2, 2)]);
      [apply reachable_init|]. vm_compute. tauto. }
  split; [compute_done|]. split; vm_compute; reflexivity.
Qed.

(** *** Generating twice *)

Lemma generate_board_no_state_guard_witness :
  let g := board_3x3 in
  let g' := snd (generate_board counter_randint None (fresh g)) in
  generate_board counter_randint None (fresh g) = (Ok tt, g')
  /\ state g = playing
  /\ generate_board counter_randint None g = (Ok tt, g')
  /\ state g' = playing.
Proof.
  cbv zeta.
  assert (H : generate_board counter_randint None (fresh board_3x3)
              = (Ok tt, snd (generate_board counter_randint None (fresh board_3x3))))
    by (vm_compute; reflexivity).
  split; [exact H|]. split; [vm_compute; reflexivity|].
  destruct (generate_board_no_state_guard counter_randint None board_3x3 _ H)
    as (H1 & H2 & _).
  split; assumption.
Defined.

(** A second [generate_board] on a board in state [playing] does not raise:
    it returns normally and the single mine has moved. *)
Lemma generate_board_no_state_guard_counterexample :
  let g := board_3x3 in
  let g' := snd (generate_board counter_randint None g) in
  state g = playing
  /\ fst (generate_board counter_randint None g) = Ok tt
  /\ elements (mine_points g) = [(0, 0)]
  /\ elements (mine_points g') = [(0, 1)].
Proof. cbv zeta. repeat split; vm_compute; reflexivity. Qed.

(** *** As many mines as cells *)

Lemma generate_board_mine_count_limit_witness :
  let g := new_game (1, 1) 1 (0 : Z) in
  fst (size g) * snd (size g) <= mine_count g
  /\ (exists e g', generate_board counter_randint (Some [(0, 0)]) g = (Raise e, g'))
  /\ (exists g', generate_board counter_randint None g = (Ok tt, g')
                 /\ mine_points g' = list_to_set (all_points (size g))).
Proof.
  cbv zeta.
  assert (H : fst (size (new_game (1, 1) 1 (0 : Z)))
              * snd (size (new_game (1, 1) 1 (0 : Z)))
              <= mine_count (new_game (1, 1) 1 (0 : Z))) by (simpl; lia).
  split; [exact H|]. split.
  - destruct (generate_board_mine_count_limit counter_randint counter_randint_in_range
                (Some [(0, 0)]) _ H) as [Hraise _].
    apply Hraise. right. intros [Hd|Hd]; discriminate Hd.
  - destruct (generate_board_mine_count_limit counter_randint counter_randint_in_range
                None _ H) as [_ Hok].
    apply Hok; [left; reflexivity | reflexivity | simpl; lia | simpl; lia].
Defined.

(** With as many mines as cells and no excluded point, [generate_board]
    completes: on the 1x1 board the only cell becomes the mine. *)
Lemma generate_board_mine_count_limit_counterexample :
  let g := new_game (1, 1) 1 (0 : Z) in
  fst (size g) * snd (size g) <= mine_count g
  /\ fst (generate_board counter_randint (Some []) g) = Ok tt
  /\ fst (generate_board counter_randint None g) = Ok tt
  /\ elements (mine_points (snd (generate_board counter_randint None g))) = [(0, 0)].
Proof. cbv zeta. split; [simpl; lia|]. repeat split; vm_compute; reflexivity. Qed.

(** *** Clicking an opened cell *)

Lemma open_opened_idempotent_witness :
  let g := board_3x3_clicked in
  let g1 := snd (open elements_iter (1, 1) g) in
  state g = playing
  /\ is_opened (1, 1) g = (Ok true, g)
  /\ open elements_iter (1, 1) g = (Ok tt, g1)
  /\ open elements_iter (1, 1) g1 = (Ok tt, g1).
Proof.
  cbv zeta.
  assert (H1 : state board_3x3_clicked = playing) by (vm_compute; reflexivity).
  assert (H2 : is_opened (1, 1) board_3x3_clicked = (Ok true, board_3x3_clicked))
    by (vm_compute; reflexivity).
  split; [exact H1|]. split; [exact H2|].
  exact (open_opened_idempotent elements_iter (1, 1) board_3x3_clicked H1 H2).
Defined.

(** *** What a click keeps *)

Lemma open_keeps_witness :
  let g := board_3x3 in
  let g' := snd (open elements_iter (2, 2) g) in
  (forall s, elements_iter s ≡ₚ elements s)
  /\ state g = playing
  /\ mine_points g' = mine_points g
  /\ flagged_points g' ⊆ flagged_points g ∪ mine_points g
  /\ last_click g' = Some (2, 2).
Proof.
  cbv zeta.
  assert (Hst : state board_3x3 = playing) by (vm_compute; reflexivity).
  destruct (open_keeps elements_iter elements_iter_perm (2, 2) board_3x3)
    as (_ & H2 & _ & H4 & _ & _ & H7).
  split; [exact elements_iter_perm|]. split; [exact Hst|].
  split; [exact H2|]. split; [exact H4|]. apply H7, Hst.
Defined.

(** *** The marks of a closed cell *)

Lemma marks_cycle_witness :
  let g := board_3x3 in
  let p : point := (1, 1) in
  is_opened p g = (Ok false, g)
  /\ (p ∉ flagged_points g) /\ (p ∉ questioned_points g)
  /\ snd (unquestion p (snd (question p (snd (flag p g))))) = g
  /\ snd (unflag p (snd (flag p g))) = g.
Proof.
  cbv zeta.
  assert (H1 : is_opened (1, 1) board_3x3 = (Ok false, board_3x3))
    by (vm_compute; reflexivity).
  assert (H2 : (1, 1) ∉ flagged_points board_3x3) by compute_done.
  assert (H3 : (1, 1) ∉ questioned_points board_3x3) by compute_done.
  destruct (marks_cycle (1, 1) board_3x3 H1 H2 H3) as (_ & _ & H4 & H5).
  repeat (split; [assumption|]). exact H5.
Defined.

(** *** A lost game *)

Lemma lost_by_last_click_witness :
  let g0 := new_game (2, 2) 3 0 in
  let g := board_2x2_lost in
  in_game counter_randint elements_iter g0 g
  /\ state g = lost
  /\ exists p, last_click g = Some p /\ p ∈ mine_points g /\ in_range p g = true.
Proof.
  cbv zeta.
  assert (H1 : in_game counter_randint elements_iter (new_game (2, 2) 3 0)
                 board_2x2_lost).
  { apply (in_game_step counter_randint elements_iter _ _ (Open (1, 1))).
    - apply (in_game_generated _ _ _ (Some [(0, 0)])). vm_compute. reflexivity.
    - vm_compute. reflexivity. }
  assert (H2 : state board_2x2_lost = lost) by (vm_compute; reflexivity).
  split; [exact H1|]. split; [exact H2|].
  exact (lost_by_last_click counter_randint elements_iter _ _ H1 H2).
Defined.

(** *** The outcomes of a click *)

Lemma click_outcomes_witness :
  let g := board_3x3 in
  let p : point := (0, 0) in
  (forall s, elements_iter s ≡ₚ elements s)
  /\ reachable counter_randint elements_iter (new_game (3, 3) 1 0) g
  /\ state g = playing /\ in_range p g = true
  /\ exists g', open elements_iter p g = (Ok tt, g')
                /\ (is_opened p g = (Ok false, g) -> p ∉ flagged_points g ->
                    p ∈ mine_points g ->
                    g' = set_state lost (set_last_click (Some p) g)).
Proof.
  cbv zeta.
  assert (H1 : reachable counter_randint elements_iter (new_game (3, 3) 1 0)
                 board_3x3).
  { apply (reachable_run counter_randint elements_iter _ [Generate None]);
      [apply reachable_init|]. vm_compute. tauto. }
  assert (H2 : state board_3x3 = playing) by (vm_compute; reflexivity).
  assert (H3 : in_range (0, 0) board_3x3 = true) by (vm_compute; reflexivity).
  split; [exact elements_iter_perm|]. repeat (split; [assumption|]).
  destruct (click_outcomes counter_randint elements_iter elements_iter_perm
              3 1 0 board_3x3 (0, 0) H1 H2 H3) as (g' & Ho & _ & Hl & _).
  exists g'. split; assumption.
Defined.

(** *** The mines of a game *)

Lemma mines_stay_closed_witness :
  let g := board_3x3_clicked in
  (forall s, elements_iter s ≡ₚ elements s)
  /\ in_game counter_randint elements_iter (new_game (3, 3) 1 0) g
  /\ (0, 0) ∈ mine_points g
  /\ is_opened (0, 0) g = (Ok false, g).
Proof.
  cbv zeta.
  assert (H1 : in_game counter_randint elements_iter (new_game (3, 3) 1 0)
                 board_3x3_clicked).
  { apply (in_game_step counter_randint elements_iter _ _ (Open (1, 1))).
    - apply (in_game_generated _ _ _ None). vm_compute. reflexivity.
    - vm_compute. reflexivity. }
  assert (H2 : (0, 0) ∈ mine_points board_3x3_clicked) by compute_done.
  split; [exact elements_iter_perm|]. split; [exact H1|]. split; [exact H2|].
  apply (mines_stay_closed counter_randint elements_iter elements_iter_perm
           3 1 0 board_3x3_clicked H1 (0, 0) H2).
Defined.

Lemma win_flags_exact_witness :
  let g := board_3x3 in
  let g' := snd (open elements_iter (2, 2) g) in
  (forall s, elements_iter s ≡ₚ elements s)
  /\ in_game counter_randint elements_iter (new_game (3, 3) 1 0) g
  /\ state g = playing /\ in_range (2, 2) g = true /\ state g' = won
  /\ flagged_points g' = mine_points g'.
Proof.
  cbv zeta.
  assert (H1 : in_game counter_randint elements_iter (new_game (3, 3) 1 0)
                 board_3x3)
    by (apply (in_game_generated _ _ _ None); vm_compute; reflexivity).
  assert (H2 : state board_3x3 = playing) by (vm_compute; reflexivity).
  assert (H3 : in_range (2, 2) board_3x3 = true) by (vm_compute; reflexivity).
  assert (H4 : state (snd (open elements_iter (2, 2) board_3x3)) = won)
    by (vm_compute; reflexivity).
  split; [exact elements_iter_perm|]. repeat (split; [assumption|]).
  apply (win_flags_exact counter_randint elements_iter elements_iter_perm
           3 1 0 board_3x3 (2, 2) H1 H2 H3 H4).
Defined.

(** *** The bounds of the grid *)

Lemma is_opened_bounds_witness :
  let g := board_2x1 in
  grid_shape g
  /\ is_opened (1, 0) g = (Raise IndexError, g)
  /\ is_opened (-1, 1) g = is_opened (0, 1) g.
Proof.
  cbv zeta.
  assert (H : grid_shape board_2x1).
  { split; [reflexivity|]. repeat constructor. }
  destruct (is_opened_bounds board_2x1 1 0 H) as (_ & H1 & _).
  destruct (is_opened_bounds board_2x1 (-1) 1 H) as (_ & _ & H2 & _).
  split; [exact H|]. split.
  - apply H1. vm_compute. intros [[_ Hx] _]. discriminate Hx.
  - apply H2. vm_compute. split; [discriminate | reflexivity].
Defined.

(** *** The outcomes of the mine placement *)

Lemma counter_randint_empty (r a b : Z) : b < a -> counter_randint r a b = None.
Proof.
  intros H. unfold counter_randint.
  destruct (b <? a) eqn:E; [reflexivity | apply Z.ltb_ge in E; lia].
Qed.

Lemma generate_board_outcomes_witness :
  let g := new_game (2, 2) 3 0 in
  (forall r a b, a <= b ->
     exists k r', counter_randint r a b = Some (k, r') /\ a <= k <= b)
  /\ (forall r a b, b < a -> counter_randint r a b = None)
  /\ 0 <= fst (size g) /\ 0 <= snd (size g)
  /\ (exists g', generate_board counter_randint (Some [(0, 0)]) g = (Ok tt, g'))
  /\ (exists g', generate_board counter_randint (Some [(0, 0); (0, 0)]) g
                 = (Raise AssertionError, g'))
  /\ (exists g', generate_board counter_randint (Some [(0, 0); (1, 1)]) g
                 = (Raise ValueError, g')).
Proof.
  cbv zeta.
  assert (Hw : 0 <= fst (size (new_game (2, 2) 3 0))) by (simpl; lia).
  assert (Hh : 0 <= snd (size (new_game (2, 2) 3 0))) by (simpl; lia).
  split; [exact counter_randint_in_range|].
  split; [exact counter_randint_empty|].
  split; [exact Hw|]. split; [exact Hh|].
  split; [|split].
  - destruct (generate_board_outcomes counter_randint counter_randint_in_range
                counter_randint_empty (Some [(0, 0)]) (new_game (2, 2) 3 0) Hw Hh)
      as (_ & _ & H3 & _).
    apply H3; [vm_compute; discriminate|].
    split; [repeat constructor; set_solver|].
    intros p Hp. apply list_elem_of_singleton in Hp as ->. reflexivity.
  - destruct (generate_board_outcomes counter_randint counter_randint_in_range
                counter_randint_empty (Some [(0, 0); (0, 0)]) (new_game (2, 2) 3 0)
                Hw Hh) as (_ & _ & _ & H4).
    apply H4; [vm_compute; discriminate|].
    intros [Hnd _]. apply NoDup_cons in Hnd as [Hn _]. apply Hn. left.
  - destruct (generate_board_outcomes counter_randint counter_randint_in_range
                counter_randint_empty (Some [(0, 0); (1, 1)]) (new_game (2, 2) 3 0)
                Hw Hh) as (_ & H2 & _).
    apply H2. vm_compute. reflexivity.
Defined.

(** ** Runs of the window *)

(** *** The window *)

Lemma lcd_shows_value_witness :
  length (LCD._bitmaps lcd_3) = 12%nat
  /\ exists l places,
       LCD.set_value (-5) lcd_3
       = (Done tt, LCD.set__char_bitmaps l (LCD.set__value (-5) lcd_3))
       /\ read_places places = -5.
Proof.
  assert (H : length (LCD._bitmaps lcd_3) = 12%nat) by reflexivity.
  split; [exact H|].
  destruct (lcd_shows_value lcd_3 (-5) H) as (l & places & H1 & _ & _ & H2).
  exists l, places. split; [exact H1 | exact H2].
Defined.

Lemma events_never_raise_witness :
  exists f0,
    window = Done f0
    /\ (forall s, elements_iter s ≡ₚ elements s)
    /\ reached counter_randint elements_iter f0 f0
    /\ on_field (Click (4, 4)) f0
    /\ fst (handle counter_randint elements_iter (Click (4, 4)) f0) = Done tt.
Proof.
  eexists. split; [vm_compute; reflexivity|].
  match goal with |- context [reached _ _ ?f _] => set (f0 := f) end.
  assert (H0 : GameFrame.__init__ strip strip strip 0 = Done f0)
    by (vm_compute; reflexivity).
  assert (H1 : reached counter_randint elements_iter f0 f0) by apply reached_init.
  assert (H2 : on_field (RNG:=Z) (Click (4, 4)) f0) by (simpl; lia).
  split; [exact elements_iter_perm|]. split; [exact H1|]. split; [exact H2|].
  apply (events_never_raise counter_randint elements_iter elements_iter_perm
           counter_randint_in_range strip strip strip 0 f0 H0 f0 (Click (4, 4)) H1 H2).
Defined.

Lemma window_shows_board_witness :
  exists f0,
    window = Done f0
    /\ (forall s, elements_iter s ≡ₚ elements s)
    /\ reached counter_randint elements_iter f0 (after (Click (4, 4)) f0)
    /\ GameFrame.update (after (Click (4, 4)) f0)
       = (Done tt, after (Click (4, 4)) f0).
Proof.
  eexists. split; [vm_compute; reflexivity|].
  match goal with |- context [reached _ _ ?f _] => set (f0 := f) end.
  assert (H0 : GameFrame.__init__ strip strip strip 0 = Done f0)
    by (vm_compute; reflexivity).
  assert (H1 : reached counter_randint elements_iter f0 (after (Click (4, 4)) f0)).
  { apply reached_step; [apply reached_init | simpl; lia]. }
  split; [exact elements_iter_perm|]. split; [exact H1|].
  destruct (window_shows_board counter_randint elements_iter elements_iter_perm
              counter_randint_in_range strip strip strip 0 f0 H0 _ H1)
    as (g & _ & _ & _ & _ & _ & _ & _ & H).
  exact H.
Defined.

Lemma first_click_safe_witness :
  exists f0,
    window = Done f0
    /\ (forall s, elements_iter s ≡ₚ elements s)
    /\ reached counter_randint elements_iter f0 f0
    /\ GameFrame.game f0 = Some (new_game (9, 9) 10 0)
    /\ on_field (Click (4, 4)) f0
    /\ exists g',
         GameFrame.game (after (Click (4, 4)) f0) = Some g'
         /\ ((4, 4) ∉ mine_points g')
         /\ set_len (mine_points g') = 10.
Proof.
  eexists. split; [vm_compute; reflexivity|].
  match goal with |- context [reached _ _ ?f _] => set (f0 := f) end.
  assert (H0 : GameFrame.__init__ strip strip strip 0 = Done f0)
    by (vm_compute; reflexivity).
  assert (H1 : reached counter_randint elements_iter f0 f0) by apply reached_init.
  assert (H2 : GameFrame.game f0 = Some (new_game (9, 9) 10 0))
    by (vm_compute; reflexivity).
  assert (H3 : state (new_game (9, 9) 10 (0 : Z)) = idle) by reflexivity.
  assert (H4 : on_field (RNG:=Z) (Click (4, 4)) f0) by (simpl; lia).
  destruct (first_click_safe counter_randint elements_iter elements_iter_perm
              counter_randint_in_range strip strip strip 0 f0 H0 f0 _ (4, 4)
              H1 H2 H3 H4) as (g' & G1 & G2 & G3 & _).
  split; [exact elements_iter_perm|].
  split; [exact H1|]. split; [exact H2|]. split; [exact H4|].
  exists g'. split; [exact G1|]. split; [exact G2 | exact G3].
Defined.

Lemma right_click_cycle_witness :
  exists f0,
    window = Done f0
    /\ (forall s, elements_iter s ≡ₚ elements s)
    /\ reached counter_randint elements_iter f0 f0
    /\ GameFrame.game f0 = Some (new_game (9, 9) 10 0)
    /\ on_field (RightClick (0, 0)) f0
    /\ after (RightClick (0, 0))
         (after (RightClick (0, 0)) (after (RightClick (0, 0)) f0)) = f0.
Proof.
  eexists. split; [vm_compute; reflexivity|].
  match goal with |- context [reached _ _ ?f _] => set (f0 := f) end.
  assert (H0 : GameFrame.__init__ strip strip strip 0 = Done f0)
    by (vm_compute; reflexivity).
  assert (H1 : reached counter_randint elements_iter f0 f0) by apply reached_init.
  assert (H2 : GameFrame.game f0 = Some (new_game (9, 9) 10 0))
    by (vm_compute; reflexivity).
  assert (H3 : state (new_game (9, 9) 10 (0 : Z)) <> won) by discriminate.
  assert (H4 : state (new_game (9, 9) 10 (0 : Z)) <> lost) by discriminate.
  assert (H5 : on_field (RNG:=Z) (RightClick (0, 0)) f0) by (simpl; lia).
  assert (H6 : opened (0, 0) (new_game (9, 9) 10 (0 : Z)) = false) by reflexivity.
  assert (H7 : (0, 0) ∉ flagged_points (new_game (9, 9) 10 (0 : Z)))
    by apply not_elem_of_empty.
  assert (H8 : (0, 0) ∉ questioned_points (new_game (9, 9) 10 (0 : Z)))
    by apply not_elem_of_empty.
  split; [exact elements_iter_perm|].
  split; [exact H1|]. split; [exact H2|]. split; [exact H5|].
  destruct (right_click_cycle counter_randint elements_iter elements_iter_perm
              counter_randint_in_range strip strip strip 0 f0 H0 f0 _ (0, 0)
              H1 H2 H3 H4 H5 H6 H7 H8) as (_ & _ & H).
  exact H.
Defined.

Lemma ignored_events_witness :
  exists f0,
    window = Done f0
    /\ (forall s, elements_iter s ≡ₚ elements s)
    /\ reached counter_randint elements_iter f0 f0
    /\ GameFrame.game f0 = Some (new_game (9, 9) 10 0)
    /\ on_field (Click (0, 0)) f0
    /\ handle counter_randint elements_iter (SmileClick 1) f0 = (Done tt, f0).
Proof.
  eexists. split; [vm_compute; reflexivity|].
  match goal with |- context [reached _ _ ?f _] => set (f0 := f) end.
  assert (H0 : GameFrame.__init__ strip strip strip 0 = Done f0)
    by (vm_compute; reflexivity).
  assert (H1 : reached counter_randint elements_iter f0 f0) by apply reached_init.
  assert (H2 : GameFrame.game f0 = Some (new_game (9, 9) 10 0))
    by (vm_compute; reflexivity).
  assert (H3 : on_field (RNG:=Z) (Click (0, 0)) f0) by (simpl; lia).
  split; [exact elements_iter_perm|].
  split; [exact H1|]. split; [exact H2|]. split; [exact H3|].
  destruct (ignored_events counter_randint elements_iter elements_iter_perm
              counter_randint_in_range strip strip strip 0 f0 H0 f0 _ (0, 0) 1
              H1 H2 H3) as (_ & _ & _ & H).
  apply H. reflexivity.
Defined.

Lemma smile_click_restarts_witness :
  exists f0 g,
    window = Done f0
    /\ (forall s, elements_iter s ≡ₚ elements s)
    /\ reached counter_randint elements_iter f0 (after (Click (4, 4)) f0)
    /\ GameFrame.game (after (Click (4, 4)) f0) = Some g
    /\ state g <> idle
    /\ GameFrame.game (after (SmileClick 1) (after (Click (4, 4)) f0))
       = Some (new_game (9, 9) 10 1)
    /\ GameFrame.game_timer (after (SmileClick 1) (after (Click (4, 4)) f0)) = false.
Proof.
  eexists. eexists. split; [vm_compute; reflexivity|].
  match goal with |- context [reached _ _ ?f _] => set (f0 := f) end.
  assert (H0 : GameFrame.__init__ strip strip strip 0 = Done f0)
    by (vm_compute; reflexivity).
  assert (H1 : reached counter_randint elements_iter f0 (after (Click (4, 4)) f0)).
  { apply reached_step; [apply reached_init | simpl; lia]. }
  split; [exact elements_iter_perm|]. split; [exact H1|].
  split; [vm_compute; reflexivity|].
  match goal with |- state ?x <> _ /\ _ => set (g := x) end.
  assert (H2 : GameFrame.game (after (Click (4, 4)) f0) = Some g)
    by (vm_compute; reflexivity).
  assert (H3 : state g <> idle) by (vm_compute; discriminate).
  split; [exact H3|].
  destruct (smile_click_restarts counter_randint elements_iter elements_iter_perm
              counter_randint_in_range strip strip strip 0 f0 H0 _ g 1 H1 H2 H3)
    as (G1 & _ & G2 & _).
  split; [exact G1 | exact G2].
Defined.

End Sweeper.
